(** * JAKE competitive-analysis service: a shallow embedding

    The development follows the TypeScript sources of the server:
    - [SeoService]: [calculateSEOScore] and [extractTopKeywords] (seoService);
    - [Scoring]: [calculateCompetitiveScore] and [getThreatLevel]
      (analysisService);
    - [Discovery]: [searchNearbyPlaces], [isLargeDirectory] and
      [discoverCompetitors] (competitorDiscoveryService);
    - [Store]: the record store of db.ts ([updateAnalysis], [deleteAnalysis], ...);
    - [Pipeline]: [runCompetitiveAnalysis] and the [analysis.create] route;
    - [Breaker]: the [CircuitBreaker] class of apiRetry;
    - [SeoAnalysis], [Presence], [SocialMedia]: the rest of seoService, the
      presence analysis and the profile extraction of socialMediaService;
    - [Retry], [Logging]: [retryWithBackoff] and the logger of db.ts;
    - [RateLimiter], [Router]: the request limiter and the analysis and
      competitor routes.

    Effectful code runs in the monad of [Runtime]: a state holding the
    database, its earlier contents and the events observed so far, and an
    outcome that is a value or a thrown error.  The collaborators and the
    failures of the database are parameters ([Pipeline.World],
    [Store.Faults]); [Observe] gives the vocabulary in which runs are
    described and [Examples] the concrete worlds of the examples.

    JavaScript numbers are modelled exactly: integers as [Z], the fractional
    arithmetic of the competitive score as [Q].  Strings are [string], read
    as sequences of code units below 256 (the Latin-1 range of Unicode);
    their [.length] is [String.length] and [toLowerCase] lower-cases every
    cased letter of that range. *)

From Stdlib Require Import ZArith QArith Qround Qminmax String Ascii List Lia Bool.
From Stdlib Require Import DecimalString.
From stdpp Require Import base option list gmap strings.
Import ListNotations.

Local Open Scope string_scope.
Local Open Scope Z_scope.

(** ** JavaScript primitives shared by the services *)

Module Js.

(** [s.length] as an integer. *)
Definition slen (s : string) : Z := Z.of_nat (String.length s).

(** Truthiness of a [string | null] value: non-null and non-empty. *)
Definition truthyStr (o : option string) : bool :=
  match o with
  | Some s => negb (String.eqb s "")
  | None => false
  end.

(** [x || null] on a [string | undefined] value. *)
Definition orNull (o : option string) : option string :=
  if truthyStr o then o else None.

(** The lower-case form of a code unit below 256: the capital letters are
    A to Z (65 to 90) and, among the accented letters, 192 to 214 and 216 to
    222; each lies 32 below its small letter. *)
Definition lowerCodeUnit (c : ascii) : ascii :=
  let n := nat_of_ascii c in
  if ((65 <=? n) && (n <=? 90) ||
      (192 <=? n) && (n <=? 214) ||
      (216 <=? n) && (n <=? 222))%nat
  then ascii_of_nat (n + 32) else c.

(** [s.toLowerCase()]. *)
Fixpoint toLowerCase (s : string) : string :=
  match s with
  | EmptyString => EmptyString
  | String c r => String (lowerCodeUnit c) (toLowerCase r)
  end.

(** [s.startsWith(p)]. *)
Fixpoint startsWith (p s : string) : bool :=
  match p, s with
  | EmptyString, _ => true
  | String a p', String b s' => Ascii.eqb a b && startsWith p' s'
  | String _ _, EmptyString => false
  end.

(** [s.includes(p)]. *)
Fixpoint includes (s p : string) : bool :=
  startsWith p s ||
  match s with
  | EmptyString => false
  | String _ s' => includes s' p
  end.

(** [Array.prototype.some]. *)
Definition some {A} (f : A -> bool) (l : list A) : bool := existsb f l.

(** [arr.slice(0, n)]. *)
Definition slice0 {A} (n : nat) (l : list A) : list A := firstn n l.

(** The text of an integer in a template literal. *)
Definition decimal (n : Z) : string := NilZero.string_of_int (Z.to_int n).

End Js.

(** ** seoService: the SEO score *)

Module SeoService.
Import Js.

Record Headings := mkHeadings {
  h1 : list string;
  h2 : list string;
  h3 : list string
}.

Record SEOAnalysisResult := mkSEO {
  score : Z;
  metaTitle : option string;
  metaDescription : option string;
  headings : Headings;
  wordCount : Z;
  topKeywords : list string;
  issues : list string
}.

Definition len {A} (l : list A) : Z := Z.of_nat (List.length l).

Definition strOf (o : option string) : string := default "" o.

(** [calculateSEOScore], statement by statement. *)
Definition calculateSEOScore (result : SEOAnalysisResult) : Z :=
  let score := 0 in
  (* Title (20 points) *)
  let score :=
    if truthyStr (metaTitle result) then
      let score := score + 10 in
      let n := slen (strOf (metaTitle result)) in
      if (30 <=? n) && (n <=? 60) then score + 10
      else if 0 <? n then score + 5
      else score
    else score in
  (* Meta description (20 points) *)
  let score :=
    if truthyStr (metaDescription result) then
      let score := score + 10 in
      let n := slen (strOf (metaDescription result)) in
      if (120 <=? n) && (n <=? 160) then score + 10
      else if 0 <? n then score + 5
      else score
    else score in
  (* H1 heading (15 points) *)
  let score :=
    if len (h1 (headings result)) =? 1 then score + 15
    else if 0 <? len (h1 (headings result)) then score + 8
    else score in
  (* H2 headings (15 points) *)
  let score :=
    if 2 <=? len (h2 (headings result)) then score + 15
    else if 0 <? len (h2 (headings result)) then score + 8
    else score in
  (* Content length (20 points) *)
  let score :=
    if 1000 <=? wordCount result then score + 20
    else if 500 <=? wordCount result then score + 15
    else if 300 <=? wordCount result then score + 10
    else if 0 <? wordCount result then score + 5
    else score in
  (* Keywords diversity (10 points) *)
  let score :=
    if 8 <=? len (topKeywords result) then score + 10
    else if 5 <=? len (topKeywords result) then score + 7
    else if 0 <? len (topKeywords result) then score + 3
    else score in
  Z.min 100 score.

(** *** Keyword extraction *)

Definition stopWords : list string :=
  [ "the"; "and"; "for"; "are"; "but"; "not"; "you"; "all"; "can"; "had";
    "her"; "was"; "one"; "our"; "out"; "has"; "have"; "been"; "would"; "could";
    "their"; "will"; "when"; "who"; "get"; "which"; "make"; "more"; "some";
    "them"; "than"; "then"; "what"; "your"; "with"; "this"; "that"; "from";
    "they"; "were"; "said"; "each"; "she"; "how"; "about"; "into"; "just" ].

Definition isLowerLetter (c : ascii) : bool :=
  let n := nat_of_ascii c in ((97 <=? n) && (n <=? 122))%nat.

(** [w.replace(/[^a-z]/g, "")]. *)
Fixpoint keepLetters (s : string) : string :=
  match s with
  | EmptyString => EmptyString
  | String c r =>
      if isLowerLetter c then String c (keepLetters r) else keepLetters r
  end.

(** [wordCount[w] = (wordCount[w] || 0) + 1] on an object whose keys keep
    their insertion order (a word that names an inherited property of the
    object, such as [constructor], is counted like any other; it is one key
    in either case). *)
Fixpoint bump (w : string) (counts : list (string * Z)) : list (string * Z) :=
  match counts with
  | [] => [(w, 1)]
  | (k, n) :: rest =>
      if String.eqb k w then (k, n + 1) :: rest else (k, n) :: bump w rest
  end.

Definition countWords (words : list string) : list (string * Z) :=
  fold_left
    (fun counts word =>
       let cleanWord := keepLetters (toLowerCase word) in
       if (3 <? slen cleanWord) && negb (existsb (String.eqb cleanWord) stopWords)
       then bump cleanWord counts
       else counts)
    words [].

(** The stable [sort((a, b) => b[1] - a[1])]: insertion of an entry after
    every entry whose count is at least its own. *)
Fixpoint insertDesc (e : string * Z) (l : list (string * Z)) : list (string * Z) :=
  match l with
  | [] => [e]
  | x :: rest => if snd x <? snd e then e :: x :: rest else x :: insertDesc e rest
  end.

Definition sortDesc (l : list (string * Z)) : list (string * Z) :=
  fold_left (fun acc e => insertDesc e acc) l [].

Definition extractTopKeywords (words : list string) : list string :=
  map fst (slice0 10 (sortDesc (countWords words))).

(** What the regular expressions of [analyzeSEO] pull out of a fetched page:
    the trimmed title and description matches, the cleaned heading texts and
    the whitespace-split text of the body (when there is a body). *)
Record Extracted := mkExtracted {
  ex_title : option string;
  ex_description : option string;
  ex_h1 : list string;
  ex_h2 : list string;
  ex_h3 : list string;
  ex_body : option (list string)
}.

(** The part of [analyzeSEO] after the fetch, up to the score. *)
Definition analyzeFetched (e : Extracted) : SEOAnalysisResult :=
  let words :=
    match ex_body e with
    | Some tokens => List.filter (fun w => 2 <? slen w) tokens
    | None => []
    end in
  let result :=
    {| score := 0;
       metaTitle := ex_title e;
       metaDescription := ex_description e;
       headings := mkHeadings (ex_h1 e) (ex_h2 e) (ex_h3 e);
       wordCount := len words;
       topKeywords := extractTopKeywords words;
       issues := [] |} in
  {| score := calculateSEOScore result;
     metaTitle := metaTitle result;
     metaDescription := metaDescription result;
     headings := headings result;
     wordCount := wordCount result;
     topKeywords := topKeywords result;
     issues := [] |}.

(** *** The six checks, as the specification words them *)

Definition titlePresent (r : SEOAnalysisResult) : bool := truthyStr (metaTitle r).
Definition titleWellSized (r : SEOAnalysisResult) : bool :=
  let n := slen (strOf (metaTitle r)) in (30 <=? n) && (n <=? 60).
Definition descPresent (r : SEOAnalysisResult) : bool := truthyStr (metaDescription r).
Definition descWellSized (r : SEOAnalysisResult) : bool :=
  let n := slen (strOf (metaDescription r)) in (120 <=? n) && (n <=? 160).

Definition titlePoints (r : SEOAnalysisResult) : Z :=
  if titlePresent r then if titleWellSized r then 20 else 15 else 0.
Definition descPoints (r : SEOAnalysisResult) : Z :=
  if descPresent r then if descWellSized r then 20 else 15 else 0.
Definition h1Points (r : SEOAnalysisResult) : Z :=
  if len (h1 (headings r)) =? 1 then 15
  else if 0 <? len (h1 (headings r)) then 8 else 0.
Definition h2Points (r : SEOAnalysisResult) : Z :=
  if 2 <=? len (h2 (headings r)) then 15
  else if 0 <? len (h2 (headings r)) then 8 else 0.
Definition contentPoints (r : SEOAnalysisResult) : Z :=
  if 1000 <=? wordCount r then 20
  else if 500 <=? wordCount r then 15
  else if 300 <=? wordCount r then 10
  else if 0 <? wordCount r then 5 else 0.
Definition keywordPoints (r : SEOAnalysisResult) : Z :=
  if 8 <=? len (topKeywords r) then 10
  else if 5 <=? len (topKeywords r) then 7
  else if 0 <? len (topKeywords r) then 3 else 0.

(** The page of the specification's example: 45-character title,
    140-character description, one H1, three H2s, 1,200 body words. *)
Definition examplePage (r : SEOAnalysisResult) : Prop :=
  (exists t, metaTitle r = Some t /\ slen t = 45) /\
  (exists d, metaDescription r = Some d /\ slen d = 140) /\
  len (h1 (headings r)) = 1 /\
  len (h2 (headings r)) = 3 /\
  wordCount r = 1200.

Definition repeatStr (n : nat) (c : ascii) : string :=
  Nat.iter n (String c) EmptyString.

(** A fetched page whose body is the word [cat] 1,200 times. *)
Definition catPage : Extracted :=
  {| ex_title := Some (repeatStr 45 "t");
     ex_description := Some (repeatStr 140 "d");
     ex_h1 := ["Cats"];
     ex_h2 := ["One"; "Two"; "Three"];
     ex_h3 := [];
     ex_body := Some (repeat "cat" 1200) |}.

(** A fetched page with the same title, description and headings whose body
    repeats eight different words 150 times. *)
Definition richPage : Extracted :=
  {| ex_title := Some (repeatStr 45 "t");
     ex_description := Some (repeatStr 140 "d");
     ex_h1 := ["Coffee"];
     ex_h2 := ["One"; "Two"; "Three"];
     ex_h3 := [];
     ex_body :=
       Some (List.concat
               (repeat ["fresh"; "roasted"; "coffee"; "beans"; "espresso";
                        "bakery"; "pastry"; "downtown"] 150)) |}.

End SeoService.

(** ** Data shared by the analysis service and the record store *)

Module Model.

(** A thrown value: an [Error] with its message, as the libraries and the
    code itself throw. *)
Record Error := mkError { message : string }.

(** How an awaited call ends: it resolves with a value or rejects. *)
Inductive Outcome (A : Type) : Type :=
| Ok (a : A)
| Throw (e : Error).
Arguments Ok {A} a.
Arguments Throw {A} e.

(** The decimal string of a number ([n.toString()]), kept as the number it
    denotes: such a string is never empty, hence always truthy, and
    [parseFloat] reads the number back. *)
Inductive NumString := numString (q : Q).

Definition toString (q : Q) : NumString := numString q.
Definition parseFloat (s : NumString) : Q := let 'numString q := s in q.

Inductive Status := pending | collecting | analyzing | completed | failed.

Inductive ThreatLevel := low | medium | high.

(** [DiscoveredCompetitor] of competitorDiscoveryService. *)
Record DiscoveredCompetitor := mkDiscovered {
  dc_name : string;
  dc_placeId : string;
  dc_address : option string;
  dc_phone : option string;
  dc_website : option string;
  dc_rating : option Q;
  dc_reviewCount : option Z;
  dc_types : option (list string);
  dc_location : option (Q * Q)
}.

(** [EnrichmentResult] of enrichmentService; [null] and [undefined] fields
    are both [None]. *)
Record EnrichmentResult := mkEnrichment {
  employeeCount : option string;
  fundingInfo : option string;
  techStack : option (list string);
  recentNews : option (list string)
}.

(** The [competitorData] object built for each competitor, which is also the
    row inserted in the [competitors] table. *)
Record CompetitorData := mkCompetitor {
  c_analysisId : Z;
  c_name : string;
  c_url : option string;
  c_address : option string;
  c_phone : option string;
  c_placeId : option string;
  c_googleRating : option NumString;
  c_googleReviewCount : option Z;
  c_businessTypes : list string;
  c_seoScore : option Z;
  c_metaTitle : option string;
  c_metaDescription : option string;
  c_headingStructure : option SeoService.Headings;
  c_contentWordCount : option Z;
  c_topKeywords : option (list string);
  c_employeeCount : option string;
  c_fundingInfo : option string;
  c_techStack : option (list string);
  c_recentNews : option (list string);
  c_competitiveScore : option Z;
  c_threatLevel : option ThreatLevel
}.

End Model.

(** ** analysisService: competitive score and threat level *)

Module Scoring.
Import Model.

(** Truthiness of a [number | null | undefined]. *)
Definition truthyNum (o : option Z) : bool :=
  match o with
  | Some n => negb (n =? 0)
  | None => false
  end.

Definition numOf (o : option Z) : Q := inject_Z (default 0 o).

(** [Math.round]: the nearest integer, halves upwards. *)
Definition round (x : Q) : Z := Qfloor (x + (1 # 2)).

(** [calculateCompetitiveScore(competitor, targetSeo)]; the second argument
    is not read by the function. *)
Definition calculateCompetitiveScore (competitor : CompetitorData)
    (targetSeo : option SeoService.SEOAnalysisResult) : Z :=
  let score : Q := 50%Q in
  (* SEO score comparison *)
  let score :=
    if truthyNum (c_seoScore competitor)
    then (score + Qmin (numOf (c_seoScore competitor) / 2) 25)%Q
    else score in
  (* Google rating impact *)
  let score :=
    match c_googleRating competitor with
    | Some s => let rating := parseFloat s in (score + (rating - 3) * 10)%Q
    | None => score
    end in
  (* Review count impact *)
  let score :=
    if truthyNum (c_googleReviewCount competitor)
    then (score + Qmin (numOf (c_googleReviewCount competitor) / 10) 15)%Q
    else score in
  (* Website presence *)
  let score :=
    if Js.truthyStr (c_url competitor) then (score + 5)%Q else score in
  Z.max 0 (Z.min 100 (round score)).

Definition getThreatLevel (score : Z) : ThreatLevel :=
  if 75 <=? score then high
  else if 50 <=? score then medium
  else low.

(** *** The formula as the specification writes it *)

Definition clamp (x lo hi : Z) : Z := Z.max lo (Z.min hi x).

Definition specScore (seoScore : option Z) (googleRating : option Q)
    (reviewCount : option Z) (hasWebsite : bool) : Z :=
  clamp
    (round
       (50
        + match seoScore with
          | Some s => Qmin (inject_Z s / 2) 25
          | None => 0
          end
        + match googleRating with
          | Some r => (r - 3) * 10
          | None => 0
          end
        + match reviewCount with
          | Some n => Qmin (inject_Z n / 10) 15
          | None => 0
          end
        + (if hasWebsite then 5 else 0))%Q)
    0 100.

Definition specThreat (score : Z) : ThreatLevel :=
  if 75 <=? score then high else if 50 <=? score then medium else low.

End Scoring.

(** ** competitorDiscoveryService *)

Module Discovery.
Import Js Model.

(** One entry of [data.results] in a Places text-search response. *)
Record Place := mkPlace {
  name : string;
  place_id : string;
  formatted_address : option string;
  rating : option Q;
  user_ratings_total : option Z;
  types : option (list string);
  geometry_location : option (Q * Q)
}.

Record Details := mkDetails {
  phone : option string;
  website : option string
}.

(** A Maps response: its [status] and its payload when there is one. *)
Record Response (A : Type) := mkResponse {
  status : string;
  payload : option A
}.
Arguments mkResponse {A}.
Arguments status {A}.
Arguments payload {A}.

Definition directories : list string :=
  [ "yelp"; "angi"; "angie's list"; "thumbtack"; "homeadvisor";
    "yellowpages"; "yellow pages"; "bbb"; "better business bureau";
    "google"; "facebook"; "linkedin"; "instagram" ].

Definition isLargeDirectory (name : string) : bool :=
  let nameLower := toLowerCase name in
  some (fun dir => includes nameLower dir) directories.

Definition keywords : list string :=
  [ "restaurant"; "cafe"; "coffee"; "bakery"; "pizza"; "sushi";
    "salon"; "spa"; "barber"; "beauty";
    "gym"; "fitness"; "yoga"; "crossfit";
    "dental"; "dentist"; "clinic"; "medical"; "doctor";
    "law"; "attorney"; "legal";
    "accounting"; "tax"; "financial";
    "auto"; "car"; "mechanic"; "repair";
    "plumber"; "plumbing"; "hvac"; "electrical";
    "real estate"; "realty"; "property";
    "marketing"; "agency"; "design";
    "tech"; "software"; "it services";
    "media"; "production"; "video" ].

Definition extractIndustryFromName (businessName : string) : string :=
  let nameLower := toLowerCase businessName in
  match List.find (fun keyword => includes nameLower keyword) keywords with
  | Some keyword => keyword
  | None => "business"
  end.

(** The first test of the loop body of [searchNearbyPlaces]. *)
Definition selfMatch (excludeNameLower : string) (placeName : string) : bool :=
  includes (toLowerCase placeName) excludeNameLower ||
  includes excludeNameLower (toLowerCase placeName).

Section Maps.

(** The three Maps requests issued through [makeRequest]. *)
Variable geocodeRequest : string -> Outcome (Response (Q * Q)).
Variable textSearchRequest : Q -> Q -> string -> Outcome (Response (list Place)).
Variable detailsRequest : string -> Outcome (Response Details).

Definition geocodeLocation (address : string) : option (Q * Q) :=
  match geocodeRequest address with
  | Ok data =>
      if String.eqb (status data) "OK" then payload data else None
  | Throw _ => None
  end.

Definition getPlaceDetails (placeId : string) : option Details :=
  match detailsRequest placeId with
  | Ok data =>
      if String.eqb (status data) "OK" then payload data else None
  | Throw _ => None
  end.

(** The object pushed for a place that is kept, after the details lookup. *)
Definition candidate (place : Place) : DiscoveredCompetitor :=
  (* Get place details for more info *)
  let details := getPlaceDetails (place_id place) in
  {| dc_name := name place;
     dc_placeId := place_id place;
     dc_address := formatted_address place;
     dc_rating := rating place;
     dc_reviewCount := user_ratings_total place;
     dc_types := types place;
     dc_location := geometry_location place;
     dc_phone := details ≫= phone;
     dc_website := details ≫= website |}.

(** The [for (const place of data.results)] loop, with the [competitors]
    array collected so far. *)
Fixpoint searchLoop (excludeNameLower : string) (results : list Place)
    (competitors : list DiscoveredCompetitor) : list DiscoveredCompetitor :=
  match results with
  | [] => competitors
  | place :: rest =>
      (* Skip the target business itself *)
      if selfMatch excludeNameLower (name place)
      then searchLoop excludeNameLower rest competitors
      (* Skip large directories and chains that aren't real competitors *)
      else if isLargeDirectory (name place)
      then searchLoop excludeNameLower rest competitors
      else
        let competitors := (competitors ++ [candidate place])%list in
        (* Limit to top 5 competitors *)
        if (5 <=? List.length competitors)%nat then competitors
        else searchLoop excludeNameLower rest competitors
  end.

Definition searchNearbyPlaces (lat lng : Q) (query : string)
    (excludeBusinessName : string) : list DiscoveredCompetitor :=
  match textSearchRequest lat lng query with
  | Ok data =>
      match payload data with
      | Some results =>
          if negb (String.eqb (status data) "OK") then []
          else searchLoop (toLowerCase excludeBusinessName) results []
      | None => []
      end
  | Throw _ => []
  end.

Definition discoverCompetitors (businessName location : string)
    (industry : option string) : list DiscoveredCompetitor :=
  match geocodeLocation location with
  | None => []
  | Some (lat, lng) =>
      let searchQuery :=
        if truthyStr industry then default "" industry
        else extractIndustryFromName businessName in
      searchNearbyPlaces lat lng searchQuery businessName
  end.

End Maps.

(** The block-list test and the self-match test together: what a place must
    pass to be kept. *)
Definition qualifies (targetName : string) (placeName : string) : bool :=
  negb (selfMatch (toLowerCase targetName) placeName) &&
  negb (isLargeDirectory placeName).

End Discovery.

(** ** The record store: tables and rows (drizzle/schema) *)

Module Schema.
Import Model.

Record Recommendation := mkRecommendation {
  rec_title : string;
  rec_description : string;
  rec_impact : string;
  rec_action_plan : string
}.

Record AdCopy := mkAdCopy {
  headline : string;
  description : string;
  callToAction : string;
  platform : string
}.

(** A row of the [analyses] table ([createdAt] and [updatedAt], which the
    database maintains by itself, are left out). *)
Record Analysis := mkAnalysis {
  id : Z;
  userId : Z;
  businessName : string;
  businessUrl : option string;
  businessLocation : string;
  industry : option string;
  status : Status;
  seoScore : option Z;
  metaTitle : option string;
  metaDescription : option string;
  headingStructure : option SeoService.Headings;
  contentWordCount : option Z;
  hasGoogleBusiness : option Z;
  googleRating : option NumString;
  googleReviewCount : option Z;
  socialProfiles : option (list (string * string));
  overallAnalysis : option string;
  strengths : option (list (string * string));
  weaknesses : option (list (string * string));
  opportunities : option (list (string * string));
  recommendations : option (list Recommendation);
  generatedBlogPost : option string;
  generatedAdCopy : option (list AdCopy);
  completedAt : option Z
}.

(** [InsertAnalysis] as [analysis.create] fills it. *)
Record InsertAnalysis := mkInsertAnalysis {
  ins_userId : Z;
  ins_businessName : string;
  ins_businessUrl : option string;
  ins_businessLocation : string;
  ins_industry : option string;
  ins_status : Status
}.

(** [Partial<InsertAnalysis>]: for each column, [None] when the key is
    missing or [undefined] (the column is left alone), [Some v] when the
    column is written; for a nullable column [v] is itself an option, [None]
    being SQL [NULL]. *)
Record Patch := mkPatch {
  p_status : option Status;
  p_industry : option (option string);
  p_seoScore : option (option Z);
  p_metaTitle : option (option string);
  p_metaDescription : option (option string);
  p_headingStructure : option (option SeoService.Headings);
  p_contentWordCount : option (option Z);
  p_hasGoogleBusiness : option (option Z);
  p_googleRating : option (option NumString);
  p_googleReviewCount : option (option Z);
  p_socialProfiles : option (option (list (string * string)));
  p_overallAnalysis : option (option string);
  p_strengths : option (option (list (string * string)));
  p_weaknesses : option (option (list (string * string)));
  p_opportunities : option (option (list (string * string)));
  p_recommendations : option (option (list Recommendation));
  p_generatedBlogPost : option (option string);
  p_generatedAdCopy : option (option (list AdCopy));
  p_completedAt : option (option Z)
}.

Definition setCol {A} (p : option A) (old : A) : A := default old p.

(** [UPDATE analyses SET data] on one row. *)
Definition applyPatch (p : Patch) (a : Analysis) : Analysis :=
  {| id := id a;
     userId := userId a;
     businessName := businessName a;
     businessUrl := businessUrl a;
     businessLocation := businessLocation a;
     industry := setCol (p_industry p) (industry a);
     status := setCol (p_status p) (status a);
     seoScore := setCol (p_seoScore p) (seoScore a);
     metaTitle := setCol (p_metaTitle p) (metaTitle a);
     metaDescription := setCol (p_metaDescription p) (metaDescription a);
     headingStructure := setCol (p_headingStructure p) (headingStructure a);
     contentWordCount := setCol (p_contentWordCount p) (contentWordCount a);
     hasGoogleBusiness := setCol (p_hasGoogleBusiness p) (hasGoogleBusiness a);
     googleRating := setCol (p_googleRating p) (googleRating a);
     googleReviewCount := setCol (p_googleReviewCount p) (googleReviewCount a);
     socialProfiles := setCol (p_socialProfiles p) (socialProfiles a);
     overallAnalysis := setCol (p_overallAnalysis p) (overallAnalysis a);
     strengths := setCol (p_strengths p) (strengths a);
     weaknesses := setCol (p_weaknesses p) (weaknesses a);
     opportunities := setCol (p_opportunities p) (opportunities a);
     recommendations := setCol (p_recommendations p) (recommendations a);
     generatedBlogPost := setCol (p_generatedBlogPost p) (generatedBlogPost a);
     generatedAdCopy := setCol (p_generatedAdCopy p) (generatedAdCopy a);
     completedAt := setCol (p_completedAt p) (completedAt a) |}.

(** The new row of [INSERT INTO analyses VALUES data]: the columns that are
    not given take their defaults ([NULL]). *)
Definition newRow (rowId : Z) (data : InsertAnalysis) : Analysis :=
  {| id := rowId;
     userId := ins_userId data;
     businessName := ins_businessName data;
     businessUrl := ins_businessUrl data;
     businessLocation := ins_businessLocation data;
     industry := ins_industry data;
     status := ins_status data;
     seoScore := None; metaTitle := None; metaDescription := None;
     headingStructure := None; contentWordCount := None;
     hasGoogleBusiness := None; googleRating := None;
     googleReviewCount := None; socialProfiles := None;
     overallAnalysis := None; strengths := None; weaknesses := None;
     opportunities := None; recommendations := None;
     generatedBlogPost := None; generatedAdCopy := None;
     completedAt := None |}.

(** The database: the [analyses] table keyed by its primary key, the
    [competitors] table in insertion order, and the auto-increment counter
    of [analyses]. *)
Record DB := mkDB {
  analyses : gmap Z Analysis;
  competitors : list CompetitorData;
  nextAnalysisId : Z
}.

End Schema.

(** ** Awaited calls as a state-and-exception monad *)

Module Runtime.
Import Model Schema.

Inductive Query :=
| InsertAnalysisQ (data : InsertAnalysis)
| SelectAnalysisQ (analysisId : Z)
| UpdateAnalysisQ (analysisId : Z) (data : Patch)
| DeleteAnalysisQ (analysisId owner : Z)
| InsertCompetitorsQ (rows : list CompetitorData)
| SelectCompetitorsQ (analysisId : Z)
| DeleteCompetitorsQ (analysisId : Z).

Inductive Call :=
| QueryCall (q : Query)
| AnalyzeSEOCall (url : string)
| PresenceCall (name location : string)
| DiscoverCall (name location : string) (industry : option string)
| EnrichCall (name : string) (website : option string)
| InsightsCall
| BlogPostCall
| AdCopyCall.

(** What an observer of the process sees, in order: every call to a
    collaborator or to the database with the error it rejected with (if it
    did), every [throw] statement, and the console. *)
Inductive Event :=
| Called (c : Call) (rejected : option Error)
| Thrown (e : Error)
| ConsoleError (e : Error)
| ConsoleWarn (e : Error).

(** The state threaded through the calls: the database, its earlier
    contents (one snapshot per executed query, most recent first), the
    events so far and the number of [getDb()] calls and queries so far. *)
Record St := mkSt {
  db : DB;
  past : list DB;
  events : list Event;
  getDbCalls : nat;
  queries : nat
}.

Definition M (A : Type) : Type := St -> Outcome A * St.

Definition ret {A} (a : A) : M A := fun st => (Ok a, st).

Definition bind {A B} (m : M A) (k : A -> M B) : M B :=
  fun st =>
    match m st with
    | (Ok a, st') => k a st'
    | (Throw e, st') => (Throw e, st')
    end.

(** The state after more events. *)
Definition logged (st : St) (evs : list Event) : St :=
  mkSt (db st) (past st) (events st ++ evs)%list (getDbCalls st) (queries st).

Definition emit (ev : Event) : M unit := fun st => (Ok tt, logged st [ev]).

(** [throw e]. *)
Definition throw {A} (e : Error) : M A := fun st => (Throw e, logged st [Thrown e]).

(** Re-raising a caught error: [throw error] inside a [catch] block. *)
Definition rethrow {A} (e : Error) : M A := fun st => (Throw e, st).

(** [try { m } catch (error) { handler(error) }], and likewise
    [promise.catch(handler)]. *)
Definition tryCatch {A} (m : M A) (handler : Error -> M A) : M A :=
  fun st =>
    match m st with
    | (Ok a, st') => (Ok a, st')
    | (Throw e, st') => handler e st'
    end.

(** The error an outcome rejects with, if it does. *)
Definition rejection {A} (r : Outcome A) : option Error :=
  match r with Ok _ => None | Throw e => Some e end.

(** Awaiting a collaborator whose answer is [r]. *)
Definition call {A} (c : Call) (r : Outcome A) : M A :=
  fun st => (r, logged st [Called c (rejection r)]).

(** [Promise.all([a, b])] on two promises that are both already started:
    both run to their end; the result rejects when one of them does. *)
Definition promiseAll2 {A B} (ma : M A) (mb : M B) : M (A * B) :=
  fun st =>
    let (ra, st1) := ma st in
    let (rb, st2) := mb st1 in
    match ra, rb with
    | Ok a, Ok b => (Ok (a, b), st2)
    | Throw e, _ => (Throw e, st2)
    | Ok _, Throw e => (Throw e, st2)
    end.

(** [Promise.all(promises)] on a list of started promises. *)
Fixpoint promiseAll {A} (ms : list (M A)) : M (list A) :=
  match ms with
  | [] => ret []
  | m :: rest =>
      fun st =>
        let (r, st1) := m st in
        let (rs, st2) := promiseAll rest st1 in
        match r, rs with
        | Ok a, Ok l => (Ok (a :: l), st2)
        | Throw e, _ => (Throw e, st2)
        | Ok _, Throw e => (Throw e, st2)
        end
  end.

Definition console_error (e : Error) : M unit := emit (ConsoleError e).
Definition console_warn (e : Error) : M unit := emit (ConsoleWarn e).

Definition initial (d : DB) : St := mkSt d [] [] 0 0.

(** Every content the database had, the current one first. *)
Definition snapshots (st : St) : list DB := db st :: past st.

End Runtime.

Declare Scope js_scope.
Delimit Scope js_scope with js.
Notation "'let*' x ':=' m 'in' k" :=
  (Runtime.bind m (fun x => k))
  (at level 10, x pattern, m at level 100, k at level 200) : js_scope.
Notation "m ';;;' k" :=
  (Runtime.bind m (fun _ => k))
  (at level 100, k at level 200, right associativity) : js_scope.

(** ** db.ts *)

Module Store.
Import Model Schema Runtime.
Local Open Scope js_scope.

(** What can go wrong with the database, call by call: the [n]-th
    [getDb()] gives no handle, the [n]-th query rejects. *)
Record Faults := mkFaults {
  dbAvailable : nat -> bool;
  queryFault : nat -> option Error
}.

Definition databaseNotAvailable : Error := mkError "Database not available".

Section WithFaults.
Variable F : Faults.

(** [getDb()]: [true] when it returns a handle. *)
Definition getDb : M bool :=
  fun st =>
    (Ok (dbAvailable F (getDbCalls st)),
     mkSt (db st) (past st) (events st) (S (getDbCalls st)) (queries st)).

(** One awaited query: it either rejects and leaves the database as it was,
    or takes effect and resolves with its result. *)
Definition query {A} (q : Query) (effect : DB -> DB) (result : DB -> A) : M A :=
  fun st =>
    match queryFault F (queries st) with
    | Some e =>
        (Throw e,
         mkSt (db st) (past st)
              (events st ++ [Called (QueryCall q) (Some e)])%list
              (getDbCalls st) (S (queries st)))
    | None =>
        (Ok (result (db st)),
         mkSt (effect (db st)) (db st :: past st)
              (events st ++ [Called (QueryCall q) None])%list
              (getDbCalls st) (S (queries st)))
    end.

Definition createAnalysis (data : InsertAnalysis) : M Z :=
  let* h := getDb in
  if negb h then throw databaseNotAvailable
  else
    query (InsertAnalysisQ data)
      (fun d =>
         mkDB (<[nextAnalysisId d := newRow (nextAnalysisId d) data]> (analyses d))
              (competitors d) (nextAnalysisId d + 1))
      (fun d => nextAnalysisId d).

Definition getAnalysisById (analysisId : Z) : M (option Analysis) :=
  let* h := getDb in
  if negb h then ret None
  else query (SelectAnalysisQ analysisId) (fun d => d) (fun d => analyses d !! analysisId).

Definition updateAnalysis (analysisId : Z) (data : Patch) : M unit :=
  let* h := getDb in
  if negb h then throw databaseNotAvailable
  else
    query (UpdateAnalysisQ analysisId data)
      (fun d =>
         mkDB (alter (applyPatch data) analysisId (analyses d))
              (competitors d) (nextAnalysisId d))
      (fun _ => tt).

(** The row matched by [and(eq(analyses.id, id), eq(analyses.userId, userId))]. *)
Definition ownedRow (d : DB) (analysisId owner : Z) : bool :=
  match analyses d !! analysisId with
  | Some a => userId a =? owner
  | None => false
  end.

Definition deleteAnalysis (analysisId owner : Z) : M bool :=
  let* h := getDb in
  if negb h then ret false
  else
    (* First delete associated competitors *)
    query (DeleteCompetitorsQ analysisId)
      (fun d =>
         mkDB (analyses d)
              (List.filter (fun c => negb (c_analysisId c =? analysisId)) (competitors d))
              (nextAnalysisId d))
      (fun _ => tt) ;;;
    (* Then delete the analysis *)
    let* affectedRows :=
      query (DeleteAnalysisQ analysisId owner)
        (fun d =>
           if ownedRow d analysisId owner
           then mkDB (delete analysisId (analyses d)) (competitors d) (nextAnalysisId d)
           else d)
        (fun d => if ownedRow d analysisId owner then 1 else 0) in
    ret (0 <? affectedRows).

Definition createCompetitors (data : list CompetitorData) : M unit :=
  let* h := getDb in
  if negb h then throw databaseNotAvailable
  else if (List.length data =? 0)%nat then ret tt
  else
    query (InsertCompetitorsQ data)
      (fun d => mkDB (analyses d) (competitors d ++ data)%list (nextAnalysisId d))
      (fun _ => tt).

(** [ORDER BY competitiveScore DESC], rows of equal score in table order and
    [NULL] scores last. *)
Definition scoreBelow (a b : CompetitorData) : bool :=
  match c_competitiveScore a, c_competitiveScore b with
  | Some x, Some y => x <? y
  | None, Some _ => true
  | _, None => false
  end.

Fixpoint insertByScore (c : CompetitorData) (l : list CompetitorData) :=
  match l with
  | [] => [c]
  | x :: rest =>
      if scoreBelow x c then c :: x :: rest else x :: insertByScore c rest
  end.

Definition orderByScoreDesc (l : list CompetitorData) : list CompetitorData :=
  fold_left (fun acc c => insertByScore c acc) l [].

Definition getCompetitorsByAnalysisId (analysisId : Z) : M (list CompetitorData) :=
  let* h := getDb in
  if negb h then ret []
  else
    query (SelectCompetitorsQ analysisId) (fun d => d)
      (fun d =>
         orderByScoreDesc
           (List.filter (fun c => c_analysisId c =? analysisId) (competitors d))).

End WithFaults.

End Store.

(** ** analysisService: the orchestration pipeline *)

Module Pipeline.
Import Js Model Schema Runtime Store SeoService.
Local Open Scope js_scope.

(** [OnlinePresenceResult] of presenceService. *)
Record OnlinePresenceResult := mkPresence {
  pr_hasGoogleBusiness : bool;
  pr_googleRating : option Q;
  pr_reviewCount : option Z;
  pr_socialProfiles : list (string * string);
  pr_primaryType : option string
}.

(** [AIInsightsResult] of aiInsightsService. *)
Record AIInsightsResult := mkInsights {
  ai_overallAnalysis : string;
  ai_strengths : list (string * string);
  ai_weaknesses : list (string * string);
  ai_opportunities : list (string * string);
  ai_recommendations : list Recommendation;
  ai_detectedIndustry : option string
}.

(** The collaborators of the pipeline and the faults of the database.  Every
    collaborator may reject, whatever its implementation promises. *)
Record World := mkWorld {
  faults : Faults;
  analyzeSEO : string -> Outcome SEOAnalysisResult;
  analyzeOnlinePresence : string -> string -> Outcome OnlinePresenceResult;
  discoverCompetitors :
    string -> string -> option string -> Outcome (list DiscoveredCompetitor);
  enrichCompetitorData : string -> option string -> Outcome EnrichmentResult;
  generateAIInsights :
    option Analysis -> list CompetitorData -> Outcome AIInsightsResult;
  generateBlogPost :
    option Analysis -> list CompetitorData -> list string -> Outcome string;
  generateAdCopy :
    option Analysis -> list CompetitorData -> list string -> Outcome (list AdCopy);
  now : Z
}.

Definition genericTypes : list string :=
  [ "point of interest"; "point_of_interest"; "establishment"; "premise";
    "subpremise"; "political"; "locality"; "route"; "intersection"; "finance" ].

(** [detectedType && genericTypes.some(t => detectedType.toLowerCase() === t)]. *)
Definition isGeneric (detectedType : option string) : bool :=
  truthyStr detectedType &&
  some (fun t => String.eqb (toLowerCase (default "" detectedType)) t) genericTypes.

(** [n || null] on a [number | undefined]. *)
Definition orNullNum (o : option Z) : option Z :=
  if Scoring.truthyNum o then o else None.

Definition nullEnrichment : EnrichmentResult := mkEnrichment None None None None.

(** The objects passed to [updateAnalysis] by the pipeline; the arguments of
    [mkPatch] follow the order of the fields of [Patch]. *)
Definition statusPatch (s : Status) : Patch :=
  mkPatch (Some s) None None None None None None None None None
          None None None None None None None None None.

Definition seoPatch (seo : SEOAnalysisResult) : Patch :=
  mkPatch None None
          (Some (Some (score seo)))
          (Some (metaTitle seo))
          (Some (metaDescription seo))
          (Some (Some (headings seo)))
          (Some (Some (wordCount seo)))
          None None None None None None None None None None None None.

Definition presencePatch (presenceData : OnlinePresenceResult) : Patch :=
  mkPatch None None None None None None None
          (Some (Some (if pr_hasGoogleBusiness presenceData then 1 else 0)))
          (Some (toString <$> pr_googleRating presenceData))
          (Some (pr_reviewCount presenceData))
          (Some (Some (pr_socialProfiles presenceData)))
          None None None None None None None None.

Definition industryPatch (detectedType : option string) : Patch :=
  mkPatch None (Some detectedType) None None None None None None None None
          None None None None None None None None None.

(** [industry: aiInsights.detectedIndustry || analysis.industry]: the column
    is written when the value is a string or [null]. *)
Definition insightsPatch (aiInsights : AIInsightsResult) (analysis : Analysis) : Patch :=
  mkPatch None
          (Some (if truthyStr (ai_detectedIndustry aiInsights)
                 then ai_detectedIndustry aiInsights
                 else industry analysis))
          None None None None None None None None None
          (Some (Some (ai_overallAnalysis aiInsights)))
          (Some (Some (ai_strengths aiInsights)))
          (Some (Some (ai_weaknesses aiInsights)))
          (Some (Some (ai_opportunities aiInsights)))
          (Some (Some (ai_recommendations aiInsights)))
          None None None.

Definition blogPatch (blogPost : string) : Patch :=
  mkPatch None None None None None None None None None None None
          None None None None None (Some (Some blogPost)) None None.

Definition adCopyPatch (adCopy : list AdCopy) : Patch :=
  mkPatch None None None None None None None None None None None
          None None None None None None (Some (Some adCopy)) None.

(** The last write of the pipeline; a key whose value is [undefined] is
    not written. *)
Definition completedPatch (blogPost : option string) (adCopy : option (list AdCopy))
    (date : Z) : Patch :=
  mkPatch (Some completed) None None None None None None None None None None
          None None None None None (Some <$> blogPost) (Some <$> adCopy)
          (Some (Some date)).

Definition typeError : Error :=
  mkError "Cannot read properties of undefined (reading 'id')".

(** [new Error(`Analysis ${analysisId} not found`)]. *)
Definition notFound (analysisId : Z) : Error :=
  mkError ("Analysis " ++ decimal analysisId ++ " not found").

(** [Array.from(new Set(allKeywords))]. *)
Fixpoint unique (l : list string) : list string :=
  match l with
  | [] => []
  | x :: rest => x :: List.filter (fun y => negb (String.eqb x y)) (unique rest)
  end.

(** The [competitorData] object as the callback of the fan-out first builds
    it. *)
Definition initialData (analysisId : Z) (comp : DiscoveredCompetitor) : CompetitorData :=
  {| c_analysisId := analysisId;
     c_name := dc_name comp;
     c_url := orNull (dc_website comp);
     c_address := orNull (dc_address comp);
     c_phone := orNull (dc_phone comp);
     c_placeId := orNull (Some (dc_placeId comp));
     c_googleRating := toString <$> dc_rating comp;
     c_googleReviewCount := orNullNum (dc_reviewCount comp);
     c_businessTypes := default [] (dc_types comp);
     c_seoScore := None; c_metaTitle := None; c_metaDescription := None;
     c_headingStructure := None; c_contentWordCount := None;
     c_topKeywords := None;
     c_employeeCount := None; c_fundingInfo := None;
     c_techStack := None; c_recentNews := None;
     c_competitiveScore := None; c_threatLevel := None |}.

(** The assignments that follow the inner [Promise.all]: the SEO fields when
    [compSeo] is not [null], the enrichment fields, then the score and the
    threat level. *)
Definition finalize (competitorData : CompetitorData)
    (targetSeoData : option SEOAnalysisResult)
    (compSeo : option SEOAnalysisResult) (enrichedData : EnrichmentResult)
    : CompetitorData :=
  let competitorData :=
    {| c_analysisId := c_analysisId competitorData;
       c_name := c_name competitorData;
       c_url := c_url competitorData;
       c_address := c_address competitorData;
       c_phone := c_phone competitorData;
       c_placeId := c_placeId competitorData;
       c_googleRating := c_googleRating competitorData;
       c_googleReviewCount := c_googleReviewCount competitorData;
       c_businessTypes := c_businessTypes competitorData;
       c_seoScore :=
         match compSeo with
         | Some seo => Some (score seo)
         | None => c_seoScore competitorData
         end;
       c_metaTitle :=
         match compSeo with
         | Some seo => metaTitle seo
         | None => c_metaTitle competitorData
         end;
       c_metaDescription :=
         match compSeo with
         | Some seo => metaDescription seo
         | None => c_metaDescription competitorData
         end;
       c_headingStructure :=
         match compSeo with
         | Some seo => Some (headings seo)
         | None => c_headingStructure competitorData
         end;
       c_contentWordCount :=
         match compSeo with
         | Some seo => Some (wordCount seo)
         | None => c_contentWordCount competitorData
         end;
       c_topKeywords :=
         match compSeo with
         | Some seo => Some (topKeywords seo)
         | None => c_topKeywords competitorData
         end;
       c_employeeCount := employeeCount enrichedData;
       c_fundingInfo := fundingInfo enrichedData;
       c_techStack := techStack enrichedData;
       c_recentNews := recentNews enrichedData;
       c_competitiveScore := c_competitiveScore competitorData;
       c_threatLevel := c_threatLevel competitorData |} in
  (* Calculate competitive score *)
  let competitiveScore :=
    Scoring.calculateCompetitiveScore competitorData targetSeoData in
  {| c_analysisId := c_analysisId competitorData;
     c_name := c_name competitorData;
     c_url := c_url competitorData;
     c_address := c_address competitorData;
     c_phone := c_phone competitorData;
     c_placeId := c_placeId competitorData;
     c_googleRating := c_googleRating competitorData;
     c_googleReviewCount := c_googleReviewCount competitorData;
     c_businessTypes := c_businessTypes competitorData;
     c_seoScore := c_seoScore competitorData;
     c_metaTitle := c_metaTitle competitorData;
     c_metaDescription := c_metaDescription competitorData;
     c_headingStructure := c_headingStructure competitorData;
     c_contentWordCount := c_contentWordCount competitorData;
     c_topKeywords := c_topKeywords competitorData;
     c_employeeCount := c_employeeCount competitorData;
     c_fundingInfo := c_fundingInfo competitorData;
     c_techStack := c_techStack competitorData;
     c_recentNews := c_recentNews competitorData;
     c_competitiveScore := Some competitiveScore;
     c_threatLevel := Some (Scoring.getThreatLevel competitiveScore) |}.

Section WithWorld.
Variable W : World.

Abbreviation updateAnalysis := (Store.updateAnalysis (faults W)).
Abbreviation getAnalysisById := (Store.getAnalysisById (faults W)).
Abbreviation createCompetitors := (Store.createCompetitors (faults W)).
Abbreviation getCompetitorsByAnalysisId := (Store.getCompetitorsByAnalysisId (faults W)).

(** The callback of [discoveredCompetitors.slice(0, 5).map(...)]. *)
Definition analyzeCompetitor (analysisId : Z)
    (targetSeoData : option SEOAnalysisResult) (comp : DiscoveredCompetitor)
    : M CompetitorData :=
  let competitorData := initialData analysisId comp in
  (* Run SEO analysis and enrichment in parallel *)
  let* settled :=
    promiseAll2
      (* Analyze competitor SEO if they have a website *)
      (if truthyStr (dc_website comp)
       then
         tryCatch
           (let* seo := call (AnalyzeSEOCall (default "" (dc_website comp)))
                             (analyzeSEO W (default "" (dc_website comp))) in
            ret (Some seo))
           (fun err => console_warn err ;;; ret None)
       else ret None)
      (* Enrich with external data *)
      (tryCatch
         (call (EnrichCall (dc_name comp) (dc_website comp))
               (enrichCompetitorData W (dc_name comp) (dc_website comp)))
         (fun err => console_warn err ;;; ret nullEnrichment)) in
  let compSeo := fst settled in
  let enrichedData := snd settled in
  ret (finalize competitorData targetSeoData compSeo enrichedData).

(** Step 4, the fan-out: [Promise.all(discoveredCompetitors.slice(0, 5).map(...))]. *)
Definition analyzeCompetitors (analysisId : Z)
    (targetSeoData : option SEOAnalysisResult)
    (discoveredCompetitors : list DiscoveredCompetitor) : M (list CompetitorData) :=
  promiseAll
    (List.map (analyzeCompetitor analysisId targetSeoData)
              (slice0 5 discoveredCompetitors)).

(** How the two sub-calls of one competitor settle once their [.catch]
    handlers have run: the SEO result or [null], the enrichment or the
    all-[null] object. *)
Definition seoSettled (comp : DiscoveredCompetitor) : option SEOAnalysisResult :=
  if truthyStr (dc_website comp) then
    match analyzeSEO W (default "" (dc_website comp)) with
    | Ok seo => Some seo
    | Throw _ => None
    end
  else None.

Definition enrichSettled (comp : DiscoveredCompetitor) : EnrichmentResult :=
  match enrichCompetitorData W (dc_name comp) (dc_website comp) with
  | Ok enrichedData => enrichedData
  | Throw _ => nullEnrichment
  end.

(** Step 3, first half: the industry handed to competitor discovery. *)
Definition resolveIndustry (analysisId : Z) (analysis : Analysis)
    (presenceData : OnlinePresenceResult) : M (option string) :=
  let detectedIndustry := industry analysis in
  let detectedType := pr_primaryType presenceData in
  let isGeneric := isGeneric detectedType in
  (* Only use detected type if it's NOT generic and we don't have a better user input *)
  if truthyStr detectedType && negb isGeneric then
    if negb (truthyStr detectedIndustry) then
      let detectedIndustry := detectedType in
      (* Update industry since we found a good one *)
      updateAnalysis analysisId (industryPatch detectedType) ;;;
      ret detectedIndustry
    else ret detectedIndustry
  else ret detectedIndustry.

(** The [try] block from the read of the record to the bulk insert of the
    competitors (steps 1 to 4). *)
Definition collect (analysisId : Z) : M Analysis :=
  let* analysis := getAnalysisById analysisId in
  match analysis with
  | None => throw (notFound analysisId)
  | Some analysis =>
      (* Step 1: Analyze target business SEO (if URL provided) *)
      let* targetSeoData :=
        if truthyStr (businessUrl analysis) then
          let* targetSeoData :=
            call (AnalyzeSEOCall (default "" (businessUrl analysis)))
                 (analyzeSEO W (default "" (businessUrl analysis))) in
          updateAnalysis analysisId (seoPatch targetSeoData) ;;;
          ret (Some targetSeoData)
        else ret None in
      (* Step 2: Analyze target business online presence *)
      let* presenceData :=
        call (PresenceCall (businessName analysis) (businessLocation analysis))
             (analyzeOnlinePresence W (businessName analysis) (businessLocation analysis)) in
      updateAnalysis analysisId (presencePatch presenceData) ;;;
      (* Step 3: Discover competitors using Google Maps *)
      let* detectedIndustry := resolveIndustry analysisId analysis presenceData in
      let* discoveredCompetitors :=
        call (DiscoverCall (businessName analysis) (businessLocation analysis)
                           (orNull detectedIndustry))
             (discoverCompetitors W (businessName analysis)
                                  (businessLocation analysis) (orNull detectedIndustry)) in
      (* Step 4: Analyze each competitor *)
      let* competitorDataList :=
        analyzeCompetitors analysisId targetSeoData discoveredCompetitors in
      (* Save all competitors *)
      (if (0 <? List.length competitorDataList)%nat
       then createCompetitors competitorDataList
       else ret tt) ;;;
      ret analysis
  end.

(** Step 5: Generate AI insights. *)
Definition insights (analysisId : Z) (analysis : Analysis) : M (list CompetitorData) :=
  let* updatedAnalysis := getAnalysisById analysisId in
  let* savedCompetitors := getCompetitorsByAnalysisId analysisId in
  let* aiInsights :=
    call InsightsCall (generateAIInsights W updatedAnalysis savedCompetitors) in
  updateAnalysis analysisId (insightsPatch aiInsights analysis) ;;;
  ret savedCompetitors.

Inductive ContentType := type_blog | type_adCopy | type_all.

Definition wantsBlog (type : ContentType) : bool :=
  match type with type_blog | type_all => true | type_adCopy => false end.
Definition wantsAdCopy (type : ContentType) : bool :=
  match type with type_adCopy | type_all => true | type_blog => false end.

(** [analysis.id] on a value that may be [undefined]. *)
Definition idOf (analysis : option Analysis) : M Z :=
  match analysis with
  | Some a => ret (id a)
  | None => throw typeError
  end.

(** [generateContent] of contentService, which saves what it generates. *)
Definition generateContent (analysis : option Analysis)
    (competitors : list CompetitorData) (type : ContentType)
    : M (option string * option (list AdCopy)) :=
  let allKeywords := List.concat (List.map (fun comp => default [] (c_topKeywords comp)) competitors) in
  let uniqueKeywords := slice0 15 (unique allKeywords) in
  let* blogPost :=
    if wantsBlog type then
      let* blogPost :=
        call BlogPostCall (generateBlogPost W analysis competitors uniqueKeywords) in
      let* analysisId := idOf analysis in
      updateAnalysis analysisId (blogPatch blogPost) ;;;
      ret (Some blogPost)
    else ret None in
  let* adCopy :=
    if wantsAdCopy type then
      let* adCopy :=
        call AdCopyCall (generateAdCopy W analysis competitors uniqueKeywords) in
      let* analysisId := idOf analysis in
      updateAnalysis analysisId (adCopyPatch adCopy) ;;;
      ret (Some adCopy)
    else ret None in
  ret (blogPost, adCopy).

(** Step 6: Generate content, and the last write. *)
Definition content (analysisId : Z) (savedCompetitors : list CompetitorData) : M unit :=
  let* finalAnalysis := getAnalysisById analysisId in
  let* contentResult := generateContent finalAnalysis savedCompetitors type_all in
  updateAnalysis analysisId
    (completedPatch (fst contentResult) (snd contentResult) (now W)).

(** The [try] block of [runCompetitiveAnalysis]. *)
Definition tryBlock (analysisId : Z) : M unit :=
  (* Update status to collecting *)
  updateAnalysis analysisId (statusPatch collecting) ;;;
  let* analysis := collect analysisId in
  (* Update status to analyzing *)
  updateAnalysis analysisId (statusPatch analyzing) ;;;
  let* savedCompetitors := insights analysisId analysis in
  content analysisId savedCompetitors.

(** The [catch (error)] block of [runCompetitiveAnalysis]. *)
Definition catchBlock (analysisId : Z) (error : Error) : M unit :=
  console_error error ;;;
  updateAnalysis analysisId (statusPatch failed) ;;;
  rethrow error.

Definition runCompetitiveAnalysis (analysisId : Z) : M unit :=
  tryCatch (tryBlock analysisId) (catchBlock analysisId).

(** The input of [analysis.create], after validation. *)
Record CreateInput := mkCreateInput {
  in_businessName : string;
  in_businessUrl : option string;
  in_businessLocation : string;
  in_industry : option string
}.

(** The [analysis.create] mutation.  The pipeline is started without being
    awaited, with a [.catch] that only logs; the state returned here is the
    one reached once that detached promise has settled, and the answer of the
    route does not depend on it. *)
Definition create (ctxUserId : option Z) (input : CreateInput) : M (Z * Status) :=
  (* Use guest user (ID 0) if not authenticated *)
  let userId := default 0 ctxUserId in
  let* analysisId :=
    Store.createAnalysis (faults W)
      {| ins_userId := userId;
         ins_businessName := in_businessName input;
         ins_businessUrl := orNull (in_businessUrl input);
         ins_businessLocation := in_businessLocation input;
         ins_industry := orNull (in_industry input);
         ins_status := pending |} in
  (* Start the analysis process asynchronously *)
  tryCatch (runCompetitiveAnalysis analysisId) (fun err => console_error err) ;;;
  ret (analysisId, pending).

End WithWorld.

End Pipeline.

(** ** apiRetry: the circuit breaker *)

Module Breaker.
Import Model.

Inductive State := closed | open | half_open.

Record CircuitBreaker := mkBreaker {
  failures : Z;
  lastFailureTime : Z;
  state : State;
  threshold : Z;
  timeout : Z;
  resetTimeout : Z
}.

(** [new CircuitBreaker(threshold, timeout, resetTimeout)]. *)
Definition new (threshold timeout resetTimeout : Z) : CircuitBreaker :=
  mkBreaker 0 0 closed threshold timeout resetTimeout.

Definition googleMapsCircuitBreaker := new 5 60000 30000.
Definition forgeProxyCircuitBreaker := new 5 60000 30000.
Definition llmCircuitBreaker := new 3 120000 60000.

Definition circuitOpen : Error :=
  mkError "Circuit breaker is open. Service temporarily unavailable.".

Definition isOpen (s : State) : bool :=
  match s with open => true | _ => false end.
Definition isHalfOpen (s : State) : bool :=
  match s with half_open => true | _ => false end.

(** The guard at the head of [execute], at time [now = Date.now()]: [None]
    when it throws, otherwise the breaker with which the call goes on. *)
Definition enter (cb : CircuitBreaker) (now : Z) : option CircuitBreaker :=
  if isOpen (state cb) then
    (* Check if enough time has passed to try again *)
    if resetTimeout cb <=? now - lastFailureTime cb then
      Some (mkBreaker (failures cb) (lastFailureTime cb) half_open
                      (threshold cb) (timeout cb) (resetTimeout cb))
    else None
  else Some cb.

(** The [try]/[catch] around [await fn()], once [fn] has settled with [r];
    [now] is the [Date.now()] of the [catch] block. *)
Definition settle {T} (cb : CircuitBreaker) (r : Outcome T) (now : Z) : CircuitBreaker :=
  match r with
  | Ok _ =>
      (* Success - reset the circuit breaker *)
      if isHalfOpen (state cb) then
        mkBreaker 0 (lastFailureTime cb) closed
                  (threshold cb) (timeout cb) (resetTimeout cb)
      else cb
  | Throw _ =>
      let failures := failures cb + 1 in
      let lastFailureTime := now in
      mkBreaker failures lastFailureTime
                (if threshold cb <=? failures then open else state cb)
                (threshold cb) (timeout cb) (resetTimeout cb)
  end.

(** [execute(fn)].  The wrapped function acts on a world [W] of its own, so
    that a call which leaves the world as it was has not run it; [tEnter] and
    [tSettle] are the clock readings at entry and in the [catch] block. *)
Definition execute {W T} (cb : CircuitBreaker) (fn : W -> Outcome T * W)
    (tEnter tSettle : Z) (w : W) : Outcome T * CircuitBreaker * W :=
  match enter cb tEnter with
  | None => (Throw circuitOpen, cb, w)
  | Some cb1 =>
      let (r, w') := fn w in
      (r, settle cb1 r tSettle, w')
  end.

Definition reset (cb : CircuitBreaker) : CircuitBreaker :=
  mkBreaker 0 0 closed (threshold cb) (timeout cb) (resetTimeout cb).

(** A history of uses of one breaker: calls of [execute] wrapping a function
    that resolves or rejects, and calls of [reset]. *)
Inductive Use :=
| Execute (tEnter tSettle : Z) (rejects : bool)
| Reset.

Definition wrapped (rejects : bool) : unit -> Outcome unit * unit :=
  fun w => (if rejects then Throw (mkError "timeout") else Ok tt, w).

Definition use (cb : CircuitBreaker) (u : Use) : CircuitBreaker :=
  match u with
  | Execute tEnter tSettle rejects =>
      snd (fst (execute cb (wrapped rejects) tEnter tSettle tt))
  | Reset => reset cb
  end.

Definition uses (cb : CircuitBreaker) (us : list Use) : CircuitBreaker :=
  fold_left use us cb.

End Breaker.

(** ** What is observed of a run *)

Module Observe.
Import Model Schema Runtime.

(** The status of one record in each content the database had, oldest
    first; [None] where the record does not exist. *)
Definition statusHistory (analysisId : Z) (st : St) : list (option Status) :=
  rev (List.map (fun d => status <$> analyses d !! analysisId) (snapshots st)).

(** Consecutive elements of a list are related. *)
Fixpoint chain {A} (R : A -> A -> Prop) (l : list A) : Prop :=
  match l with
  | [] => True
  | x :: rest =>
      match rest with
      | [] => True
      | y :: _ => R x y /\ chain R rest
      end
  end.

(** The transitions of the specification: forward along
    pending, collecting, analyzing, completed, or to failed from collecting
    or analyzing. *)
Definition specTransition (s s' : Status) : bool :=
  match s, s' with
  | pending, collecting
  | collecting, analyzing
  | analyzing, completed
  | collecting, failed
  | analyzing, failed => true
  | _, _ => false
  end.

(** The transitions of the code: those of the specification and, when the
    very first write is the one that fails, pending to failed. *)
Definition codeTransition (s s' : Status) : bool :=
  specTransition s s' ||
  match s, s' with
  | pending, failed => true
  | _, _ => false
  end.

(** Two consecutive observations of a record: nothing happened to its
    status, or the record was created pending, or it made one transition of
    [T]. *)
Definition observed (T : Status -> Status -> bool) (o o' : option Status) : Prop :=
  o = o' \/
  (o = None /\ o' = Some pending) \/
  exists s s', o = Some s /\ o' = Some s' /\ T s s' = true.

(** [completedAt] is set if and only if the status is [completed]. *)
Definition rowInv (a : Analysis) : Prop :=
  completedAt a <> None <-> status a = completed.

Definition storeInv (d : DB) : Prop :=
  forall i a, analyses d !! i = Some a -> rowInv a.

(** What the status-related columns of a record look like. *)
Definition view (a : Analysis) : Status * option Z := (status a, completedAt a).

(** [d'] shows every record with the status and completion date it has in
    [d]. *)
Definition sameViews (d d' : DB) : Prop :=
  forall i, view <$> analyses d' !! i = view <$> analyses d !! i.

(** A computation that never writes a status or a completion date: every
    content the database takes while it runs shows the same views. *)
Definition quiet {A} (m : M A) : Prop :=
  forall st,
    exists hs,
      past (snd (m st)) = (hs ++ past st)%list /\
      Forall (sameViews (db st)) (db (snd (m st)) :: hs).

(** The event [ev] raises [e]: a [throw], or a call that rejects. *)
Definition raises (ev : Event) (e : Error) : Prop :=
  ev = Thrown e \/ exists c, ev = Called c (Some e).

(** A computation that only adds events, and which, when it rejects, has
    done nothing after the event that raised the error. *)
Definition tracks {A} (m : M A) : Prop :=
  forall st,
    exists evs,
      events (snd (m st)) = (events st ++ evs)%list /\
      forall e, fst (m st) = Throw e ->
                exists evs0 ev, evs = (evs0 ++ [ev])%list /\ raises ev e.

(** The industries with which competitor discovery was called. *)
Definition discoveryIndustries (evs : list Event) : list (option string) :=
  omap (fun ev =>
          match ev with
          | Called (DiscoverCall _ _ industry) _ => Some industry
          | _ => None
          end) evs.

(** A computation that always resolves. *)
Definition resolves {A} (m : M A) : Prop :=
  forall st, exists a, fst (m st) = Ok a.

(** A computation that leaves the database alone and only adds events. *)
Definition onlyLogs {A} (m : M A) : Prop :=
  forall st, exists evs, snd (m st) = logged st evs.

(** The status of record [analysisId] in the database [d]. *)
Definition statusAt (analysisId : Z) (d : DB) : option Status :=
  status <$> analyses d !! analysisId.

(** Phase [s] for the transitions: the history so far is legal and the
    record has status [s]. *)
Definition legalAt (analysisId : Z) (s : Status) (st : St) : Prop :=
  chain (observed codeTransition) (statusHistory analysisId st) /\
  statusAt analysisId (db st) = Some s.

(** Phase [s] for the completion date: every content of the database so far
    satisfies [storeInv], and before completion the record has no date. *)
Definition datedAt (analysisId : Z) (s : Status) (st : St) : Prop :=
  Forall storeInv (snapshots st) /\
  (s <> completed ->
   forall a, analyses (db st) !! analysisId = Some a -> completedAt a = None).

(** [m], run from [st], resolves, with a value and in a state that satisfy
    [Q]. *)
Definition post {A} (m : M A) (st : St) (Q : A -> St -> Prop) : Prop :=
  exists a st', m st = (Ok a, st') /\ Q a st'.

(** What the caller gave for an analysis and never changes. *)
Definition inputsOf (a : Analysis) : string * option string * string :=
  (businessName a, businessUrl a, businessLocation a).

(** The database of [st] holds the competitors [C] and, for the record
    [analysisId], the status [s] and the inputs [k]. *)
Definition holds (analysisId : Z) (C : list CompetitorData) (s : Status)
    (k : string * option string * string) (st : St) : Prop :=
  competitors (db st) = C /\
  exists a, analyses (db st) !! analysisId = Some a /\ status a = s /\ inputsOf a = k.

End Observe.

(** ** Concrete worlds and databases used in the examples *)

Module Examples.
Import Model Schema Runtime Store Pipeline.

Definition noFaults : Faults := mkFaults (fun _ => true) (fun _ => None).

(** The [n]-th query rejects with a connection error; everything else
    works. *)
Definition connectionReset : Error := mkError "read ECONNRESET".
Definition queryFails (n : nat) : Faults :=
  mkFaults (fun _ => true)
           (fun k => if (k =? n)%nat then Some connectionReset else None).

(** Every query from the [n]-th on rejects. *)
Definition queriesFailFrom (n : nat) : Faults :=
  mkFaults (fun _ => true)
           (fun k => if (n <=? k)%nat then Some connectionReset else None).

Definition seoOf (url : string) : SeoService.SEOAnalysisResult :=
  SeoService.mkSEO 70 (Some "Title") None (SeoService.mkHeadings [] [] []) 400 [] [].

Definition rivals : list DiscoveredCompetitor :=
  [ mkDiscovered "Bean There" "p1" (Some "1 Main St") None (Some "beanthere.example")
                 (Some (9 # 2)) (Some 200) (Some ["cafe"]) None;
    mkDiscovered "Daily Grind" "p2" None None (Some "down.example")
                 (Some (4 # 1)) (Some 12) None None;
    mkDiscovered "Mocha Place" "p3" None None None None None None None ].

Definition timeoutError : Error := mkError "timeout of 10000ms exceeded".

(** A world in which every collaborator resolves, except that the SEO
    analysis and the enrichment of the site [down.example] reject. *)
Definition worldWith (F : Faults) : World :=
  {| faults := F;
     analyzeSEO := fun url =>
       if String.eqb url "down.example" then Throw timeoutError else Ok (seoOf url);
     analyzeOnlinePresence := fun _ _ =>
       Ok (mkPresence true (Some (9 # 2)) (Some 35) [] (Some "cafe"));
     discoverCompetitors := fun _ _ _ => Ok rivals;
     enrichCompetitorData := fun _ website =>
       if String.eqb (default "" website) "down.example" then Throw timeoutError
       else Ok (mkEnrichment (Some "1-10") None (Some ["React"]) (Some []));
     generateAIInsights := fun _ _ =>
       Ok (mkInsights "overview" [] [] [] [] (Some "coffee shop"));
     generateBlogPost := fun _ _ _ => Ok "post";
     generateAdCopy := fun _ _ _ => Ok [];
     now := 1700000000 |}.

Definition calmWorld : World := worldWith noFaults.

(** The same world, where the presence analysis detects the category
    [primaryType]. *)
Definition worldDetecting (primaryType : option string) : World :=
  {| faults := noFaults;
     analyzeSEO := analyzeSEO calmWorld;
     analyzeOnlinePresence := fun _ _ =>
       Ok (mkPresence true (Some (9 # 2)) (Some 35) [] primaryType);
     discoverCompetitors := discoverCompetitors calmWorld;
     enrichCompetitorData := enrichCompetitorData calmWorld;
     generateAIInsights := generateAIInsights calmWorld;
     generateBlogPost := generateBlogPost calmWorld;
     generateAdCopy := generateAdCopy calmWorld;
     now := now calmWorld |}.

Definition withIndustry (industry : option string) : CreateInput :=
  mkCreateInput "Joe's Coffee" None "Springfield" industry.

(** CAFÉ ROMA and Café Roma Centro: É is the code unit 201, é the code
    unit 233. *)
Definition cafeRomaCapitals : string :=
  "CAF" ++ String (ascii_of_nat 201) " ROMA".
Definition cafeRomaCentro : string :=
  "Caf" ++ String (ascii_of_nat 233) " Roma Centro".

Definition emptyDB : DB := mkDB ∅ [] 1.

Definition joes : CreateInput :=
  mkCreateInput "Joe's Coffee" None "Springfield" None.

(** A database holding one pending analysis, number 1, of user 7, and two
    competitors of it. *)
Definition pendingRow : Analysis :=
  newRow 1 (mkInsertAnalysis 7 "Joe's Coffee" None "Springfield" None pending).

Definition rival (analysisId : Z) (name : string) : CompetitorData :=
  initialData analysisId
    (mkDiscovered name "p" None None None None None None None).

Definition oneAnalysis : DB :=
  mkDB {[ 1 := pendingRow ]} [rival 1 "Bean There"; rival 2 "Other"; rival 1 "Daily Grind"] 2.

End Examples.

(** ** seoService: the issues and the whole analysis *)

Module SeoAnalysis.
Import Js Model SeoService.

Definition push (issues : list string) (issue : string) : list string :=
  (issues ++ [issue])%list.

(** [identifySEOIssues]. *)
Definition identifySEOIssues (result : SEOAnalysisResult) : list string :=
  let issues : list string := [] in
  let issues :=
    if negb (truthyStr (metaTitle result)) then push issues "Missing meta title"
    else if slen (strOf (metaTitle result)) <? 30
    then push issues "Meta title is too short (under 30 characters)"
    else if 60 <? slen (strOf (metaTitle result))
    then push issues "Meta title is too long (over 60 characters)"
    else issues in
  let issues :=
    if negb (truthyStr (metaDescription result))
    then push issues "Missing meta description"
    else if slen (strOf (metaDescription result)) <? 120
    then push issues "Meta description is too short (under 120 characters)"
    else if 160 <? slen (strOf (metaDescription result))
    then push issues "Meta description is too long (over 160 characters)"
    else issues in
  let issues :=
    if len (h1 (headings result)) =? 0 then push issues "Missing H1 heading"
    else if 1 <? len (h1 (headings result))
    then push issues "Multiple H1 headings (should have only one)"
    else issues in
  let issues :=
    if len (h2 (headings result)) =? 0
    then push issues "No H2 headings for content structure"
    else issues in
  let issues :=
    if wordCount result <? 300
    then push issues "Content is too thin (under 300 words)"
    else issues in
  issues.

(** [url.startsWith("http") ? url : `https://${url}`]. *)
Definition fullUrlOf (url : string) : string :=
  if startsWith "http" url then url else "https://" ++ url.

(** The result with which [analyzeSEO] starts. *)
Definition blankResult : SEOAnalysisResult :=
  {| score := 0; metaTitle := None; metaDescription := None;
     headings := mkHeadings [] [] []; wordCount := 0;
     topKeywords := []; issues := [] |}.

(** [analyzeSEO]: [fetchPage] stands for the request and the regular
    expressions run on the page it returns; it rejects when the request or
    the reading of the page throws, which happens before any field of the
    result is assigned. *)
Definition analyzeSEO (fetchPage : string -> Outcome Extracted) (url : string)
    : SEOAnalysisResult :=
  let result := blankResult in
  match fetchPage (fullUrlOf url) with
  | Ok page =>
      let result := analyzeFetched page in
      {| score := score result;
         metaTitle := metaTitle result;
         metaDescription := metaDescription result;
         headings := headings result;
         wordCount := wordCount result;
         topKeywords := topKeywords result;
         issues := identifySEOIssues result |}
  | Throw error =>
      {| score := 0;
         metaTitle := metaTitle result;
         metaDescription := metaDescription result;
         headings := headings result;
         wordCount := wordCount result;
         topKeywords := topKeywords result;
         issues := push (issues result)
                        ("Could not fetch website: " ++ message error) |}
  end.

End SeoAnalysis.

(** ** analysisService: the order in which scores and threat levels are compared *)

Module Ranking.
Import Model Scoring.

(** The threat levels from the lowest to the highest. *)
Definition threatRank (t : ThreatLevel) : Z :=
  match t with low => 0 | medium => 1 | high => 2 end.

(** The rating a record is scored with: [calculateCompetitiveScore] adds
    nothing for an absent rating, which is what a rating of 3 adds. *)
Definition ratingOr3 (c : CompetitorData) : Q :=
  from_option parseFloat 3%Q (c_googleRating c).

(** Two records that differ in what the score reads. *)
Definition weakRival : CompetitorData :=
  Pipeline.initialData 1
    (mkDiscovered "Mocha Place" "p3" None None None (Some (7 # 2)) (Some 40) None None).

Definition strongRival : CompetitorData :=
  Pipeline.initialData 1
    (mkDiscovered "Bean There" "p1" None None (Some "beanthere.example")
                  (Some (9 # 2)) (Some 200) None None).

End Ranking.

(** ** db.ts: the order of a listing *)

Module Listing.
Import Model Store.

(** [a] may come before [b] in a listing by descending score: the score of
    [a] is not below that of [b]. *)
Definition notBelow (a b : CompetitorData) : Prop := scoreBelow a b = false.

(** No row of [l] is followed, anywhere after it, by a row of higher
    score. *)
Fixpoint descending (l : list CompetitorData) : Prop :=
  match l with
  | [] => True
  | a :: rest => Forall (notBelow a) rest /\ descending rest
  end.

End Listing.

(** ** competitorDiscoveryService: answers that carry nothing *)

Module DiscoveryFailures.
Import Model Discovery.

(** A Maps answer from which the code takes nothing: the request rejects,
    or the status is not [OK], or the payload is missing. *)
Definition unusable {A} (r : Outcome (Response A)) : Prop :=
  match r with
  | Ok data => status data <> "OK" \/ payload data = None
  | Throw _ => True
  end.

Definition overQueryLimit {A} : Outcome (Response A) :=
  Ok (mkResponse "OVER_QUERY_LIMIT" None).

End DiscoveryFailures.

(** ** db.ts: retry with exponential backoff *)

Module Retry.
Import Js.

(** A thrown value as [isRetryableError] reads it: its [code], the [status]
    of its [response] and its [message], each absent when the value has no
    such property.  The values thrown are objects or primitives other than
    [null] and [undefined], on which reading a property is itself an
    error. *)
Record Thrown := mkThrown {
  code : option string;
  responseStatus : option Z;
  errorMessage : option string
}.

(** [RetryOptions]; [onRetry] tells whether a callback is given (a callback
    returns normally).  The delays are exact rationals, [maxRetries] is an
    integer. *)
Record RetryOptions := mkOptions {
  maxRetries : option Z;
  initialDelay : option Q;
  maxDelay : option Q;
  backoffMultiplier : option Q;
  retryableErrors : option (list string);
  onRetry : bool
}.

Definition noOptions : RetryOptions := mkOptions None None None None None false.

Definition DEFAULT_RETRYABLE_ERRORS : list string :=
  [ "ECONNRESET"; "ENOTFOUND"; "ESOCKETTIMEDOUT"; "ETIMEDOUT"; "ECONNREFUSED";
    "EHOSTUNREACH"; "EPIPE"; "EAI_AGAIN" ].

Definition DEFAULT_RETRYABLE_STATUS_CODES : list Z :=
  [ 408; 429; 500; 502; 503; 504; 522; 524 ].

Definition has {A} (eqb : A -> A -> bool) (set : list A) (x : A) : bool :=
  existsb (eqb x) set.

Definition isRetryableError (error : Thrown)
    (customRetryableErrors : option (list string)) : bool :=
  let retryableErrors := default DEFAULT_RETRYABLE_ERRORS customRetryableErrors in
  (* Check error code *)
  if truthyStr (code error) &&
     has String.eqb retryableErrors (default "" (code error))
  then true
  (* Check HTTP status code (for axios errors) *)
  else if Scoring.truthyNum (responseStatus error) &&
          has Z.eqb DEFAULT_RETRYABLE_STATUS_CODES (default 0 (responseStatus error))
  then true
  (* Check if it's a network error *)
  else if match errorMessage error with
          | Some m => includes m "network" || includes m "timeout"
          | None => false
          end
  then true
  else false.

(** [calculateDelay(attempt, options)], for the attempts the loop makes
    ([attempt >= 1], so that the exponent is a natural number). *)
Definition calculateDelay (attempt : Z) (options : RetryOptions) : Q :=
  let initialDelay := default 1000%Q (initialDelay options) in
  let maxDelay := default 30000%Q (maxDelay options) in
  let backoffMultiplier := default 2%Q (backoffMultiplier options) in
  let delay := (initialDelay * Qpower backoffMultiplier (attempt - 1))%Q in
  Qmin delay maxDelay.

(** How [fn] settles. *)
Inductive Result (T : Type) : Type :=
| Resolved (value : T)
| Rejected (error : Thrown).
Arguments Resolved {T} value.
Arguments Rejected {T} error.

(** How [retryWithBackoff] settles; [Threw None] is [throw undefined]. *)
Inductive Settled (T : Type) : Type :=
| Returned (value : T)
| Threw (error : option Thrown).
Arguments Returned {T} value.
Arguments Threw {T} error.

(** What [retryWithBackoff] does besides settling, in order. *)
Inductive Step :=
| CalledFn
| OnRetry (error : Thrown) (attempt : Z)
| Warned (attempt : Z) (delay : Q)
| Slept (delay : Q).

(** The [for] loop, entered at [attempt] after [calls] calls of [fn]; [fn k]
    is how the call number [k] of [fn] settles.  [fuel] bounds the number of
    iterations; the loop has left when it runs out. *)
Fixpoint attempts {T} (fn : nat -> Result T) (options : RetryOptions)
    (fuel : nat) (attempt : Z) (calls : nat) (lastError : option Thrown)
    : Settled T * list Step :=
  let maxRetries := default 3 (maxRetries options) in
  match fuel with
  | O => (Threw lastError, [])
  | S fuel =>
      if attempt <=? maxRetries + 1 then
        match fn calls with
        | Resolved value => (Returned value, [CalledFn])
        | Rejected error =>
            let lastError := Some error in
            (* Don't retry if we've exhausted attempts *)
            if maxRetries <? attempt then (Threw lastError, [CalledFn])
            (* Don't retry if error is not retryable *)
            else if negb (isRetryableError error (retryableErrors options))
            then (Threw (Some error), [CalledFn])
            else
              (* Calculate delay and wait *)
              let delay := calculateDelay attempt options in
              let steps :=
                ([CalledFn] ++
                 (if onRetry options then [OnRetry error attempt] else []) ++
                 [Warned attempt delay; Slept delay])%list in
              let (settled, rest) :=
                attempts fn options fuel (attempt + 1) (S calls) lastError in
              (settled, (steps ++ rest)%list)
        end
      else (Threw lastError, [])
  end.

Definition retryWithBackoff {T} (fn : nat -> Result T) (options : RetryOptions)
    : Settled T * list Step :=
  let maxRetries := default 3 (maxRetries options) in
  attempts fn options (Z.to_nat (maxRetries + 1)) 1 0 None.

(** The number of calls of [fn] and the delays slept, in order. *)
Definition callsIn (steps : list Step) : nat :=
  List.length (List.filter (fun s => match s with CalledFn => true | _ => false end) steps).

Definition sleepsIn (steps : list Step) : list Q :=
  omap (fun s => match s with Slept d => Some d | _ => None end) steps.

Definition totalSleep (steps : list Step) : Q :=
  fold_right Qplus 0%Q (sleepsIn steps).

(** Errors and functions of the examples. *)
Definition connectionReset : Thrown := mkThrown (Some "ECONNRESET") None None.
Definition notFound : Thrown := mkThrown None (Some 404) (Some "Request failed").

Definition flaky (failures : nat) : nat -> Result string :=
  fun k => if (k <? failures)%nat then Rejected connectionReset else Resolved "ok".

End Retry.

(** ** db.ts: histories of a circuit breaker *)

Module BreakerHistory.
Import Model Breaker.

Definition isReset (u : Use) : bool :=
  match u with Reset => true | Execute _ _ _ => false end.

Definition rejected (u : Use) : bool :=
  match u with Execute _ _ rejects => rejects | Reset => false end.

(** The number of calls of a history whose wrapped function rejected. *)
Definition rejections (us : list Use) : Z :=
  Z.of_nat (List.length (List.filter rejected us)).

(** Two breakers that differ at most in their [timeout]. *)
Definition sameButTimeout (a b : CircuitBreaker) : Prop :=
  failures a = failures b /\ lastFailureTime a = lastFailureTime b /\
  state a = state b /\ threshold a = threshold b /\
  resetTimeout a = resetTimeout b.

End BreakerHistory.

(** ** analysisService: what a run may change *)

Module Frame.
Import Model Schema Runtime.

(** The primary key of [analyses]: the row stored under an identifier
    carries that identifier. *)
Definition keyed (d : DB) : Prop :=
  forall i a, analyses d !! i = Some a -> id a = i.

(** The columns of a record that are given at its creation. *)
Definition givenOf (a : Analysis) : Z * Z * string * option string * string :=
  (id a, userId a, businessName a, businessUrl a, businessLocation a).

(** A competitor row as a run saves it for the analysis [i]. *)
Definition scored (i : Z) (c : CompetitorData) : Prop :=
  c_analysisId c = i /\
  exists s, c_competitiveScore c = Some s /\ 0 <= s <= 100 /\
            c_threatLevel c = Some (Scoring.getThreatLevel s).

(** From [d] to [d'] nothing happened outside the analysis [i]: the other
    records are the same, the record [i] exists as before with the columns
    given at its creation, no identifier was handed out, and the competitor
    table only got at most [n] new rows at its end, all of them saved for
    [i]. *)
Definition grows (i : Z) (n : nat) (d d' : DB) : Prop :=
  (forall j, j <> i -> analyses d' !! j = analyses d !! j) /\
  givenOf <$> analyses d' !! i = givenOf <$> analyses d !! i /\
  nextAnalysisId d' = nextAnalysisId d /\
  exists new,
    competitors d' = (competitors d ++ new)%list /\
    (List.length new <= n)%nat /\ Forall (scored i) new.

(** A computation that, from a keyed database, does no more than [grows]
    allows and whose value, when it resolves, satisfies [P]. *)
Definition confined (i : Z) (n : nat) {A} (m : M A) (P : A -> Prop) : Prop :=
  forall st,
    keyed (db st) ->
    keyed (db (snd (m st))) /\
    grows i n (db st) (db (snd (m st))) /\
    forall a, fst (m st) = Ok a -> P a.

End Frame.

(** ** routers: the analysis and competitor routes *)

Module Router.
Import Js Model Schema Runtime Store Pipeline.
Local Open Scope js_scope.

(** A [TRPCError]: its code and its message, kept in the message of the
    thrown value. *)
Definition trpcError (code message : string) : Error :=
  mkError (code ++ ": " ++ message).

Definition NOT_FOUND (message : string) : Error := trpcError "NOT_FOUND" message.
Definition FORBIDDEN (message : string) : Error := trpcError "FORBIDDEN" message.

(** The [TypeError] of [ctx.user.id] when [ctx.user] is [null]. *)
Definition nullUser : Error :=
  mkError "Cannot read properties of null (reading 'id')".

(** [ctx.user.id]; the context user is given by its identifier. *)
Definition userIdOf (ctxUser : option Z) : M Z :=
  match ctxUser with
  | Some userId => ret userId
  | None => throw nullUser
  end.

Section WithWorld.
Variable W : World.

(** [analysis.get]. *)
Definition get (ctxUser : option Z) (inputId : Z)
    : M (Analysis * list CompetitorData) :=
  let* analysis := getAnalysisById (faults W) inputId in
  match analysis with
  | None => throw (NOT_FOUND "Analysis not found")
  | Some analysis =>
      (* Security check: ensure the user owns the analysis *)
      let userId := default 0 ctxUser in
      if negb (Schema.userId analysis =? userId)
      then throw (FORBIDDEN "Access denied")
      else
        let* competitorsList := getCompetitorsByAnalysisId (faults W) inputId in
        ret (analysis, competitorsList)
  end.

(** [analysis.delete]; the value is the [success] of the answer. *)
Definition delete (ctxUser : option Z) (inputId : Z) : M bool :=
  let* userId := userIdOf ctxUser in
  let* success := deleteAnalysis (faults W) inputId userId in
  if negb success
  then throw (NOT_FOUND "Analysis not found or access denied")
  else ret true.

(** [analysis.regenerateContent]. *)
Definition regenerateContent (ctxUser : option Z) (inputId : Z)
    (type : ContentType) : M (option string * option (list AdCopy)) :=
  let* analysis := getAnalysisById (faults W) inputId in
  match analysis with
  | None => throw (NOT_FOUND "Analysis not found")
  | Some analysis =>
      let* userId := userIdOf ctxUser in
      if negb (Schema.userId analysis =? userId)
      then throw (FORBIDDEN "Access denied")
      else
        let* competitorsList := getCompetitorsByAnalysisId (faults W) inputId in
        generateContent W (Some analysis) competitorsList type
  end.

(** [competitor.list]. *)
Definition competitorList (ctxUser : option Z) (analysisId : Z)
    : M (list CompetitorData) :=
  let* analysis := getAnalysisById (faults W) analysisId in
  let* denied :=
    match analysis with
    | None => ret true
    | Some analysis =>
        let* userId := userIdOf ctxUser in
        ret (negb (Schema.userId analysis =? userId))
    end in
  if denied then throw (FORBIDDEN "Access denied")
  else getCompetitorsByAnalysisId (faults W) analysisId.

End WithWorld.

End Router.

(** ** rateLimiter: the request limiter of the HTTP server *)

Module RateLimiter.
Import Js.

Record Entry := mkEntry {
  count : Z;
  resetTime : Z
}.

(** The entries of the module-level [store], shared by every limiter: the
    properties the object has of its own, by key. *)
Abbreviation RateLimitStore := (gmap string Entry).

(** What [store[key]] gives: an entry of the store, an object that the
    store inherits under that name (a function or a prototype, which is
    truthy and has neither [count] nor [resetTime]), or [undefined]. *)
Inductive Looked := Own (entry : Entry) | Inherited | Undefined.

(** The properties a plain object inherits from [Object.prototype]. *)
Definition objectPrototype : list string :=
  [ "constructor"; "__proto__"; "hasOwnProperty"; "isPrototypeOf";
    "propertyIsEnumerable"; "toLocaleString"; "toString"; "valueOf";
    "__defineGetter__"; "__defineSetter__"; "__lookupGetter__";
    "__lookupSetter__" ].

Definition inheritedName (key : string) : bool :=
  existsb (String.eqb key) objectPrototype.

(** What a key generator reads of a request. *)
Record Request := mkRequest {
  ip : option string;
  forwardedFor : option string
}.

Record RateLimiterOptions := mkOptions {
  windowMs : option Z;
  max : option Z;
  message : option string;
  skipSuccessfulRequests : option bool;
  keyGenerator : option (Request -> string)
}.

(** The default key generator: the address of the client, or the
    [x-forwarded-for] header, or [unknown]. *)
Definition defaultKeyGenerator (req : Request) : string :=
  if truthyStr (ip req) then default "" (ip req)
  else if truthyStr (forwardedFor req) then default "" (forwardedFor req)
  else "unknown".

(** The headers the middleware sets; for the two it computes from the
    entry, [None] is the text [NaN]. *)
Record Headers := mkHeaders {
  limitHeader : Z;
  remainingHeader : option Z;
  resetHeader : option Z;
  retryAfterHeader : option Z   (* [None]: the header is not set *)
}.

(** How the middleware ends: it hands over to [next()], with the [send] of
    the response wrapped or not, or it answers by itself. *)
Inductive Verdict :=
| Next (sendWrapped : bool)
| Answered (status : Z) (error : string) (retryAfter : Z).

(** [Math.ceil(x / 1000)]. *)
Definition ceilSeconds (x : Z) : Z := - ((- x) / 1000).

Section Environment.

(** The names of the properties that the store object inherits. *)
Variable inherited : string -> bool.

(** [store[key]]: a property of the object itself hides an inherited one. *)
Definition lookupKey (store : RateLimitStore) (key : string) : Looked :=
  match store !! key with
  | Some entry => Own entry
  | None => if inherited key then Inherited else Undefined
  end.

(** The middleware returned by [createRateLimiter(options)], on a request
    received at time [now]. *)
Definition limiter (options : RateLimiterOptions) (req : Request) (now : Z)
    (store : RateLimitStore) : RateLimitStore * Headers * Verdict :=
  let windowMs := default (60 * 1000) (windowMs options) in
  let max := default 60 (max options) in
  let message := default "Too many requests, please try again later." (message options) in
  let skipSuccessfulRequests := default false (skipSuccessfulRequests options) in
  let keyGenerator := default defaultKeyGenerator (keyGenerator options) in
  let key := keyGenerator req in
  match lookupKey store key with
  | Inherited =>
      (* [!store[key]] is false and [undefined < now] is false: no entry is
         made.  [store[key].count++] leaves [NaN] on the inherited object;
         [remaining] and [resetTime] are [NaN], and [NaN > max] is false. *)
      (store, mkHeaders max None None None, Next skipSuccessfulRequests)
  | looked =>
      let entry :=
        match looked with
        | Own entry =>
            if resetTime entry <? now then mkEntry 0 (now + windowMs) else entry
        | _ => mkEntry 0 (now + windowMs)
        end in
      let entry := mkEntry (count entry + 1) (resetTime entry) in
      let store := <[key := entry]> store in
      let remaining := Z.max 0 (max - count entry) in
      let resetTime := ceilSeconds (resetTime entry - now) in
      if max <? count entry then
        (store, mkHeaders max (Some remaining) (Some resetTime) (Some resetTime),
         Answered 429 message resetTime)
      else
        (store, mkHeaders max (Some remaining) (Some resetTime) None,
         Next skipSuccessfulRequests)
  end.

(** The wrapped [send] of a request the middleware has let through, called
    with the status code of the response.  [store[key]] is then an entry of
    the store, or the inherited object, whose [count] stays [NaN]. *)
Definition wrappedSend (options : RateLimiterOptions) (req : Request)
    (statusCode : Z) (store : RateLimitStore) : RateLimitStore :=
  let keyGenerator := default defaultKeyGenerator (keyGenerator options) in
  let key := keyGenerator req in
  if statusCode <? 400
  then alter (fun entry => mkEntry (Z.max 0 (count entry - 1)) (resetTime entry)) key store
  else store.

(** A request and the sending of its response, one after the other:
    [statusCode] is the status of the response the route sends when the
    limiter lets the request through. *)
Definition serve (options : RateLimiterOptions) (req : Request)
    (now statusCode : Z) (store : RateLimitStore) : RateLimitStore * Verdict :=
  let '(store, _, verdict) := limiter options req now store in
  match verdict with
  | Next true => (wrappedSend options req statusCode store, verdict)
  | _ => (store, verdict)
  end.

(** Requests of one client served one after the other, each given by its
    time and by the status of its response. *)
Fixpoint serveAll (options : RateLimiterOptions) (req : Request)
    (requests : list (Z * Z)) (store : RateLimitStore)
    : RateLimitStore * list Verdict :=
  match requests with
  | [] => (store, [])
  | (now, statusCode) :: rest =>
      let (store, verdict) := serve options req now statusCode store in
      let (store, verdicts) := serveAll options req rest store in
      (store, verdict :: verdicts)
  end.

End Environment.

Definition passed (v : Verdict) : bool :=
  match v with Next _ => true | Answered _ _ _ => false end.

Definition apiRateLimiter : RateLimiterOptions :=
  mkOptions (Some (60 * 1000)) (Some 100)
            (Some "API rate limit exceeded. Please try again in a minute.")
            (Some true) None.

Definition authRateLimiter : RateLimiterOptions :=
  mkOptions (Some (15 * 60 * 1000)) (Some 10)
            (Some "Too many authentication attempts. Please try again later.")
            None None.

Definition client : Request := mkRequest (Some "203.0.113.7") None.

(** A client known only by an [x-forwarded-for] header that names an
    inherited property. *)
Definition constructorClient : Request := mkRequest None (Some "constructor").

End RateLimiter.

(** ** presenceService *)

Module Presence.
Import Js Model Discovery Pipeline.

(** The first candidate of a find-place answer, as far as it is read. *)
Record Candidate := mkCandidate {
  cand_place_id : option string;
  cand_rating : option Q;
  cand_user_ratings_total : option Z;
  cand_types : option (list string)
}.

(** [detailsData.result], as far as it is read for the fields below. *)
Record DetailsResult := mkDetailsResult {
  det_website : option string
}.

(** [s.replace(/_/g, " ")]. *)
Fixpoint spaced (s : string) : string :=
  match s with
  | EmptyString => EmptyString
  | String c r => String (if Ascii.eqb c "_" then " "%char else c) (spaced r)
  end.

(** [x || null] on a [number | undefined] that may be fractional. *)
Definition orNullQ (o : option Q) : option Q :=
  match o with
  | Some q => if Qeq_bool q 0 then None else Some q
  | None => None
  end.

Section Requests.

(** The two Maps requests, by the search text and by the place identifier,
    and [findSocialLinks], which catches whatever fails inside it. *)
Variable findPlaceRequest : string -> Outcome (Response (list Candidate)).
Variable placeDetailsRequest : string -> Outcome (Response DetailsResult).
Variable findSocialLinks : string -> list (string * string).

(** [analyzeOnlinePresence], for the fields of the result that the pipeline
    reads ([businessHours], [photos] and [types] are left out). *)
Definition analyzeOnlinePresence (businessName location : string)
    : OnlinePresenceResult :=
  let result := mkPresence false None None [] None in
  (* Search for the business on Google Places *)
  let searchQuery := businessName ++ " " ++ location in
  match findPlaceRequest searchQuery with
  | Throw _ => result
  | Ok placesData =>
      match (if String.eqb (status placesData) "OK"
             then head (default [] (payload placesData)) else None) with
      | None => result
      | Some place =>
          let result :=
            mkPresence true
                       (orNullQ (cand_rating place))
                       (orNullNum (cand_user_ratings_total place))
                       []
                       (orNull (spaced <$> head (default [] (cand_types place)))) in
          (* Get more details if we have a place_id *)
          if truthyStr (cand_place_id place) then
            match placeDetailsRequest (default "" (cand_place_id place)) with
            | Throw _ => result
            | Ok detailsData =>
                match (if String.eqb (status detailsData) "OK"
                       then payload detailsData else None) with
                | None => result
                | Some details =>
                    (* If we have a website, try to find social links *)
                    if truthyStr (det_website details) then
                      mkPresence (pr_hasGoogleBusiness result)
                                 (pr_googleRating result)
                                 (pr_reviewCount result)
                                 (findSocialLinks (default "" (det_website details)))
                                 (pr_primaryType result)
                    else result
                end
            end
          else result
      end
  end.

End Requests.

End Presence.

(** ** socialMediaService: the profiles of a business *)

Module SocialMedia.
Import Js.

Inductive Platform := twitter | facebook | instagram | linkedin | youtube | tiktok.

Definition platformEqb (a b : Platform) : bool :=
  match a, b with
  | twitter, twitter | facebook, facebook | instagram, instagram
  | linkedin, linkedin | youtube, youtube | tiktok, tiktok => true
  | _, _ => false
  end.

Record SocialMediaProfile := mkProfile {
  platform : Platform;
  username : string;
  profileUrl : string
}.

(** One match of a pattern: the matched text and the two capture groups
    ([None] for a group that does not exist or did not take part). *)
Record Match := mkMatch {
  whole : string;
  group1 : option string;
  group2 : option string
}.

(** [socialPatterns]: each platform with the number of its patterns. *)
Definition socialPatterns : list (Platform * nat) :=
  [ (twitter, 2%nat); (facebook, 1%nat); (instagram, 1%nat);
    (linkedin, 2%nat); (youtube, 1%nat); (tiktok, 1%nat) ].

(** The page: for a platform and the index of one of its patterns, the
    matches of that pattern in the text of the page, in order. *)
Definition Page := Platform -> nat -> list Match.

Definition found (profiles : list SocialMediaProfile) (p : Platform) : bool :=
  existsb (fun profile => platformEqb (platform profile) p) profiles.

(** The loop over the matches of one pattern. *)
Fixpoint overMatches (p : Platform) (matches : list Match)
    (profiles : list SocialMediaProfile) : list SocialMediaProfile :=
  match matches with
  | [] => profiles
  | m :: rest =>
      let username := if truthyStr (group1 m) then group1 m else group2 m in
      if truthyStr username && negb (found profiles p) then
        (profiles ++
         [ mkProfile p (default "" username)
                     (if startsWith "http" (whole m) then whole m
                      else "https://" ++ whole m) ])%list
      else overMatches p rest profiles
  end.

(** The loop over the patterns of one platform. *)
Fixpoint overPatterns (page : Page) (p : Platform) (indices : list nat)
    (profiles : list SocialMediaProfile) : list SocialMediaProfile :=
  match indices with
  | [] => profiles
  | k :: rest => overPatterns page p rest (overMatches p (page p k) profiles)
  end.

(** The loop over [socialPatterns]. *)
Fixpoint overPlatforms (page : Page) (patterns : list (Platform * nat))
    (profiles : list SocialMediaProfile) : list SocialMediaProfile :=
  match patterns with
  | [] => profiles
  | (p, n) :: rest =>
      overPlatforms page rest (overPatterns page p (seq 0 n) profiles)
  end.

Definition isAlnumLower (c : ascii) : bool :=
  let n := nat_of_ascii c in
  ((97 <=? n) && (n <=? 122) || (48 <=? n) && (n <=? 57))%nat.

(** [s.replace(/[^a-z0-9]/g, "")]. *)
Fixpoint keepAlnum (s : string) : string :=
  match s with
  | EmptyString => EmptyString
  | String c r => if isAlnumLower c then String c (keepAlnum r) else keepAlnum r
  end.

Definition getPlatformUrl (p : Platform) (username : string) : string :=
  match p with
  | twitter => "https://twitter.com/" ++ username
  | facebook => "https://facebook.com/" ++ username
  | instagram => "https://instagram.com/" ++ username
  | linkedin => "https://linkedin.com/company/" ++ username
  | youtube => "https://youtube.com/@" ++ username
  | tiktok => "https://tiktok.com/@" ++ username
  end.

(** [extractSocialProfiles]; [page] is [None] when the fetch rejects or the
    response is not [ok], in which case no pattern is tried. *)
Definition extractSocialProfiles (page : option Page) (businessName : string)
    : list SocialMediaProfile :=
  let profiles :=
    match page with
    | Some page => overPlatforms page socialPatterns []
    | None => []
    end in
  (* If no profiles found, try to generate likely handles based on business name *)
  if (List.length profiles =? 0)%nat then
    let cleanName := keepAlnum (toLowerCase businessName) in
    List.map (fun p => mkProfile p cleanName (getPlatformUrl p cleanName))
             [twitter; facebook; instagram; linkedin]
  else profiles.

(** What every list of profiles built here satisfies: one profile per
    platform at most, each with an absolute address. *)
Definition wellFormed (profiles : list SocialMediaProfile) : Prop :=
  List.NoDup (List.map platform profiles) /\
  Forall (fun p => startsWith "http" (profileUrl p) = true) profiles.

End SocialMedia.

(** ** db.ts: the logger *)

Module Logging.
Import Js Model.

Inductive LogLevel := debug | info | warn | error.

Definition LOG_LEVELS (level : LogLevel) : Z :=
  match level with debug => 0 | info => 1 | warn => 2 | error => 3 end.

Definition levelName (level : LogLevel) : string :=
  match level with
  | debug => "debug" | info => "info" | warn => "warn" | error => "error"
  end.

(** [level.toUpperCase()]. *)
Definition upperName (level : LogLevel) : string :=
  match level with
  | debug => "DEBUG" | info => "INFO" | warn => "WARN" | error => "ERROR"
  end.

(** What [LOG_LEVELS[name]] gives for an arbitrary string: the number of a
    level, a value that the object inherits (which is no number), or
    [undefined]. *)
Inductive Looked := Number (n : Z) | Inherited | Undefined.

Inductive Stream := console_log | console_warn | console_error.

Record Logger := mkLogger {
  minLevel : option Z;   (* [None]: not a number *)
  isProduction : bool
}.

Section Environment.

(** The names of the properties that a plain object inherits. *)
Variable inherited : string -> bool.

Definition lookupLevel (name : string) : Looked :=
  if String.eqb name "debug" then Number 0
  else if String.eqb name "info" then Number 1
  else if String.eqb name "warn" then Number 2
  else if String.eqb name "error" then Number 3
  else if inherited name then Inherited
  else Undefined.

(** [new Logger()], from the two environment variables it reads. *)
Definition newLogger (NODE_ENV LOG_LEVEL : option string) : Logger :=
  let isProduction := String.eqb (default "" NODE_ENV) "production" in
  (* In production, only log warnings and errors by default *)
  let defaultLevel := if isProduction then "warn" else "debug" in
  let configuredLevel :=
    if truthyStr LOG_LEVEL then default "" LOG_LEVEL else defaultLevel in
  let minLevel :=
    match lookupLevel configuredLevel with
    | Number n => Some n
    | Inherited => None
    | Undefined => Some (LOG_LEVELS info)
    end in
  mkLogger minLevel isProduction.

End Environment.

(** [LOG_LEVELS[level] >= this.minLevel]; a comparison with a value that is
    no number is false. *)
Definition shouldLog (logger : Logger) (level : LogLevel) : bool :=
  match minLevel logger with
  | Some n => n <=? LOG_LEVELS level
  | None => false
  end.

Definition formatMessage (timestamp : string) (level : LogLevel) (message : string)
    : string :=
  "[" ++ timestamp ++ "] [" ++ upperName level ++ "] " ++ message.

Definition streamOf (level : LogLevel) : Stream :=
  match level with
  | debug | info => console_log
  | warn => console_warn
  | error => console_error
  end.

(** [logger.debug], [logger.info], [logger.warn] and [logger.error]: the
    lines written, with the stream they go to. *)
Definition log (logger : Logger) (timestamp : string) (level : LogLevel)
    (message : string) : list (Stream * string) :=
  if shouldLog logger level
  then [(streamOf level, formatMessage timestamp level message)]
  else [].

(** [logger.measure(label, fn)] and [logger.measureAsync(label, fn)]: [fn]
    is given by how it settles, [duration] is the text of
    [duration.toFixed(2)]. *)
Definition measure {T} (logger : Logger) (timestamp duration label : string)
    (fn : Outcome T) : Outcome T * list (Stream * string) :=
  if negb (shouldLog logger debug) then (fn, [])
  else
    match fn with
    | Ok result =>
        (Ok result,
         log logger timestamp debug (label ++ " completed in " ++ duration ++ "ms"))
    | Throw e =>
        (Throw e,
         log logger timestamp error (label ++ " failed after " ++ duration ++ "ms:"))
    end.

End Logging.

(** ** The calls to competitor discovery *)

Module Industry.
Import Model Schema Runtime.

(** A call to [discoverCompetitors]: the business name, the location and
    the industry it was given, and the error it rejected with, if it did. *)
Definition DiscoveryCall : Type := string * string * option string * option Error.

(** The calls to [discoverCompetitors] among the events, in order. *)
Definition discoveryCalls (evs : list Event) : list DiscoveryCall :=
  omap (fun ev =>
          match ev with
          | Called (DiscoverCall name location industry) rejected =>
              Some (name, location, industry, rejected)
          | _ => None
          end) evs.

(** The calls to [discoverCompetitors] made so far. *)
Definition discovered (st : St) : list DiscoveryCall :=
  discoveryCalls (events st).

(** A computation that does not call [discoverCompetitors]. *)
Definition silent {A} (m : M A) : Prop :=
  forall st, discovered (snd (m st)) = discovered st.

(** A call other than one to [discoverCompetitors]. *)
Definition otherCall (c : Call) : bool :=
  match c with
  | DiscoverCall _ _ _ => false
  | _ => true
  end.

(** The database rejects nothing: every [getDb()] gives a handle and every
    query goes through. *)
Definition databaseWorks (F : Store.Faults) : Prop :=
  (forall n, Store.dbAvailable F n = true) /\
  (forall n, Store.queryFault F n = None).

End Industry.

(** * Properties *)

(** ** The SEO score *)

Section SeoFacts.
Import Js SeoService.

Lemma truthyStr_positive (o : option string) :
  truthyStr o = true -> (0 <? slen (strOf o)) = true.
Proof.
  destruct o as [s|]; simpl; [|discriminate].
  destruct s as [|c s]; simpl; [discriminate|].
  intros _. unfold slen. simpl String.length. apply Z.ltb_lt. lia.
Qed.

(** The title block adds the title points to the running score. *)
Lemma title_block (r : SEOAnalysisResult) (s : Z) :
  (if truthyStr (metaTitle r) then
     if (30 <=? slen (strOf (metaTitle r))) && (slen (strOf (metaTitle r)) <=? 60)
     then s + 10 + 10
     else if 0 <? slen (strOf (metaTitle r)) then s + 10 + 5 else s + 10
   else s) = s + titlePoints r.
Proof.
  unfold titlePoints, titlePresent, titleWellSized. cbv zeta.
  destruct (truthyStr (metaTitle r)) eqn:Ht; [|lia].
  rewrite (truthyStr_positive _ Ht).
  destruct ((30 <=? _) && _); lia.
Qed.

Lemma desc_block (r : SEOAnalysisResult) (s : Z) :
  (if truthyStr (metaDescription r) then
     if (120 <=? slen (strOf (metaDescription r))) &&
        (slen (strOf (metaDescription r)) <=? 160)
     then s + 10 + 10
     else if 0 <? slen (strOf (metaDescription r)) then s + 10 + 5 else s + 10
   else s) = s + descPoints r.
Proof.
  unfold descPoints, descPresent, descWellSized. cbv zeta.
  destruct (truthyStr (metaDescription r)) eqn:Ht; [|lia].
  rewrite (truthyStr_positive _ Ht).
  destruct ((120 <=? _) && _); lia.
Qed.

Lemma component_bounds (r : SEOAnalysisResult) :
  0 <= titlePoints r <= 20 /\ 0 <= descPoints r <= 20 /\
  0 <= h1Points r <= 15 /\ 0 <= h2Points r <= 15 /\
  0 <= contentPoints r <= 20 /\ 0 <= keywordPoints r <= 10.
Proof.
  unfold titlePoints, descPoints, h1Points, h2Points, contentPoints, keywordPoints.
  repeat split;
    repeat match goal with |- context [if ?b then _ else _] => destruct b end; lia.
Qed.

(** [calculateSEOScore] is the sum of the six checks; the cap at 100 never
    binds. *)
Lemma calculateSEOScore_sum (r : SEOAnalysisResult) :
  calculateSEOScore r =
  titlePoints r + descPoints r + h1Points r + h2Points r +
  contentPoints r + keywordPoints r.
Proof.
  pose proof (component_bounds r) as Hb.
  unfold calculateSEOScore. cbv zeta.
  rewrite (title_block r 0), (desc_block r (0 + titlePoints r)).
  rewrite Z.min_r.
  - unfold h1Points, h2Points, contentPoints, keywordPoints.
    repeat match goal with |- context [if ?b then _ else _] => destruct b end; lia.
  - revert Hb. unfold h1Points, h2Points, contentPoints, keywordPoints.
    repeat match goal with |- context [if ?b then _ else _] => destruct b end; lia.
Qed.

End SeoFacts.

(** C5 (as amended).  The SEO score is the sum of six checks: title (20 when
    present and 30 to 60 characters long), description (20 when present and
    120 to 160 characters long), exactly one H1 (15), at least two H2s (15),
    content length (20, 15 or 10 from 1000, 500 or 300 words) and keyword
    diversity (at most 10, and 10 exactly from eight keywords on).  A page
    with a 45-character title, a 140-character description, one H1, three H2s
    and 1,200 words scores 90 plus its keyword points, hence 100 exactly when
    it has at least eight top keywords. *)
Theorem seo_score_six_checks (r : SeoService.SEOAnalysisResult) :
  let total := SeoService.calculateSEOScore r in
  total = SeoService.titlePoints r + SeoService.descPoints r
         + SeoService.h1Points r + SeoService.h2Points r
         + SeoService.contentPoints r + SeoService.keywordPoints r /\
  (SeoService.titlePoints r = 20 <->
   SeoService.titlePresent r = true /\ SeoService.titleWellSized r = true) /\
  (SeoService.descPoints r = 20 <->
   SeoService.descPresent r = true /\ SeoService.descWellSized r = true) /\
  (SeoService.h1Points r = 15 <->
   SeoService.len (SeoService.h1 (SeoService.headings r)) = 1) /\
  (SeoService.h2Points r = 15 <->
   2 <= SeoService.len (SeoService.h2 (SeoService.headings r))) /\
  (SeoService.contentPoints r = 20 <-> 1000 <= SeoService.wordCount r) /\
  (SeoService.contentPoints r = 15 <-> 500 <= SeoService.wordCount r < 1000) /\
  (SeoService.contentPoints r = 10 <-> 300 <= SeoService.wordCount r < 500) /\
  (SeoService.keywordPoints r <= 10) /\
  (SeoService.keywordPoints r = 10 <->
   8 <= SeoService.len (SeoService.topKeywords r)) /\
  (SeoService.examplePage r ->
   total = 90 + SeoService.keywordPoints r /\
   (total = 100 <-> 8 <= SeoService.len (SeoService.topKeywords r))).
Proof.
  intros total. subst total.
  pose proof (calculateSEOScore_sum r) as Hsum.
  assert (Hk10 : SeoService.keywordPoints r = 10 <->
                 8 <= SeoService.len (SeoService.topKeywords r)).
  { unfold SeoService.keywordPoints.
    destruct (8 <=? _) eqn:E8; [apply Z.leb_le in E8; intuition lia|].
    apply Z.leb_gt in E8.
    repeat match goal with |- context [if ?b then _ else _] => destruct b end;
      intuition lia. }
  assert (Hk : SeoService.keywordPoints r <= 10)
    by (pose proof (component_bounds r); intuition lia).
  assert (Hex : SeoService.examplePage r ->
                SeoService.titlePoints r = 20 /\ SeoService.descPoints r = 20 /\
                SeoService.h1Points r = 15 /\ SeoService.h2Points r = 15 /\
                SeoService.contentPoints r = 20).
  { intros ([t [Ht Hlt]] & [d [Hd Hld]] & Hh1 & Hh2 & Hwc).
    unfold SeoService.titlePoints, SeoService.titlePresent,
      SeoService.titleWellSized, SeoService.descPoints,
      SeoService.descPresent, SeoService.descWellSized,
      SeoService.h1Points, SeoService.h2Points, SeoService.contentPoints.
    rewrite Ht, Hd, Hh1, Hh2, Hwc. simpl SeoService.strOf. rewrite Hlt, Hld.
    destruct t; [discriminate Hlt|]. destruct d; [discriminate Hld|].
    repeat split; reflexivity. }
  split; [exact Hsum|].
  split.
  { unfold SeoService.titlePoints.
    destruct (SeoService.titlePresent r), (SeoService.titleWellSized r);
      intuition (try discriminate; try lia). }
  split.
  { unfold SeoService.descPoints.
    destruct (SeoService.descPresent r), (SeoService.descWellSized r);
      intuition (try discriminate; try lia). }
  split; [|split; [|split; [|split; [|split]]]].
  1-5: unfold SeoService.h1Points, SeoService.h2Points, SeoService.contentPoints;
       repeat match goal with
              | |- context [if ?b then _ else _] =>
                  let E := fresh "E" in destruct b eqn:E
              end;
       repeat match goal with
              | H : (_ <=? _) = true |- _ => apply Z.leb_le in H
              | H : (_ <=? _) = false |- _ => apply Z.leb_gt in H
              | H : (_ <? _) = true |- _ => apply Z.ltb_lt in H
              | H : (_ <? _) = false |- _ => apply Z.ltb_ge in H
              | H : (_ =? _) = true |- _ => apply Z.eqb_eq in H
              | H : (_ =? _) = false |- _ => apply Z.eqb_neq in H
              end;
       split; intros; lia.
  split; [exact Hk|]. split; [exact Hk10|].
  intros Hpage. destruct (Hex Hpage) as (H1 & H2 & H3 & H4 & H5).
  split; [rewrite Hsum; lia|].
  rewrite <- Hk10. rewrite Hsum. lia.
Qed.

(** The page of 1,200 words with eight keywords reaches 100. *)
Lemma seo_score_six_checks_witness :
  SeoService.examplePage (SeoService.analyzeFetched SeoService.richPage) /\
  SeoService.calculateSEOScore (SeoService.analyzeFetched SeoService.richPage) = 100.
Proof.
  assert (He : SeoService.examplePage (SeoService.analyzeFetched SeoService.richPage)).
  { unfold SeoService.examplePage.
    split; [eexists; split; [reflexivity | vm_compute; reflexivity]|].
    split; [eexists; split; [reflexivity | vm_compute; reflexivity]|].
    repeat split; vm_compute; reflexivity. }
  split; [exact He|].
  destruct (seo_score_six_checks (SeoService.analyzeFetched SeoService.richPage))
    as (_ & _ & _ & _ & _ & _ & _ & _ & _ & _ & Hex).
  apply (Hex He). vm_compute. discriminate.
Defined.

(** C5 (as stated) fails: 1,200 three-letter words give no keyword, and the
    page of the example scores 90. *)
Lemma seo_example_page_scores_90 :
  SeoService.examplePage (SeoService.analyzeFetched SeoService.catPage) /\
  SeoService.calculateSEOScore (SeoService.analyzeFetched SeoService.catPage) = 90 /\
  ~ (forall r, SeoService.examplePage r -> SeoService.calculateSEOScore r = 100).
Proof.
  assert (He : SeoService.examplePage (SeoService.analyzeFetched SeoService.catPage)).
  { unfold SeoService.examplePage.
    split; [eexists; split; [reflexivity | vm_compute; reflexivity]|].
    split; [eexists; split; [reflexivity | vm_compute; reflexivity]|].
    repeat split; vm_compute; reflexivity. }
  assert (H90 : SeoService.calculateSEOScore
                  (SeoService.analyzeFetched SeoService.catPage) = 90)
    by (vm_compute; reflexivity).
  split; [exact He|]. split; [exact H90|].
  intros H. specialize (H _ He). rewrite H90 in H. discriminate.
Qed.

(** ** The competitive score *)

Section ScoringFacts.
Import Model Scoring.

Lemma round_comp (x y : Q) : (x == y)%Q -> round x = round y.
Proof. intros H. unfold round. apply Qfloor_comp. rewrite H. reflexivity. Qed.

Lemma Qmin_zero_l (b : Q) : (0 <= b)%Q -> (Qmin (inject_Z 0 / 2) b == 0)%Q.
Proof.
  intros Hb. rewrite Q.min_l; [reflexivity|].
  apply (Qle_trans _ 0); [|exact Hb]. discriminate.
Qed.

Lemma truthyNum_cases (o : option Z) :
  (truthyNum o = true /\ exists n, o = Some n /\ numOf o = inject_Z n) \/
  (truthyNum o = false /\ (o = None \/ o = Some 0)).
Proof.
  destruct o as [n|]; simpl; [|right; auto].
  destruct (n =? 0) eqn:E; simpl.
  - right. apply Z.eqb_eq in E. subst. auto.
  - left. split; [reflexivity|]. exists n. split; reflexivity.
Qed.

(** The code's score is the specification's formula on the four inputs it
    reads from the record. *)
Lemma calculateCompetitiveScore_spec (c : CompetitorData)
    (targetSeo : option SeoService.SEOAnalysisResult) :
  calculateCompetitiveScore c targetSeo =
  specScore (c_seoScore c) (parseFloat <$> c_googleRating c)
            (c_googleReviewCount c) (Js.truthyStr (c_url c)).
Proof.
  unfold calculateCompetitiveScore, specScore, clamp. cbv zeta.
  f_equal. f_equal. apply round_comp.
  assert (Hseo :
    ((if truthyNum (c_seoScore c)
      then 50 + Qmin (numOf (c_seoScore c) / 2) 25 else 50) ==
     50 + match c_seoScore c with
          | Some s => Qmin (inject_Z s / 2) 25
          | None => 0
          end)%Q).
  { destruct (truthyNum_cases (c_seoScore c)) as [[-> [n [-> ->]]]|[-> [->| ->]]].
    - reflexivity.
    - ring.
    - rewrite Qmin_zero_l by discriminate. ring. }
  assert (Hrev : forall s : Q,
    ((if truthyNum (c_googleReviewCount c)
      then s + Qmin (numOf (c_googleReviewCount c) / 10) 15 else s) ==
     s + match c_googleReviewCount c with
         | Some n => Qmin (inject_Z n / 10) 15
         | None => 0
         end)%Q).
  { intros s.
    destruct (truthyNum_cases (c_googleReviewCount c)) as [[-> [n [-> ->]]]|[-> [->| ->]]].
    - reflexivity.
    - ring.
    - assert (E : (Qmin (inject_Z 0 / 10) 15 == 0)%Q) by reflexivity.
      rewrite E. ring. }
  destruct (c_googleRating c) as [[q]|]; cbn [fmap option_fmap option_map parseFloat];
    destruct (Js.truthyStr (c_url c)).
  all: rewrite Hrev, Hseo; ring.
Qed.

End ScoringFacts.

(** ** The monad of awaited calls *)

Section RuntimeFacts.
Import Model Schema Runtime Observe.

Lemma bind_run {A B} (m : M A) (k : A -> M B) (st : St) :
  bind m k st =
  match m st with
  | (Ok a, st') => k a st'
  | (Throw e, st') => (Throw e, st')
  end.
Proof. reflexivity. Qed.

Lemma sameViews_refl (d : DB) : sameViews d d.
Proof. intros i. reflexivity. Qed.

Lemma sameViews_trans (d1 d2 d3 : DB) :
  sameViews d1 d2 -> sameViews d2 d3 -> sameViews d1 d3.
Proof. intros H12 H23 i. rewrite H23. apply H12. Qed.

Lemma quiet_ret {A} (a : A) : quiet (ret a).
Proof.
  intros st. exists []. split; [reflexivity|].
  constructor; [apply sameViews_refl | constructor].
Qed.

Lemma quiet_logged {A} (m : M A) :
  onlyLogs m -> quiet m.
Proof.
  intros H st. destruct (H st) as [evs ->]. exists []. split; [reflexivity|].
  constructor; [apply sameViews_refl | constructor].
Qed.

Lemma onlyLogs_emit (ev : Event) : onlyLogs (emit ev).
Proof. intros st. eexists. reflexivity. Qed.

Lemma onlyLogs_throw {A} (e : Error) : onlyLogs (@throw A e).
Proof. intros st. eexists. reflexivity. Qed.

Lemma onlyLogs_call {A} (c : Call) (r : Outcome A) : onlyLogs (call c r).
Proof. intros st. eexists. reflexivity. Qed.

Lemma logged_nil (st : St) : logged st [] = st.
Proof. destruct st. unfold logged. simpl. rewrite app_nil_r. reflexivity. Qed.

Lemma logged_logged (st : St) (a b : list Event) :
  logged (logged st a) b = logged st (a ++ b).
Proof. unfold logged. simpl. rewrite <- app_assoc. reflexivity. Qed.

Lemma onlyLogs_ret {A} (a : A) : onlyLogs (ret a).
Proof. intros st. exists []. simpl. symmetry. apply logged_nil. Qed.

Lemma onlyLogs_rethrow {A} (e : Error) : onlyLogs (@rethrow A e).
Proof. intros st. exists []. simpl. symmetry. apply logged_nil. Qed.

Lemma quiet_bind {A B} (m : M A) (k : A -> M B) :
  quiet m -> (forall a, quiet (k a)) -> quiet (bind m k).
Proof.
  intros Hm Hk st. rewrite bind_run.
  destruct (Hm st) as [hs [Hp Hv]]. destruct (m st) as [[a|e] st1]; simpl in *.
  - destruct (Hk a st1) as [hs' [Hp' Hv']].
    exists (hs' ++ hs)%list. split; [rewrite Hp', Hp, app_assoc; reflexivity|].
    inversion Hv as [|? ? H1 Hrest]; subst.
    inversion Hv' as [|? ? H1' Hrest']; subst.
    constructor; [eapply sameViews_trans; eassumption|].
    apply Forall_app. split; [|exact Hrest].
    eapply Forall_impl; [exact Hrest'|].
    intros d Hd. eapply sameViews_trans; eassumption.
  - exists hs. split; assumption.
Qed.

Lemma quiet_tryCatch {A} (m : M A) (h : Error -> M A) :
  quiet m -> (forall e, quiet (h e)) -> quiet (tryCatch m h).
Proof.
  intros Hm Hh st. unfold tryCatch.
  destruct (Hm st) as [hs [Hp Hv]]. destruct (m st) as [[a|e] st1]; simpl in *.
  - exists hs. split; assumption.
  - destruct (Hh e st1) as [hs' [Hp' Hv']].
    exists (hs' ++ hs)%list. split; [rewrite Hp', Hp, app_assoc; reflexivity|].
    inversion Hv as [|? ? H1 Hrest]; subst.
    inversion Hv' as [|? ? H1' Hrest']; subst.
    constructor; [eapply sameViews_trans; eassumption|].
    apply Forall_app. split; [|exact Hrest].
    eapply Forall_impl; [exact Hrest'|].
    intros d Hd. eapply sameViews_trans; eassumption.
Qed.

End RuntimeFacts.

(** ** The record store *)

Section StoreFacts.
Import Model Schema Runtime Observe Store.
Variable F : Faults.

Lemma quiet_getDb : quiet (getDb F).
Proof.
  intros st. exists []. split; [reflexivity|].
  constructor; [apply sameViews_refl | constructor].
Qed.

Lemma quiet_query {A} (q : Query) (effect : DB -> DB) (result : DB -> A) :
  (forall d, sameViews d (effect d)) -> quiet (query F q effect result).
Proof.
  intros He st. unfold query. destruct (queryFault F (queries st)); simpl.
  - exists []. split; [reflexivity|].
    constructor; [apply sameViews_refl | constructor].
  - exists [db st]. split; [reflexivity|].
    constructor; [apply He|]. constructor; [apply sameViews_refl | constructor].
Qed.

Lemma quiet_if {A} (b : bool) (m1 m2 : M A) :
  quiet m1 -> quiet m2 -> quiet (if b then m1 else m2).
Proof. destruct b; auto. Qed.

Lemma view_applyPatch (p : Patch) (a : Analysis) :
  p_status p = None -> p_completedAt p = None -> view (applyPatch p a) = view a.
Proof. intros Hs Hc. unfold view, applyPatch. simpl. rewrite Hs, Hc. reflexivity. Qed.

Lemma quiet_updateAnalysis (analysisId : Z) (p : Patch) :
  p_status p = None -> p_completedAt p = None ->
  quiet (updateAnalysis F analysisId p).
Proof.
  intros Hs Hc. unfold updateAnalysis. apply quiet_bind; [apply quiet_getDb|].
  intros h. apply quiet_if; [apply quiet_logged, onlyLogs_throw|].
  apply quiet_query. intros d i. simpl.
  destruct (decide (analysisId = i)) as [->|Hne].
  - rewrite lookup_alter_eq. destruct (analyses d !! i); simpl; [|reflexivity].
    rewrite view_applyPatch by assumption. reflexivity.
  - rewrite lookup_alter_ne by assumption. reflexivity.
Qed.

Lemma quiet_getAnalysisById (analysisId : Z) : quiet (getAnalysisById F analysisId).
Proof.
  unfold getAnalysisById. apply quiet_bind; [apply quiet_getDb|].
  intros h. apply quiet_if; [apply quiet_ret|].
  apply quiet_query. intros d. apply sameViews_refl.
Qed.

Lemma quiet_getCompetitorsByAnalysisId (analysisId : Z) :
  quiet (getCompetitorsByAnalysisId F analysisId).
Proof.
  unfold getCompetitorsByAnalysisId. apply quiet_bind; [apply quiet_getDb|].
  intros h. apply quiet_if; [apply quiet_ret|].
  apply quiet_query. intros d. apply sameViews_refl.
Qed.

Lemma quiet_createCompetitors (data : list CompetitorData) :
  quiet (createCompetitors F data).
Proof.
  unfold createCompetitors. apply quiet_bind; [apply quiet_getDb|].
  intros h. apply quiet_if; [apply quiet_logged, onlyLogs_throw|].
  apply quiet_if; [apply quiet_ret|].
  apply quiet_query. intros d i. reflexivity.
Qed.

End StoreFacts.

(** ** The fan-out over the competitors *)

Section FanOutFacts.
Import Js Model Schema Runtime Observe Store Pipeline.
Variable W : World.

(** The callback always resolves, with the record finalized from how its
    own two sub-calls settled, and touches nothing but the log. *)
Lemma analyzeCompetitor_run (analysisId : Z)
    (targetSeoData : option SeoService.SEOAnalysisResult)
    (comp : DiscoveredCompetitor) (st : St) :
  exists evs,
    analyzeCompetitor W analysisId targetSeoData comp st =
    (Ok (finalize (initialData analysisId comp) targetSeoData
                  (seoSettled W comp) (enrichSettled W comp)),
     logged st evs).
Proof.
  unfold analyzeCompetitor, seoSettled, enrichSettled.
  rewrite bind_run. unfold promiseAll2, tryCatch, call, console_warn, emit, ret, bind.
  destruct (truthyStr (dc_website comp));
    [destruct (analyzeSEO W (default "" (dc_website comp)))|];
    destruct (enrichCompetitorData W (dc_name comp) (dc_website comp));
    simpl; rewrite ?logged_logged; eexists; reflexivity.
Qed.

Lemma analyzeCompetitors_run (analysisId : Z)
    (targetSeoData : option SeoService.SEOAnalysisResult)
    (discovered : list DiscoveredCompetitor) (st : St) :
  exists evs,
    analyzeCompetitors W analysisId targetSeoData discovered st =
    (Ok (List.map
           (fun comp =>
              finalize (initialData analysisId comp) targetSeoData
                       (seoSettled W comp) (enrichSettled W comp))
           (slice0 5 discovered)),
     logged st evs).
Proof.
  unfold analyzeCompetitors. generalize (slice0 5 discovered) as l.
  intros l. revert st. induction l as [|comp l IH]; intros st.
  - exists []. simpl. unfold ret. rewrite logged_nil. reflexivity.
  - simpl.
    destruct (analyzeCompetitor_run analysisId targetSeoData comp st) as [evs ->].
    destruct (IH (logged st evs)) as [evs' ->].
    rewrite logged_logged. eexists. reflexivity.
Qed.

Lemma onlyLogs_analyzeCompetitors (analysisId : Z)
    (targetSeoData : option SeoService.SEOAnalysisResult)
    (discovered : list DiscoveredCompetitor) :
  onlyLogs (analyzeCompetitors W analysisId targetSeoData discovered).
Proof.
  intros st.
  destruct (analyzeCompetitors_run analysisId targetSeoData discovered st) as [evs ->].
  exists evs. reflexivity.
Qed.

End FanOutFacts.

(** ** The pipeline, phase by phase *)

Ltac quiet_auto :=
  repeat first
    [ apply quiet_ret
    | apply quiet_getAnalysisById
    | apply quiet_getCompetitorsByAnalysisId
    | apply quiet_createCompetitors
    | apply quiet_updateAnalysis; reflexivity
    | apply quiet_logged;
      first [ apply onlyLogs_call | apply onlyLogs_throw | apply onlyLogs_emit
            | apply onlyLogs_rethrow | apply onlyLogs_analyzeCompetitors ]
    | match goal with
      | |- Observe.quiet (if ?b then _ else _) => destruct b
      | |- Observe.quiet (match ?o with _ => _ end) => destruct o
      end
    | apply quiet_bind; [|intros ?]
    | apply quiet_tryCatch; [|intros ?] ].

Section PhaseFacts.
Import Js Model Schema Runtime Observe Store Pipeline.
Variable W : World.
Variable analysisId : Z.

Lemma quiet_resolveIndustry (analysis : Analysis) (presenceData : OnlinePresenceResult) :
  quiet (resolveIndustry W analysisId analysis presenceData).
Proof. unfold resolveIndustry. cbv zeta. quiet_auto. Qed.

Lemma quiet_collect : quiet (collect W analysisId).
Proof.
  unfold collect. apply quiet_bind; [apply quiet_getAnalysisById|].
  intros [analysis|]; [|apply quiet_logged, onlyLogs_throw].
  apply quiet_bind; [quiet_auto|]. intros targetSeoData.
  apply quiet_bind; [quiet_auto|]. intros presenceData.
  apply quiet_bind; [quiet_auto|]. intros _.
  apply quiet_bind; [apply quiet_resolveIndustry|]. intros detectedIndustry.
  quiet_auto.
Qed.

Lemma quiet_insights (analysis : Analysis) : quiet (insights W analysisId analysis).
Proof. unfold insights. quiet_auto. Qed.

Lemma quiet_idOf (analysis : option Analysis) : quiet (idOf analysis).
Proof. unfold idOf. quiet_auto. Qed.

Lemma quiet_generateContent (analysis : option Analysis)
    (competitors : list CompetitorData) (type : ContentType) :
  quiet (generateContent W analysis competitors type).
Proof.
  unfold generateContent. cbv zeta.
  apply quiet_bind; [|intros blogPost; apply quiet_bind; [|intros; apply quiet_ret]].
  - destruct (wantsBlog type); [|apply quiet_ret].
    apply quiet_bind; [quiet_auto|]. intros b.
    apply quiet_bind; [apply quiet_idOf|]. intros i. quiet_auto.
  - destruct (wantsAdCopy type); [|apply quiet_ret].
    apply quiet_bind; [quiet_auto|]. intros b.
    apply quiet_bind; [apply quiet_idOf|]. intros i. quiet_auto.
Qed.

(** How [updateAnalysis] ends: the row is patched and the previous content
    of the database becomes the latest snapshot, or the call rejects and the
    database is as before. *)
Lemma updateAnalysis_run (p : Patch) (st : St) :
  (fst (updateAnalysis (faults W) analysisId p st) = Ok tt /\
   db (snd (updateAnalysis (faults W) analysisId p st)) =
     mkDB (alter (applyPatch p) analysisId (analyses (db st)))
          (competitors (db st)) (nextAnalysisId (db st)) /\
   past (snd (updateAnalysis (faults W) analysisId p st)) = db st :: past st) \/
  ((exists e, fst (updateAnalysis (faults W) analysisId p st) = Throw e) /\
   db (snd (updateAnalysis (faults W) analysisId p st)) = db st /\
   past (snd (updateAnalysis (faults W) analysisId p st)) = past st).
Proof.
  unfold updateAnalysis, getDb, bind, query, throw.
  destruct (dbAvailable (faults W) (getDbCalls st)); simpl.
  - destruct (queryFault (faults W) (queries st)); simpl.
    + right. eauto.
    + left. auto.
  - right. eauto.
Qed.

(** *** The skeleton of a run

    A family [P] of properties of the state, one per status, which quiet
    computations keep and which follows the status writes, holds at the end
    of a run started where [P pending] holds. *)
Section Skeleton.
Variable P : Status -> St -> Prop.
Hypothesis P_quiet :
  forall {A} (m : M A) s st, quiet m -> P s st -> P s (snd (m st)).
Hypothesis P_write :
  forall s s' st,
    codeTransition s s' = true -> s' <> completed -> P s st ->
    match updateAnalysis (faults W) analysisId (statusPatch s') st with
    | (Ok _, st') => P s' st'
    | (Throw _, st') => P s st'
    end.
Hypothesis P_complete :
  forall blogPost adCopy date st,
    P analyzing st ->
    match updateAnalysis (faults W) analysisId
            (completedPatch blogPost adCopy date) st with
    | (Ok _, st') => P completed st'
    | (Throw _, st') => P analyzing st'
    end.

Lemma catchBlock_phase (s : Status) (e : Error) (st : St) :
  codeTransition s failed = true -> P s st ->
  exists s', P s' (snd (catchBlock W analysisId e st)).
Proof.
  intros Hs HP. unfold catchBlock. rewrite bind_run. simpl.
  rewrite bind_run.
  pose proof (@P_quiet _ (console_error e) s st
                (quiet_logged _ (onlyLogs_emit _)) HP) as HP1.
  simpl in HP1.
  pose proof (P_write s failed _ Hs ltac:(discriminate) HP1) as HP2.
  destruct (updateAnalysis (faults W) analysisId (statusPatch failed) _)
    as [[[]|e'] st2]; simpl; eauto.
Qed.

Lemma run_phase (st : St) :
  P pending st -> exists s, P s (snd (runCompetitiveAnalysis W analysisId st)).
Proof.
  intros HP. unfold runCompetitiveAnalysis, tryCatch, tryBlock.
  rewrite bind_run.
  pose proof (P_write pending collecting st eq_refl ltac:(discriminate) HP) as H1.
  destruct (updateAnalysis (faults W) analysisId (statusPatch collecting) st)
    as [[[]|e] st1]; [|apply (catchBlock_phase pending); auto].
  rewrite bind_run.
  pose proof (@P_quiet _ (collect W analysisId) collecting st1 quiet_collect H1) as H2.
  destruct (collect W analysisId st1) as [[analysis|e] st2]; simpl in H2;
    [|apply (catchBlock_phase collecting); auto].
  rewrite bind_run.
  pose proof (P_write collecting analyzing st2 eq_refl ltac:(discriminate) H2) as H3.
  destruct (updateAnalysis (faults W) analysisId (statusPatch analyzing) st2)
    as [[[]|e] st3]; [|apply (catchBlock_phase collecting); auto].
  rewrite bind_run.
  pose proof (@P_quiet _ (insights W analysisId analysis) analyzing st3
                (quiet_insights analysis) H3) as H4.
  destruct (insights W analysisId analysis st3) as [[saved|e] st4]; simpl in H4;
    [|apply (catchBlock_phase analyzing); auto].
  unfold content. rewrite bind_run.
  pose proof (@P_quiet _ (getAnalysisById (faults W) analysisId) analyzing st4
                (quiet_getAnalysisById _ _) H4) as H5.
  destruct (getAnalysisById (faults W) analysisId st4) as [[final|e] st5];
    simpl in H5; [|apply (catchBlock_phase analyzing); auto].
  rewrite bind_run.
  pose proof (@P_quiet _ (generateContent W final saved type_all) analyzing st5
                (quiet_generateContent _ _ _) H5) as H6.
  destruct (generateContent W final saved type_all st5) as [[result|e] st6];
    simpl in H6; [|apply (catchBlock_phase analyzing); auto].
  pose proof (P_complete (fst result) (snd result) (now W) st6 H6) as H7.
  destruct (updateAnalysis (faults W) analysisId _ st6) as [[[]|e] st7];
    [eauto|apply (catchBlock_phase analyzing); auto].
Qed.

End Skeleton.

End PhaseFacts.

(** ** Status history *)

Section HistoryFacts.
Import Model Schema Runtime Observe Store Pipeline.

Lemma last_rev {A} (l : list A) : last (rev l) = head l.
Proof.
  destruct l as [|x l]; [reflexivity|]. simpl. apply last_snoc.
Qed.

Lemma chain_snoc {A} (R : A -> A -> Prop) (l : list A) (x : A) :
  chain R (l ++ [x]) <->
  chain R l /\ match last l with Some y => R y x | None => True end.
Proof.
  induction l as [|a l IH]; [simpl; tauto|].
  destruct l as [|b l]; [simpl; tauto|].
  change (chain R ((a :: b :: l) ++ [x])) with (R a b /\ chain R ((b :: l) ++ [x])).
  change (chain R (a :: b :: l)) with (R a b /\ chain R (b :: l)).
  rewrite IH. change (last (a :: b :: l)) with (last (b :: l)). tauto.
Qed.

Lemma chain_rev_cons {A} (R : A -> A -> Prop) (x : A) (l : list A) :
  chain R (rev (x :: l)) <->
  chain R (rev l) /\ match head l with Some y => R y x | None => True end.
Proof. simpl. rewrite chain_snoc, last_rev. reflexivity. Qed.

(** Prepending observations equal to the latest one keeps a history legal. *)
Lemma chain_rev_repeat {A} (R : A -> A -> Prop) (v : A) (vs rest : list A) :
  R v v -> Forall (eq v) vs ->
  chain R (rev (v :: rest)) -> chain R (rev (v :: vs ++ rest)).
Proof.
  intros Hrefl Hvs Hc. induction vs as [|x vs IH]; [exact Hc|].
  inversion Hvs as [|? ? Hx Hrest]; subst.
  change (chain R (rev (x :: (x :: vs ++ rest)))).
  apply chain_rev_cons. split; [apply IH; exact Hrest|].
  simpl. exact Hrefl.
Qed.

Lemma sameViews_status (d d' : DB) (i : Z) :
  sameViews d d' -> status <$> analyses d' !! i = status <$> analyses d !! i.
Proof.
  intros H. specialize (H i).
  destruct (analyses d' !! i) as [a'|], (analyses d !! i) as [a|];
    simpl in *; try discriminate; [|reflexivity].
  injection H as H. unfold view in H. congruence.
Qed.

Lemma sameViews_completedAt (d d' : DB) (i : Z) :
  sameViews d d' ->
  completedAt <$> analyses d' !! i = completedAt <$> analyses d !! i.
Proof.
  intros H. specialize (H i).
  destruct (analyses d' !! i) as [a'|], (analyses d !! i) as [a|];
    simpl in *; try discriminate; [|reflexivity].
  injection H as H. unfold view in H. congruence.
Qed.

Lemma sameViews_storeInv (d d' : DB) : sameViews d d' -> storeInv d -> storeInv d'.
Proof.
  intros Hv Hd i a' Ha'. specialize (Hv i). rewrite Ha' in Hv.
  destruct (analyses d !! i) as [a|] eqn:Ha; simpl in Hv; [|discriminate].
  specialize (Hd i a Ha). unfold rowInv in *. unfold view in Hv.
  injection Hv as Hs Hc. rewrite Hs, Hc. exact Hd.
Qed.

End HistoryFacts.

(** ** Status transitions and the completion date of a run *)

Section RunFacts.
Import Model Schema Runtime Observe Store Pipeline.
Variable W : World.
Variable analysisId : Z.

Lemma observed_refl (T : Status -> Status -> bool) (o : option Status) :
  observed T o o.
Proof. left. reflexivity. Qed.

Lemma legalAt_quiet {A} (m : M A) (s : Status) (st : St) :
  quiet m -> legalAt analysisId s st -> legalAt analysisId s (snd (m st)).
Proof.
  intros Hq [Hc Hs]. destruct (Hq st) as [hs [Hp Hv]].
  inversion Hv as [|? ? Hnow Hhs]; subst.
  assert (Hs' : statusAt analysisId (db (snd (m st))) = Some s)
    by (unfold statusAt; rewrite (sameViews_status _ _ _ Hnow); exact Hs).
  split; [|exact Hs'].
  unfold statusHistory, snapshots in *. rewrite Hp. rewrite map_cons, map_app.
  fold (statusAt analysisId (db (snd (m st)))). rewrite Hs'.
  rewrite map_cons in Hc. fold (statusAt analysisId (db st)) in Hc. rewrite Hs in Hc.
  apply chain_rev_repeat; [apply observed_refl| |exact Hc].
  clear -Hhs Hs. induction Hhs as [|d hs Hd _ IH]; constructor; [|exact IH].
  rewrite (sameViews_status _ _ analysisId Hd). symmetry. exact Hs.
Qed.

(** A write of status [s'] over a record of status [s]. *)
Lemma legalAt_write (p : Patch) (s s' : Status) (st : St) :
  p_status p = Some s' -> codeTransition s s' = true -> legalAt analysisId s st ->
  match updateAnalysis (faults W) analysisId p st with
  | (Ok _, st') => legalAt analysisId s' st'
  | (Throw _, st') => legalAt analysisId s st'
  end.
Proof.
  intros Hp HT [Hc Hs].
  destruct (updateAnalysis_run W analysisId p st) as [(Hr & Hdb & Hpast)|([e Hr] & Hdb & Hpast)];
    destruct (updateAnalysis (faults W) analysisId p st) as [r st']; simpl in *; subst r.
  - assert (Hs' : statusAt analysisId (db st') = Some s').
    { unfold statusAt in *. rewrite Hdb. simpl. rewrite lookup_alter_eq.
      destruct (analyses (db st) !! analysisId); simpl in *; [|discriminate].
      unfold setCol. rewrite Hp. reflexivity. }
    split; [|exact Hs'].
    unfold statusHistory, snapshots in *. rewrite Hpast.
    change (List.map ?f (?a :: ?l)) with (f a :: List.map f l).
    apply chain_rev_cons. split; [exact Hc|]. simpl.
    fold (statusAt analysisId (db st')). fold (statusAt analysisId (db st)). rewrite Hs, Hs'.
    right. right. exists s, s'. auto.
  - split.
    + unfold statusHistory, snapshots in *. rewrite Hdb, Hpast. exact Hc.
    + rewrite Hdb. exact Hs.
Qed.

Lemma codeTransition_source (s s' : Status) :
  codeTransition s s' = true -> s <> completed /\ s <> failed.
Proof. destruct s, s'; simpl; intros H; (discriminate || split; discriminate). Qed.

Lemma datedAt_quiet {A} (m : M A) (s : Status) (st : St) :
  quiet m -> datedAt analysisId s st -> datedAt analysisId s (snd (m st)).
Proof.
  intros Hq [Hall Hnone]. destruct (Hq st) as [hs [Hp Hv]].
  unfold datedAt, snapshots in *. inversion Hall as [|? ? Hdb Hpast]; subst.
  split.
  - rewrite Hp.
    assert (Hnew : Forall storeInv (db (snd (m st)) :: hs)).
    { eapply Forall_impl; [exact Hv|]. intros d Hd.
      eapply sameViews_storeInv; eassumption. }
    inversion Hnew; subst. constructor; [assumption|].
    apply Forall_app. split; assumption.
  - intros Hs a Ha. inversion Hv as [|? ? Hnow _]; subst.
    pose proof (sameViews_completedAt _ _ analysisId Hnow) as Hc.
    rewrite Ha in Hc. simpl in Hc.
    destruct (analyses (db st) !! analysisId) as [a0|] eqn:Ha0; [|discriminate].
    simpl in Hc. injection Hc as ->. apply (Hnone Hs a0). reflexivity.
Qed.

(** A write that keeps [storeInv]: a status other than [completed] without
    a date, or [completed] with a date. *)
Lemma datedAt_write (p : Patch) (s s' : Status) (st : St) :
  p_status p = Some s' ->
  (s' <> completed /\ p_completedAt p = None \/
   s' = completed /\ exists date, p_completedAt p = Some (Some date)) ->
  s <> completed -> datedAt analysisId s st ->
  match updateAnalysis (faults W) analysisId p st with
  | (Ok _, st') => datedAt analysisId s' st'
  | (Throw _, st') => datedAt analysisId s st'
  end.
Proof.
  intros Hp Hkind Hs [Hall Hnone].
  destruct (updateAnalysis_run W analysisId p st) as [(Hr & Hdb & Hpast)|([e Hr] & Hdb & Hpast)];
    destruct (updateAnalysis (faults W) analysisId p st) as [r st']; simpl in *; subst r.
  - unfold datedAt, snapshots in *. inversion Hall as [|? ? Hd _]; subst.
    assert (Hrow : forall a', analyses (db st') !! analysisId = Some a' ->
                   status a' = s' /\
                   completedAt a' = setCol (p_completedAt p) None).
    { intros a'. rewrite Hdb. simpl. rewrite lookup_alter_eq.
      destruct (analyses (db st) !! analysisId) as [a|] eqn:Ha; simpl; [|discriminate].
      intros [= <-]. simpl. rewrite (Hnone Hs a eq_refl).
      unfold setCol at 1. rewrite Hp. auto. }
    split.
    + rewrite Hpast. constructor; [|exact Hall].
      intros i a' Ha'. destruct (decide (i = analysisId)) as [->|Hne].
      * destruct (Hrow a' Ha') as [Hst Hco]. unfold rowInv. rewrite Hst, Hco.
        destruct Hkind as [[Hne Hnd]|[-> [date Hd']]].
        -- rewrite Hnd. simpl. tauto.
        -- rewrite Hd'. simpl. split; [reflexivity|discriminate].
      * rewrite Hdb in Ha'. simpl in Ha'.
        rewrite lookup_alter_ne in Ha' by congruence. exact (Hd i a' Ha').
    + intros Hs' a' Ha'. destruct (Hrow a' Ha') as [_ ->].
      destruct Hkind as [[_ ->]|[-> _]]; [reflexivity|congruence].
  - unfold datedAt, snapshots in *. rewrite Hdb, Hpast. split; [exact Hall|].
    intros _. apply Hnone, Hs.
Qed.

(** The legality of the history survives a run. *)
Lemma run_legal (st : St) :
  legalAt analysisId pending st ->
  chain (observed codeTransition)
        (statusHistory analysisId (snd (runCompetitiveAnalysis W analysisId st))).
Proof.
  intros H.
  destruct (run_phase W analysisId (legalAt analysisId)) with (st := st) as [s [Hc _]];
    [ intros; apply legalAt_quiet; assumption
    | intros s s' st0 HT _ HP; apply (legalAt_write (statusPatch s') s s' st0 eq_refl HT HP)
    | intros b a date st0 HP; apply (legalAt_write (completedPatch b a date) analyzing completed st0 eq_refl eq_refl HP)
    | exact H
    | exact Hc ].
Qed.

(** [storeInv] survives a run. *)
Lemma run_dated (st : St) :
  datedAt analysisId pending st ->
  Forall storeInv (snapshots (snd (runCompetitiveAnalysis W analysisId st))).
Proof.
  intros H.
  destruct (run_phase W analysisId (datedAt analysisId)) with (st := st) as [s [Hc _]];
    [ intros; apply datedAt_quiet; assumption
    | intros s s' st0 HT Hs' HP;
      apply (datedAt_write (statusPatch s') s s' st0 eq_refl); auto;
      apply (codeTransition_source _ _ HT)
    | intros b a date st0 HP;
      apply (datedAt_write (completedPatch b a date) analyzing completed st0 eq_refl); eauto; discriminate
    | exact H
    | exact Hc ].
Qed.

End RunFacts.

(** The history of a record from its creation by [analysis.create] to the
    end of its pipeline. *)
Lemma create_legal (W : Pipeline.World) (ctxUserId : option Z)
    (input : Pipeline.CreateInput) (d : Schema.DB) :
  Schema.analyses d !! Schema.nextAnalysisId d = None ->
  Observe.chain (Observe.observed Observe.codeTransition)
    (Observe.statusHistory (Schema.nextAnalysisId d)
       (snd (Pipeline.create W ctxUserId input (Runtime.initial d)))).
Proof.
  intros Hfresh.
  assert (H0 : Observe.statusAt (Schema.nextAnalysisId d) d = None)
    by (unfold Observe.statusAt; rewrite Hfresh; reflexivity).
  unfold Pipeline.create. rewrite bind_run.
  unfold Store.createAnalysis at 1. rewrite bind_run. unfold Store.getDb at 1.
  cbn [Runtime.initial Runtime.getDbCalls Runtime.db Runtime.past Runtime.events
       Runtime.queries negb].
  destruct (Store.dbAvailable (Pipeline.faults W) 0); cbn [negb].
  2: { simpl. exact I. }
  unfold Store.query.
  cbn [Runtime.getDbCalls Runtime.db Runtime.past Runtime.events Runtime.queries].
  destruct (Store.queryFault (Pipeline.faults W) 0).
  { simpl. exact I. }
  match goal with |- context [Runtime.bind _ _ ?st] => set (st1 := st) end.
  assert (H1 : Observe.legalAt (Schema.nextAnalysisId d) Model.pending st1).
  { assert (Hs : Observe.statusAt (Schema.nextAnalysisId d) (Runtime.db st1)
                 = Some Model.pending).
    { subst st1. unfold Observe.statusAt. simpl. rewrite lookup_insert_eq. reflexivity. }
    split; [|exact Hs].
    unfold Observe.statusHistory, Runtime.snapshots. subst st1.
    cbn [Runtime.db Runtime.past List.map rev app].
    fold (Observe.statusAt (Schema.nextAnalysisId d) d). rewrite H0.
    unfold Observe.statusAt in Hs. cbn [Runtime.db] in Hs. rewrite Hs.
    split; [|exact I]. right. left. split; reflexivity. }
  pose proof (run_legal W _ st1 H1) as Hrun.
  rewrite bind_run. unfold Runtime.tryCatch.
  destruct (Pipeline.runCompetitiveAnalysis W (Schema.nextAnalysisId d) st1)
    as [[[]|e] st2]; simpl in *; exact Hrun.
Qed.

(** C3 (as amended).  Along a run of the pipeline on a pending record, and
    likewise from the creation of a record by [analysis.create] to the end of
    its pipeline, the stored status only ever makes the transitions pending
    to collecting, collecting to analyzing, analyzing to completed, and to
    failed from pending, collecting or analyzing: it never moves backward,
    never skips collecting or analyzing on the way to completed, and never
    leaves completed or failed. *)
Theorem status_history_moves_forward (W : Pipeline.World) (analysisId : Z)
    (d : Schema.DB) (a : Schema.Analysis) :
  Schema.analyses d !! analysisId = Some a ->
  Schema.status a = Model.pending ->
  Observe.chain (Observe.observed Observe.codeTransition)
    (Observe.statusHistory analysisId
       (snd (Pipeline.runCompetitiveAnalysis W analysisId (Runtime.initial d)))) /\
  (forall ctxUserId input d0,
     Schema.analyses d0 !! Schema.nextAnalysisId d0 = None ->
     Observe.chain (Observe.observed Observe.codeTransition)
       (Observe.statusHistory (Schema.nextAnalysisId d0)
          (snd (Pipeline.create W ctxUserId input (Runtime.initial d0))))) /\
  (forall s s',
     Observe.codeTransition s s' = true <->
     Observe.specTransition s s' = true \/ (s = Model.pending /\ s' = Model.failed)) /\
  (forall s',
     Observe.codeTransition Model.completed s' = false /\
     Observe.codeTransition Model.failed s' = false) /\
  (forall s, Observe.codeTransition s Model.completed = true -> s = Model.analyzing) /\
  (forall s, Observe.codeTransition s Model.analyzing = true -> s = Model.collecting) /\
  (forall s, Observe.codeTransition s Model.collecting = true -> s = Model.pending).
Proof.
  intros Ha Hs. split.
  - apply run_legal. split.
    + simpl. exact I.
    + unfold Observe.statusAt. simpl. rewrite Ha. simpl. rewrite Hs. reflexivity.
  - split; [intros; apply create_legal; assumption|].
    repeat split; try (destruct s'; reflexivity);
      try (destruct s; simpl; intros; (reflexivity || discriminate)).
    + destruct s, s'; simpl; intros; (discriminate || auto).
    + destruct s, s'; simpl; intros [H|[H1 H2]];
        (reflexivity || discriminate).
Qed.

Lemma status_history_moves_forward_witness :
  Observe.chain (Observe.observed Observe.codeTransition)
    (Observe.statusHistory 1
       (snd (Pipeline.runCompetitiveAnalysis Examples.calmWorld 1
               (Runtime.initial Examples.oneAnalysis)))).
Proof.
  assert (Ha : Schema.analyses Examples.oneAnalysis !! 1 = Some Examples.pendingRow)
    by (vm_compute; reflexivity).
  exact (proj1 (status_history_moves_forward Examples.calmWorld 1
                  Examples.oneAnalysis Examples.pendingRow Ha eq_refl)).
Defined.

(** C3 (as stated) fails: when the write of [collecting] rejects and the
    write of the [catch] block succeeds, the record goes from pending to
    failed. *)
Lemma status_pending_to_failed :
  Schema.analyses Examples.oneAnalysis !! 1 = Some Examples.pendingRow /\
  Schema.status Examples.pendingRow = Model.pending /\
  Observe.statusHistory 1
    (snd (Pipeline.runCompetitiveAnalysis (Examples.worldWith (Examples.queryFails 0)) 1
            (Runtime.initial Examples.oneAnalysis)))
  = [Some Model.pending; Some Model.failed] /\
  ~ Observe.chain (Observe.observed Observe.specTransition)
      (Observe.statusHistory 1
         (snd (Pipeline.runCompetitiveAnalysis
                 (Examples.worldWith (Examples.queryFails 0)) 1
                 (Runtime.initial Examples.oneAnalysis)))).
Proof.
  assert (H : Observe.statusHistory 1
    (snd (Pipeline.runCompetitiveAnalysis (Examples.worldWith (Examples.queryFails 0)) 1
            (Runtime.initial Examples.oneAnalysis)))
    = [Some Model.pending; Some Model.failed]) by (vm_compute; reflexivity).
  split; [vm_compute; reflexivity|]. split; [reflexivity|]. split; [exact H|].
  rewrite H. simpl. intros [[Heq|[[Hn _]|(s & s' & Hs & Hs' & HT)]] _].
  - discriminate.
  - discriminate.
  - injection Hs as <-. injection Hs' as <-. discriminate.
Qed.

(** C8.  Whatever the collaborators and the database do, if [completedAt]
    is set exactly on the completed records before [analysis.create] is
    called, then it is so in every content the database takes from the
    creation of the record to the end of its pipeline: creation leaves the
    date null, the writes of a status other than completed carry no date, and
    the write of completed carries one. *)
Theorem completedAt_iff_completed (W : Pipeline.World) (ctxUserId : option Z)
    (input : Pipeline.CreateInput) (d : Schema.DB) :
  Observe.storeInv d ->
  Forall Observe.storeInv
    (Runtime.snapshots (snd (Pipeline.create W ctxUserId input (Runtime.initial d)))) /\
  (forall rowId data, Schema.completedAt (Schema.newRow rowId data) = None) /\
  (forall s, Schema.p_completedAt (Pipeline.statusPatch s) = None) /\
  (forall blogPost adCopy date,
     Schema.p_status (Pipeline.completedPatch blogPost adCopy date) = Some Model.completed /\
     Schema.p_completedAt (Pipeline.completedPatch blogPost adCopy date) = Some (Some date)).
Proof.
  intros Hd. split; [|repeat split].
  unfold Pipeline.create. rewrite bind_run.
  unfold Store.createAnalysis at 1. rewrite bind_run. unfold Store.getDb at 1.
  cbn [Runtime.initial Runtime.getDbCalls Runtime.db Runtime.past Runtime.events
       Runtime.queries negb].
  destruct (Store.dbAvailable (Pipeline.faults W) 0); cbn [negb].
  2: { simpl. constructor; [exact Hd|constructor]. }
  unfold Store.query.
  cbn [Runtime.getDbCalls Runtime.db Runtime.past Runtime.events Runtime.queries].
  destruct (Store.queryFault (Pipeline.faults W) 0).
  { simpl. constructor; [exact Hd|constructor]. }
  match goal with |- context [Runtime.bind _ _ ?st] => set (st1 := st) end.
  assert (H1 : Observe.datedAt (Schema.nextAnalysisId d) Model.pending st1).
  { split.
    - subst st1. unfold Runtime.snapshots. simpl.
      constructor; [|constructor; [exact Hd|constructor]].
      intros i a. simpl. rewrite lookup_insert.
      destruct (decide (Schema.nextAnalysisId d = i)).
      + intros [= <-]. unfold Observe.rowInv. simpl. split; [congruence|discriminate].
      + apply Hd.
    - intros _ a. subst st1. simpl. rewrite lookup_insert_eq.
      intros [= <-]. reflexivity. }
  pose proof (run_dated W _ st1 H1) as Hrun.
  rewrite bind_run. unfold Runtime.tryCatch.
  destruct (Pipeline.runCompetitiveAnalysis W (Schema.nextAnalysisId d) st1)
    as [[[]|e] st2]; simpl in *; exact Hrun.
Qed.

Lemma completedAt_iff_completed_witness :
  Forall Observe.storeInv
    (Runtime.snapshots
       (snd (Pipeline.create Examples.calmWorld None Examples.joes
               (Runtime.initial Examples.emptyDB)))).
Proof.
  assert (Hd : Observe.storeInv Examples.emptyDB).
  { intros i a H. unfold Examples.emptyDB in H. cbn [Schema.analyses] in H.
    rewrite lookup_empty in H. discriminate. }
  exact (proj1 (completedAt_iff_completed Examples.calmWorld None Examples.joes
                  Examples.emptyDB Hd)).
Defined.

(** ** Where a run stops *)

Section TrackFacts.
Import Model Schema Runtime Observe Store Pipeline.

Lemma tracks_logs {A} (m : M A) :
  onlyLogs m ->
  (forall st e, fst (m st) = Throw e ->
     exists evs0 ev, snd (m st) = logged st (evs0 ++ [ev]) /\ raises ev e) ->
  tracks m.
Proof.
  intros Hl Hr st. destruct (Hl st) as [evs Hst]. exists evs.
  split; [rewrite Hst; reflexivity|].
  intros e He. destruct (Hr st e He) as (evs0 & ev & Hst' & Hraise).
  exists evs0, ev. split; [|exact Hraise].
  rewrite Hst in Hst'. unfold logged in Hst'. injection Hst' as Heq.
  apply app_inv_head in Heq. exact Heq.
Qed.

Lemma tracks_resolving {A} (m : M A) : onlyLogs m -> resolves m -> tracks m.
Proof.
  intros Hl Hr. apply tracks_logs; [exact Hl|].
  intros st e He. destruct (Hr st) as [a Ha]. congruence.
Qed.

Lemma tracks_ret {A} (a : A) : tracks (ret a).
Proof.
  apply tracks_resolving; [apply onlyLogs_ret|]. intros st. exists a. reflexivity.
Qed.

Lemma tracks_emit (ev : Event) : tracks (emit ev).
Proof.
  apply tracks_resolving; [apply onlyLogs_emit|]. intros st. exists tt. reflexivity.
Qed.

Lemma tracks_throw {A} (e : Error) : tracks (@throw A e).
Proof.
  apply tracks_logs; [apply onlyLogs_throw|].
  intros st e' [= <-]. exists [], (Thrown e). split; [reflexivity|]. left. reflexivity.
Qed.

Lemma tracks_call {A} (c : Call) (r : Outcome A) : tracks (call c r).
Proof.
  apply tracks_logs; [apply onlyLogs_call|].
  intros st e He. simpl in He. subst r.
  exists [], (Called c (Some e)). split; [reflexivity|]. right. eauto.
Qed.

Lemma tracks_bind {A B} (m : M A) (k : A -> M B) :
  tracks m -> (forall a, tracks (k a)) -> tracks (bind m k).
Proof.
  intros Hm Hk st. rewrite bind_run.
  destruct (Hm st) as [evs [Hev Hthrow]].
  destruct (m st) as [[a|e] st1]; simpl in *.
  - destruct (Hk a st1) as [evs' [Hev' Hthrow']].
    exists (evs ++ evs')%list. split; [rewrite Hev', Hev, app_assoc; reflexivity|].
    intros e He. destruct (Hthrow' e He) as (evs0 & ev & -> & Hraise).
    exists (evs ++ evs0)%list, ev. split; [rewrite app_assoc; reflexivity|exact Hraise].
  - exists evs. split; [exact Hev|].
    intros e' [= <-]. apply Hthrow. reflexivity.
Qed.

Variable F : Faults.

Lemma tracks_getDb : tracks (getDb F).
Proof.
  intros st. exists []. simpl. split; [rewrite app_nil_r; reflexivity|discriminate].
Qed.

Lemma tracks_query {A} (q : Query) (effect : DB -> DB) (result : DB -> A) :
  tracks (query F q effect result).
Proof.
  intros st. unfold query. destruct (queryFault F (queries st)) as [e|]; simpl.
  - eexists. split; [reflexivity|]. intros e' [= <-].
    exists [], (Called (QueryCall q) (Some e)). split; [reflexivity|]. right. eauto.
  - eexists. split; [reflexivity|]. discriminate.
Qed.

End TrackFacts.

Ltac tracks_auto :=
  repeat first
    [ apply tracks_ret
    | apply tracks_throw
    | apply tracks_call
    | apply tracks_emit
    | apply tracks_getDb
    | apply tracks_query
    | match goal with
      | |- Observe.tracks (if ?b then _ else _) => destruct b
      | |- Observe.tracks (match ?o with _ => _ end) => destruct o
      end
    | apply tracks_bind; [|intros ?] ].

Section TrackPipeline.
Import Model Schema Runtime Observe Store Pipeline.
Variable W : World.
Variable analysisId : Z.

Lemma tracks_updateAnalysis (i : Z) (p : Patch) : tracks (updateAnalysis (faults W) i p).
Proof. unfold updateAnalysis. tracks_auto. Qed.

Lemma tracks_getAnalysisById (i : Z) : tracks (getAnalysisById (faults W) i).
Proof. unfold getAnalysisById. tracks_auto. Qed.

Lemma tracks_getCompetitors (i : Z) : tracks (getCompetitorsByAnalysisId (faults W) i).
Proof. unfold getCompetitorsByAnalysisId. tracks_auto. Qed.

Lemma tracks_createCompetitors (data : list CompetitorData) :
  tracks (createCompetitors (faults W) data).
Proof. unfold createCompetitors. tracks_auto. Qed.

Lemma tracks_analyzeCompetitors (targetSeoData : option SeoService.SEOAnalysisResult)
    (discovered : list DiscoveredCompetitor) :
  tracks (analyzeCompetitors W analysisId targetSeoData discovered).
Proof.
  apply tracks_resolving; [apply onlyLogs_analyzeCompetitors|].
  intros st.
  destruct (analyzeCompetitors_run W analysisId targetSeoData discovered st) as [evs ->].
  eexists. reflexivity.
Qed.

Lemma tracks_collect : tracks (collect W analysisId).
Proof.
  unfold collect, resolveIndustry. cbv zeta.
  repeat first
    [ apply tracks_updateAnalysis | apply tracks_getAnalysisById
    | apply tracks_createCompetitors | apply tracks_analyzeCompetitors
    | apply tracks_ret | apply tracks_throw | apply tracks_call
    | match goal with
      | |- tracks (if ?b then _ else _) => destruct b
      | |- tracks (match ?o with _ => _ end) => destruct o
      end
    | apply tracks_bind; [|intros ?] ].
Qed.

Lemma tracks_insights (analysis : Analysis) : tracks (insights W analysisId analysis).
Proof.
  unfold insights.
  repeat first
    [ apply tracks_updateAnalysis | apply tracks_getAnalysisById
    | apply tracks_getCompetitors | apply tracks_ret | apply tracks_call
    | apply tracks_bind; [|intros ?] ].
Qed.

Lemma tracks_content (saved : list CompetitorData) : tracks (content W analysisId saved).
Proof.
  unfold content, generateContent, idOf. cbv zeta.
  repeat first
    [ apply tracks_updateAnalysis | apply tracks_getAnalysisById
    | apply tracks_ret | apply tracks_throw | apply tracks_call
    | match goal with
      | |- tracks (if ?b then _ else _) => destruct b
      | |- tracks (match ?o with _ => _ end) => destruct o
      end
    | apply tracks_bind; [|intros ?] ].
Qed.

(** When the [try] block rejects, the last thing it did is the event that
    raised the error. *)
Lemma tracks_tryBlock : tracks (tryBlock W analysisId).
Proof.
  unfold tryBlock.
  apply tracks_bind; [apply tracks_updateAnalysis|]. intros _.
  apply tracks_bind; [apply tracks_collect|]. intros analysis.
  apply tracks_bind; [apply tracks_updateAnalysis|]. intros _.
  apply tracks_bind; [apply tracks_insights|]. intros saved.
  apply tracks_content.
Qed.

End TrackPipeline.

Section CatchFacts.
Import Model Schema Runtime Observe Store Pipeline.
Variable W : World.
Variable analysisId : Z.

(** [updateAnalysis] leaves exactly one event: the query, or the [throw] of
    the missing database. *)
Lemma updateAnalysis_cases (p : Patch) (st : St) :
  updateAnalysis (faults W) analysisId p st =
    (Ok tt,
     mkSt (mkDB (alter (applyPatch p) analysisId (analyses (db st)))
                (competitors (db st)) (nextAnalysisId (db st)))
          (db st :: past st)
          (events st ++ [Called (QueryCall (UpdateAnalysisQ analysisId p)) None])
          (S (getDbCalls st)) (S (queries st))) \/
  exists e ev n,
    updateAnalysis (faults W) analysisId p st =
      (Throw e, mkSt (db st) (past st) (events st ++ [ev]) (S (getDbCalls st)) n) /\
    raises ev e.
Proof.
  unfold updateAnalysis, getDb, bind, query, throw, logged.
  destruct (dbAvailable (faults W) (getDbCalls st)); simpl.
  - destruct (queryFault (faults W) (queries st)) as [e|]; simpl.
    + right. do 3 eexists. split; [reflexivity|]. right. eauto.
    + left. reflexivity.
  - right. do 3 eexists. split; [reflexivity|]. left. reflexivity.
Qed.

Lemma catchBlock_run (e : Error) (st : St) :
  catchBlock W analysisId e st =
  match updateAnalysis (faults W) analysisId (statusPatch failed)
          (logged st [ConsoleError e]) with
  | (Ok _, st2) => (Throw e, st2)
  | (Throw e', st2) => (Throw e', st2)
  end.
Proof. reflexivity. Qed.

End CatchFacts.

Ltac st_simpl :=
  cbn [fst snd negb Runtime.logged Runtime.db Runtime.past Runtime.events
       Runtime.getDbCalls Runtime.queries].

(** C4 (as amended).  When a stage of the [try] block of
    [runCompetitiveAnalysis] raises an error that nothing catches, the block
    stops there: the raising event is the last one of the block, so no later
    stage runs and nothing is retried.  The [catch] block then logs the error
    and issues one write of the status failed.  If that write succeeds the
    record is failed, its completion date is untouched, and
    [runCompetitiveAnalysis] re-throws the triggering error to its caller; if
    the write rejects the database is left as it was and the error of the
    write is thrown instead.  The caller, [analysis.create], swallows the
    rejection in a [.catch] that only logs it: the route fails only when the
    creation of the record does. *)
Theorem failure_is_logged_marked_and_rethrown (W : Pipeline.World)
    (analysisId : Z) (st st1 : Runtime.St) (e : Model.Error) :
  Pipeline.tryBlock W analysisId st = (Model.Throw e, st1) ->
  (exists evs ev,
     Runtime.events st1 = (Runtime.events st ++ evs ++ [ev])%list /\
     Observe.raises ev e) /\
  (exists r st2,
     Store.updateAnalysis (Pipeline.faults W) analysisId
       (Pipeline.statusPatch Model.failed)
       (Runtime.logged st1 [Runtime.ConsoleError e]) = (r, st2) /\
     snd (Pipeline.runCompetitiveAnalysis W analysisId st) = st2 /\
     (exists ev',
        Runtime.events st2 = (Runtime.events st1 ++ [Runtime.ConsoleError e; ev'])%list) /\
     match r with
     | Model.Ok _ =>
         fst (Pipeline.runCompetitiveAnalysis W analysisId st) = Model.Throw e /\
         Observe.statusAt analysisId (Runtime.db st2) =
           (fun _ => Model.failed) <$> Observe.statusAt analysisId (Runtime.db st1) /\
         Schema.completedAt <$> Schema.analyses (Runtime.db st2) !! analysisId =
           Schema.completedAt <$> Schema.analyses (Runtime.db st1) !! analysisId
     | Model.Throw e' =>
         fst (Pipeline.runCompetitiveAnalysis W analysisId st) = Model.Throw e' /\
         Runtime.db st2 = Runtime.db st1
     end) /\
  fst (Runtime.tryCatch (Pipeline.runCompetitiveAnalysis W analysisId)
         (fun err => Runtime.console_error err) st) = Model.Ok tt /\
  (forall ctxUserId input st0,
     (exists i, fst (Pipeline.create W ctxUserId input st0) = Model.Ok (i, Model.pending)) \/
     (exists data e0,
        fst (Store.createAnalysis (Pipeline.faults W) data st0) = Model.Throw e0 /\
        fst (Pipeline.create W ctxUserId input st0) = Model.Throw e0)).
Proof.
  intros Htry.
  split.
  { destruct (tracks_tryBlock W analysisId st) as [evs [Hev Hthrow]].
    rewrite Htry in Hev, Hthrow. simpl in Hev, Hthrow.
    destruct (Hthrow e eq_refl) as (evs0 & ev & -> & Hraise).
    exists evs0, ev. split; [exact Hev|exact Hraise]. }
  assert (Hrun : Pipeline.runCompetitiveAnalysis W analysisId st =
                 Pipeline.catchBlock W analysisId e st1).
  { unfold Pipeline.runCompetitiveAnalysis, Runtime.tryCatch. rewrite Htry. reflexivity. }
  split.
  { rewrite Hrun, catchBlock_run.
    destruct (updateAnalysis_cases W analysisId (Pipeline.statusPatch Model.failed)
                (Runtime.logged st1 [Runtime.ConsoleError e]))
      as [Hok|(e' & ev' & n & Hko & _)].
    - rewrite Hok. do 2 eexists. split; [reflexivity|]. st_simpl.
      split; [reflexivity|].
      split; [eexists; rewrite <- app_assoc; reflexivity|].
      split; [reflexivity|]. unfold Observe.statusAt. cbn [Schema.analyses].
      rewrite lookup_alter_eq.
      destruct (Schema.analyses (Runtime.db st1) !! analysisId); split; reflexivity.
    - rewrite Hko. do 2 eexists. split; [reflexivity|]. st_simpl.
      split; [reflexivity|].
      split; [eexists; rewrite <- app_assoc; reflexivity|].
      split; reflexivity. }
  split.
  { unfold Runtime.tryCatch.
    destruct (Pipeline.runCompetitiveAnalysis W analysisId st) as [[[]|e'] st2];
      reflexivity. }
  intros ctxUserId input st0. unfold Pipeline.create. rewrite bind_run.
  destruct (Store.createAnalysis (Pipeline.faults W) _ st0) as [[i|e0] st'] eqn:Hc.
  - left. exists i. rewrite bind_run. unfold Runtime.tryCatch.
    destruct (Pipeline.runCompetitiveAnalysis W i st') as [[[]|e'] st2]; reflexivity.
  - right. do 2 eexists. rewrite Hc. split; reflexivity.
Qed.

Lemma failure_is_logged_marked_and_rethrown_witness :
  (exists evs ev,
     Runtime.events
       (snd (Pipeline.tryBlock (Examples.worldWith (Examples.queryFails 1)) 1
               (Runtime.initial Examples.oneAnalysis)))
     = (Runtime.events (Runtime.initial Examples.oneAnalysis) ++ evs ++ [ev])%list /\
     Observe.raises ev Examples.connectionReset) /\
  fst (Runtime.tryCatch
         (Pipeline.runCompetitiveAnalysis (Examples.worldWith (Examples.queryFails 1)) 1)
         (fun err => Runtime.console_error err)
         (Runtime.initial Examples.oneAnalysis)) = Model.Ok tt.
Proof.
  assert (Htry :
    Pipeline.tryBlock (Examples.worldWith (Examples.queryFails 1)) 1
      (Runtime.initial Examples.oneAnalysis)
    = (Model.Throw Examples.connectionReset,
       snd (Pipeline.tryBlock (Examples.worldWith (Examples.queryFails 1)) 1
              (Runtime.initial Examples.oneAnalysis))))
    by (vm_compute; reflexivity).
  pose proof (failure_is_logged_marked_and_rethrown _ _ _ _ _ Htry) as H.
  exact (conj (proj1 H) (proj1 (proj2 (proj2 H)))).
Defined.

(** C4 (as stated) fails.  A query that rejects in the collecting stage is
    caught, the record is marked failed, and the same error is thrown again
    by [runCompetitiveAnalysis]; and when the write of the [catch] block
    rejects as well, the record is left in collecting. *)
Lemma failure_reaches_the_caller :
  fst (Pipeline.tryBlock (Examples.worldWith (Examples.queryFails 1)) 1
         (Runtime.initial Examples.oneAnalysis))
  = Model.Throw Examples.connectionReset /\
  Observe.statusAt 1
    (Runtime.db
       (snd (Pipeline.runCompetitiveAnalysis (Examples.worldWith (Examples.queryFails 1)) 1
               (Runtime.initial Examples.oneAnalysis))))
  = Some Model.failed /\
  fst (Pipeline.runCompetitiveAnalysis (Examples.worldWith (Examples.queryFails 1)) 1
         (Runtime.initial Examples.oneAnalysis))
  = Model.Throw Examples.connectionReset /\
  fst (Pipeline.tryBlock (Examples.worldWith (Examples.queriesFailFrom 1)) 1
         (Runtime.initial Examples.oneAnalysis))
  = Model.Throw Examples.connectionReset /\
  Observe.statusAt 1
    (Runtime.db
       (snd (Pipeline.runCompetitiveAnalysis
               (Examples.worldWith (Examples.queriesFailFrom 1)) 1
               (Runtime.initial Examples.oneAnalysis))))
  = Some Model.collecting.
Proof. repeat split; vm_compute; reflexivity. Qed.

(** C1.  The record that the fan-out builds for a competitor carries the
    score of the specification's formula on the four inputs read from that
    record (SEO score, rating, review count, presence of a URL), and the
    threat level is high from 75, medium from 50 and low below.  For an SEO
    score of 80, a rating of 4.5, 200 reviews and a website the score is 100;
    with the four inputs absent it is 50 and the level is medium. *)
Theorem competitive_score_formula (W : Pipeline.World) (analysisId : Z)
    (targetSeoData : option SeoService.SEOAnalysisResult)
    (comp : Model.DiscoveredCompetitor) (st : Runtime.St) :
  (exists rec st',
     Pipeline.analyzeCompetitor W analysisId targetSeoData comp st = (Model.Ok rec, st') /\
     Model.c_competitiveScore rec =
       Some (Scoring.specScore (Model.c_seoScore rec)
               (Model.parseFloat <$> Model.c_googleRating rec)
               (Model.c_googleReviewCount rec)
               (Js.truthyStr (Model.c_url rec))) /\
     Model.c_threatLevel rec = Scoring.specThreat <$> Model.c_competitiveScore rec) /\
  (forall c t,
     Scoring.calculateCompetitiveScore c t =
     Scoring.specScore (Model.c_seoScore c) (Model.parseFloat <$> Model.c_googleRating c)
       (Model.c_googleReviewCount c) (Js.truthyStr (Model.c_url c))) /\
  (forall s,
     (Scoring.getThreatLevel s = Model.high <-> 75 <= s) /\
     (Scoring.getThreatLevel s = Model.medium <-> 50 <= s < 75) /\
     (Scoring.getThreatLevel s = Model.low <-> s < 50)) /\
  Scoring.specScore (Some 80) (Some (9 # 2)) (Some 200) true = 100 /\
  Scoring.specScore None None None false = 50 /\
  Scoring.getThreatLevel 50 = Model.medium /\
  (forall seoScore googleRating reviewCount hasWebsite,
     0 <= Scoring.specScore seoScore googleRating reviewCount hasWebsite <= 100).
Proof.
  split; [|split; [|split; [|split; [|split; [|split]]]]].
  - destruct (analyzeCompetitor_run W analysisId targetSeoData comp st) as [evs Hrun].
    do 2 eexists. split; [exact Hrun|].
    unfold Pipeline.finalize. cbv zeta.
    cbn [Model.c_competitiveScore Model.c_threatLevel Model.c_seoScore
         Model.c_googleRating Model.c_googleReviewCount Model.c_url].
    rewrite calculateCompetitiveScore_spec.
    cbn [Model.c_seoScore Model.c_googleRating Model.c_googleReviewCount Model.c_url].
    split; reflexivity.
  - intros c t. apply calculateCompetitiveScore_spec.
  - intros s. unfold Scoring.getThreatLevel.
    destruct (75 <=? s) eqn:E1; [apply Z.leb_le in E1|apply Z.leb_gt in E1];
      [|destruct (50 <=? s) eqn:E2; [apply Z.leb_le in E2|apply Z.leb_gt in E2]];
      repeat split; intros; try discriminate; try lia.
  - vm_compute. reflexivity.
  - vm_compute. reflexivity.
  - reflexivity.
  - intros. unfold Scoring.specScore, Scoring.clamp. lia.
Qed.

(** ** The effective industry *)

(** Runs of [analysis.create]: the industry with which discovery is called
    when an industry is supplied, when none is supplied and the detected
    category is specific, and when none is supplied and the detected category
    is generic. *)
Example discovery_industry_examples :
  let industryOf primaryType supplied :=
    Observe.discoveryIndustries
      (Runtime.events
         (snd (Pipeline.create (Examples.worldDetecting primaryType) None
                 (Examples.withIndustry supplied)
                 (Runtime.initial Examples.emptyDB)))) in
  industryOf (Some "cafe") (Some "bakery") = [Some "bakery"] /\
  industryOf (Some "cafe") None = [Some "cafe"] /\
  industryOf (Some "Point Of Interest") None = [None] /\
  industryOf (Some "establishment") (Some "bakery") = [Some "bakery"] /\
  industryOf None None = [None].
Proof. vm_compute. repeat split; reflexivity. Qed.

(** ** Deleting an analysis *)

(** C9.  With a database handle and a first query that goes through,
    [deleteAnalysis (id, userId)] removes every competitor whose [analysisId]
    is [id], whoever owns the analysis, before the ownership-filtered delete
    of the analysis row is issued.  When that second query goes through too,
    the call returns whether a row of that [id] owned by [userId] existed;
    so for an analysis owned by someone else it returns [false] and leaves
    the analysis row as it was, although its competitors are gone. *)
Theorem delete_drops_competitors_before_ownership_check (F : Store.Faults)
    (analysisId owner : Z) (st : Runtime.St) :
  Store.dbAvailable F (Runtime.getDbCalls st) = true ->
  Store.queryFault F (Runtime.queries st) = None ->
  let r := Store.deleteAnalysis F analysisId owner st in
  Schema.competitors (Runtime.db (snd r)) =
    List.filter (fun c => negb (Model.c_analysisId c =? analysisId))
                (Schema.competitors (Runtime.db st)) /\
  (exists rest,
     Runtime.events (snd r) =
       (Runtime.events st ++
        Runtime.Called (Runtime.QueryCall (Runtime.DeleteCompetitorsQ analysisId)) None
          :: rest)%list) /\
  (Store.queryFault F (S (Runtime.queries st)) = None ->
   fst r = Model.Ok (Store.ownedRow (Runtime.db st) analysisId owner) /\
   Schema.analyses (Runtime.db (snd r)) =
     (if Store.ownedRow (Runtime.db st) analysisId owner
      then delete analysisId (Schema.analyses (Runtime.db st))
      else Schema.analyses (Runtime.db st)) /\
   Runtime.events (snd r) =
     (Runtime.events st ++
      [Runtime.Called (Runtime.QueryCall (Runtime.DeleteCompetitorsQ analysisId)) None;
       Runtime.Called (Runtime.QueryCall (Runtime.DeleteAnalysisQ analysisId owner)) None])%list /\
   (forall a,
      Schema.analyses (Runtime.db st) !! analysisId = Some a ->
      Schema.userId a <> owner ->
      fst r = Model.Ok false /\
      Schema.analyses (Runtime.db (snd r)) !! analysisId = Some a /\
      Forall (fun c => Model.c_analysisId c <> analysisId)
             (Schema.competitors (Runtime.db (snd r))))).
Proof.
  intros Hav Hq1 r. subst r.
  unfold Store.deleteAnalysis, Store.getDb, Runtime.bind, Store.query, Runtime.ret.
  st_simpl. rewrite Hav. st_simpl. rewrite Hq1. st_simpl.
  set (kept := List.filter _ (Schema.competitors (Runtime.db st))).
  assert (Hkept : Forall (fun c => Model.c_analysisId c <> analysisId) kept).
  { apply Forall_forall. intros c Hc. apply list_elem_of_In, filter_In in Hc.
    destruct Hc as [_ Hc]. apply negb_true_iff, Z.eqb_neq in Hc. exact Hc. }
  destruct (Store.queryFault F (S (Runtime.queries st))) as [e|] eqn:Hq2; st_simpl.
  - split; [reflexivity|]. split; [eexists; rewrite <- app_assoc; reflexivity|].
    discriminate.
  - unfold Store.ownedRow. cbn [Schema.analyses Schema.competitors].
    destruct (Schema.analyses (Runtime.db st) !! analysisId) as [a0|] eqn:Ha.
    + destruct (Schema.userId a0 =? owner) eqn:Ho; cbn [Schema.competitors Schema.analyses].
      * split; [reflexivity|]. split; [eexists; rewrite <- app_assoc; reflexivity|].
        intros _. split; [reflexivity|]. split; [reflexivity|].
        split; [rewrite <- app_assoc; reflexivity|].
        intros a [= <-] Hne. apply Z.eqb_eq in Ho. contradiction.
      * split; [reflexivity|]. split; [eexists; rewrite <- app_assoc; reflexivity|].
        intros _. split; [reflexivity|]. split; [reflexivity|].
        split; [rewrite <- app_assoc; reflexivity|].
        intros a [= <-] Hne. split; [reflexivity|]. split; [exact Ha|exact Hkept].
    + cbn [Schema.competitors Schema.analyses].
      split; [reflexivity|]. split; [eexists; rewrite <- app_assoc; reflexivity|].
      intros _. split; [reflexivity|]. split; [reflexivity|].
      split; [rewrite <- app_assoc; reflexivity|].
      intros a Hs. discriminate.
Qed.

Lemma delete_drops_competitors_before_ownership_check_witness :
  fst (Store.deleteAnalysis Examples.noFaults 1 8 (Runtime.initial Examples.oneAnalysis))
    = Model.Ok false /\
  Schema.analyses
    (Runtime.db (snd (Store.deleteAnalysis Examples.noFaults 1 8
                        (Runtime.initial Examples.oneAnalysis)))) !! 1
    = Some Examples.pendingRow /\
  Forall (fun c => Model.c_analysisId c <> 1)
    (Schema.competitors
       (Runtime.db (snd (Store.deleteAnalysis Examples.noFaults 1 8
                           (Runtime.initial Examples.oneAnalysis))))).
Proof.
  assert (Ha : Schema.analyses (Runtime.db (Runtime.initial Examples.oneAnalysis)) !! 1
               = Some Examples.pendingRow) by (vm_compute; reflexivity).
  assert (Hne : Schema.userId Examples.pendingRow <> 8) by discriminate.
  pose proof (delete_drops_competitors_before_ownership_check Examples.noFaults 1 8
                (Runtime.initial Examples.oneAnalysis) eq_refl eq_refl) as H.
  exact (proj2 (proj2 (proj2 (proj2 (proj2 H) eq_refl))) _ Ha Hne).
Defined.

(** ** The circuit breaker *)

Section BreakerFacts.
Import Model Breaker.

(** At rest a breaker with a positive threshold is closed or open, and open
    exactly when the failure count has reached the threshold. *)
Lemma use_invariant (th : Z) (cb : CircuitBreaker) (u : Use) :
  1 <= th ->
  threshold cb = th /\ state cb <> half_open /\ (state cb = open <-> th <= failures cb) ->
  threshold (use cb u) = th /\ state (use cb u) <> half_open /\
  (state (use cb u) = open <-> th <= failures (use cb u)).
Proof.
  intros Hth (Ht & Hh & Ho). destruct u as [tEnter tSettle rejects|].
  - unfold use, execute, enter, wrapped.
    destruct (state cb) eqn:Hs; cbn [isOpen]; [| |congruence].
    + destruct rejects; cbn [fst snd settle isHalfOpen state failures threshold];
        rewrite ?Hs; cbn [isHalfOpen].
      * rewrite Ht. destruct (th <=? failures cb + 1) eqn:E;
          [apply Z.leb_le in E|apply Z.leb_gt in E];
          (split; [reflexivity|]); (split; [discriminate|]);
          split; intros; (lia || discriminate || reflexivity).
      * rewrite Hs. split; [exact Ht|]. split; [discriminate|]. exact Ho.
    + assert (Hf : th <= failures cb) by (apply Ho; reflexivity).
      destruct (resetTimeout cb <=? tEnter - lastFailureTime cb).
      * destruct rejects; cbn [fst snd settle isHalfOpen state failures threshold].
        -- rewrite Ht. destruct (th <=? failures cb + 1) eqn:E;
             [apply Z.leb_le in E|apply Z.leb_gt in E; lia].
           split; [reflexivity|]. split; [discriminate|]. split; intros; [lia|reflexivity].
        -- split; [exact Ht|]. split; [discriminate|]. split; intros; [discriminate|lia].
      * cbn [fst snd]. rewrite Hs. split; [exact Ht|]. split; [discriminate|]. exact Ho.
  - cbn [use reset threshold state failures].
    split; [exact Ht|]. split; [discriminate|]. split; intros; [discriminate|lia].
Qed.

Lemma uses_invariant (th : Z) (us : list Use) (cb : CircuitBreaker) :
  1 <= th ->
  threshold cb = th /\ state cb <> half_open /\ (state cb = open <-> th <= failures cb) ->
  state (uses cb us) <> half_open /\
  (state (uses cb us) = open <-> th <= failures (uses cb us)).
Proof.
  intros Hth. revert cb. induction us as [|u us IH]; intros cb Hinv.
  - simpl. tauto.
  - simpl. apply IH. apply use_invariant; assumption.
Qed.

End BreakerFacts.

(** C10.  A new breaker is closed with no failure.  From closed, a call
    opens the breaker exactly when the wrapped function rejects and the
    failure count, once that failure is recorded, has reached the threshold;
    over any history of calls and resets of a breaker whose threshold is at
    least 1, the breaker at rest is open exactly when its failure count has
    reached the threshold.  While open, a call made less than [resetTimeout]
    after the last failure throws without running the wrapped function and
    leaves the breaker as it is; a call made [resetTimeout] or more after it
    runs the function with the breaker half-open, and a success in half-open
    sets the count to 0 and the state to closed. *)
Theorem breaker_state_machine (cb : Breaker.CircuitBreaker) (tEnter tSettle : Z) :
  (forall th to rt,
     Breaker.state (Breaker.new th to rt) = Breaker.closed /\
     Breaker.failures (Breaker.new th to rt) = 0) /\
  (Breaker.state cb = Breaker.closed ->
   forall (T : Type) (r : Model.Outcome T),
     Breaker.enter cb tEnter = Some cb /\
     (Breaker.state (Breaker.settle cb r tSettle) = Breaker.open <->
      (exists e, r = Model.Throw e) /\ Breaker.threshold cb <= Breaker.failures cb + 1) /\
     (forall e, r = Model.Throw e ->
        Breaker.failures (Breaker.settle cb r tSettle) = Breaker.failures cb + 1) /\
     (forall a, r = Model.Ok a -> Breaker.settle cb r tSettle = cb)) /\
  (forall th to rt us,
     1 <= th ->
     Breaker.state (Breaker.uses (Breaker.new th to rt) us) = Breaker.open <->
     th <= Breaker.failures (Breaker.uses (Breaker.new th to rt) us)) /\
  (Breaker.state cb = Breaker.open ->
   tEnter - Breaker.lastFailureTime cb < Breaker.resetTimeout cb ->
   forall (W T : Type) (fn : W -> Model.Outcome T * W) (w : W),
     Breaker.execute cb fn tEnter tSettle w = (Model.Throw Breaker.circuitOpen, cb, w)) /\
  (Breaker.state cb = Breaker.open ->
   Breaker.resetTimeout cb <= tEnter - Breaker.lastFailureTime cb ->
   exists cb1,
     Breaker.enter cb tEnter = Some cb1 /\
     Breaker.state cb1 = Breaker.half_open /\
     Breaker.failures cb1 = Breaker.failures cb /\
     forall (W T : Type) (fn : W -> Model.Outcome T * W) (w : W),
       Breaker.execute cb fn tEnter tSettle w =
       (fst (fn w), Breaker.settle cb1 (fst (fn w)) tSettle, snd (fn w))) /\
  (Breaker.state cb = Breaker.half_open ->
   forall (T : Type) (a : T),
     Breaker.state (Breaker.settle cb (Model.Ok a) tSettle) = Breaker.closed /\
     Breaker.failures (Breaker.settle cb (Model.Ok a) tSettle) = 0).
Proof.
  split; [intros; split; reflexivity|].
  split.
  { intros Hs T r. unfold Breaker.enter, Breaker.settle. rewrite Hs. cbn [Breaker.isOpen Breaker.isHalfOpen].
    split; [reflexivity|]. destruct r as [a|e]; cbn [Breaker.state Breaker.failures].
    - rewrite Hs. split; [|split; [intros; discriminate|reflexivity]].
      split; [discriminate|]. intros [[e He] _]. discriminate.
    - destruct (Breaker.threshold cb <=? Breaker.failures cb + 1) eqn:E;
        [apply Z.leb_le in E|apply Z.leb_gt in E].
      + split; [|split; [reflexivity|intros; discriminate]].
        split; [intros _; split; [eauto|exact E]|reflexivity].
      + split; [|split; [reflexivity|intros; discriminate]].
        split; [discriminate|]. intros [_ H]. lia. }
  split.
  { intros th to rt us Hth.
    apply (uses_invariant th us (Breaker.new th to rt) Hth).
    cbn. split; [reflexivity|]. split; [discriminate|].
    split; intros; [discriminate|lia]. }
  split.
  { intros Hs Hlt W T fn w. unfold Breaker.execute, Breaker.enter.
    rewrite Hs. cbn [Breaker.isOpen].
    destruct (Breaker.resetTimeout cb <=? tEnter - Breaker.lastFailureTime cb) eqn:E;
      [apply Z.leb_le in E; lia|reflexivity]. }
  split.
  { intros Hs Hge. unfold Breaker.execute, Breaker.enter.
    rewrite Hs. cbn [Breaker.isOpen].
    apply Z.leb_le in Hge. rewrite Hge.
    eexists. split; [reflexivity|]. split; [reflexivity|]. split; [reflexivity|].
    intros W T fn w. destruct (fn w) as [r w']. reflexivity. }
  intros Hs T a. unfold Breaker.settle. rewrite Hs. split; reflexivity.
Qed.

Lemma breaker_state_machine_witness :
  Breaker.execute
    (Breaker.uses Breaker.llmCircuitBreaker
       [Breaker.Execute 0 10 true; Breaker.Execute 20 30 true; Breaker.Execute 40 50 true])
    (Breaker.wrapped false) 1000 1010 tt
  = (Model.Throw Breaker.circuitOpen,
     Breaker.uses Breaker.llmCircuitBreaker
       [Breaker.Execute 0 10 true; Breaker.Execute 20 30 true; Breaker.Execute 40 50 true],
     tt).
Proof.
  apply (proj1 (proj2 (proj2 (proj2
           (breaker_state_machine
              (Breaker.uses Breaker.llmCircuitBreaker
                 [Breaker.Execute 0 10 true; Breaker.Execute 20 30 true;
                  Breaker.Execute 40 50 true])
              1000 1010))))).
  - reflexivity.
  - vm_compute. reflexivity.
Defined.

(** ** Competitor discovery *)

Section DiscoveryFacts.
Import Js Model Discovery.
Variable geocodeRequest : string -> Outcome (Response (Q * Q)).
Variable textSearchRequest : Q -> Q -> string -> Outcome (Response (list Place)).
Variable detailsRequest : string -> Outcome (Response Details).

Abbreviation kept target := (fun place : Place => qualifies target (name place)).

Lemma firstn_exact {A} (l rest : list A) (n : nat) :
  List.length l = n -> firstn n (l ++ rest) = l.
Proof.
  intros <-. rewrite firstn_app, Nat.sub_diag, firstn_all. simpl.
  apply app_nil_r.
Qed.

(** The loop returns the first five kept places, in the order of the
    results, after what it had already collected. *)
Lemma searchLoop_spec (target : string) (results : list Place)
    (acc : list DiscoveredCompetitor) :
  (List.length acc < 5)%nat ->
  searchLoop detailsRequest (toLowerCase target) results acc =
  firstn 5 (acc ++ List.map (candidate detailsRequest)
                            (List.filter (kept target) results)).
Proof.
  revert acc. induction results as [|place rest IH]; intros acc Hlen.
  - simpl. rewrite app_nil_r. symmetry. apply firstn_all2. lia.
  - cbn [searchLoop List.filter]. unfold qualifies at 1.
    destruct (selfMatch (toLowerCase target) (name place)); cbn [negb andb];
      [apply IH; exact Hlen|].
    destruct (isLargeDirectory (name place)); cbn [negb];
      [apply IH; exact Hlen|].
    cbn [List.map].
    destruct (5 <=? List.length (acc ++ [candidate detailsRequest place]))%nat eqn:E.
    + apply Nat.leb_le in E. rewrite length_app in E. simpl in E.
      set (more := List.map (candidate detailsRequest) (List.filter (kept target) rest)).
      replace (acc ++ candidate detailsRequest place :: more)%list
        with ((acc ++ [candidate detailsRequest place]) ++ more)%list
        by (rewrite <- app_assoc; reflexivity).
      symmetry. apply firstn_exact.
      rewrite length_app. simpl. lia.
    + apply Nat.leb_gt in E. rewrite IH by exact E.
      rewrite <- app_assoc. reflexivity.
Qed.

Lemma searchNearbyPlaces_spec (lat lng : Q) (query target : string) :
  exists results,
    (results = [] \/
     exists data, textSearchRequest lat lng query = Ok data /\
                  payload data = Some results) /\
    searchNearbyPlaces textSearchRequest detailsRequest lat lng query target =
    List.map (candidate detailsRequest)
             (firstn 5 (List.filter (kept target) results)).
Proof.
  unfold searchNearbyPlaces.
  destruct (textSearchRequest lat lng query) as [data|e] eqn:Hreq;
    [|exists []; split; [left|]; reflexivity].
  destruct (payload data) as [results|] eqn:Hp;
    [|exists []; split; [left|]; reflexivity].
  destruct (String.eqb (status data) "OK"); cbn [negb];
    [|exists []; split; [left|]; reflexivity].
  exists results. split; [right; eauto|].
  rewrite searchLoop_spec by (simpl; lia). simpl app.
  apply firstn_map.
Qed.

Lemma discoverCompetitors_spec (businessName location : string)
    (industry : option string) :
  exists results,
    (results = [] \/
     exists lat lng query data,
       textSearchRequest lat lng query = Ok data /\ payload data = Some results) /\
    discoverCompetitors geocodeRequest textSearchRequest detailsRequest
      businessName location industry =
    List.map (candidate detailsRequest)
             (firstn 5 (List.filter (kept businessName) results)).
Proof.
  unfold discoverCompetitors.
  destruct (geocodeLocation geocodeRequest location) as [[lat lng]|];
    [|exists []; split; [left|]; reflexivity].
  match goal with
  | |- context [searchNearbyPlaces _ _ lat lng ?q businessName] =>
      destruct (searchNearbyPlaces_spec lat lng q businessName)
        as (results & Hres & Heq)
  end.
  exists results. split; [|exact Heq].
  destruct Hres as [->|[data Hd]]; [left; reflexivity|right; eauto].
Qed.

End DiscoveryFacts.

Section BlockListFacts.
Import Js Discovery.

Lemma existsb_false_Forall {A} (f : A -> bool) (l : list A) :
  existsb f l = false <-> Forall (fun x => f x = false) l.
Proof.
  induction l as [|x l IH]; cbn [existsb].
  - split; [constructor|reflexivity].
  - rewrite orb_false_iff, IH. split.
    + intros [H1 H2]. constructor; assumption.
    + intros H. inversion H; subst. split; assumption.
Qed.

(** A place passes the two tests of the loop exactly when its name neither
    contains nor is contained in the name of the target, ignoring case, and
    contains none of the thirteen directory names. *)
Lemma qualifies_spec (target placeName : string) :
  qualifies target placeName = true <->
  includes (toLowerCase placeName) (toLowerCase target) = false /\
  includes (toLowerCase target) (toLowerCase placeName) = false /\
  Forall (fun dir => includes (toLowerCase placeName) dir = false)
         [ "yelp"; "angi"; "angie's list"; "thumbtack"; "homeadvisor";
           "yellowpages"; "yellow pages"; "bbb"; "better business bureau";
           "google"; "facebook"; "linkedin"; "instagram" ].
Proof.
  unfold qualifies, selfMatch, isLargeDirectory, some. cbv zeta.
  rewrite andb_true_iff, !negb_true_iff, orb_false_iff.
  rewrite (existsb_false_Forall _ directories). unfold directories. tauto.
Qed.

End BlockListFacts.

(** C6.  Whatever the Maps requests answer, [discoverCompetitors] returns at
    most five candidates; they are the first five places of the search result
    list, in the order of that list, among those that pass the two filters;
    a place passes them exactly when its name neither contains the target
    name nor is contained in it (ignoring case) and contains none of the
    thirteen names of the block-list; so no returned name does.  A target
    named Joe's Coffee never yields Joe's Coffee Downtown, and the comparison
    ignores the case of accented letters too. *)
Theorem discovery_filters_and_caps
    (geocodeRequest : string -> Model.Outcome (Discovery.Response (Q * Q)))
    (textSearchRequest :
       Q -> Q -> string -> Model.Outcome (Discovery.Response (list Discovery.Place)))
    (detailsRequest : string -> Model.Outcome (Discovery.Response Discovery.Details))
    (businessName location : string) (industry : option string) :
  let found :=
    Discovery.discoverCompetitors geocodeRequest textSearchRequest detailsRequest
      businessName location industry in
  let blockList :=
    [ "yelp"; "angi"; "angie's list"; "thumbtack"; "homeadvisor";
      "yellowpages"; "yellow pages"; "bbb"; "better business bureau";
      "google"; "facebook"; "linkedin"; "instagram" ] in
  (List.length found <= 5)%nat /\
  (exists results,
     (results = [] \/
      exists lat lng query data,
        textSearchRequest lat lng query = Model.Ok data /\
        Discovery.payload data = Some results) /\
     found =
       List.map (Discovery.candidate detailsRequest)
         (firstn 5
            (List.filter
               (fun place => Discovery.qualifies businessName (Discovery.name place))
               results))) /\
  (forall target placeName,
     Discovery.qualifies target placeName = true <->
     Js.includes (Js.toLowerCase placeName) (Js.toLowerCase target) = false /\
     Js.includes (Js.toLowerCase target) (Js.toLowerCase placeName) = false /\
     Forall (fun dir => Js.includes (Js.toLowerCase placeName) dir = false) blockList) /\
  Forall
    (fun c =>
       Js.includes (Js.toLowerCase (Model.dc_name c)) (Js.toLowerCase businessName) = false /\
       Js.includes (Js.toLowerCase businessName) (Js.toLowerCase (Model.dc_name c)) = false /\
       Discovery.isLargeDirectory (Model.dc_name c) = false /\
       Forall (fun dir => Js.includes (Js.toLowerCase (Model.dc_name c)) dir = false)
              blockList)
    found /\
  Discovery.qualifies "Joe's Coffee" "Joe's Coffee Downtown" = false /\
  Discovery.qualifies Examples.cafeRomaCapitals Examples.cafeRomaCentro = false /\
  Discovery.qualifies "Joe's Coffee" "Yelp Springfield" = false /\
  Discovery.qualifies "Joe's Coffee" "Bean There" = true.
Proof.
  intros found blockList.
  destruct (discoverCompetitors_spec geocodeRequest textSearchRequest detailsRequest
              businessName location industry) as (results & Hres & Heq).
  fold found in Heq.
  split; [|split; [|split; [|split]]].
  - rewrite Heq, length_map, length_firstn. lia.
  - exists results. split; assumption.
  - intros target placeName. apply qualifies_spec.
  - rewrite Heq. apply Forall_forall. intros c Hc.
    apply list_elem_of_In, in_map_iff in Hc. destruct Hc as (place & <- & Hin).
    apply list_elem_of_In, (subseteq_take 5), list_elem_of_In, filter_In in Hin.
    destruct Hin as [_ Hq].
    pose proof (proj1 (qualifies_spec _ _) Hq) as (H1 & H2 & H3).
    unfold Discovery.qualifies in Hq.
    apply andb_true_iff in Hq. destruct Hq as [_ Hdir].
    apply negb_true_iff in Hdir.
    cbn [Discovery.candidate Model.dc_name]. tauto.
  - repeat split; vm_compute; reflexivity.
Qed.

(** ** A run in which nothing but the sub-calls of the fan-out fails *)

Section PostFacts.
Import Js Model Schema Runtime Observe Store Pipeline.

Lemma post_ret {A} (a : A) (st : St) (Q : A -> St -> Prop) :
  Q a st -> post (ret a) st Q.
Proof. intros H. exists a, st. split; [reflexivity|exact H]. Qed.

Lemma post_bind {A B} (m : M A) (k : A -> M B) (st : St) (Q : B -> St -> Prop) :
  post m st (fun a st' => post (k a) st' Q) -> post (bind m k) st Q.
Proof.
  intros (a & st' & Hm & b & st'' & Hk & HQ). exists b, st''.
  rewrite bind_run, Hm. split; assumption.
Qed.

Lemma post_tryCatch {A} (m : M A) (h : Error -> M A) (st : St) (Q : A -> St -> Prop) :
  post m st Q -> post (tryCatch m h) st Q.
Proof.
  intros (a & st' & Hm & HQ). exists a, st'. unfold tryCatch. rewrite Hm.
  split; [reflexivity|exact HQ].
Qed.

Variable W : World.
Variable analysisId : Z.
Hypothesis available : forall n, dbAvailable (faults W) n = true.
Hypothesis sound : forall n, queryFault (faults W) n = None.

Lemma post_call {A} (c : Call) (r : Outcome A) (a : A) (st : St)
    (Q : A -> St -> Prop) :
  r = Ok a -> Q a (logged st [Called c None]) -> post (call c r) st Q.
Proof. intros -> H. exists a. eexists. split; [reflexivity|exact H]. Qed.

(** A write that carries no status, on any row. *)
Lemma post_update (i : Z) (p : Patch) (C : list CompetitorData) (s : Status)
    (k : string * option string * string) (st : St) (Q : unit -> St -> Prop) :
  p_status p = None ->
  holds analysisId C s k st ->
  (forall st', holds analysisId C s k st' -> Q tt st') ->
  post (updateAnalysis (faults W) i p) st Q.
Proof.
  intros Hp [HC (a & Ha & Hs & Hk)] HQ.
  unfold post, updateAnalysis, getDb, bind, query.
  st_simpl. rewrite available. st_simpl. rewrite sound.
  do 2 eexists. split; [reflexivity|]. apply HQ. split; [exact HC|].
  st_simpl. cbn [analyses].
  destruct (decide (i = analysisId)) as [->|Hne].
  - rewrite lookup_alter_eq, Ha. eexists. split; [reflexivity|].
    split; [|exact Hk]. simpl. rewrite Hp. exact Hs.
  - rewrite lookup_alter_ne by exact Hne. eauto.
Qed.

(** A write of the status [s'] on the record. *)
Lemma post_status (p : Patch) (C : list CompetitorData) (s s' : Status)
    (k : string * option string * string) (st : St) (Q : unit -> St -> Prop) :
  p_status p = Some s' ->
  holds analysisId C s k st ->
  (forall st', holds analysisId C s' k st' -> Q tt st') ->
  post (updateAnalysis (faults W) analysisId p) st Q.
Proof.
  intros Hp [HC (a & Ha & Hs & Hk)] HQ.
  unfold post, updateAnalysis, getDb, bind, query.
  st_simpl. rewrite available. st_simpl. rewrite sound.
  do 2 eexists. split; [reflexivity|]. apply HQ. split; [exact HC|].
  st_simpl. cbn [analyses]. rewrite lookup_alter_eq, Ha.
  eexists. split; [reflexivity|]. split; [|exact Hk]. simpl. rewrite Hp. reflexivity.
Qed.

Lemma post_getAnalysisById (C : list CompetitorData) (s : Status)
    (k : string * option string * string) (st : St)
    (Q : option Analysis -> St -> Prop) :
  holds analysisId C s k st ->
  (forall a st', inputsOf a = k -> holds analysisId C s k st' -> Q (Some a) st') ->
  post (getAnalysisById (faults W) analysisId) st Q.
Proof.
  intros [HC (a & Ha & Hs & Hk)] HQ.
  unfold post, getAnalysisById, getDb, bind, query.
  st_simpl. rewrite available. st_simpl. rewrite sound.
  do 2 eexists. split; [reflexivity|]. rewrite Ha. apply HQ; [exact Hk|].
  split; [exact HC|]. eauto.
Qed.

Lemma post_getCompetitors (C : list CompetitorData) (s : Status)
    (k : string * option string * string) (st : St)
    (Q : list CompetitorData -> St -> Prop) :
  holds analysisId C s k st ->
  (forall l st', holds analysisId C s k st' -> Q l st') ->
  post (getCompetitorsByAnalysisId (faults W) analysisId) st Q.
Proof.
  intros H HQ.
  unfold post, getCompetitorsByAnalysisId, getDb, bind, query.
  st_simpl. rewrite available. st_simpl. rewrite sound.
  do 2 eexists. split; [reflexivity|]. apply HQ. exact H.
Qed.

Lemma post_createCompetitors (data : list CompetitorData) (C : list CompetitorData)
    (s : Status) (k : string * option string * string) (st : St)
    (Q : unit -> St -> Prop) :
  holds analysisId C s k st ->
  (forall st', holds analysisId (C ++ data) s k st' -> Q tt st') ->
  post (if (0 <? List.length data)%nat
        then createCompetitors (faults W) data else ret tt) st Q.
Proof.
  intros [HC Hrow] HQ. destruct data as [|c data]; cbn [List.length Nat.ltb Nat.leb].
  - apply post_ret, HQ. split; [rewrite app_nil_r; exact HC|exact Hrow].
  - unfold post, createCompetitors, getDb, bind, query.
    st_simpl. rewrite available. st_simpl. cbn [List.length Nat.eqb]. rewrite sound.
    do 2 eexists. split; [reflexivity|]. apply HQ.
    split; [st_simpl; cbn [competitors]; rewrite HC; reflexivity|exact Hrow].
Qed.

Lemma post_analyzeCompetitors (targetSeoData : option SeoService.SEOAnalysisResult)
    (discovered : list DiscoveredCompetitor) (C : list CompetitorData) (s : Status)
    (k : string * option string * string) (st : St)
    (Q : list CompetitorData -> St -> Prop) :
  holds analysisId C s k st ->
  (forall st',
     holds analysisId C s k st' ->
     Q (List.map
          (fun comp =>
             finalize (initialData analysisId comp) targetSeoData
                      (seoSettled W comp) (enrichSettled W comp))
          (slice0 5 discovered)) st') ->
  post (analyzeCompetitors W analysisId targetSeoData discovered) st Q.
Proof.
  intros H HQ.
  destruct (analyzeCompetitors_run W analysisId targetSeoData discovered st) as [evs Hrun].
  do 2 eexists. split; [exact Hrun|]. apply HQ. exact H.
Qed.

End PostFacts.

Section SuccessFacts.
Import Js Model Schema Runtime Observe Store Pipeline.
Variable W : World.
Variable analysisId : Z.
Variables (name : string) (url : option string) (location : string).
Hypothesis available : forall n, dbAvailable (faults W) n = true.
Hypothesis sound : forall n, queryFault (faults W) n = None.
Hypothesis targetSeoResolves :
  truthyStr url = true -> exists seo, analyzeSEO W (default "" url) = Ok seo.
Hypothesis presenceResolves :
  exists presenceData, analyzeOnlinePresence W name location = Ok presenceData.
Hypothesis discoveryResolves :
  forall industry, exists found, discoverCompetitors W name location industry = Ok found.
Hypothesis insightsResolve :
  forall analysis saved, exists aiInsights, generateAIInsights W analysis saved = Ok aiInsights.
Hypothesis blogResolves :
  forall analysis saved kw, exists blogPost, generateBlogPost W analysis saved kw = Ok blogPost.
Hypothesis adCopyResolves :
  forall analysis saved kw, exists adCopy, generateAdCopy W analysis saved kw = Ok adCopy.

Abbreviation holdsHere := (holds analysisId).
Abbreviation k := (name, url, location).

Lemma post_mono {A} (m : M A) (st : St) (Q1 Q2 : A -> St -> Prop) :
  post m st Q1 -> (forall a st', Q1 a st' -> Q2 a st') -> post m st Q2.
Proof. intros (a & st' & Hm & HQ) H. exists a, st'. split; [exact Hm|apply H, HQ]. Qed.

(** The records that the fan-out resolves with. *)
Abbreviation records targetSeoData found :=
  (List.map
     (fun comp =>
        finalize (initialData analysisId comp) targetSeoData
                 (seoSettled W comp) (enrichSettled W comp))
     (slice0 5 found)).

Lemma post_resolveIndustry (analysis : Analysis) (presenceData : OnlinePresenceResult)
    (C : list CompetitorData) (s : Status) (st : St) :
  holdsHere C s k st ->
  post (resolveIndustry W analysisId analysis presenceData) st
       (fun _ st' => holdsHere C s k st').
Proof.
  intros H. unfold resolveIndustry. cbv zeta.
  destruct (truthyStr (pr_primaryType presenceData) && _); [|apply post_ret, H].
  destruct (negb (truthyStr (industry analysis))); [|apply post_ret, H].
  apply post_bind.
  eapply (post_update W analysisId available sound); [reflexivity|exact H|].
  intros st' H'. apply post_ret, H'.
Qed.

Lemma post_collect (C : list CompetitorData) (st : St) :
  holdsHere C collecting k st ->
  post (collect W analysisId) st
       (fun analysis st' =>
          exists targetSeoData industry found,
            discoverCompetitors W name location industry = Ok found /\
            holdsHere (C ++ records targetSeoData found) collecting k st').
Proof.
  intros H. unfold collect. apply post_bind.
  eapply (post_getAnalysisById W analysisId available sound); [exact H|].
  intros a st1 Hk H1. injection Hk as Hname Hurl Hloc.
  rewrite Hname, Hurl, Hloc.
  apply post_bind.
  apply (post_mono _ _ (fun _ st' => holdsHere C collecting k st')).
  { destruct (truthyStr url) eqn:Hu; [|apply post_ret, H1].
    destruct (targetSeoResolves eq_refl) as [seo Hseo].
    apply post_bind. eapply post_call; [exact Hseo|].
    apply post_bind.
    eapply (post_update W analysisId available sound); [reflexivity|exact H1|].
    intros st2 H2. apply post_ret, H2. }
  intros targetSeoData st2 H2.
  destruct presenceResolves as [presenceData Hpres].
  apply post_bind. eapply post_call; [exact Hpres|].
  apply post_bind.
  eapply (post_update W analysisId available sound); [reflexivity|exact H2|].
  intros st3 H3.
  apply post_bind. eapply post_mono; [apply post_resolveIndustry; exact H3|].
  intros detectedIndustry st4 H4.
  destruct (discoveryResolves (orNull detectedIndustry)) as [found Hfound].
  apply post_bind. eapply post_call; [exact Hfound|].
  apply post_bind.
  eapply (post_analyzeCompetitors W analysisId); [exact H4|].
  intros st5 H5.
  apply post_bind.
  eapply (post_createCompetitors W analysisId available sound); [exact H5|].
  intros st6 H6. apply post_ret. eauto.
Qed.

Lemma post_insights (analysis : Analysis) (C : list CompetitorData) (st : St) :
  holdsHere C analyzing k st ->
  post (insights W analysisId analysis) st (fun _ st' => holdsHere C analyzing k st').
Proof.
  intros H. unfold insights. apply post_bind.
  eapply (post_getAnalysisById W analysisId available sound); [exact H|].
  intros a st1 _ H1. apply post_bind.
  eapply (post_getCompetitors W analysisId available sound); [exact H1|].
  intros saved st2 H2.
  destruct (insightsResolve (Some a) saved) as [aiInsights Hai].
  apply post_bind. eapply post_call; [exact Hai|].
  apply post_bind.
  eapply (post_update W analysisId available sound); [reflexivity|exact H2|].
  intros st3 H3. apply post_ret, H3.
Qed.

Lemma post_content (saved : list CompetitorData) (C : list CompetitorData) (st : St) :
  holdsHere C analyzing k st ->
  post (content W analysisId saved) st (fun _ st' => holdsHere C completed k st').
Proof.
  intros H. unfold content. apply post_bind.
  eapply (post_getAnalysisById W analysisId available sound); [exact H|].
  intros a st1 _ H1. apply post_bind.
  - unfold generateContent. cbv zeta. cbn [wantsBlog wantsAdCopy idOf].
    destruct (blogResolves (Some a) saved
                (slice0 15 (unique (concat (List.map
                   (fun comp => default [] (c_topKeywords comp)) saved)))))
      as [blogPost Hblog].
    destruct (adCopyResolves (Some a) saved
                (slice0 15 (unique (concat (List.map
                   (fun comp => default [] (c_topKeywords comp)) saved)))))
      as [adCopy Had].
    apply post_bind. apply post_bind. eapply post_call; [exact Hblog|].
    apply post_bind. apply post_ret.
    apply post_bind.
    eapply (post_update W analysisId available sound); [reflexivity|exact H1|].
    intros st2 H2. apply post_ret.
    apply post_bind. apply post_bind. eapply post_call; [exact Had|].
    apply post_bind. apply post_ret.
    apply post_bind.
    eapply (post_update W analysisId available sound); [reflexivity|exact H2|].
    intros st3 H3. apply post_ret. apply post_ret.
    eapply (post_status W analysisId available sound); [reflexivity|exact H3|].
    intros st4 H4. exact H4.
Qed.

(** With a working database and collaborators that resolve outside the
    fan-out, the pipeline resolves, the record is completed, and the record
    of each of the first five discovered competitors is saved, whatever the
    sub-calls of the fan-out did. *)
Lemma run_success (C : list CompetitorData) (st : St) :
  holdsHere C pending k st ->
  post (runCompetitiveAnalysis W analysisId) st
       (fun _ st' =>
          exists targetSeoData industry found,
            discoverCompetitors W name location industry = Ok found /\
            holdsHere (C ++ records targetSeoData found) completed k st').
Proof.
  intros H. unfold runCompetitiveAnalysis. apply post_tryCatch. unfold tryBlock.
  apply post_bind.
  eapply (post_status W analysisId available sound); [reflexivity|exact H|].
  intros st1 H1.
  apply post_bind. eapply post_mono; [apply post_collect; exact H1|].
  intros analysis st2 (targetSeoData & industry & found & Hfound & H2).
  apply post_bind.
  eapply (post_status W analysisId available sound); [reflexivity|exact H2|].
  intros st3 H3.
  apply post_bind. eapply post_mono; [apply post_insights; exact H3|].
  intros saved st4 H4.
  eapply post_mono; [apply post_content; exact H4|].
  intros [] st5 H5. eauto.
Qed.

End SuccessFacts.

(** C2.  The fan-out over the discovered competitors always resolves: a
    sub-call that rejects is caught where it is made and turned into absent
    fields of that competitor only, so that the record of each of the first
    five competitors is finalized from how its own two sub-calls settled: a
    sub-call that resolves settles with its result (the SEO analysis of a
    competitor without a website is not made), and the record carries
    what discovery found, the SEO fields of the SEO result, the four fields
    of the enrichment, and the score and threat level of those data.
    Hence, when the database works and the collaborators outside the fan-out
    resolve, the pipeline resolves and leaves the analysis completed, with
    the record of every one of those competitors saved, whichever SEO or
    enrichment sub-calls rejected. *)
Theorem fanout_failures_stay_local (W : Pipeline.World) (analysisId : Z)
    (a : Schema.Analysis) (st : Runtime.St) :
  (forall targetSeoData discovered st0,
     exists evs,
       Pipeline.analyzeCompetitors W analysisId targetSeoData discovered st0 =
       (Model.Ok
          (List.map
             (fun comp =>
                Pipeline.finalize (Pipeline.initialData analysisId comp) targetSeoData
                  (Pipeline.seoSettled W comp) (Pipeline.enrichSettled W comp))
             (firstn 5 discovered)),
        Runtime.logged st0 evs)) /\
  (forall comp e,
     Pipeline.analyzeSEO W (default "" (Model.dc_website comp)) = Model.Throw e ->
     Pipeline.seoSettled W comp = None) /\
  (forall comp e,
     Pipeline.enrichCompetitorData W (Model.dc_name comp) (Model.dc_website comp)
       = Model.Throw e ->
     Pipeline.enrichSettled W comp = Pipeline.nullEnrichment) /\
  (forall comp targetSeoData enrichedData,
     let c := Pipeline.finalize (Pipeline.initialData analysisId comp) targetSeoData
                None enrichedData in
     Model.c_name c = Model.dc_name comp /\
     Model.c_seoScore c = None /\ Model.c_metaTitle c = None /\
     Model.c_metaDescription c = None /\ Model.c_headingStructure c = None /\
     Model.c_contentWordCount c = None /\ Model.c_topKeywords c = None) /\
  (forall comp targetSeoData compSeo,
     let c := Pipeline.finalize (Pipeline.initialData analysisId comp) targetSeoData
                compSeo Pipeline.nullEnrichment in
     Model.c_name c = Model.dc_name comp /\
     Model.c_employeeCount c = None /\ Model.c_fundingInfo c = None /\
     Model.c_techStack c = None /\ Model.c_recentNews c = None) /\
  (forall comp seo,
     Js.truthyStr (Model.dc_website comp) = true ->
     Pipeline.analyzeSEO W (default "" (Model.dc_website comp)) = Model.Ok seo ->
     Pipeline.seoSettled W comp = Some seo) /\
  (forall comp,
     Js.truthyStr (Model.dc_website comp) = false ->
     Pipeline.seoSettled W comp = None) /\
  (forall comp enrichedData,
     Pipeline.enrichCompetitorData W (Model.dc_name comp) (Model.dc_website comp)
       = Model.Ok enrichedData ->
     Pipeline.enrichSettled W comp = enrichedData) /\
  (forall comp targetSeoData compSeo enrichedData,
     let competitiveScore :=
       Scoring.specScore (SeoService.score <$> compSeo) (Model.dc_rating comp)
         (Pipeline.orNullNum (Model.dc_reviewCount comp))
         (Js.truthyStr (Model.dc_website comp)) in
     Pipeline.finalize (Pipeline.initialData analysisId comp) targetSeoData
       compSeo enrichedData =
     {| Model.c_analysisId := analysisId;
        Model.c_name := Model.dc_name comp;
        Model.c_url := Js.orNull (Model.dc_website comp);
        Model.c_address := Js.orNull (Model.dc_address comp);
        Model.c_phone := Js.orNull (Model.dc_phone comp);
        Model.c_placeId := Js.orNull (Some (Model.dc_placeId comp));
        Model.c_googleRating := Model.toString <$> Model.dc_rating comp;
        Model.c_googleReviewCount := Pipeline.orNullNum (Model.dc_reviewCount comp);
        Model.c_businessTypes := default [] (Model.dc_types comp);
        Model.c_seoScore := SeoService.score <$> compSeo;
        Model.c_metaTitle := compSeo ≫= SeoService.metaTitle;
        Model.c_metaDescription := compSeo ≫= SeoService.metaDescription;
        Model.c_headingStructure := SeoService.headings <$> compSeo;
        Model.c_contentWordCount := SeoService.wordCount <$> compSeo;
        Model.c_topKeywords := SeoService.topKeywords <$> compSeo;
        Model.c_employeeCount := Model.employeeCount enrichedData;
        Model.c_fundingInfo := Model.fundingInfo enrichedData;
        Model.c_techStack := Model.techStack enrichedData;
        Model.c_recentNews := Model.recentNews enrichedData;
        Model.c_competitiveScore := Some competitiveScore;
        Model.c_threatLevel := Some (Scoring.specThreat competitiveScore) |}) /\
  (Schema.analyses (Runtime.db st) !! analysisId = Some a ->
   Schema.status a = Model.pending ->
   (forall n, Store.dbAvailable (Pipeline.faults W) n = true) ->
   (forall n, Store.queryFault (Pipeline.faults W) n = None) ->
   (Js.truthyStr (Schema.businessUrl a) = true ->
    exists seo, Pipeline.analyzeSEO W (default "" (Schema.businessUrl a)) = Model.Ok seo) ->
   (exists presenceData,
      Pipeline.analyzeOnlinePresence W (Schema.businessName a)
        (Schema.businessLocation a) = Model.Ok presenceData) ->
   (forall industry, exists found,
      Pipeline.discoverCompetitors W (Schema.businessName a)
        (Schema.businessLocation a) industry = Model.Ok found) ->
   (forall analysis saved, exists aiInsights,
      Pipeline.generateAIInsights W analysis saved = Model.Ok aiInsights) ->
   (forall analysis saved kw, exists blogPost,
      Pipeline.generateBlogPost W analysis saved kw = Model.Ok blogPost) ->
   (forall analysis saved kw, exists adCopy,
      Pipeline.generateAdCopy W analysis saved kw = Model.Ok adCopy) ->
   exists st' targetSeoData industry found,
     Pipeline.runCompetitiveAnalysis W analysisId st = (Model.Ok tt, st') /\
     Observe.statusAt analysisId (Runtime.db st') = Some Model.completed /\
     Pipeline.discoverCompetitors W (Schema.businessName a)
       (Schema.businessLocation a) industry = Model.Ok found /\
     Schema.competitors (Runtime.db st') =
       (Schema.competitors (Runtime.db st) ++
        List.map
          (fun comp =>
             Pipeline.finalize (Pipeline.initialData analysisId comp) targetSeoData
               (Pipeline.seoSettled W comp) (Pipeline.enrichSettled W comp))
          (firstn 5 found))%list).
Proof.
  split; [intros; apply analyzeCompetitors_run|].
  split; [intros comp e He; unfold Pipeline.seoSettled; rewrite He;
          destruct (Js.truthyStr _); reflexivity|].
  split; [intros comp e He; unfold Pipeline.enrichSettled; rewrite He; reflexivity|].
  split; [intros; repeat split; reflexivity|].
  split; [intros; repeat split; reflexivity|].
  split; [intros comp seo Hw He; unfold Pipeline.seoSettled; rewrite Hw, He;
          reflexivity|].
  split; [intros comp Hw; unfold Pipeline.seoSettled; rewrite Hw; reflexivity|].
  split; [intros comp e He; unfold Pipeline.enrichSettled; rewrite He; reflexivity|].
  split.
  { intros comp targetSeoData compSeo enrichedData competitiveScore.
    subst competitiveScore. unfold Pipeline.finalize. cbv zeta.
    rewrite calculateCompetitiveScore_spec.
    cbn [Model.c_analysisId Model.c_name Model.c_url Model.c_address Model.c_phone
         Model.c_placeId Model.c_googleRating Model.c_googleReviewCount
         Model.c_businessTypes Model.c_seoScore Model.c_metaTitle
         Model.c_metaDescription Model.c_headingStructure Model.c_contentWordCount
         Model.c_topKeywords Model.c_employeeCount Model.c_fundingInfo
         Model.c_techStack Model.c_recentNews Pipeline.initialData].
    assert (Hr : Model.parseFloat <$> (Model.toString <$> Model.dc_rating comp) =
                 Model.dc_rating comp) by (destruct (Model.dc_rating comp); reflexivity).
    assert (Hu : Js.truthyStr (Js.orNull (Model.dc_website comp)) =
                 Js.truthyStr (Model.dc_website comp)).
    { unfold Js.orNull. destruct (Js.truthyStr (Model.dc_website comp)) eqn:E;
        [exact E|reflexivity]. }
    rewrite Hr, Hu. destruct compSeo as [seo|]; reflexivity. }
  intros Ha Hs Hav Hq Hseo Hpres Hdisc Hai Hblog Had.
  destruct (run_success W analysisId (Schema.businessName a) (Schema.businessUrl a)
              (Schema.businessLocation a) Hav Hq Hseo Hpres Hdisc Hai Hblog Had
              (Schema.competitors (Runtime.db st)) st)
    as ([] & st' & Hrun & targetSeoData & industry & found & Hfound & HC & a' & Ha' & Hs' & _).
  { split; [reflexivity|]. exists a. split; [exact Ha|]. split; [exact Hs|reflexivity]. }
  exists st', targetSeoData, industry, found.
  split; [exact Hrun|]. split; [|split; [exact Hfound|exact HC]].
  unfold Observe.statusAt. rewrite Ha'. simpl. rewrite Hs'. reflexivity.
Qed.

Lemma fanout_failures_stay_local_witness :
  exists st' targetSeoData industry found,
    Pipeline.runCompetitiveAnalysis Examples.calmWorld 1
      (Runtime.initial Examples.oneAnalysis) = (Model.Ok tt, st') /\
    Observe.statusAt 1 (Runtime.db st') = Some Model.completed /\
    Pipeline.discoverCompetitors Examples.calmWorld
      (Schema.businessName Examples.pendingRow)
      (Schema.businessLocation Examples.pendingRow) industry = Model.Ok found /\
    Schema.competitors (Runtime.db st') =
      (Schema.competitors (Runtime.db (Runtime.initial Examples.oneAnalysis)) ++
       List.map
         (fun comp =>
            Pipeline.finalize (Pipeline.initialData 1 comp) targetSeoData
              (Pipeline.seoSettled Examples.calmWorld comp)
              (Pipeline.enrichSettled Examples.calmWorld comp))
         (firstn 5 found))%list.
Proof.
  assert (Ha : Schema.analyses (Runtime.db (Runtime.initial Examples.oneAnalysis)) !! 1
               = Some Examples.pendingRow) by (vm_compute; reflexivity).
  apply (proj2 (proj2 (proj2 (proj2 (proj2 (proj2 (proj2 (proj2 (proj2
           (fanout_failures_stay_local Examples.calmWorld 1 Examples.pendingRow
              (Runtime.initial Examples.oneAnalysis)))))))))) Ha eq_refl).
  - intros n. reflexivity.
  - intros n. reflexivity.
  - intros H. discriminate H.
  - eexists. reflexivity.
  - intros industry. eexists. reflexivity.
  - intros analysis saved. eexists. reflexivity.
  - intros analysis saved kw. eexists. reflexivity.
  - intros analysis saved kw. eexists. reflexivity.
Defined.

(** The run of the example: the site of Daily Grind is down, its SEO
    analysis and its enrichment reject; its record is saved with those fields
    absent, between the records of its two siblings, and the analysis is
    completed. *)
Example fanout_example :
  let st' := snd (Pipeline.create Examples.calmWorld None Examples.joes
                    (Runtime.initial Examples.emptyDB)) in
  List.map (fun c => (Model.c_name c, Model.c_seoScore c, Model.c_employeeCount c,
                      Model.c_competitiveScore c, Model.c_threatLevel c))
           (Schema.competitors (Runtime.db st'))
  = [ ("Bean There", Some 70, Some "1-10", Some 100, Some Model.high);
      ("Daily Grind", None, None, Some 66, Some Model.medium);
      ("Mocha Place", None, Some "1-10", Some 50, Some Model.medium) ] /\
  Observe.statusAt 1 (Runtime.db st') = Some Model.completed.
Proof. vm_compute. repeat split; reflexivity. Qed.

(** * Further properties of the services *)

(** ** seoService: issues, score and keywords *)

Ltac z_bools :=
  repeat match goal with
         | H : (_ <=? _) = true |- _ => apply Z.leb_le in H
         | H : (_ <=? _) = false |- _ => apply Z.leb_gt in H
         | H : (_ <? _) = true |- _ => apply Z.ltb_lt in H
         | H : (_ <? _) = false |- _ => apply Z.ltb_ge in H
         | H : (_ =? _) = true |- _ => apply Z.eqb_eq in H
         | H : (_ =? _) = false |- _ => apply Z.eqb_neq in H
         end.

Section SeoIssueFacts.
Import Js Model SeoService SeoAnalysis.

Lemma identifySEOIssues_length (r : SEOAnalysisResult) :
  (List.length (identifySEOIssues r) <= 5)%nat.
Proof.
  unfold identifySEOIssues, push. cbv zeta.
  repeat match goal with |- context [if ?b then _ else _] => destruct b end;
    simpl; lia.
Qed.


Lemma title_issue (r : SEOAnalysisResult) (l : list string) :
  exists t, 
  (if negb (truthyStr (metaTitle r)) then push l "Missing meta title"
    else if slen (strOf (metaTitle r)) <? 30
    then push l "Meta title is too short (under 30 characters)"
    else if 60 <? slen (strOf (metaTitle r))
    then push l "Meta title is too long (over 60 characters)"
    else l) = (l ++ t)%list /\ (t = [] <-> titlePoints r = 20).
Proof.
  unfold titlePoints, titlePresent, titleWellSized, push. cbv zeta.
  destruct (truthyStr (metaTitle r)); cbn [negb].
  2: { eexists. split; [reflexivity|]. split; intros; discriminate. }
  destruct (_ <? 30) eqn:E1.
  { eexists. split; [reflexivity|]. z_bools.
    replace (30 <=? _) with false by (symmetry; apply Z.leb_gt; lia).
    split; intros; discriminate. }
  destruct (60 <? _) eqn:E2.
  { eexists. split; [reflexivity|]. z_bools.
    replace (_ <=? 60) with false by (symmetry; apply Z.leb_gt; lia).
    rewrite andb_false_r.
    split; intros; discriminate. }
  exists []. rewrite app_nil_r. split; [reflexivity|]. z_bools.
  replace (30 <=? _) with true by (symmetry; apply Z.leb_le; lia).
  replace (_ <=? 60) with true by (symmetry; apply Z.leb_le; lia).
  split; reflexivity.
Qed.

Lemma desc_issue (r : SEOAnalysisResult) (l : list string) :
  exists t, 
  (if negb (truthyStr (metaDescription r)) then push l "Missing meta description"
    else if slen (strOf (metaDescription r)) <? 120
    then push l "Meta description is too short (under 120 characters)"
    else if 160 <? slen (strOf (metaDescription r))
    then push l "Meta description is too long (over 160 characters)"
    else l) = (l ++ t)%list /\ (t = [] <-> descPoints r = 20).
Proof.
  unfold descPoints, descPresent, descWellSized, push. cbv zeta.
  destruct (truthyStr (metaDescription r)); cbn [negb].
  2: { eexists. split; [reflexivity|]. split; intros; discriminate. }
  destruct (_ <? 120) eqn:E1.
  { eexists. split; [reflexivity|]. z_bools.
    replace (120 <=? _) with false by (symmetry; apply Z.leb_gt; lia).
    split; intros; discriminate. }
  destruct (160 <? _) eqn:E2.
  { eexists. split; [reflexivity|]. z_bools.
    replace (_ <=? 160) with false by (symmetry; apply Z.leb_gt; lia).
    rewrite andb_false_r.
    split; intros; discriminate. }
  exists []. rewrite app_nil_r. split; [reflexivity|]. z_bools.
  replace (120 <=? _) with true by (symmetry; apply Z.leb_le; lia).
  replace (_ <=? 160) with true by (symmetry; apply Z.leb_le; lia).
  split; reflexivity.
Qed.

(** What the absence of issues says about each check. *)
Lemma identifySEOIssues_nil (r : SEOAnalysisResult) :
  identifySEOIssues r = [] <->
  titlePoints r = 20 /\ descPoints r = 20 /\ h1Points r = 15 /\
  1 <= len (h2 (headings r)) /\ 300 <= wordCount r.
Proof.
  assert (Hh2 : 0 <= len (h2 (headings r))) by (unfold len; lia).
  assert (Hh1 : 0 <= len (h1 (headings r))) by (unfold len; lia).
  unfold identifySEOIssues. cbv zeta.
  destruct (title_issue r []) as (t & -> & Ht).
  destruct (desc_issue r ([] ++ t)) as (d & -> & Hd).
  rewrite <- Ht, <- Hd. unfold h1Points, push.
  repeat match goal with
         | |- context [if ?b then _ else _] =>
             let E := fresh "E" in destruct b eqn:E
         end;
  z_bools; cbn [app]; rewrite ?app_nil_r;
  (split; [intros H; repeat apply app_eq_nil in H as [H ?]; try discriminate;
            try (repeat split; first [assumption | lia])
          | intros (-> & -> & ? & ? & ?); try reflexivity; try lia ]).
Qed.

End SeoIssueFacts.
Section SeoResultFacts.
Import Js Model SeoService SeoAnalysis.

Lemma identifySEOIssues_known (r : SEOAnalysisResult) :
  existsb (startsWith "Could not fetch website: ") (identifySEOIssues r) = false.
Proof.
  unfold identifySEOIssues, push. cbv zeta.
  repeat match goal with |- context [if ?b then _ else _] => destruct b end;
    reflexivity.
Qed.

Lemma startsWith_app (p s : string) : startsWith p (p ++ s) = true.
Proof.
  induction p as [|c p IH]; simpl; [reflexivity|].
  rewrite Ascii.eqb_refl. exact IH.
Qed.

(** Without issues the five structural checks are at least at their
    passing level. *)
Lemma no_issue_score (r : SEOAnalysisResult) :
  identifySEOIssues r = [] -> 73 <= calculateSEOScore r.
Proof.
  intros H. apply identifySEOIssues_nil in H as (Ht & Hd & H1 & H2 & Hw).
  rewrite calculateSEOScore_sum, Ht, Hd, H1.
  pose proof (component_bounds r) as (_ & _ & _ & _ & _ & Hk).
  unfold h2Points, contentPoints.
  repeat match goal with
         | |- context [if ?b then _ else _] =>
             let E := fresh "E" in destruct b eqn:E
         end; z_bools; lia.
Qed.

Lemma high_score_no_issue (r : SEOAnalysisResult) :
  95 < calculateSEOScore r -> identifySEOIssues r = [].
Proof.
  rewrite calculateSEOScore_sum. intros H.
  apply identifySEOIssues_nil.
  pose proof (component_bounds r) as (Ht & Hd & H1 & H2 & Hc & Hk).
  assert (Ht' : titlePoints r = 20 \/ titlePoints r <= 15).
  { unfold titlePoints. destruct (titlePresent r), (titleWellSized r); lia. }
  assert (Hd' : descPoints r = 20 \/ descPoints r <= 15).
  { unfold descPoints. destruct (descPresent r), (descWellSized r); lia. }
  assert (H1' : h1Points r = 15 \/ h1Points r <= 8).
  { unfold h1Points.
    repeat match goal with |- context [if ?b then _ else _] => destruct b end; lia. }
  assert (H2' : 1 <= len (h2 (headings r)) \/ h2Points r = 0).
  { unfold h2Points.
    repeat match goal with
           | |- context [if ?b then _ else _] =>
               let E := fresh "E" in destruct b eqn:E
           end; z_bools; lia. }
  assert (Hc' : 300 <= wordCount r \/ contentPoints r <= 5).
  { unfold contentPoints.
    repeat match goal with
           | |- context [if ?b then _ else _] =>
               let E := fresh "E" in destruct b eqn:E
           end; z_bools; lia. }
  lia.
Qed.

End SeoResultFacts.
Section KeywordFacts.
Import Js Model SeoService SeoAnalysis.

Lemma keepLetters_idem (s : string) : keepLetters (keepLetters s) = keepLetters s.
Proof.
  induction s as [|c s IH]; simpl; [reflexivity|].
  destruct (isLowerLetter c) eqn:E; simpl; [rewrite E, IH; reflexivity|exact IH].
Qed.

Lemma bump_In (w k : string) (counts : list (string * Z)) :
  In k (map fst (bump w counts)) <-> In k (map fst counts) \/ k = w.
Proof.
  induction counts as [|[k' n] rest IH]; simpl; [intuition congruence|].
  destruct (String.eqb k' w) eqn:E.
  - apply String.eqb_eq in E. subst k'. simpl. intuition congruence.
  - simpl. rewrite IH. intuition.
Qed.

Lemma bump_NoDup (w : string) (counts : list (string * Z)) :
  List.NoDup (map fst counts) -> List.NoDup (map fst (bump w counts)).
Proof.
  induction counts as [|[k n] rest IH]; simpl; intros H.
  - constructor; [intros []|constructor].
  - inversion H as [|? ? Hk Hrest]; subst.
    destruct (String.eqb k w) eqn:E; simpl; [exact H|].
    apply String.eqb_neq in E.
    constructor; [|apply IH, Hrest].
    rewrite bump_In. intros [?|?]; [contradiction|congruence].
Qed.

Lemma fold_bump_keys (q : string -> bool) (c : string -> string)
    (ws : list string) (acc : list (string * Z)) :
  List.NoDup (map fst acc) ->
  let f := fun counts word => if q (c word) then bump (c word) counts else counts in
  List.NoDup (map fst (fold_left f ws acc)) /\
  (forall k, In k (map fst (fold_left f ws acc)) <->
     In k (map fst acc) \/ exists w, In w ws /\ k = c w /\ q k = true).
Proof.
  intros Hacc f. revert acc Hacc.
  induction ws as [|w ws IH]; intros acc Hacc; cbn [fold_left In].
  - split; [exact Hacc|]. intros k. split; [auto|]. intros [?|(w & [] & _)]. assumption.
  - assert (Hf : List.NoDup (map fst (f acc w))).
    { unfold f. destruct (q (c w)); [apply bump_NoDup|]; exact Hacc. }
    destruct (IH _ Hf) as [IH1 IH2]. split; [exact IH1|].
    intros k. rewrite IH2. unfold f at 1.
    destruct (q (c w)) eqn:E.
    + rewrite bump_In. split.
      * intros [[?| ->]|(w' & ? & ?)]; [auto| |right; exists w'; auto].
        right. exists w. auto.
      * intros [?|(w' & [<-|?] & Hk & Hq)]; [auto| |right; exists w'; auto].
        left. right. exact Hk.
    + split.
      * intros [?|(w' & ? & ?)]; [auto|right; exists w'; auto].
      * intros [?|(w' & [<-|?] & Hk & Hq)]; [auto| |right; exists w'; auto].
        subst k. rewrite Hq in E. discriminate.
Qed.

(** The keys of the count are the cleaned words that pass the test, once
    each. *)
Lemma countWords_keys (words : list string) :
  List.NoDup (map fst (countWords words)) /\
  (forall k, In k (map fst (countWords words)) <->
     exists w, In w words /\ k = keepLetters (toLowerCase w) /\
               (3 <? slen k) && negb (existsb (String.eqb k) stopWords) = true).
Proof.
  destruct (fold_bump_keys
              (fun k => (3 <? slen k) && negb (existsb (String.eqb k) stopWords))
              (fun w => keepLetters (toLowerCase w)) words [] (List.NoDup_nil _))
    as [G1 G2].
  split; [exact G1|].
  intros k. unfold countWords. rewrite G2. cbn [map In]. intuition.
Qed.

Lemma insertDesc_perm (e : string * Z) (l : list (string * Z)) :
  Permutation (insertDesc e l) (e :: l).
Proof.
  induction l as [|x rest IH]; simpl; [reflexivity|].
  destruct (snd x <? snd e); [reflexivity|].
  rewrite IH. apply perm_swap.
Qed.

Lemma sortDesc_perm (l : list (string * Z)) : Permutation (sortDesc l) l.
Proof.
  unfold sortDesc.
  assert (G : forall l acc,
    Permutation (fold_left (fun acc e => insertDesc e acc) l acc) (l ++ acc)).
  { clear l. induction l as [|e l IH]; intros acc; simpl; [reflexivity|].
    rewrite IH, insertDesc_perm. symmetry. apply Permutation_middle. }
  rewrite G, app_nil_r. reflexivity.
Qed.

Lemma NoDup_firstn {A} (n : nat) (l : list A) :
  List.NoDup l -> List.NoDup (firstn n l).
Proof.
  revert n. induction l as [|x l IH]; intros [|n] H; simpl;
    try (constructor; fail).
  inversion H as [|? ? Hx Hl]; subst. constructor; [|apply IH, Hl].
  intros Hin. apply Hx. apply list_elem_of_In.
  eapply subseteq_take, list_elem_of_In, Hin.
Qed.

Lemma existsb_eqb_In (k : string) (l : list string) :
  existsb (String.eqb k) l = true <-> In k l.
Proof.
  rewrite existsb_exists. split.
  - intros (x & Hx & E). apply String.eqb_eq in E. subst. exact Hx.
  - intros H. exists k. split; [exact H|apply String.eqb_refl].
Qed.

End KeywordFacts.

(** X1.  The top keywords are at most ten different words; each is the
    lower-cased, letters-only form of a word of the text, has at least four
    letters and is no stop word; when the text has at most ten such forms,
    all of them are returned. *)
Theorem top_keywords_are_clean_words (words : list string) :
  let clean w := SeoService.keepLetters (Js.toLowerCase w) in
  let kws := SeoService.extractTopKeywords words in
  (List.length kws <= 10)%nat /\
  List.NoDup kws /\
  (forall k, In k kws ->
     4 <= Js.slen k /\ SeoService.keepLetters k = k /\
     ~ In k SeoService.stopWords /\ exists w, In w words /\ k = clean w) /\
  ((List.length (SeoService.countWords words) <= 10)%nat ->
   forall w, In w words -> 4 <= Js.slen (clean w) ->
             ~ In (clean w) SeoService.stopWords -> In (clean w) kws).
Proof.
  intros clean kws. subst kws. unfold SeoService.extractTopKeywords, Js.slice0.
  destruct (countWords_keys words) as [Hnd Hkeys].
  pose proof (sortDesc_perm (SeoService.countWords words)) as Hperm.
  assert (Hperm' : Permutation (map fst (SeoService.sortDesc (SeoService.countWords words)))
                               (map fst (SeoService.countWords words)))
    by (apply Permutation_map, Hperm).
  split; [rewrite length_map, length_firstn; lia|].
  split.
  { rewrite <- firstn_map.
    apply NoDup_firstn.
    apply (Permutation_NoDup (Permutation_sym Hperm')), Hnd. }
  split.
  { intros k Hk. rewrite <- firstn_map in Hk.
    assert (Hin : In k (map fst (SeoService.countWords words))).
    { apply list_elem_of_In. rewrite <- Hperm'. apply list_elem_of_In.
      apply list_elem_of_In in Hk. apply list_elem_of_In.
      eapply subseteq_take, Hk. }
    apply Hkeys in Hin as (w & Hw & -> & Hq).
    apply andb_true_iff in Hq as [Hlen Hstop].
    apply Z.ltb_lt in Hlen. apply negb_true_iff in Hstop.
    split; [lia|]. split; [apply keepLetters_idem|].
    split; [|exists w; auto].
    intros Hin. apply existsb_eqb_In in Hin. congruence. }
  intros Hlen w Hw H4 Hstop.
  rewrite firstn_all2 by (rewrite (Permutation_length Hperm); exact Hlen).
  apply list_elem_of_In. rewrite Hperm'. apply list_elem_of_In.
  apply Hkeys. exists w. split; [exact Hw|]. split; [reflexivity|].
  apply andb_true_iff. split; [apply Z.ltb_lt; fold (clean w); lia|].
  apply negb_true_iff. destruct (existsb _ _) eqn:E; [|reflexivity].
  apply existsb_eqb_In in E. contradiction.
Qed.

(** X2.  Whatever the fetch does, [analyzeSEO] returns a score between 0 and
    100 and at most five issues; a result without issues scores at least 73
    and a result scoring above 95 has no issue. *)
Theorem seo_result_score_and_issues
    (fetchPage : string -> Model.Outcome SeoService.Extracted) (url : string) :
  let r := SeoAnalysis.analyzeSEO fetchPage url in
  0 <= SeoService.score r <= 100 /\
  (List.length (SeoService.issues r) <= 5)%nat /\
  (SeoService.issues r = [] -> 73 <= SeoService.score r) /\
  (95 < SeoService.score r -> SeoService.issues r = []).
Proof.
  intros r. subst r. unfold SeoAnalysis.analyzeSEO.
  destruct (fetchPage _) as [page|e]; cbn [SeoService.score SeoService.issues].
  - set (r := SeoService.analyzeFetched page).
    assert (Hs' : SeoService.score r = SeoService.calculateSEOScore r) by reflexivity.
    rewrite Hs'.
    pose proof (component_bounds r) as Hb.
    split; [rewrite calculateSEOScore_sum; lia|].
    split; [apply identifySEOIssues_length|].
    split; [apply no_issue_score|apply high_score_no_issue].
  - simpl. split; [lia|]. split; [lia|].
    split; intros H; [discriminate H|lia].
Qed.

(** X3.  The result carries an issue [Could not fetch website: ...] exactly
    when the request for the page failed; it is then the only issue, with
    the message of the failure, the score is 0 and nothing of the page is
    reported.  The page is requested at an address beginning with [http]. *)
Theorem seo_fetch_failure_is_reported
    (fetchPage : string -> Model.Outcome SeoService.Extracted) (url : string) :
  let r := SeoAnalysis.analyzeSEO fetchPage url in
  Js.startsWith "http" (SeoAnalysis.fullUrlOf url) = true /\
  (existsb (Js.startsWith "Could not fetch website: ") (SeoService.issues r) = true <->
   exists e, fetchPage (SeoAnalysis.fullUrlOf url) = Model.Throw e) /\
  (forall e, fetchPage (SeoAnalysis.fullUrlOf url) = Model.Throw e ->
     SeoService.issues r = ["Could not fetch website: " ++ Model.message e] /\
     SeoService.score r = 0 /\ SeoService.wordCount r = 0 /\
     SeoService.metaTitle r = None /\ SeoService.metaDescription r = None /\
     SeoService.topKeywords r = []).
Proof.
  intros r. subst r. unfold SeoAnalysis.analyzeSEO.
  split.
  { unfold SeoAnalysis.fullUrlOf. destruct (Js.startsWith "http" url) eqn:E;
      [exact E|reflexivity]. }
  destruct (fetchPage _) as [page|e]; cbn [SeoService.issues].
  - split; [|intros e H; discriminate H].
    rewrite identifySEOIssues_known. split; [discriminate|]. intros [e H]. discriminate H.
  - split.
    + split; [intros _; exists e; reflexivity|]. intros _.
      unfold SeoAnalysis.push. cbn [SeoAnalysis.blankResult SeoService.issues app existsb].
      rewrite startsWith_app. reflexivity.
    + intros e' [= <-]. repeat split; reflexivity.
Qed.

Lemma top_keywords_are_clean_words_witness :
  In "coffee" (SeoService.extractTopKeywords ["Fresh"; "COFFEE,"; "and"; "tea"; "coffee"]).
Proof.
  assert (Hlen : (List.length (SeoService.countWords
                                ["Fresh"; "COFFEE,"; "and"; "tea"; "coffee"]) <= 10)%nat)
    by (vm_compute; lia).
  assert (Hin : In "COFFEE," ["Fresh"; "COFFEE,"; "and"; "tea"; "coffee"])
    by (right; left; reflexivity).
  assert (H4 : 4 <= Js.slen (SeoService.keepLetters (Js.toLowerCase "COFFEE,")))
    by (vm_compute; discriminate).
  assert (Hstop : ~ In (SeoService.keepLetters (Js.toLowerCase "COFFEE,"))
                       SeoService.stopWords).
  { intros H. apply existsb_eqb_In in H. vm_compute in H. discriminate H. }
  exact (proj2 (proj2 (proj2 (top_keywords_are_clean_words
                                ["Fresh"; "COFFEE,"; "and"; "tea"; "coffee"])))
           Hlen "COFFEE," Hin H4 Hstop).
Defined.

Lemma seo_result_score_and_issues_witness :
  73 <= SeoService.score
          (SeoAnalysis.analyzeSEO (fun _ => Model.Ok SeoService.richPage) "example.com").
Proof.
  assert (H : SeoService.issues
                (SeoAnalysis.analyzeSEO (fun _ => Model.Ok SeoService.richPage)
                   "example.com") = []) by (vm_compute; reflexivity).
  exact (proj1 (proj2 (proj2 (seo_result_score_and_issues
                                (fun _ => Model.Ok SeoService.richPage) "example.com")))
           H).
Defined.

Lemma seo_fetch_failure_is_reported_witness :
  SeoService.issues
    (SeoAnalysis.analyzeSEO (fun _ => Model.Throw Examples.timeoutError) "example.com") =
  ["Could not fetch website: timeout of 10000ms exceeded"].
Proof.
  exact (proj1 (proj2 (proj2 (seo_fetch_failure_is_reported
                                (fun _ => Model.Throw Examples.timeoutError)
                                "example.com"))
                 Examples.timeoutError eq_refl)).
Defined.

(** ** analysisService: the score grows with what it reads *)

Section ScoreOrderFacts.
Import Model Scoring Ranking.

Lemma round_mono (x y : Q) : (x <= y)%Q -> round x <= round y.
Proof.
  intros H. unfold round. apply Qfloor_resp_le.
  apply Qplus_le_compat; [exact H|apply Qle_refl].
Qed.

Lemma Qmin_mono_l (x y b : Q) : (x <= y)%Q -> (Qmin x b <= Qmin y b)%Q.
Proof. intros H. apply Q.min_le_compat_r. exact H. Qed.

Lemma part_mono (n n' : option Z) (d cap : Q) :
  (0 < d)%Q -> (0 <= cap)%Q ->
  default 0 n <= default 0 n' ->
  (match n with Some s => Qmin (inject_Z s / d) cap | None => 0 end <=
   match n' with Some s => Qmin (inject_Z s / d) cap | None => 0 end)%Q.
Proof.
  intros Hd Hcap H.
  assert (E : forall o : option Z,
    (match o with Some s => Qmin (inject_Z s / d) cap | None => 0 end ==
     Qmin (inject_Z (default 0%Z o) / d) cap)%Q).
  { intros [s|]; simpl; [reflexivity|].
    unfold Qdiv. rewrite Qmult_0_l. symmetry. apply Q.min_l. exact Hcap. }
  rewrite (E n), (E n'). apply Qmin_mono_l.
  unfold Qdiv. apply Qmult_le_compat_r.
  - rewrite <- Zle_Qle. exact H.
  - apply Qlt_le_weak, Qinv_lt_0_compat, Hd.
Qed.

Lemma getThreatLevel_mono (s s' : Z) :
  s <= s' -> threatRank (getThreatLevel s) <= threatRank (getThreatLevel s').
Proof.
  intros H. unfold getThreatLevel.
  repeat match goal with
         | |- context [if ?b then _ else _] =>
             let E := fresh "E" in destruct b eqn:E
         end; z_bools; simpl; lia.
Qed.

End ScoreOrderFacts.

(** X4.  A record scores at least as much as another, and is at least as high a
    threat, when its SEO score, its rating and its number of reviews are at
    least the other's and it has a website whenever the other has one; an
    absent SEO score or review count counts as 0 and an absent rating as 3.
    The score stays between 0 and 100. *)
Theorem competitive_score_monotone (c c' : Model.CompetitorData)
    (t t' : option SeoService.SEOAnalysisResult) :
  default 0 (Model.c_seoScore c) <= default 0 (Model.c_seoScore c') ->
  (Ranking.ratingOr3 c <= Ranking.ratingOr3 c')%Q ->
  default 0 (Model.c_googleReviewCount c) <= default 0 (Model.c_googleReviewCount c') ->
  (Js.truthyStr (Model.c_url c) = true -> Js.truthyStr (Model.c_url c') = true) ->
  0 <= Scoring.calculateCompetitiveScore c t /\
  Scoring.calculateCompetitiveScore c t <= Scoring.calculateCompetitiveScore c' t' /\
  Scoring.calculateCompetitiveScore c' t' <= 100 /\
  Ranking.threatRank (Scoring.getThreatLevel (Scoring.calculateCompetitiveScore c t)) <=
  Ranking.threatRank (Scoring.getThreatLevel (Scoring.calculateCompetitiveScore c' t')).
Proof.
  intros Hseo Hrat Hrev Hurl.
  assert (Hle : Scoring.calculateCompetitiveScore c t <=
                Scoring.calculateCompetitiveScore c' t').
  { rewrite !calculateCompetitiveScore_spec. unfold Scoring.specScore, Scoring.clamp.
    apply Z.max_le_compat_l, Z.min_le_compat_l, round_mono.
    repeat apply Qplus_le_compat.
    - apply Qle_refl.
    - apply part_mono; [reflexivity|discriminate|exact Hseo].
    - revert Hrat. unfold Ranking.ratingOr3.
      destruct (Model.c_googleRating c) as [[q]|],
               (Model.c_googleRating c') as [[q']|]; simpl; intros Hrat.
      + apply Qmult_le_compat_r; [|discriminate].
        apply Qplus_le_compat; [exact Hrat|apply Qle_refl].
      + change 0%Q with ((3 - 3) * 10)%Q.
        apply Qmult_le_compat_r; [|discriminate].
        apply Qplus_le_compat; [exact Hrat|apply Qle_refl].
      + change 0%Q with ((3 - 3) * 10)%Q.
        apply Qmult_le_compat_r; [|discriminate].
        apply Qplus_le_compat; [exact Hrat|apply Qle_refl].
      + apply Qle_refl.
    - apply part_mono; [reflexivity|discriminate|exact Hrev].
    - destruct (Js.truthyStr (Model.c_url c)).
      + rewrite Hurl by reflexivity. apply Qle_refl.
      + destruct (Js.truthyStr (Model.c_url c')); [discriminate|apply Qle_refl]. }
  split; [unfold Scoring.calculateCompetitiveScore; lia|].
  split; [exact Hle|].
  split; [unfold Scoring.calculateCompetitiveScore; lia|].
  apply getThreatLevel_mono, Hle.
Qed.

Lemma competitive_score_monotone_witness :
  Scoring.calculateCompetitiveScore Ranking.weakRival None <=
  Scoring.calculateCompetitiveScore Ranking.strongRival None.
Proof.
  assert (H1 : default 0 (Model.c_seoScore Ranking.weakRival) <=
               default 0 (Model.c_seoScore Ranking.strongRival))
    by (vm_compute; discriminate).
  assert (H2 : (Ranking.ratingOr3 Ranking.weakRival <=
                Ranking.ratingOr3 Ranking.strongRival)%Q)
    by (vm_compute; discriminate).
  assert (H3 : default 0 (Model.c_googleReviewCount Ranking.weakRival) <=
               default 0 (Model.c_googleReviewCount Ranking.strongRival))
    by (vm_compute; discriminate).
  assert (H4 : Js.truthyStr (Model.c_url Ranking.weakRival) = true ->
               Js.truthyStr (Model.c_url Ranking.strongRival) = true)
    by (intros _; vm_compute; reflexivity).
  exact (proj1 (proj2 (competitive_score_monotone Ranking.weakRival Ranking.strongRival
                         None None H1 H2 H3 H4))).
Defined.

(** ** db.ts: the record store *)

Section StoreRoundTrips.
Import Model Schema Runtime Store Listing.

Lemma mkDB_eta (d : DB) : mkDB (analyses d) (competitors d) (nextAnalysisId d) = d.
Proof. destruct d; reflexivity. Qed.

Lemma setCol_idem {A} (p : option A) (old : A) :
  setCol p (setCol p old) = setCol p old.
Proof. destruct p; reflexivity. Qed.

Lemma applyPatch_idem (p : Patch) (a : Analysis) :
  applyPatch p (applyPatch p a) = applyPatch p a.
Proof.
  unfold applyPatch. cbn [id userId businessName businessUrl businessLocation
    industry status seoScore metaTitle metaDescription headingStructure
    contentWordCount hasGoogleBusiness googleRating googleReviewCount
    socialProfiles overallAnalysis strengths weaknesses opportunities
    recommendations generatedBlogPost generatedAdCopy completedAt].
  rewrite !setCol_idem. reflexivity.
Qed.

Lemma scoreBelow_trans (a b c : CompetitorData) :
  notBelow a b -> notBelow b c -> notBelow a c.
Proof.
  unfold notBelow, scoreBelow.
  destruct (c_competitiveScore a), (c_competitiveScore b), (c_competitiveScore c);
    intros H1 H2; try reflexivity; try discriminate; z_bools; apply Z.ltb_ge; lia.
Qed.

Lemma insertByScore_perm (c : CompetitorData) (l : list CompetitorData) :
  Permutation (insertByScore c l) (c :: l).
Proof.
  induction l as [|x rest IH]; simpl; [reflexivity|].
  destruct (scoreBelow x c); [reflexivity|].
  rewrite IH. apply perm_swap.
Qed.

Lemma insertByScore_descending (c : CompetitorData) (l : list CompetitorData) :
  descending l -> descending (insertByScore c l).
Proof.
  induction l as [|x rest IH]; simpl; intros H.
  - split; [constructor|exact I].
  - destruct H as [Hx Hrest].
    destruct (scoreBelow x c) eqn:E.
    + cbn [descending]. split; [|split; assumption].
      assert (Hcx : notBelow c x).
      { unfold notBelow, scoreBelow in *.
        destruct (c_competitiveScore x), (c_competitiveScore c);
          try reflexivity; try discriminate; z_bools; apply Z.ltb_ge; lia. }
      constructor; [exact Hcx|].
      eapply Forall_impl; [exact Hx|]. intros y Hy. cbv beta in Hy.
      eapply scoreBelow_trans; eassumption.
    + cbn [descending]. split; [|apply IH, Hrest].
      apply Forall_forall. intros y Hy.
      apply list_elem_of_In in Hy.
      apply (Permutation_in _ (insertByScore_perm c rest)) in Hy.
      destruct Hy as [<-|Hy]; [exact E|].
      rewrite Forall_forall in Hx. apply Hx, list_elem_of_In, Hy.
Qed.

Lemma orderByScoreDesc_spec (l : list CompetitorData) :
  Permutation (orderByScoreDesc l) l /\ descending (orderByScoreDesc l).
Proof.
  unfold orderByScoreDesc.
  assert (G : forall l acc, descending acc ->
    Permutation (fold_left (fun acc c => insertByScore c acc) l acc) (l ++ acc) /\
    descending (fold_left (fun acc c => insertByScore c acc) l acc)).
  { clear l. induction l as [|c l IH]; intros acc Hacc; simpl; [split; [reflexivity|exact Hacc]|].
    destruct (IH _ (insertByScore_descending c acc Hacc)) as [IH1 IH2].
    split; [|exact IH2].
    rewrite IH1, insertByScore_perm. symmetry. apply Permutation_middle. }
  destruct (G l [] I) as [G1 G2]. rewrite app_nil_r in G1. split; assumption.
Qed.


Lemma getAnalysisById_run (F : Faults) (i : Z) (st : St) :
  dbAvailable F (getDbCalls st) = true ->
  queryFault F (queries st) = None ->
  getAnalysisById F i st =
  (Ok (analyses (db st) !! i),
   mkSt (db st) (db st :: past st)
        (events st ++ [Called (QueryCall (SelectAnalysisQ i)) None])%list
        (S (getDbCalls st)) (S (queries st))).
Proof.
  intros Hav Hq. unfold getAnalysisById, getDb, query, bind.
  st_simpl. rewrite Hav. st_simpl. rewrite Hq. reflexivity.
Qed.

Lemma updateAnalysis_ok (F : Faults) (i : Z) (p : Patch) (st : St) :
  dbAvailable F (getDbCalls st) = true ->
  queryFault F (queries st) = None ->
  updateAnalysis F i p st =
  (Ok tt,
   mkSt (mkDB (alter (applyPatch p) i (analyses (db st)))
              (competitors (db st)) (nextAnalysisId (db st)))
        (db st :: past st)
        (events st ++ [Called (QueryCall (UpdateAnalysisQ i p)) None])%list
        (S (getDbCalls st)) (S (queries st))).
Proof.
  intros Hav Hq. unfold updateAnalysis, getDb, query, bind.
  st_simpl. rewrite Hav. st_simpl. rewrite Hq. reflexivity.
Qed.

Lemma getCompetitorsByAnalysisId_ok (F : Faults) (i : Z) (st : St) :
  dbAvailable F (getDbCalls st) = true ->
  queryFault F (queries st) = None ->
  getCompetitorsByAnalysisId F i st =
  (Ok (orderByScoreDesc
         (List.filter (fun c => c_analysisId c =? i) (competitors (db st)))),
   mkSt (db st) (db st :: past st)
        (events st ++ [Called (QueryCall (SelectCompetitorsQ i)) None])%list
        (S (getDbCalls st)) (S (queries st))).
Proof.
  intros Hav Hq. unfold getCompetitorsByAnalysisId, getDb, query, bind.
  st_simpl. rewrite Hav. st_simpl. rewrite Hq. reflexivity.
Qed.

End StoreRoundTrips.



(** X6.  With a working database, [updateAnalysis] changes the columns of its
    patch on the one record it names and nothing else: the other records and
    the competitors stay as they were; on an identifier that names no record
    it resolves and leaves the database as it was; and the same update made
    a second time changes nothing more. *)
Theorem update_touches_one_record (F : Store.Faults) (analysisId : Z)
    (data : Schema.Patch) (st : Runtime.St) :
  Store.dbAvailable F (Runtime.getDbCalls st) = true ->
  Store.queryFault F (Runtime.queries st) = None ->
  let r := Store.updateAnalysis F analysisId data st in
  fst r = Model.Ok tt /\
  Schema.analyses (Runtime.db (snd r)) !! analysisId =
    Schema.applyPatch data <$> Schema.analyses (Runtime.db st) !! analysisId /\
  (forall j, j <> analysisId ->
     Schema.analyses (Runtime.db (snd r)) !! j = Schema.analyses (Runtime.db st) !! j) /\
  Schema.competitors (Runtime.db (snd r)) = Schema.competitors (Runtime.db st) /\
  (Schema.analyses (Runtime.db st) !! analysisId = None ->
   Runtime.db (snd r) = Runtime.db st) /\
  (Store.dbAvailable F (S (Runtime.getDbCalls st)) = true ->
   Store.queryFault F (S (Runtime.queries st)) = None ->
   Runtime.db (snd (Store.updateAnalysis F analysisId data (snd r))) =
   Runtime.db (snd r)).
Proof.
  intros Hav Hq r. subst r.
  rewrite (updateAnalysis_ok F analysisId data st Hav Hq).
  cbn [fst snd Runtime.db Runtime.getDbCalls Runtime.queries
       Schema.analyses Schema.competitors].
  split; [reflexivity|].
  split; [apply lookup_alter_eq|].
  split; [intros j Hj; apply lookup_alter_ne; congruence|].
  split; [reflexivity|].
  split.
  - intros Hnone. rewrite <- (mkDB_eta (Runtime.db st)) at 4. f_equal.
    apply map_eq. intros j. destruct (decide (j = analysisId)) as [->|Hj].
    + rewrite lookup_alter_eq, Hnone. reflexivity.
    + apply lookup_alter_ne. congruence.
  - intros Hav' Hq'. rewrite updateAnalysis_ok by assumption.
    cbn [fst snd Runtime.db Schema.analyses Schema.competitors Schema.nextAnalysisId].
    f_equal.
    apply map_eq. intros j. destruct (decide (j = analysisId)) as [->|Hj].
    + rewrite !lookup_alter_eq.
      destruct (Schema.analyses (Runtime.db st) !! analysisId); [|reflexivity].
      cbn. rewrite applyPatch_idem. reflexivity.
    + rewrite !lookup_alter_ne by congruence. reflexivity.
Qed.

Lemma update_touches_one_record_witness :
  Schema.competitors
    (Runtime.db (snd (Store.updateAnalysis Examples.noFaults 1
                        (Pipeline.statusPatch Model.collecting)
                        (Runtime.initial Examples.oneAnalysis)))) =
  Schema.competitors (Runtime.db (Runtime.initial Examples.oneAnalysis)).
Proof.
  exact (proj1 (proj2 (proj2 (proj2
           (update_touches_one_record Examples.noFaults 1
              (Pipeline.statusPatch Model.collecting)
              (Runtime.initial Examples.oneAnalysis) eq_refl eq_refl))))).
Defined.

(** X7.  With a working database, [getCompetitorsByAnalysisId] returns exactly
    the competitors of the analysis, each once, ordered so that no row is
    followed by a row of higher score (rows without a score come last), and
    it leaves the database as it was. *)
Theorem competitors_are_listed_by_score (F : Store.Faults) (analysisId : Z)
    (st : Runtime.St) :
  Store.dbAvailable F (Runtime.getDbCalls st) = true ->
  Store.queryFault F (Runtime.queries st) = None ->
  let r := Store.getCompetitorsByAnalysisId F analysisId st in
  exists l,
    fst r = Model.Ok l /\
    Permutation l
      (List.filter (fun c => Model.c_analysisId c =? analysisId)
                   (Schema.competitors (Runtime.db st))) /\
    Listing.descending l /\
    Runtime.db (snd r) = Runtime.db st.
Proof.
  intros Hav Hq r. subst r.
  rewrite (getCompetitorsByAnalysisId_ok F analysisId st Hav Hq).
  eexists. split; [reflexivity|].
  destruct (orderByScoreDesc_spec
              (List.filter (fun c => Model.c_analysisId c =? analysisId)
                           (Schema.competitors (Runtime.db st)))) as [H1 H2].
  split; [exact H1|]. split; [exact H2|reflexivity].
Qed.

Lemma competitors_are_listed_by_score_witness :
  exists l,
    fst (Store.getCompetitorsByAnalysisId Examples.noFaults 1
           (Runtime.initial Examples.oneAnalysis)) = Model.Ok l /\
    Listing.descending l.
Proof.
  destruct (competitors_are_listed_by_score Examples.noFaults 1
              (Runtime.initial Examples.oneAnalysis) eq_refl eq_refl)
    as (l & H1 & _ & H2 & _).
  exists l. split; [exact H1|exact H2].
Defined.

(** X8.  [deleteAnalysis] is not one transaction: when its first query goes
    through and its second one rejects, the call rejects with that error,
    the analysis is still there and its competitors are gone. *)
Theorem delete_is_not_atomic (F : Store.Faults) (analysisId owner : Z)
    (st : Runtime.St) (e : Model.Error) :
  Store.dbAvailable F (Runtime.getDbCalls st) = true ->
  Store.queryFault F (Runtime.queries st) = None ->
  Store.queryFault F (S (Runtime.queries st)) = Some e ->
  let r := Store.deleteAnalysis F analysisId owner st in
  fst r = Model.Throw e /\
  Schema.analyses (Runtime.db (snd r)) = Schema.analyses (Runtime.db st) /\
  Schema.competitors (Runtime.db (snd r)) =
    List.filter (fun c => negb (Model.c_analysisId c =? analysisId))
                (Schema.competitors (Runtime.db st)).
Proof.
  intros Hav Hq1 Hq2 r. subst r.
  unfold Store.deleteAnalysis, Store.getDb, Store.query, Runtime.bind.
  st_simpl. rewrite Hav. st_simpl. rewrite Hq1. st_simpl. rewrite Hq2. st_simpl.
  repeat split; reflexivity.
Qed.

Lemma delete_is_not_atomic_witness :
  let r := Store.deleteAnalysis (Examples.queryFails 1) 1 7
             (Runtime.initial Examples.oneAnalysis) in
  fst r = Model.Throw Examples.connectionReset /\
  Schema.analyses (Runtime.db (snd r)) !! 1 = Some Examples.pendingRow /\
  Schema.competitors (Runtime.db (snd r)) = [Examples.rival 2 "Other"].
Proof.
  destruct (delete_is_not_atomic (Examples.queryFails 1) 1 7
              (Runtime.initial Examples.oneAnalysis) Examples.connectionReset
              eq_refl eq_refl eq_refl) as (H1 & H2 & H3).
  split; [exact H1|]. split; [rewrite H2; reflexivity|rewrite H3; reflexivity].
Defined.

(** X9.  When [getDb] gives no handle, no query is sent and the database stays
    as it is: the reads answer as if nothing were stored (no analysis, no
    competitor, nothing deleted) and the writes throw
    [Database not available], even the insertion of no competitor. *)
Theorem without_a_database_handle (F : Store.Faults) (st : Runtime.St) :
  Store.dbAvailable F (Runtime.getDbCalls st) = false ->
  let unchanged {A} (r : Model.Outcome A * Runtime.St) :=
    Runtime.db (snd r) = Runtime.db st /\
    Runtime.queries (snd r) = Runtime.queries st in
  (forall i, fst (Store.getAnalysisById F i st) = Model.Ok None /\
             unchanged (Store.getAnalysisById F i st)) /\
  (forall i, fst (Store.getCompetitorsByAnalysisId F i st) = Model.Ok [] /\
             unchanged (Store.getCompetitorsByAnalysisId F i st)) /\
  (forall i owner, fst (Store.deleteAnalysis F i owner st) = Model.Ok false /\
                   unchanged (Store.deleteAnalysis F i owner st)) /\
  (forall data, fst (Store.createAnalysis F data st) =
                  Model.Throw Store.databaseNotAvailable /\
                unchanged (Store.createAnalysis F data st)) /\
  (forall i data, fst (Store.updateAnalysis F i data st) =
                    Model.Throw Store.databaseNotAvailable /\
                  unchanged (Store.updateAnalysis F i data st)) /\
  (forall rows, fst (Store.createCompetitors F rows st) =
                  Model.Throw Store.databaseNotAvailable /\
                unchanged (Store.createCompetitors F rows st)).
Proof.
  intros Hav unchanged. subst unchanged.
  unfold Store.getAnalysisById, Store.getCompetitorsByAnalysisId, Store.deleteAnalysis,
    Store.createAnalysis, Store.updateAnalysis, Store.createCompetitors,
    Store.getDb, Runtime.bind, Runtime.ret, Runtime.throw.
  st_simpl. rewrite Hav. st_simpl.
  repeat split; reflexivity.
Qed.

Lemma without_a_database_handle_witness :
  fst (Store.createCompetitors (Store.mkFaults (fun _ => false) (fun _ => None)) []
         (Runtime.initial Examples.oneAnalysis)) =
  Model.Throw Store.databaseNotAvailable.
Proof.
  exact (proj1 (proj2 (proj2 (proj2 (proj2 (proj2
           (without_a_database_handle
              (Store.mkFaults (fun _ => false) (fun _ => None))
              (Runtime.initial Examples.oneAnalysis) eq_refl))))) [])).
Defined.

(** ** competitorDiscoveryService: failures and the search query *)

Section DiscoveryFailureFacts.
Import Js Model Discovery DiscoveryFailures.

Lemma keywords_nonempty : Forall (fun k => k <> "") keywords.
Proof. repeat constructor; discriminate. Qed.

Lemma extractIndustryFromName_cases (businessName : string) :
  (In (extractIndustryFromName businessName) keywords /\
   includes (toLowerCase businessName) (extractIndustryFromName businessName) = true) \/
  (extractIndustryFromName businessName = "business" /\
   Forall (fun k => includes (toLowerCase businessName) k = false) keywords).
Proof.
  unfold extractIndustryFromName. cbv zeta.
  destruct (List.find _ keywords) as [k|] eqn:E.
  - left. apply find_some in E. exact E.
  - right. split; [reflexivity|]. apply Forall_forall. intros k Hk.
    apply list_elem_of_In in Hk. exact (find_none _ _ E k Hk).
Qed.

Lemma extractIndustryFromName_nonempty (businessName : string) :
  extractIndustryFromName businessName <> "".
Proof.
  destruct (extractIndustryFromName_cases businessName) as [[Hin _]|[-> _]];
    [|discriminate].
  pose proof keywords_nonempty as Hk. rewrite Forall_forall in Hk.
  apply Hk, list_elem_of_In, Hin.
Qed.

(** [find] stops at the first element that passes the test. *)
Lemma find_first {A} (f : A -> bool) (l : list A) (x : A) :
  List.find f l = Some x ->
  exists before after,
    l = (before ++ x :: after)%list /\ f x = true /\
    Forall (fun y => f y = false) before.
Proof.
  induction l as [|y l IH]; [discriminate|]. cbn [List.find].
  destruct (f y) eqn:E.
  - intros [= ->]. exists [], l. repeat split; [exact E|constructor].
  - intros H. destruct (IH H) as (before & after & -> & Hx & Hb).
    exists (y :: before), after. repeat split; [exact Hx|constructor; assumption].
Qed.

End DiscoveryFailureFacts.



(** X11.  The query of the text search.  When the location is geocoded,
    competitor discovery makes the text search around that point with one
    query and returns what [searchNearbyPlaces] makes of its answer, so it
    depends on the search only at that point and query.  The query is the
    industry when one is given and not empty; otherwise it is the first
    keyword of the list below that the lower-cased business name contains,
    or [business] when it contains none.  It is never empty: discovery
    answers the same whatever the search would return for an empty query. *)
Theorem discovery_query_is_never_empty
    (geocodeRequest : string -> Model.Outcome (Discovery.Response (Q * Q)))
    (textSearchRequest textSearchRequest' :
       Q -> Q -> string -> Model.Outcome (Discovery.Response (list Discovery.Place)))
    (detailsRequest : string -> Model.Outcome (Discovery.Response Discovery.Details))
    (businessName location : string) (industry : option string) :
  let keywordList :=
    [ "restaurant"; "cafe"; "coffee"; "bakery"; "pizza"; "sushi";
      "salon"; "spa"; "barber"; "beauty";
      "gym"; "fitness"; "yoga"; "crossfit";
      "dental"; "dentist"; "clinic"; "medical"; "doctor";
      "law"; "attorney"; "legal";
      "accounting"; "tax"; "financial";
      "auto"; "car"; "mechanic"; "repair";
      "plumber"; "plumbing"; "hvac"; "electrical";
      "real estate"; "realty"; "property";
      "marketing"; "agency"; "design";
      "tech"; "software"; "it services";
      "media"; "production"; "video" ] in
  let nameLower := Js.toLowerCase businessName in
  (forall lat lng query,
     query <> "" -> textSearchRequest lat lng query = textSearchRequest' lat lng query) ->
  Discovery.discoverCompetitors geocodeRequest textSearchRequest detailsRequest
    businessName location industry =
  Discovery.discoverCompetitors geocodeRequest textSearchRequest' detailsRequest
    businessName location industry /\
  exists searchQuery,
    searchQuery <> "" /\
    (forall lat lng,
       Discovery.geocodeLocation geocodeRequest location = Some (lat, lng) ->
       Discovery.discoverCompetitors geocodeRequest textSearchRequest detailsRequest
         businessName location industry =
       Discovery.searchNearbyPlaces textSearchRequest detailsRequest lat lng
         searchQuery businessName /\
       forall otherSearch :
           Q -> Q -> string -> Model.Outcome (Discovery.Response (list Discovery.Place)),
         otherSearch lat lng searchQuery = textSearchRequest lat lng searchQuery ->
         Discovery.discoverCompetitors geocodeRequest otherSearch detailsRequest
           businessName location industry =
         Discovery.discoverCompetitors geocodeRequest textSearchRequest detailsRequest
           businessName location industry) /\
    (forall given, industry = Some given -> given <> "" -> searchQuery = given) /\
    (industry = None \/ industry = Some "" ->
     (exists before after,
        keywordList = (before ++ searchQuery :: after)%list /\
        Js.includes nameLower searchQuery = true /\
        Forall (fun keyword => Js.includes nameLower keyword = false) before) \/
     (searchQuery = "business" /\
      Forall (fun keyword => Js.includes nameLower keyword = false) keywordList)).
Proof.
  intros keywordList nameLower Hsame.
  change keywordList with Discovery.keywords. subst nameLower. clear keywordList.
  set (q := if Js.truthyStr industry then default "" industry
            else Discovery.extractIndustryFromName businessName).
  assert (Hq : q <> "").
  { subst q. destruct (Js.truthyStr industry) eqn:E.
    - destruct industry as [s|]; [|discriminate E]. simpl in *.
      intros ->. discriminate E.
    - apply extractIndustryFromName_nonempty. }
  split.
  { unfold Discovery.discoverCompetitors.
    destruct (Discovery.geocodeLocation geocodeRequest location) as [[lat lng]|];
      [|reflexivity].
    unfold Discovery.searchNearbyPlaces. fold q. rewrite Hsame; [reflexivity|exact Hq]. }
  exists q. split; [exact Hq|]. split; [|split].
  - intros lat lng Hg. unfold Discovery.discoverCompetitors. rewrite Hg. fold q.
    split; [reflexivity|]. intros otherSearch Ho.
    unfold Discovery.searchNearbyPlaces. rewrite Ho. reflexivity.
  - intros given -> Hne. subst q. unfold Js.truthyStr.
    apply String.eqb_neq in Hne. rewrite Hne. reflexivity.
  - intros Hi.
    assert (E : Js.truthyStr industry = false) by (destruct Hi as [->| ->]; reflexivity).
    subst q. rewrite E. unfold Discovery.extractIndustryFromName. cbv zeta.
    destruct (List.find _ Discovery.keywords) as [k|] eqn:Ef.
    + left. destruct (find_first _ _ _ Ef) as (before & after & Hl & Hk & Hb).
      exists before, after. auto.
    + right. split; [reflexivity|]. apply Forall_forall. intros k Hk.
      apply list_elem_of_In in Hk. exact (find_none _ _ Ef k Hk).
Qed.

Lemma discovery_query_is_never_empty_witness :
  Discovery.discoverCompetitors
    (fun _ => Model.Ok (Discovery.mkResponse "OK" (Some (0, 0)%Q)))
    (fun _ _ query =>
       if String.eqb query "" then Model.Throw Examples.timeoutError
       else Model.Ok (Discovery.mkResponse "OK" (Some [])))
    (fun _ => DiscoveryFailures.overQueryLimit) "Joe's Coffee" "Springfield" (Some "") =
  Discovery.discoverCompetitors
    (fun _ => Model.Ok (Discovery.mkResponse "OK" (Some (0, 0)%Q)))
    (fun _ _ _ => Model.Ok (Discovery.mkResponse "OK" (Some [])))
    (fun _ => DiscoveryFailures.overQueryLimit) "Joe's Coffee" "Springfield" (Some "").
Proof.
  refine (proj1 (discovery_query_is_never_empty _ _ _ _ _ _ _ _)).
  intros lat lng query Hq. apply String.eqb_neq in Hq. rewrite Hq. reflexivity.
Defined.

(** ** db.ts: retry with exponential backoff *)

From Stdlib Require Import Qpower.

Section RetryFacts.
Import Retry.

Variable T : Type.
Variable fn : nat -> Result T.
Variable options : RetryOptions.

Abbreviation limit := (default 3 (maxRetries options)).
Abbreviation cap := (default 30000%Q (maxDelay options)).

Lemma calculateDelay_capped (attempt : Z) :
  (calculateDelay attempt options <= cap)%Q.
Proof. unfold calculateDelay. cbv zeta. apply Q.le_min_r. Qed.

Lemma callsIn_app (a b : list Step) : callsIn (a ++ b) = (callsIn a + callsIn b)%nat.
Proof. unfold callsIn. rewrite List.filter_app, length_app. reflexivity. Qed.

Lemma sleepsIn_app (a b : list Step) : sleepsIn (a ++ b) = (sleepsIn a ++ sleepsIn b)%list.
Proof. unfold sleepsIn. apply omap_app. Qed.

(** One retried attempt: what the loop does when the call rejects with a
    retryable error and retries are left. *)
Lemma attempts_retry (fuel : nat) (attempt : Z) (calls : nat)
    (lastError : option Thrown) (error : Thrown) :
  fn calls = Rejected error ->
  isRetryableError error (retryableErrors options) = true ->
  attempt <= limit ->
  exists pre,
    attempts fn options (S fuel) attempt calls lastError =
      (fst (attempts fn options fuel (attempt + 1) (S calls) (Some error)),
       (pre ++ snd (attempts fn options fuel (attempt + 1) (S calls) (Some error)))%list) /\
    callsIn pre = 1%nat /\
    sleepsIn pre = [calculateDelay attempt options].
Proof.
  intros Hfn Hretry Hle. cbn [attempts].
  replace (attempt <=? limit + 1) with true by (symmetry; apply Z.leb_le; lia).
  rewrite Hfn.
  replace (limit <? attempt) with false by (symmetry; apply Z.ltb_ge; lia).
  rewrite Hretry. cbn [negb].
  destruct (attempts fn options fuel (attempt + 1) (S calls) (Some error)) as [s rest].
  eexists. split; [reflexivity|].
  destruct (onRetry options); split; reflexivity.
Qed.

(** [n] retried attempts in a row. *)
Lemma attempts_skip (n : nat) :
  forall (fuel : nat) (attempt : Z) (calls : nat) (lastError : option Thrown),
    (forall j, (j < n)%nat ->
       exists error, fn (calls + j) = Rejected error /\
                     isRetryableError error (retryableErrors options) = true) ->
    attempt + Z.of_nat n <= limit + 1 ->
    exists pre lastError',
      attempts fn options (n + fuel) attempt calls lastError =
        (fst (attempts fn options fuel (attempt + Z.of_nat n) (calls + n) lastError'),
         (pre ++ snd (attempts fn options fuel (attempt + Z.of_nat n) (calls + n)
                        lastError'))%list) /\
      callsIn pre = n /\
      sleepsIn pre =
        List.map (fun j => calculateDelay (attempt + Z.of_nat j) options) (seq 0 n) /\
      (n = 0%nat -> lastError' = lastError).
Proof.
  induction n as [|n IH]; intros fuel attempt calls lastError Hfn Hle.
  - exists [], lastError. cbn [Nat.add Z.of_nat]. rewrite Z.add_0_r, Nat.add_0_r.
    split; [destruct (attempts _ _ _ _ _ _); reflexivity|].
    split; [reflexivity|]. split; [reflexivity|]. reflexivity.
  - destruct (Hfn 0%nat ltac:(lia)) as (error & Herr & Hretry).
    rewrite Nat.add_0_r in Herr.
    destruct (attempts_retry (n + fuel) attempt calls lastError error Herr Hretry
                ltac:(lia)) as (pre1 & Hrun1 & Hc1 & Hs1).
    destruct (IH fuel (attempt + 1) (S calls) (Some error)) as (pre & le' & Hrun & Hc & Hs & _).
    { intros j Hj. replace (S calls + j)%nat with (calls + S j)%nat by lia.
      apply Hfn. lia. }
    { lia. }
    exists (pre1 ++ pre)%list, le'.
    replace (attempt + Z.of_nat (S n)) with (attempt + 1 + Z.of_nat n) by lia.
    replace (calls + S n)%nat with (S calls + n)%nat by lia.
    cbn [Nat.add]. rewrite Hrun1, Hrun. cbn [fst snd].
    split; [rewrite app_assoc; reflexivity|].
    split; [rewrite callsIn_app, Hc1, Hc; reflexivity|].
    split; [|discriminate].
    rewrite sleepsIn_app, Hs1, Hs. cbn [seq List.map app].
    rewrite Z.add_0_r. f_equal. rewrite <- seq_shift, List.map_map.
    apply List.map_ext. intros j. f_equal. lia.
Qed.

(** The loop never calls [fn] more often than it has iterations left, sleeps
    once after each call but the last, and never longer than [maxDelay]. *)
Lemma attempts_bounds (fuel : nat) :
  forall (attempt : Z) (calls : nat) (lastError : option Thrown),
    Z.of_nat fuel = limit + 2 - attempt ->
    let steps := snd (attempts fn options fuel attempt calls lastError) in
    (callsIn steps <= fuel)%nat /\
    List.length (sleepsIn steps) = (callsIn steps - 1)%nat /\
    Forall (fun d => (d <= cap)%Q) (sleepsIn steps) /\
    (fuel <> 0%nat -> callsIn steps <> 0%nat).
Proof.
  induction fuel as [|fuel IH]; intros attempt calls lastError Hfuel steps; subst steps.
  - cbn. repeat split; auto.
  - cbn [attempts].
    replace (attempt <=? limit + 1) with true by (symmetry; apply Z.leb_le; lia).
    destruct (fn calls) as [v|error].
    { cbn. repeat split; auto; lia. }
    destruct (limit <? attempt) eqn:E1.
    { cbn. repeat split; auto; lia. }
    destruct (negb (isRetryableError error (retryableErrors options))).
    { cbn. repeat split; auto; lia. }
    apply Z.ltb_ge in E1.
    specialize (IH (attempt + 1) (S calls) (Some error) ltac:(lia)).
    destruct (attempts fn options fuel (attempt + 1) (S calls) (Some error))
      as [s rest]. cbn [snd] in *.
    destruct IH as (IH1 & IH2 & IH3 & IH4).
    assert (Hf : fuel <> 0%nat) by lia. specialize (IH4 Hf).
    set (d := calculateDelay attempt options).
    assert (Hd : (d <= cap)%Q) by apply calculateDelay_capped.
    clearbody d.
    assert (Hsteps : forall pre : list Step,
      callsIn pre = 0%nat -> sleepsIn pre = [] ->
      (callsIn ((([CalledFn] ++ pre ++ [Warned attempt d; Slept d]) ++ rest)%list)
         <= S fuel)%nat /\
      List.length (sleepsIn (([CalledFn] ++ pre ++ [Warned attempt d; Slept d]) ++ rest)%list) =
        (callsIn ((([CalledFn] ++ pre ++ [Warned attempt d; Slept d]) ++ rest)%list) - 1)%nat /\
      Forall (fun d => (d <= cap)%Q)
        (sleepsIn (([CalledFn] ++ pre ++ [Warned attempt d; Slept d]) ++ rest)%list) /\
      (S fuel <> 0%nat ->
       callsIn ((([CalledFn] ++ pre ++ [Warned attempt d; Slept d]) ++ rest)%list) <> 0%nat)).
    { intros pre Hc Hs.
      rewrite !callsIn_app, !sleepsIn_app, Hc, Hs.
      change (callsIn [CalledFn]) with 1%nat.
      change (callsIn [Warned attempt d; Slept d]) with 0%nat.
      change (sleepsIn [CalledFn]) with (@nil Q).
      change (sleepsIn [Warned attempt d; Slept d]) with [d].
      cbn [app Nat.add List.length].
      split; [lia|]. split; [lia|]. split; [constructor; assumption|lia]. }
    destruct (onRetry options); apply Hsteps; reflexivity.
Qed.

End RetryFacts.

(** X12.  The delay before the retry of an attempt never exceeds [maxDelay]; with
    a non-negative initial delay and a multiplier of at least 1 it does not
    shrink from one attempt to the next; the first one is the initial delay,
    capped. *)
Theorem backoff_delay_grows_to_the_cap (options : Retry.RetryOptions)
    (attempt attempt' : Z) :
  (0 <= default 1000 (Retry.initialDelay options))%Q ->
  (1 <= default 2 (Retry.backoffMultiplier options))%Q ->
  1 <= attempt <= attempt' ->
  (Retry.calculateDelay attempt options <= Retry.calculateDelay attempt' options)%Q /\
  (Retry.calculateDelay attempt' options <= default 30000 (Retry.maxDelay options))%Q /\
  (Retry.calculateDelay 1 options ==
   Qmin (default 1000 (Retry.initialDelay options))
        (default 30000 (Retry.maxDelay options)))%Q.
Proof.
  intros Hinit Hmult Hle.
  split; [|split; [apply calculateDelay_capped|]].
  - unfold Retry.calculateDelay. cbv zeta. apply Q.min_le_compat_r.
    rewrite !(Qmult_comm (default 1000%Q _)).
    apply Qmult_le_compat_r; [|exact Hinit].
    apply Qpower_le_compat_l; [lia|exact Hmult].
  - unfold Retry.calculateDelay. cbv zeta.
    change (1 - 1) with 0. rewrite Qpower_0_r, Qmult_1_r. reflexivity.
Qed.

Lemma backoff_delay_grows_to_the_cap_witness :
  (Retry.calculateDelay 3 Retry.noOptions <= Retry.calculateDelay 6 Retry.noOptions)%Q /\
  (Retry.calculateDelay 6 Retry.noOptions <= 30000)%Q.
Proof.
  assert (H1 : (0 <= default 1000 (Retry.initialDelay Retry.noOptions))%Q)
    by (vm_compute; discriminate).
  assert (H2 : (1 <= default 2 (Retry.backoffMultiplier Retry.noOptions))%Q)
    by (vm_compute; discriminate).
  assert (H3 : 1 <= 3 <= 6) by lia.
  destruct (backoff_delay_grows_to_the_cap Retry.noOptions 3 6 H1 H2 H3) as (A & B & _).
  split; [exact A|exact B].
Defined.

(** X13.  When the first [k] calls reject with retryable errors, call number
    [k + 1] resolves and [k] does not exceed [maxRetries], [retryWithBackoff]
    returns the value of that call, having called the function [k + 1] times
    and slept the [k] backoff delays of the attempts 1 to [k] in between. *)
Theorem retry_returns_the_first_success (T : Type) (fn : nat -> Retry.Result T)
    (options : Retry.RetryOptions) (k : nat) (value : T) :
  Z.of_nat k <= default 3 (Retry.maxRetries options) ->
  (forall j, (j < k)%nat ->
     exists error, fn j = Retry.Rejected error /\
       Retry.isRetryableError error (Retry.retryableErrors options) = true) ->
  fn k = Retry.Resolved value ->
  let r := Retry.retryWithBackoff fn options in
  fst r = Retry.Returned value /\
  Retry.callsIn (snd r) = S k /\
  Retry.sleepsIn (snd r) =
    List.map (fun j => Retry.calculateDelay (1 + Z.of_nat j) options) (seq 0 k).
Proof.
  intros Hk Hfail Hok r. subst r. unfold Retry.retryWithBackoff. cbv zeta.
  set (limit := default 3 (Retry.maxRetries options)) in *.
  replace (Z.to_nat (limit + 1)) with (k + S (Z.to_nat (limit + 1) - k - 1))%nat by lia.
  destruct (attempts_skip T fn options k (S (Z.to_nat (limit + 1) - k - 1)) 1 0%nat None)
    as (pre & le' & Hrun & Hc & Hs & _).
  { intros j Hj. apply Hfail, Hj. }
  { fold limit. lia. }
  rewrite Hrun. cbn [Nat.add Retry.attempts]. fold limit.
  replace (1 + Z.of_nat k <=? limit + 1) with true by (symmetry; apply Z.leb_le; lia).
  rewrite Hok. cbn [fst snd].
  split; [reflexivity|].
  split; [rewrite callsIn_app, Hc; cbn; lia|].
  rewrite sleepsIn_app, Hs. cbn. apply app_nil_r.
Qed.

Lemma retry_returns_the_first_success_witness :
  fst (Retry.retryWithBackoff (Retry.flaky 2) Retry.noOptions) = Retry.Returned "ok" /\
  Retry.callsIn (snd (Retry.retryWithBackoff (Retry.flaky 2) Retry.noOptions)) = 3%nat /\
  Retry.sleepsIn (snd (Retry.retryWithBackoff (Retry.flaky 2) Retry.noOptions)) =
    [Retry.calculateDelay 1 Retry.noOptions; Retry.calculateDelay 2 Retry.noOptions].
Proof.
  assert (H1 : Z.of_nat 2 <= default 3 (Retry.maxRetries Retry.noOptions))
    by (vm_compute; discriminate).
  assert (H2 : forall j, (j < 2)%nat ->
            exists error, Retry.flaky 2 j = Retry.Rejected error /\
              Retry.isRetryableError error (Retry.retryableErrors Retry.noOptions) = true).
  { intros j Hj. exists Retry.connectionReset.
    destruct j as [|[|j]]; [split; reflexivity|split; reflexivity|lia]. }
  exact (retry_returns_the_first_success string (Retry.flaky 2) Retry.noOptions 2 "ok"
           H1 H2 eq_refl).
Defined.

(** X14.  When the first [k] calls reject with retryable errors and call number
    [k + 1] rejects with an error that is not retryable, or is the last
    attempt allowed ([k = maxRetries]), [retryWithBackoff] throws the error
    of that call, after [k + 1] calls and [k] sleeps: it does not sleep
    before giving up. *)
Theorem retry_rethrows_the_last_error (T : Type) (fn : nat -> Retry.Result T)
    (options : Retry.RetryOptions) (k : nat) (error : Retry.Thrown) :
  Z.of_nat k <= default 3 (Retry.maxRetries options) ->
  (forall j, (j < k)%nat ->
     exists error, fn j = Retry.Rejected error /\
       Retry.isRetryableError error (Retry.retryableErrors options) = true) ->
  fn k = Retry.Rejected error ->
  Z.of_nat k = default 3 (Retry.maxRetries options) \/
  Retry.isRetryableError error (Retry.retryableErrors options) = false ->
  let r := Retry.retryWithBackoff fn options in
  fst r = Retry.Threw (Some error) /\
  Retry.callsIn (snd r) = S k /\
  List.length (Retry.sleepsIn (snd r)) = k.
Proof.
  intros Hk Hfail Herr Hlast r. subst r. unfold Retry.retryWithBackoff. cbv zeta.
  set (limit := default 3 (Retry.maxRetries options)) in *.
  replace (Z.to_nat (limit + 1)) with (k + S (Z.to_nat (limit + 1) - k - 1))%nat by lia.
  destruct (attempts_skip T fn options k (S (Z.to_nat (limit + 1) - k - 1)) 1 0%nat None)
    as (pre & le' & Hrun & Hc & Hs & _).
  { intros j Hj. apply Hfail, Hj. }
  { fold limit. lia. }
  rewrite Hrun. cbn [Nat.add Retry.attempts]. fold limit.
  replace (1 + Z.of_nat k <=? limit + 1) with true by (symmetry; apply Z.leb_le; lia).
  rewrite Herr.
  assert (Hlen : List.length (Retry.sleepsIn pre) = k)
    by (rewrite Hs, length_map, length_seq; reflexivity).
  destruct (limit <? 1 + Z.of_nat k) eqn:E; cbn [fst snd].
  - split; [reflexivity|].
    split; [rewrite callsIn_app, Hc; cbn; lia|].
    rewrite sleepsIn_app, length_app, Hlen. cbn. lia.
  - apply Z.ltb_ge in E. destruct Hlast as [Hlast|Hlast]; [lia|].
    rewrite Hlast. cbn [negb fst snd].
    split; [reflexivity|].
    split; [rewrite callsIn_app, Hc; cbn; lia|].
    rewrite sleepsIn_app, length_app, Hlen. cbn. lia.
Qed.

Lemma retry_rethrows_the_last_error_witness :
  fst (Retry.retryWithBackoff
         (fun k => if (k <? 1)%nat then Retry.Rejected Retry.connectionReset
                   else @Retry.Rejected string Retry.notFound)
         Retry.noOptions) = Retry.Threw (Some Retry.notFound).
Proof.
  assert (H1 : Z.of_nat 1 <= default 3 (Retry.maxRetries Retry.noOptions))
    by (vm_compute; discriminate).
  refine (proj1 (retry_rethrows_the_last_error string _ Retry.noOptions 1 Retry.notFound
                   H1 _ eq_refl (or_intror eq_refl))).
  intros j Hj. exists Retry.connectionReset.
  destruct j as [|j]; [split; reflexivity|lia].
Defined.

(** X15.  Whatever the wrapped function does, [retryWithBackoff] calls it at most
    [maxRetries + 1] times, sleeps exactly once between two consecutive
    calls and never after the last one, and never sleeps longer than
    [maxDelay] at a time.  With a negative [maxRetries] it does not call the
    function at all and throws [undefined]. *)
Theorem retry_effort_is_bounded (T : Type) (fn : nat -> Retry.Result T)
    (options : Retry.RetryOptions) :
  let r := Retry.retryWithBackoff fn options in
  let maxRetries := default 3 (Retry.maxRetries options) in
  Z.of_nat (Retry.callsIn (snd r)) <= Z.max 0 (maxRetries + 1) /\
  List.length (Retry.sleepsIn (snd r)) = (Retry.callsIn (snd r) - 1)%nat /\
  Forall (fun d => (d <= default 30000 (Retry.maxDelay options))%Q)
         (Retry.sleepsIn (snd r)) /\
  (maxRetries < 0 <-> Retry.callsIn (snd r) = 0%nat) /\
  (maxRetries < 0 -> r = (Retry.Threw None, [])).
Proof.
  intros r maxRetries. subst r. unfold Retry.retryWithBackoff. cbv zeta.
  fold maxRetries.
  destruct (Z.ltb_spec maxRetries 0) as [Hneg|Hpos].
  - replace (Z.to_nat (maxRetries + 1)) with 0%nat by lia. cbn.
    split; [lia|]. split; [reflexivity|]. split; [constructor|].
    split; [tauto|reflexivity].
  - destruct (attempts_bounds T fn options (Z.to_nat (maxRetries + 1)) 1 0%nat None)
      as (H1 & H2 & H3 & H4).
    { fold maxRetries. lia. }
    split; [lia|]. split; [exact H2|]. split; [exact H3|].
    split; [|lia]. split; [lia|]. intros H0. exfalso. apply H4; [lia|exact H0].
Qed.

Lemma retry_effort_is_bounded_witness :
  Retry.retryWithBackoff (Retry.flaky 0)
    (Retry.mkOptions (Some (-1)) None None None None false) =
  (Retry.Threw None, []).
Proof.
  assert (H : default 3 (Retry.maxRetries
                           (Retry.mkOptions (Some (-1)) None None None None false)) < 0)
    by (vm_compute; reflexivity).
  exact (proj2 (proj2 (proj2 (proj2
           (retry_effort_is_bounded string (Retry.flaky 0)
              (Retry.mkOptions (Some (-1)) None None None None false))))) H).
Defined.

(** ** db.ts: the circuit breaker over a history *)

Section BreakerHistoryFacts.
Import Model Breaker BreakerHistory.

Lemma use_params (cb : CircuitBreaker) (u : Use) :
  threshold (use cb u) = threshold cb /\
  resetTimeout (use cb u) = resetTimeout cb.
Proof.
  destruct u as [tEnter tSettle rejects|]; [|split; reflexivity].
  unfold use, execute, enter, wrapped.
  destruct (isOpen (state cb)); [destruct (_ <=? _)|];
    destruct rejects; cbn [fst snd settle threshold resetTimeout state];
    repeat match goal with |- context [if ?b then _ else _] => destruct b end;
    split; reflexivity.
Qed.

Lemma uses_params (us : list Use) (cb : CircuitBreaker) :
  threshold (uses cb us) = threshold cb /\
  resetTimeout (uses cb us) = resetTimeout cb.
Proof.
  revert cb. induction us as [|u us IH]; intros cb; [split; reflexivity|].
  cbn [uses fold_left]. destruct (IH (use cb u)) as [H1 H2].
  destruct (use_params cb u) as [H3 H4].
  unfold uses in *. split; congruence.
Qed.

(** While fewer than [threshold] calls have rejected, the breaker is closed
    and has counted each of them. *)
Lemma uses_counting (us : list Use) :
  forall cb : CircuitBreaker,
    state cb = closed ->
    Forall (fun u => isReset u = false) us ->
    failures cb + rejections us < threshold cb ->
    state (uses cb us) = closed /\
    failures (uses cb us) = failures cb + rejections us.
Proof.
  induction us as [|u us IH]; intros cb Hs Hno Hlt.
  - unfold rejections. cbn. split; [exact Hs|lia].
  - inversion Hno as [|? ? Hu Hus]; subst.
    destruct u as [tEnter tSettle rejects|]; [|discriminate Hu].
    cbn [uses fold_left]. fold (uses (use cb (Execute tEnter tSettle rejects)) us).
    assert (Hrej : rejections (Execute tEnter tSettle rejects :: us) =
                   (if rejects then 1 else 0) + rejections us).
    { unfold rejections. cbn [List.filter rejected]. destruct rejects; cbn [List.length]; lia. }
    rewrite Hrej in *.
    assert (Hpos : 0 <= rejections us) by (unfold rejections; lia).
    assert (Huse : state (use cb (Execute tEnter tSettle rejects)) = closed /\
                   failures (use cb (Execute tEnter tSettle rejects)) =
                     failures cb + (if rejects then 1 else 0) /\
                   threshold (use cb (Execute tEnter tSettle rejects)) = threshold cb).
    { unfold use, execute, enter, wrapped. rewrite Hs. cbn [isOpen].
      destruct rejects; cbn [fst snd settle state failures threshold].
      - replace (threshold cb <=? failures cb + 1) with false
          by (symmetry; apply Z.leb_gt; lia).
        rewrite Hs. repeat split; reflexivity.
      - rewrite Hs. cbn [isHalfOpen]. rewrite Hs. repeat split; lia. }
    destruct Huse as (H1 & H2 & H3).
    destruct (IH (use cb (Execute tEnter tSettle rejects)) H1 Hus) as [IH1 IH2].
    { rewrite H2, H3. lia. }
    split; [exact IH1|]. rewrite IH2, H2. lia.
Qed.

Lemma use_sameButTimeout (a b : CircuitBreaker) (u : Use) :
  sameButTimeout a b -> sameButTimeout (use a u) (use b u).
Proof.
  intros (Hf & Hl & Hs & Ht & Hr). unfold sameButTimeout.
  destruct u as [tEnter tSettle rejects|]; [|cbn; auto].
  unfold use, execute, enter, wrapped. rewrite Hs, Hr, Hl.
  destruct (isOpen (state b)); [destruct (_ <=? _)|];
    destruct rejects;
    cbn [fst snd settle failures lastFailureTime state threshold resetTimeout isHalfOpen];
    rewrite ?Hs, ?Hf, ?Ht; auto;
    destruct (isHalfOpen (state b)); cbn; auto.
Qed.

End BreakerHistoryFacts.

(** X16.  The breaker counts failures in total, not in a row: over calls without
    a reset of which fewer than [threshold] rejected, however many resolved
    in between, it stays closed with every rejection counted, and the next
    rejection opens it exactly when it is number [threshold]. *)
Theorem breaker_counts_failures_in_total (th to rt : Z) (us : list Breaker.Use)
    (tEnter tSettle : Z) :
  Forall (fun u => BreakerHistory.isReset u = false) us ->
  BreakerHistory.rejections us < th ->
  let cb := Breaker.uses (Breaker.new th to rt) us in
  Breaker.state cb = Breaker.closed /\
  Breaker.failures cb = BreakerHistory.rejections us /\
  (Breaker.state (Breaker.use cb (Breaker.Execute tEnter tSettle true)) = Breaker.open <->
   BreakerHistory.rejections us = th - 1).
Proof.
  intros Hno Hlt cb. subst cb.
  destruct (uses_counting us (Breaker.new th to rt) eq_refl Hno) as [Hs Hf].
  { cbn. lia. }
  cbn [Breaker.new Breaker.failures] in Hf. rewrite Z.add_0_l in Hf.
  split; [exact Hs|]. split; [exact Hf|].
  destruct (uses_params us (Breaker.new th to rt)) as [Ht _].
  cbn [Breaker.new Breaker.threshold] in Ht.
  unfold Breaker.use, Breaker.execute, Breaker.enter, Breaker.wrapped.
  rewrite Hs. cbn [Breaker.isOpen fst snd Breaker.settle Breaker.state].
  rewrite Ht, Hf, Hs.
  destruct (th <=? BreakerHistory.rejections us + 1) eqn:E;
    [apply Z.leb_le in E|apply Z.leb_gt in E].
  - split; [intros _; lia|reflexivity].
  - split; [discriminate|lia].
Qed.

Lemma breaker_counts_failures_in_total_witness :
  let us := [Breaker.Execute 0 1 true; Breaker.Execute 2 3 false;
             Breaker.Execute 4 5 true; Breaker.Execute 6 7 false] in
  Breaker.state (Breaker.uses Breaker.llmCircuitBreaker us) = Breaker.closed /\
  Breaker.state (Breaker.use (Breaker.uses Breaker.llmCircuitBreaker us)
                   (Breaker.Execute 8 9 true)) = Breaker.open.
Proof.
  intros us.
  assert (H1 : Forall (fun u => BreakerHistory.isReset u = false) us)
    by (repeat constructor).
  assert (H2 : BreakerHistory.rejections us < 3) by (vm_compute; reflexivity).
  destruct (breaker_counts_failures_in_total 3 120000 60000 us 8 9 H1 H2)
    as (A & _ & B).
  split; [exact A|]. apply B. reflexivity.
Defined.

(** X17.  A probe that fails re-opens the breaker and restarts the wait: when a
    breaker with a threshold of at least 1 is open and lets a call through
    after [resetTimeout], and the wrapped function rejects, the breaker is
    open again with one more failure, and every call made less than
    [resetTimeout] after that failure is refused without running its
    function. *)
Theorem failed_probe_restarts_the_wait (th to rt : Z) (us : list Breaker.Use)
    (tEnter tSettle : Z) :
  1 <= th ->
  let cb := Breaker.uses (Breaker.new th to rt) us in
  Breaker.state cb = Breaker.open ->
  rt <= tEnter - Breaker.lastFailureTime cb ->
  let cb' := Breaker.use cb (Breaker.Execute tEnter tSettle true) in
  Breaker.state cb' = Breaker.open /\
  Breaker.failures cb' = Breaker.failures cb + 1 /\
  Breaker.lastFailureTime cb' = tSettle /\
  (forall (W T : Type) (fn : W -> Model.Outcome T * W) (w : W) (t t' : Z),
     t - tSettle < rt ->
     Breaker.execute cb' fn t t' w = (Model.Throw Breaker.circuitOpen, cb', w)).
Proof.
  intros Hth cb Hopen Hwait cb'.
  destruct (uses_params us (Breaker.new th to rt)) as [Ht Hr].
  cbn [Breaker.new Breaker.threshold Breaker.resetTimeout] in Ht, Hr.
  fold cb in Ht, Hr.
  destruct (uses_invariant th us (Breaker.new th to rt) Hth) as [_ Hinv].
  { cbn. split; [reflexivity|]. split; [discriminate|]. split; intros; [discriminate|lia]. }
  fold cb in Hinv. apply Hinv in Hopen as Hf.
  assert (Hcb' : cb' = Breaker.mkBreaker (Breaker.failures cb + 1) tSettle Breaker.open
                         th (Breaker.timeout cb) rt).
  { subst cb'. unfold Breaker.use, Breaker.execute, Breaker.enter, Breaker.wrapped.
    rewrite Hopen, Hr. cbn [Breaker.isOpen].
    replace (rt <=? tEnter - Breaker.lastFailureTime cb) with true
      by (symmetry; apply Z.leb_le; lia).
    cbn [fst snd Breaker.settle Breaker.failures Breaker.threshold Breaker.state
         Breaker.timeout Breaker.resetTimeout].
    rewrite Ht.
    replace (th <=? Breaker.failures cb + 1) with true
      by (symmetry; apply Z.leb_le; lia).
    reflexivity. }
  rewrite Hcb'. cbn [Breaker.state Breaker.failures Breaker.lastFailureTime].
  split; [reflexivity|]. split; [reflexivity|]. split; [reflexivity|].
  intros W T fn w t t' Hsoon.
  unfold Breaker.execute, Breaker.enter.
  cbn [Breaker.state Breaker.isOpen Breaker.resetTimeout Breaker.lastFailureTime].
  replace (rt <=? t - tSettle) with false by (symmetry; apply Z.leb_gt; lia).
  reflexivity.
Qed.

Lemma failed_probe_restarts_the_wait_witness :
  let cb := Breaker.uses (Breaker.new 1 60000 30000) [Breaker.Execute 0 10 true] in
  Breaker.state (Breaker.use cb (Breaker.Execute 40000 40500 true)) = Breaker.open /\
  Breaker.lastFailureTime (Breaker.use cb (Breaker.Execute 40000 40500 true)) = 40500.
Proof.
  intros cb.
  assert (H1 : 1 <= 1) by lia.
  assert (H2 : Breaker.state cb = Breaker.open) by reflexivity.
  assert (H3 : 30000 <= 40000 - Breaker.lastFailureTime cb) by (vm_compute; discriminate).
  destruct (failed_probe_restarts_the_wait 1 60000 30000 [Breaker.Execute 0 10 true]
              40000 40500 H1 H2 H3) as (A & _ & B & _).
  split; [exact A|exact B].
Defined.

(** X18.  The [timeout] given to the constructor is stored and never read: two
    breakers that differ in nothing else stay so over any history, and a
    call answers the same and runs the wrapped function the same on both. *)
Theorem breaker_timeout_is_never_read (th to to' rt : Z) (us : list Breaker.Use) :
  let a := Breaker.uses (Breaker.new th to rt) us in
  let b := Breaker.uses (Breaker.new th to' rt) us in
  BreakerHistory.sameButTimeout a b /\
  forall (W T : Type) (fn : W -> Model.Outcome T * W) (w : W) (t t' : Z),
    fst (fst (Breaker.execute a fn t t' w)) = fst (fst (Breaker.execute b fn t t' w)) /\
    snd (Breaker.execute a fn t t' w) = snd (Breaker.execute b fn t t' w).
Proof.
  intros a b.
  assert (Hsame : BreakerHistory.sameButTimeout a b).
  { subst a b.
    assert (G : forall us x y, BreakerHistory.sameButTimeout x y ->
                BreakerHistory.sameButTimeout (Breaker.uses x us) (Breaker.uses y us)).
    { clear. induction us as [|u us IH]; intros x y H; [exact H|].
      cbn [Breaker.uses fold_left]. apply IH, use_sameButTimeout, H. }
    apply G. repeat split; reflexivity. }
  split; [exact Hsame|].
  destruct Hsame as (Hf & Hl & Hs & Ht & Hr).
  intros W T fn w t t'. unfold Breaker.execute, Breaker.enter.
  rewrite Hs, Hr, Hl.
  destruct (Breaker.isOpen (Breaker.state b)); [destruct (_ <=? _)|];
    try (destruct (fn w)); split; reflexivity.
Qed.

(** ** analysisService: a run is confined to its analysis *)

Section FrameFacts.
Import Js Model Schema Runtime Store Pipeline Observe Frame.

Lemma grows_refl (i : Z) (d : DB) : grows i 0 d d.
Proof.
  repeat split; auto. exists []. rewrite app_nil_r. repeat split; auto.
Qed.

Lemma grows_trans (i : Z) (n n' : nat) (d d' d'' : DB) :
  grows i n d d' -> grows i n' d' d'' -> grows i (n + n') d d''.
Proof.
  intros (H1 & H2 & H3 & new & H4 & H5 & H6) (G1 & G2 & G3 & new' & G4 & G5 & G6).
  split; [intros j Hj; rewrite G1, H1 by exact Hj; reflexivity|].
  split; [congruence|]. split; [congruence|].
  exists (new ++ new')%list. rewrite G4, H4, <- app_assoc.
  split; [reflexivity|]. split; [rewrite length_app; lia|].
  apply Forall_app; split; assumption.
Qed.

Lemma grows_mono (i : Z) (n n' : nat) (d d' : DB) :
  (n <= n')%nat -> grows i n d d' -> grows i n' d d'.
Proof.
  intros Hn (H1 & H2 & H3 & new & H4 & H5 & H6).
  repeat split; auto. exists new. repeat split; auto. lia.
Qed.

Lemma confined_weaken (i : Z) (n n' : nat) {A} (m : M A) (P Q : A -> Prop) :
  (n <= n')%nat -> (forall a, P a -> Q a) ->
  confined i n m P -> confined i n' m Q.
Proof.
  intros Hn HPQ Hm st Hk. destruct (Hm st Hk) as (H1 & H2 & H3).
  split; [exact H1|]. split; [eapply grows_mono; eassumption|].
  intros a Ha. apply HPQ, H3, Ha.
Qed.

Lemma confined_bind (i : Z) (n n' : nat) {A B} (m : M A) (k : A -> M B)
    (P : A -> Prop) (Q : B -> Prop) :
  confined i n m P -> (forall a, P a -> confined i n' (k a) Q) ->
  confined i (n + n') (bind m k) Q.
Proof.
  intros Hm Hk st Hkey. destruct (Hm st Hkey) as (H1 & H2 & H3).
  unfold bind. destruct (m st) as [[a|e] st1] eqn:E; cbn [fst snd] in *.
  - destruct (Hk a (H3 a eq_refl) st1 H1) as (G1 & G2 & G3).
    split; [exact G1|]. split; [eapply grows_trans; eassumption|exact G3].
  - split; [exact H1|]. split; [eapply grows_mono; [|exact H2]; lia|].
    intros a Ha. discriminate Ha.
Qed.

Lemma confined_tryCatch (i : Z) (n n' : nat) {A} (m : M A) (h : Error -> M A)
    (P : A -> Prop) :
  confined i n m P -> (forall e, confined i n' (h e) P) ->
  confined i (n + n') (tryCatch m h) P.
Proof.
  intros Hm Hh st Hkey. destruct (Hm st Hkey) as (H1 & H2 & H3).
  unfold tryCatch. destruct (m st) as [[a|e] st1] eqn:E; cbn [fst snd] in *.
  - split; [exact H1|]. split; [eapply grows_mono; [|exact H2]; lia|].
    intros a' [= <-]. apply H3. reflexivity.
  - destruct (Hh e st1 H1) as (G1 & G2 & G3).
    split; [exact G1|]. split; [eapply grows_trans; eassumption|exact G3].
Qed.

Lemma confined_onlyLogs (i : Z) {A} (m : M A) :
  onlyLogs m -> confined i 0 m (fun _ => True).
Proof.
  intros Hm st Hkey. destruct (Hm st) as [evs ->]. cbn [logged db].
  split; [exact Hkey|]. split; [apply grows_refl|auto].
Qed.

Lemma confined_ret (i : Z) {A} (a : A) (P : A -> Prop) :
  P a -> confined i 0 (ret a) P.
Proof.
  intros Ha st Hkey. cbn. split; [exact Hkey|]. split; [apply grows_refl|].
  intros a' [= <-]. exact Ha.
Qed.

Lemma confined_if (i : Z) (n : nat) {A} (b : bool) (m1 m2 : M A) (P : A -> Prop) :
  confined i n m1 P -> confined i n m2 P -> confined i n (if b then m1 else m2) P.
Proof. destruct b; auto. Qed.

Lemma confined_any (i : Z) (n : nat) {A} (m : M A) (P : A -> Prop) :
  confined i n m P -> confined i n m (fun _ => True).
Proof. apply confined_weaken; auto. Qed.

Variable F : Faults.

Lemma confined_getDb (i : Z) : confined i 0 (getDb F) (fun _ => True).
Proof.
  intros st Hkey. cbn. split; [exact Hkey|]. split; [apply grows_refl|auto].
Qed.

Lemma confined_query (i : Z) (n : nat) {A} (q : Query) (effect : DB -> DB)
    (result : DB -> A) (P : A -> Prop) :
  (forall d, keyed d -> keyed (effect d) /\ grows i n d (effect d) /\ P (result d)) ->
  confined i n (query F q effect result) P.
Proof.
  intros H st Hkey. unfold query.
  destruct (queryFault F (queries st)); cbn [fst snd db].
  - split; [exact Hkey|]. split; [eapply grows_mono; [|apply grows_refl]; lia|].
    intros a Ha. discriminate Ha.
  - destruct (H (db st) Hkey) as (H1 & H2 & H3).
    split; [exact H1|]. split; [exact H2|]. intros a [= <-]. exact H3.
Qed.

Lemma confined_throw (i : Z) {A} (e : Error) (P : A -> Prop) :
  confined i 0 (@throw A e) P.
Proof.
  intros st Hkey. cbn. split; [exact Hkey|]. split; [apply grows_refl|].
  intros a Ha. discriminate Ha.
Qed.

Lemma confined_guard (i : Z) (n : nat) {A} (m0 m : M A) (P : A -> Prop) :
  confined i 0 m0 P -> confined i n m P ->
  confined i n (bind (getDb F) (fun h => if negb h then m0 else m)) P.
Proof.
  intros H0 Hm. change n with (0 + n)%nat.
  eapply confined_bind; [apply confined_getDb|].
  intros h _. destruct h; cbn [negb]; [exact Hm|].
  eapply confined_weaken; [| |exact H0]; auto. lia.
Qed.

Lemma givenOf_applyPatch (p : Patch) (a : Analysis) :
  givenOf (applyPatch p a) = givenOf a.
Proof. reflexivity. Qed.

Lemma confined_updateAnalysis (i : Z) (p : Patch) :
  confined i 0 (updateAnalysis F i p) (fun _ => True).
Proof.
  unfold updateAnalysis. apply confined_guard; [apply confined_throw|].
  apply confined_query. intros d Hkey. cbn [analyses competitors nextAnalysisId].
  split; [|split; [|exact I]].
  - intros j a. cbn [analyses]. destruct (decide (j = i)) as [->|Hj].
    + rewrite lookup_alter_eq. destruct (analyses d !! i) as [a0|] eqn:E; [|discriminate].
      intros [= <-]. exact (Hkey i a0 E).
    + rewrite lookup_alter_ne by congruence. apply Hkey.
  - split; [intros j Hj; cbn [analyses]; apply lookup_alter_ne; congruence|].
    split.
    { cbn [analyses]. rewrite lookup_alter_eq.
      destruct (analyses d !! i); reflexivity. }
    split; [reflexivity|].
    exists []. cbn [competitors]. rewrite app_nil_r. repeat split; auto.
Qed.

Lemma confined_getAnalysisById (i : Z) :
  confined i 0 (getAnalysisById F i) (fun o => forall a, o = Some a -> id a = i).
Proof.
  unfold getAnalysisById. apply confined_guard.
  - apply confined_ret. intros a Ha. discriminate Ha.
  - apply confined_query. intros d Hkey.
    split; [exact Hkey|]. split; [apply grows_refl|].
    intros a Ha. exact (Hkey i a Ha).
Qed.

Lemma confined_getCompetitors (i : Z) :
  confined i 0 (getCompetitorsByAnalysisId F i) (fun _ => True).
Proof.
  unfold getCompetitorsByAnalysisId. apply confined_guard.
  - apply confined_ret. exact I.
  - apply confined_query. intros d Hkey.
    split; [exact Hkey|]. split; [apply grows_refl|exact I].
Qed.

Lemma confined_createCompetitors (i : Z) (data : list CompetitorData) :
  Forall (scored i) data ->
  confined i (List.length data) (createCompetitors F data) (fun _ => True).
Proof.
  intros Hdata. unfold createCompetitors. apply confined_guard; [apply confined_throw|].
  apply confined_if.
  - eapply confined_weaken; [| |apply (confined_ret i tt (fun _ => True) I)]; auto. lia.
  - apply confined_query. intros d Hkey.
    split; [exact Hkey|]. split; [|exact I].
    split; [reflexivity|]. split; [reflexivity|]. split; [reflexivity|].
    exists data. cbn [competitors]. repeat split; auto.
Qed.

End FrameFacts.

Section FramePipeline.
Import Js Model Schema Runtime Store Pipeline Observe Frame.

Variable W : World.
Variable i : Z.

Lemma finalize_scored (comp : DiscoveredCompetitor)
    (targetSeoData compSeo : option SeoService.SEOAnalysisResult)
    (enrichedData : EnrichmentResult) :
  scored i (finalize (initialData i comp) targetSeoData compSeo enrichedData).
Proof.
  split; [reflexivity|]. eexists. split; [reflexivity|].
  split; [|reflexivity]. unfold Scoring.calculateCompetitiveScore. lia.
Qed.

Lemma confined_call {A} (c : Call) (r : Outcome A) :
  confined i 0 (call c r) (fun _ => True).
Proof. apply confined_onlyLogs, onlyLogs_call. Qed.

Lemma confined_analyzeCompetitors
    (targetSeoData : option SeoService.SEOAnalysisResult)
    (discovered : list DiscoveredCompetitor) :
  confined i 0 (analyzeCompetitors W i targetSeoData discovered)
    (fun l => (List.length l <= 5)%nat /\ Forall (scored i) l).
Proof.
  intros st Hkey.
  destruct (analyzeCompetitors_run W i targetSeoData discovered st) as [evs ->].
  cbn [fst snd logged db].
  split; [exact Hkey|]. split; [apply grows_refl|].
  intros l Hl.
  assert (El : l = List.map
             (fun comp => finalize (initialData i comp) targetSeoData
                                   (seoSettled W comp) (enrichSettled W comp))
             (slice0 5 discovered)) by congruence.
  rewrite El. clear Hl El. unfold slice0. split.
  - rewrite length_map, length_firstn. lia.
  - apply Forall_forall. intros c Hc.
    apply list_elem_of_In, in_map_iff in Hc. destruct Hc as (comp & <- & _).
    apply finalize_scored.
Qed.

Lemma confined_resolveIndustry (analysis : Analysis)
    (presenceData : OnlinePresenceResult) :
  confined i 0 (resolveIndustry W i analysis presenceData) (fun _ => True).
Proof.
  unfold resolveIndustry. cbv zeta.
  repeat apply confined_if; try (apply confined_ret; exact I).
  change 0%nat with (0 + 0)%nat.
  eapply confined_bind; [apply confined_updateAnalysis|].
  intros _ _. apply confined_ret. exact I.
Qed.

Ltac step0 :=
  change 0%nat with (0 + 0)%nat;
  eapply confined_bind;
  [first [ apply confined_updateAnalysis
         | apply confined_call
         | apply confined_getCompetitors
         | apply confined_resolveIndustry ]
  | intros ? _ ].

Lemma confined_collect : confined i 5 (collect W i) (fun _ => True).
Proof.
  unfold collect.
  change 5%nat with (0 + 5)%nat.
  eapply confined_bind; [apply confined_getAnalysisById|].
  intros [analysis|] _;
    [|eapply confined_weaken; [| |apply (confined_throw i _ (fun _ => True))]; auto; lia].
  change 5%nat with (0 + 5)%nat.
  eapply confined_bind with (P := fun _ => True).
  { apply confined_if; [|apply confined_ret; exact I].
    step0. step0. apply confined_ret. exact I. }
  intros targetSeoData _.
  change 5%nat with (0 + 5)%nat.
  eapply confined_bind; [apply confined_call|]. intros presenceData _.
  change 5%nat with (0 + 5)%nat.
  eapply confined_bind; [apply confined_updateAnalysis|]. intros _ _.
  change 5%nat with (0 + 5)%nat.
  eapply confined_bind; [apply confined_resolveIndustry|]. intros detectedIndustry _.
  change 5%nat with (0 + 5)%nat.
  eapply confined_bind; [apply confined_call|]. intros discovered _.
  change 5%nat with (0 + 5)%nat.
  eapply confined_bind; [apply confined_analyzeCompetitors|].
  intros competitorDataList [Hlen Hscored].
  change 5%nat with (5 + 0)%nat.
  eapply confined_bind with (P := fun _ => True).
  { apply confined_if.
    - eapply confined_weaken; [exact Hlen| |apply confined_createCompetitors, Hscored].
      auto.
    - eapply confined_weaken; [| |apply (confined_ret i tt (fun _ => True) I)]; auto. lia. }
  intros _ _. apply confined_ret. exact I.
Qed.

Lemma confined_insights (analysis : Analysis) :
  confined i 0 (insights W i analysis) (fun _ => True).
Proof.
  unfold insights.
  change 0%nat with (0 + 0)%nat.
  eapply confined_bind; [apply confined_getAnalysisById|]. intros updated _.
  step0. step0. step0. apply confined_ret. exact I.
Qed.

Lemma confined_idOf (analysis : option Analysis) :
  (forall a, analysis = Some a -> id a = i) ->
  confined i 0 (idOf analysis) (fun x => x = i).
Proof.
  intros H. destruct analysis as [a|]; cbn [idOf].
  - apply confined_ret. apply H. reflexivity.
  - apply confined_throw.
Qed.

Lemma confined_generateContent (analysis : option Analysis)
    (competitors : list CompetitorData) (type : ContentType) :
  (forall a, analysis = Some a -> id a = i) ->
  confined i 0 (generateContent W analysis competitors type) (fun _ => True).
Proof.
  intros H. unfold generateContent. cbv zeta.
  change 0%nat with (0 + 0)%nat.
  eapply confined_bind with (P := fun _ => True).
  { apply confined_if; [|apply confined_ret; exact I].
    step0. change 0%nat with (0 + 0)%nat.
    eapply confined_bind; [apply confined_idOf, H|]. intros ? ->.
    step0. apply confined_ret. exact I. }
  intros blogPost _.
  change 0%nat with (0 + 0)%nat.
  eapply confined_bind with (P := fun _ => True).
  { apply confined_if; [|apply confined_ret; exact I].
    step0. change 0%nat with (0 + 0)%nat.
    eapply confined_bind; [apply confined_idOf, H|]. intros ? ->.
    step0. apply confined_ret. exact I. }
  intros adCopy _. apply confined_ret. exact I.
Qed.

Lemma confined_content (saved : list CompetitorData) :
  confined i 0 (content W i saved) (fun _ => True).
Proof.
  unfold content.
  change 0%nat with (0 + 0)%nat.
  eapply confined_bind; [apply confined_getAnalysisById|]. intros finalAnalysis Hid.
  change 0%nat with (0 + 0)%nat.
  eapply confined_bind; [apply confined_generateContent, Hid|]. intros contentResult _.
  apply confined_updateAnalysis.
Qed.

Lemma confined_tryBlock : confined i 5 (tryBlock W i) (fun _ => True).
Proof.
  unfold tryBlock.
  change 5%nat with (0 + 5)%nat.
  eapply confined_bind; [apply confined_updateAnalysis|]. intros _ _.
  change 5%nat with (5 + 0)%nat.
  eapply confined_bind; [apply confined_collect|]. intros analysis _.
  step0. change 0%nat with (0 + 0)%nat.
  eapply confined_bind; [apply confined_insights|]. intros saved _.
  apply confined_content.
Qed.

Lemma confined_catchBlock (e : Error) :
  confined i 0 (catchBlock W i e) (fun _ => True).
Proof.
  unfold catchBlock.
  change 0%nat with (0 + 0)%nat.
  eapply confined_bind; [apply confined_onlyLogs, onlyLogs_emit|]. intros _ _.
  step0. apply confined_onlyLogs, onlyLogs_rethrow.
Qed.

Lemma confined_run : confined i 5 (runCompetitiveAnalysis W i) (fun _ => True).
Proof.
  unfold runCompetitiveAnalysis. change 5%nat with (5 + 0)%nat.
  apply confined_tryCatch; [apply confined_tryBlock|apply confined_catchBlock].
Qed.

End FramePipeline.

(** X19.  Whatever the collaborators and the database do, a run of
    [runCompetitiveAnalysis] on a table whose rows carry their key changes
    nothing outside its analysis: every other record is as before; its own
    record is still there (or still missing) with the identifier, owner,
    name, URL and location it had; the competitor table keeps every earlier
    row, in place, and gets at most five new rows at its end, each saved for
    this analysis with a score between 0 and 100 and the threat level of
    that score. *)
Theorem run_is_confined_to_its_analysis (W : Pipeline.World) (analysisId : Z)
    (st : Runtime.St) :
  Frame.keyed (Runtime.db st) ->
  let d := Runtime.db st in
  let d' := Runtime.db (snd (Pipeline.runCompetitiveAnalysis W analysisId st)) in
  Frame.keyed d' /\
  (forall j, j <> analysisId -> Schema.analyses d' !! j = Schema.analyses d !! j) /\
  Frame.givenOf <$> Schema.analyses d' !! analysisId =
    Frame.givenOf <$> Schema.analyses d !! analysisId /\
  exists new,
    Schema.competitors d' = (Schema.competitors d ++ new)%list /\
    (List.length new <= 5)%nat /\
    Forall (fun c =>
              Model.c_analysisId c = analysisId /\
              exists s, Model.c_competitiveScore c = Some s /\ 0 <= s <= 100 /\
                        Model.c_threatLevel c = Some (Scoring.getThreatLevel s))
           new.
Proof.
  intros Hkey d d'. subst d d'.
  destruct (confined_run W analysisId st Hkey) as (H1 & (H2 & H3 & _ & H4) & _).
  split; [exact H1|]. split; [exact H2|]. split; [exact H3|exact H4].
Qed.

Lemma run_is_confined_to_its_analysis_witness :
  Schema.analyses
    (Runtime.db (snd (Pipeline.runCompetitiveAnalysis
                        (Examples.worldWith (Examples.queriesFailFrom 4)) 1
                        (Runtime.initial Examples.oneAnalysis)))) !! 2 =
  Schema.analyses (Runtime.db (Runtime.initial Examples.oneAnalysis)) !! 2.
Proof.
  assert (Hkey : Frame.keyed (Runtime.db (Runtime.initial Examples.oneAnalysis))).
  { intros j a. cbn [Runtime.initial Runtime.db Examples.oneAnalysis Schema.analyses].
    destruct (decide (j = 1)) as [->|Hj].
    - rewrite lookup_singleton_eq. intros [= <-]. reflexivity.
    - rewrite lookup_singleton_ne by congruence. discriminate. }
  assert (Hne : 2 <> 1) by lia.
  exact (proj1 (proj2 (run_is_confined_to_its_analysis
                         (Examples.worldWith (Examples.queriesFailFrom 4)) 1
                         (Runtime.initial Examples.oneAnalysis) Hkey)) 2 Hne).
Defined.

(** ** A run on a record that does not exist *)

Section MissingRecord.
Import Model Schema Runtime Store Pipeline.

Lemma alter_missing (f : Analysis -> Analysis) (i : Z) (d : DB) :
  analyses d !! i = None ->
  mkDB (alter f i (analyses d)) (competitors d) (nextAnalysisId d) = d.
Proof.
  intros Hnone. rewrite <- (mkDB_eta d) at 4. f_equal.
  apply map_eq. intros j. destruct (decide (j = i)) as [->|Hj].
  - rewrite lookup_alter_eq, Hnone. reflexivity.
  - apply lookup_alter_ne. congruence.
Qed.

End MissingRecord.

(** X20.  With a working database, a run on an identifier that names no record
    throws the error whose message is [Analysis], the identifier in decimal
    and [not found] (for the identifier 9, [Analysis 9 not found]): it calls
    no collaborator, creates no record and leaves the database as it was;
    its two status writes match no row. *)
Theorem run_on_a_missing_record (W : Pipeline.World) (analysisId : Z)
    (st : Runtime.St) :
  (forall n, Store.dbAvailable (Pipeline.faults W) n = true) ->
  (forall n, Store.queryFault (Pipeline.faults W) n = None) ->
  Schema.analyses (Runtime.db st) !! analysisId = None ->
  let r := Pipeline.runCompetitiveAnalysis W analysisId st in
  let error := Model.mkError ("Analysis " ++ Js.decimal analysisId ++ " not found") in
  fst r = Model.Throw error /\
  Runtime.db (snd r) = Runtime.db st /\
  Runtime.events (snd r) =
    (Runtime.events st ++
     [ Runtime.Called
         (Runtime.QueryCall
            (Runtime.UpdateAnalysisQ analysisId (Pipeline.statusPatch Model.collecting)))
         None;
       Runtime.Called (Runtime.QueryCall (Runtime.SelectAnalysisQ analysisId)) None;
       Runtime.Thrown error;
       Runtime.ConsoleError error;
       Runtime.Called
         (Runtime.QueryCall
            (Runtime.UpdateAnalysisQ analysisId (Pipeline.statusPatch Model.failed)))
         None ])%list /\
  Js.decimal 0 = "0" /\ Js.decimal 9 = "9" /\ Js.decimal 1024 = "1024".
Proof.
  intros Hav Hq Hnone r error. subst r error.
  unfold Pipeline.runCompetitiveAnalysis, Runtime.tryCatch, Pipeline.tryBlock.
  rewrite bind_run, updateAnalysis_ok by (first [apply Hav|apply Hq]).
  rewrite (alter_missing _ _ _ Hnone).
  unfold Pipeline.collect. rewrite !bind_run.
  rewrite getAnalysisById_run by (first [apply Hav|apply Hq]).
  cbn [Runtime.db]. rewrite Hnone.
  unfold Runtime.throw, Pipeline.catchBlock, Runtime.console_error, Runtime.emit,
    Runtime.logged.
  cbn [Runtime.db Runtime.past Runtime.events Runtime.getDbCalls Runtime.queries].
  rewrite !bind_run. 
  rewrite updateAnalysis_ok by (first [apply Hav|apply Hq]).
  cbn [Runtime.db Runtime.past Runtime.events Runtime.getDbCalls Runtime.queries].
  rewrite (alter_missing _ _ _ Hnone).
  unfold Runtime.rethrow, Pipeline.notFound. cbn [fst snd Runtime.db Runtime.events].
  split; [reflexivity|]. split; [reflexivity|].
  split; [rewrite <- !app_assoc; reflexivity|].
  repeat split; vm_compute; reflexivity.
Qed.

Lemma run_on_a_missing_record_witness :
  fst (Pipeline.runCompetitiveAnalysis Examples.calmWorld 9
         (Runtime.initial Examples.oneAnalysis)) =
  Model.Throw (Model.mkError "Analysis 9 not found") /\
  Runtime.db (snd (Pipeline.runCompetitiveAnalysis Examples.calmWorld 9
                     (Runtime.initial Examples.oneAnalysis))) =
  Runtime.db (Runtime.initial Examples.oneAnalysis).
Proof.
  assert (Hnone : Schema.analyses (Runtime.db (Runtime.initial Examples.oneAnalysis)) !! 9
                  = None) by (vm_compute; reflexivity).
  destruct (run_on_a_missing_record Examples.calmWorld 9
              (Runtime.initial Examples.oneAnalysis)
              (fun _ => eq_refl) (fun _ => eq_refl) Hnone) as (A & B & _).
  split; [exact A|exact B].
Defined.

(** ** The routes *)

Section RouterFacts.
Import Model Schema Runtime Store Pipeline Observe Router.

Variable W : World.

Lemma bind_ok {A B} (m : M A) (k : A -> M B) (st : St) (b : B) :
  fst (bind m k st) = Ok b ->
  exists a st1, m st = (Ok a, st1) /\ fst (k a st1) = Ok b.
Proof.
  rewrite bind_run. destruct (m st) as [[a|e] st1]; [|discriminate].
  intros H. exists a, st1. split; [reflexivity|exact H].
Qed.

(** What a read of a record gives, whatever the faults. *)
Lemma getAnalysisById_inv (i : Z) (st st1 : St) (o : option Analysis) :
  getAnalysisById (faults W) i st = (Ok o, st1) ->
  db st1 = db st /\ (o = None \/ o = analyses (db st) !! i).
Proof.
  unfold getAnalysisById, getDb, query, bind, ret.
  destruct (dbAvailable (faults W) (getDbCalls st)); cbn [negb].
  - cbn [queries db]. destruct (queryFault (faults W) (queries st)); [discriminate|].
    intros [= <- <-]. cbn [db]. auto.
  - intros [= <- <-]. cbn [db]. auto.
Qed.

Lemma getCompetitors_inv (i : Z) (st st1 : St) (l : list CompetitorData) :
  getCompetitorsByAnalysisId (faults W) i st = (Ok l, st1) ->
  db st1 = db st /\
  (l = [] \/
   l = orderByScoreDesc
         (List.filter (fun c => c_analysisId c =? i) (competitors (db st)))).
Proof.
  unfold getCompetitorsByAnalysisId, getDb, query, bind, ret.
  destruct (dbAvailable (faults W) (getDbCalls st)); cbn [negb].
  - cbn [queries db]. destruct (queryFault (faults W) (queries st)); [discriminate|].
    intros [= <- <-]. cbn [db]. auto.
  - intros [= <- <-]. cbn [db]. auto.
Qed.

Lemma readOnly_getAnalysisById (i : Z) (st : St) :
  db (snd (getAnalysisById (faults W) i st)) = db st.
Proof.
  unfold getAnalysisById, getDb, query, bind, ret.
  destruct (dbAvailable (faults W) (getDbCalls st)); cbn [negb]; [|reflexivity].
  cbn [queries db]. destruct (queryFault (faults W) (queries st)); reflexivity.
Qed.

Lemma readOnly_getCompetitors (i : Z) (st : St) :
  db (snd (getCompetitorsByAnalysisId (faults W) i st)) = db st.
Proof.
  unfold getCompetitorsByAnalysisId, getDb, query, bind, ret.
  destruct (dbAvailable (faults W) (getDbCalls st)); cbn [negb]; [|reflexivity].
  cbn [queries db]. destruct (queryFault (faults W) (queries st)); reflexivity.
Qed.

Lemma get_readOnly (ctxUser : option Z) (inputId : Z) (st : St) :
  db (snd (get W ctxUser inputId st)) = db st.
Proof.
  unfold get. rewrite bind_run.
  pose proof (readOnly_getAnalysisById inputId st) as H1.
  destruct (getAnalysisById (faults W) inputId st) as [[[a|]|e] st1]; cbn [snd] in H1;
    try exact H1.
  cbv zeta. destruct (negb _); [exact H1|].
  rewrite bind_run.
  pose proof (readOnly_getCompetitors inputId st1) as H2.
  destruct (getCompetitorsByAnalysisId (faults W) inputId st1) as [[l|e] st2];
    cbn [snd ret] in *; congruence.
Qed.

Lemma quiet_throw {A} (e : Error) : quiet (@throw A e).
Proof. apply quiet_logged. intros st. eexists. reflexivity. Qed.

Lemma quiet_userIdOf (ctxUser : option Z) : quiet (userIdOf ctxUser).
Proof. destruct ctxUser; [apply quiet_ret|apply quiet_throw]. Qed.

Lemma quiet_regenerateContent (ctxUser : option Z) (inputId : Z) (type : ContentType) :
  quiet (regenerateContent W ctxUser inputId type).
Proof.
  unfold regenerateContent.
  apply quiet_bind; [apply quiet_getAnalysisById|].
  intros [a|]; [|apply quiet_throw].
  apply quiet_bind; [apply quiet_userIdOf|]. intros u.
  apply quiet_if; [apply quiet_throw|].
  apply quiet_bind; [apply quiet_getCompetitorsByAnalysisId|]. intros l.
  apply quiet_generateContent.
Qed.

End RouterFacts.

Section RouterRuns.
Import Model Schema Runtime Store Pipeline Observe.

Variable W : World.

Lemma listed_rows (i : Z) (d : DB) :
  Forall (fun c => c_analysisId c = i /\ In c (competitors d))
         (orderByScoreDesc
            (List.filter (fun c => c_analysisId c =? i) (competitors d))).
Proof.
  apply Forall_forall. intros c Hc. apply list_elem_of_In in Hc.
  apply (Permutation_in _ (proj1 (orderByScoreDesc_spec _))) in Hc.
  apply filter_In in Hc. destruct Hc as [Hin Hc]. apply Z.eqb_eq in Hc. auto.
Qed.

Lemma deleteAnalysis_ok (i owner : Z) (st : St) :
  dbAvailable (faults W) (getDbCalls st) = true ->
  queryFault (faults W) (queries st) = None ->
  queryFault (faults W) (S (queries st)) = None ->
  fst (deleteAnalysis (faults W) i owner st) = Ok (ownedRow (db st) i owner) /\
  analyses (db (snd (deleteAnalysis (faults W) i owner st))) =
    (if ownedRow (db st) i owner then delete i (analyses (db st))
     else analyses (db st)) /\
  competitors (db (snd (deleteAnalysis (faults W) i owner st))) =
    List.filter (fun c => negb (c_analysisId c =? i)) (competitors (db st)).
Proof.
  intros Hav Hq1 Hq2.
  unfold deleteAnalysis, getDb, query, bind, ret.
  st_simpl. rewrite Hav. st_simpl. rewrite Hq1. st_simpl. rewrite Hq2. st_simpl.
  unfold ownedRow. cbn [analyses].
  destruct (analyses (db st) !! i) as [a|]; [|repeat split; reflexivity].
  destruct (userId a =? owner); repeat split; reflexivity.
Qed.

End RouterRuns.

(** X21.  [analysis.get] only reads, and answers nobody but the owner: an answer
    carries the record stored under the identifier, whose owner is the
    caller (user 0 for a caller who is not signed in), with competitors of
    that analysis only.  With a working database, a missing record gives
    [NOT_FOUND], a record of someone else [FORBIDDEN] before any competitor
    is read, and the owner gets the record with its competitors by
    descending score. *)
Theorem get_answers_only_the_owner (W : Pipeline.World) (ctxUser : option Z)
    (inputId : Z) (st : Runtime.St) :
  let r := Router.get W ctxUser inputId st in
  Runtime.db (snd r) = Runtime.db st /\
  (forall a l, fst r = Model.Ok (a, l) ->
     Schema.analyses (Runtime.db st) !! inputId = Some a /\
     Schema.userId a = default 0 ctxUser /\
     Forall (fun c => Model.c_analysisId c = inputId /\
                      In c (Schema.competitors (Runtime.db st))) l) /\
  ((forall n, Store.dbAvailable (Pipeline.faults W) n = true) ->
   (forall n, Store.queryFault (Pipeline.faults W) n = None) ->
   match Schema.analyses (Runtime.db st) !! inputId with
   | None => fst r = Model.Throw (Router.NOT_FOUND "Analysis not found")
   | Some a =>
       if Schema.userId a =? default 0 ctxUser
       then fst r =
            Model.Ok (a, Store.orderByScoreDesc
                           (List.filter (fun c => Model.c_analysisId c =? inputId)
                                        (Schema.competitors (Runtime.db st))))
       else fst r = Model.Throw (Router.FORBIDDEN "Access denied") /\
            Runtime.queries (snd r) = S (Runtime.queries st)
   end).
Proof.
  intros r. subst r.
  split; [apply get_readOnly|]. split.
  - intros a l Hok. unfold Router.get in Hok.
    apply bind_ok in Hok. destruct Hok as (o & st1 & Hget & Hok).
    apply getAnalysisById_inv in Hget. destruct Hget as [Hdb Ho].
    destruct o as [a0|]; [|discriminate Hok].
    destruct Ho as [Ho|Ho]; [discriminate Ho|].
    cbv zeta in Hok. destruct (Schema.userId a0 =? default 0 ctxUser) eqn:E;
      cbn [negb] in Hok; [|discriminate Hok].
    apply bind_ok in Hok. destruct Hok as (l0 & st2 & Hlist & Hok).
    cbn in Hok. injection Hok as <- <-.
    apply getCompetitors_inv in Hlist. destruct Hlist as [_ Hl].
    split; [congruence|]. split; [apply Z.eqb_eq, E|].
    destruct Hl as [->| ->]; [constructor|].
    rewrite Hdb. apply listed_rows.
  - intros Hav Hq. unfold Router.get.
    rewrite bind_run, getAnalysisById_run by (first [apply Hav|apply Hq]).
    cbn [Runtime.db].
    destruct (Schema.analyses (Runtime.db st) !! inputId) as [a|]; [|reflexivity].
    cbv zeta. destruct (Schema.userId a =? default 0 ctxUser); cbn [negb].
    + rewrite bind_run, getCompetitorsByAnalysisId_ok by (first [apply Hav|apply Hq]).
      reflexivity.
    + split; reflexivity.
Qed.

(** X22.  [analysis.delete] needs a signed-in owner.  For a caller who is not
    signed in it throws a [TypeError] before the database is touched.  For
    a signed-in caller and a working database it answers with success
    exactly when the record exists and is the caller's, the record and its
    competitors being gone afterwards, and throws [NOT_FOUND] otherwise; so
    a record created without signing in (owner 0) can be deleted by no
    other user. *)
Theorem delete_needs_a_signed_in_owner (W : Pipeline.World) (inputId : Z)
    (st : Runtime.St) :
  Router.delete W None inputId st =
    (Model.Throw Router.nullUser, Runtime.logged st [Runtime.Thrown Router.nullUser]) /\
  forall user,
    Store.dbAvailable (Pipeline.faults W) (Runtime.getDbCalls st) = true ->
    Store.queryFault (Pipeline.faults W) (Runtime.queries st) = None ->
    Store.queryFault (Pipeline.faults W) (S (Runtime.queries st)) = None ->
    let r := Router.delete W (Some user) inputId st in
    (fst r = Model.Ok true <->
     exists a, Schema.analyses (Runtime.db st) !! inputId = Some a /\
               Schema.userId a = user) /\
    (fst r = Model.Ok true ->
     Schema.analyses (Runtime.db (snd r)) !! inputId = None /\
     Forall (fun c => Model.c_analysisId c <> inputId)
            (Schema.competitors (Runtime.db (snd r)))) /\
    (fst r <> Model.Ok true ->
     fst r = Model.Throw (Router.NOT_FOUND "Analysis not found or access denied") /\
     Schema.analyses (Runtime.db (snd r)) = Schema.analyses (Runtime.db st)).
Proof.
  split; [reflexivity|].
  intros user Hav Hq1 Hq2 r. subst r.
  destruct (deleteAnalysis_ok W inputId user st Hav Hq1 Hq2) as (Hres & Hrows & Hcomp).
  unfold Router.delete, Router.userIdOf. rewrite bind_run.
  cbn [Runtime.ret]. rewrite bind_run.
  destruct (Store.deleteAnalysis (Pipeline.faults W) inputId user st) as [[b|e] st1];
    cbn [fst snd] in *; [|discriminate Hres].
  injection Hres as ->.
  assert (Howned : Store.ownedRow (Runtime.db st) inputId user = true <->
                   exists a, Schema.analyses (Runtime.db st) !! inputId = Some a /\
                             Schema.userId a = user).
  { unfold Store.ownedRow.
    destruct (Schema.analyses (Runtime.db st) !! inputId) as [a|].
    - rewrite Z.eqb_eq. split; [intros H; exists a; auto|].
      intros (a' & [= <-] & H). exact H.
    - split; [discriminate|]. intros (a' & H & _). discriminate H. }
  destruct (Store.ownedRow (Runtime.db st) inputId user) eqn:E; cbn [negb fst snd].
  - split; [tauto|]. split; [|intros H; exfalso; apply H; reflexivity].
    intros _. cbn [Runtime.ret snd]. rewrite Hrows, Hcomp.
    split; [apply lookup_delete_eq|].
    apply Forall_forall. intros c Hc. apply list_elem_of_In, filter_In in Hc.
    destruct Hc as [_ Hc]. apply negb_true_iff, Z.eqb_neq in Hc. exact Hc.
  - cbn [Runtime.throw fst snd Runtime.logged Runtime.db].
    split; [split; [discriminate|]; intros H; apply Howned in H; discriminate H|].
    split; [discriminate|]. intros _. split; [reflexivity|exact Hrows].
Qed.

Lemma delete_needs_a_signed_in_owner_witness :
  fst (Router.delete Examples.calmWorld (Some 7) 1
         (Runtime.initial Examples.oneAnalysis)) = Model.Ok true /\
  fst (Router.delete Examples.calmWorld (Some 8) 1
         (Runtime.initial Examples.oneAnalysis)) =
  Model.Throw (Router.NOT_FOUND "Analysis not found or access denied").
Proof.
  pose proof (proj2 (delete_needs_a_signed_in_owner Examples.calmWorld 1
                       (Runtime.initial Examples.oneAnalysis))) as H.
  split.
  - apply (H 7 eq_refl eq_refl eq_refl). exists Examples.pendingRow.
    split; reflexivity.
  - apply (H 8 eq_refl eq_refl eq_refl). vm_compute. discriminate.
Defined.

(** X23.  [analysis.regenerateContent] never changes the status or the completion
    date of any record, whatever fails, so that regenerating the content of
    a failed or unfinished analysis does not complete it; and it resolves
    only for a signed-in caller who owns the record. *)
Theorem regenerate_content_keeps_the_status (W : Pipeline.World)
    (ctxUser : option Z) (inputId : Z) (type : Pipeline.ContentType)
    (st : Runtime.St) :
  let r := Router.regenerateContent W ctxUser inputId type st in
  (forall j,
     Observe.view <$> Schema.analyses (Runtime.db (snd r)) !! j =
     Observe.view <$> Schema.analyses (Runtime.db st) !! j) /\
  (forall result, fst r = Model.Ok result ->
     exists a user,
       ctxUser = Some user /\
       Schema.analyses (Runtime.db st) !! inputId = Some a /\
       Schema.userId a = user).
Proof.
  intros r. subst r. split.
  - destruct (quiet_regenerateContent W ctxUser inputId type st) as (hs & _ & Hall).
    inversion Hall as [|? ? Hsame _]; subst. exact Hsame.
  - intros result Hok. unfold Router.regenerateContent in Hok.
    apply bind_ok in Hok. destruct Hok as (o & st1 & Hget & Hok).
    apply (getAnalysisById_inv W) in Hget. destruct Hget as [Hdb Ho].
    destruct o as [a|]; [|discriminate Hok].
    destruct Ho as [Ho|Ho]; [discriminate Ho|].
    apply bind_ok in Hok. destruct Hok as (user & st2 & Huser & Hok).
    destruct ctxUser as [u|]; [|discriminate Huser].
    cbn in Huser. injection Huser as <- <-.
    destruct (Schema.userId a =? u) eqn:E; cbn [negb] in Hok; [|discriminate Hok].
    exists a, u. split; [reflexivity|]. split; [congruence|apply Z.eqb_eq, E].
Qed.

(** X24.  [competitor.list] answers only a signed-in owner, with competitors of
    that analysis; a caller who is not signed in gets [FORBIDDEN] for an
    identifier that names no record and a [TypeError] for one that names a
    record; and the route only reads. *)
Theorem competitor_list_answers_only_the_owner (W : Pipeline.World)
    (ctxUser : option Z) (analysisId : Z) (st : Runtime.St) :
  let r := Router.competitorList W ctxUser analysisId st in
  Runtime.db (snd r) = Runtime.db st /\
  (forall l, fst r = Model.Ok l ->
     (exists a user,
        ctxUser = Some user /\
        Schema.analyses (Runtime.db st) !! analysisId = Some a /\
        Schema.userId a = user) /\
     Forall (fun c => Model.c_analysisId c = analysisId /\
                      In c (Schema.competitors (Runtime.db st))) l) /\
  (ctxUser = None ->
   Store.dbAvailable (Pipeline.faults W) (Runtime.getDbCalls st) = true ->
   Store.queryFault (Pipeline.faults W) (Runtime.queries st) = None ->
   fst r = Model.Throw
             (match Schema.analyses (Runtime.db st) !! analysisId with
              | None => Router.FORBIDDEN "Access denied"
              | Some _ => Router.nullUser
              end)).
Proof.
  intros r. subst r. unfold Router.competitorList. split; [|split].
  - rewrite bind_run.
    pose proof (readOnly_getAnalysisById W analysisId st) as H1.
    destruct (Store.getAnalysisById (Pipeline.faults W) analysisId st)
      as [[o|e] st1]; cbn [snd] in H1; [|exact H1].
    rewrite bind_run.
    destruct o as [a|].
    + destruct ctxUser as [u|]; cbn [Router.userIdOf]; [|exact H1].
      rewrite bind_run. cbn [Runtime.ret].
      destruct (negb _); [exact H1|].
      pose proof (readOnly_getCompetitors W analysisId st1). congruence.
    + cbn [Runtime.ret]. exact H1.
  - intros l Hok.
    apply bind_ok in Hok. destruct Hok as (o & st1 & Hget & Hok).
    apply (getAnalysisById_inv W) in Hget. destruct Hget as [Hdb Ho].
    apply bind_ok in Hok. destruct Hok as (denied & st2 & Hden & Hok).
    destruct o as [a|].
    + destruct Ho as [Ho|Ho]; [discriminate Ho|].
      destruct ctxUser as [u|]; [|discriminate Hden].
      cbn in Hden. injection Hden as <- <-.
      destruct (Schema.userId a =? u) eqn:E; cbn [negb] in Hok; [|discriminate Hok].
      split; [exists a, u; split; [reflexivity|]; split;
              [congruence|apply Z.eqb_eq, E]|].
      destruct (Store.getCompetitorsByAnalysisId (Pipeline.faults W) analysisId st1)
        as [[l0|e] st3] eqn:Hlist; cbn [fst] in Hok; [|discriminate Hok].
      injection Hok as <-.
      apply (getCompetitors_inv W) in Hlist. destruct Hlist as [_ [->| ->]];
        [constructor|]. rewrite Hdb. apply listed_rows.
    + cbn in Hden. injection Hden as <- <-. discriminate Hok.
  - intros -> Hav Hq.
    rewrite bind_run, getAnalysisById_run by assumption. cbn [Runtime.db].
    destruct (Schema.analyses (Runtime.db st) !! analysisId); reflexivity.
Qed.

Lemma competitor_list_answers_only_the_owner_witness :
  fst (Router.competitorList Examples.calmWorld None 1
         (Runtime.initial Examples.oneAnalysis)) = Model.Throw Router.nullUser /\
  fst (Router.competitorList Examples.calmWorld None 9
         (Runtime.initial Examples.oneAnalysis)) =
  Model.Throw (Router.FORBIDDEN "Access denied").
Proof.
  split.
  - exact (proj2 (proj2 (competitor_list_answers_only_the_owner Examples.calmWorld None 1
                           (Runtime.initial Examples.oneAnalysis)))
             eq_refl eq_refl eq_refl).
  - exact (proj2 (proj2 (competitor_list_answers_only_the_owner Examples.calmWorld None 9
                           (Runtime.initial Examples.oneAnalysis)))
             eq_refl eq_refl eq_refl).
Defined.

Lemma get_answers_only_the_owner_witness :
  fst (Router.get Examples.calmWorld (Some 7) 1 (Runtime.initial Examples.oneAnalysis)) =
    Model.Ok (Examples.pendingRow,
              [Examples.rival 1 "Bean There"; Examples.rival 1 "Daily Grind"]) /\
  fst (Router.get Examples.calmWorld None 1 (Runtime.initial Examples.oneAnalysis)) =
    Model.Throw (Router.FORBIDDEN "Access denied").
Proof.
  split.
  - exact (proj2 (proj2 (get_answers_only_the_owner Examples.calmWorld (Some 7) 1
                           (Runtime.initial Examples.oneAnalysis)))
             (fun _ => eq_refl) (fun _ => eq_refl)).
  - exact (proj1 (proj2 (proj2 (get_answers_only_the_owner Examples.calmWorld None 1
                                  (Runtime.initial Examples.oneAnalysis)))
                    (fun _ => eq_refl) (fun _ => eq_refl))).
Defined.

Lemma regenerate_content_keeps_the_status_witness :
  fst (Router.regenerateContent Examples.calmWorld (Some 7) 1 Pipeline.type_blog
         (Runtime.initial Examples.oneAnalysis)) = Model.Ok (Some "post", None) /\
  Observe.statusAt 1
    (Runtime.db (snd (Router.regenerateContent Examples.calmWorld (Some 7) 1
                        Pipeline.type_blog (Runtime.initial Examples.oneAnalysis)))) =
  Some Model.pending.
Proof.
  split; [vm_compute; reflexivity|].
  pose proof (proj1 (regenerate_content_keeps_the_status Examples.calmWorld (Some 7) 1
                       Pipeline.type_blog (Runtime.initial Examples.oneAnalysis)) 1) as H.
  unfold Observe.statusAt.
  destruct (Schema.analyses
              (Runtime.db (snd (Router.regenerateContent Examples.calmWorld (Some 7) 1
                                  Pipeline.type_blog
                                  (Runtime.initial Examples.oneAnalysis)))) !! 1)
    as [a|]; [|discriminate H].
  cbn in H. injection H as H _. cbn. rewrite H. reflexivity.
Defined.

(** ** rateLimiter *)

Section RateLimiterFacts.
Import RateLimiter.

Variable inherited : string -> bool.
Variable options : RateLimiterOptions.
Variable req : Request.

Abbreviation key := (default defaultKeyGenerator (keyGenerator options) req).
Abbreviation limit := (default 60 (max options)).
Abbreviation window := (default (60 * 1000) (windowMs options)).
Abbreviation skips := (default false (skipSuccessfulRequests options)).

Lemma alter_absent (f : Entry -> Entry) (k : string) (store : RateLimitStore) :
  store !! k = None -> alter f k store = store.
Proof.
  intros Hnone. apply map_eq. intros j. destruct (decide (j = k)) as [->|Hj].
  - rewrite lookup_alter_eq, Hnone. reflexivity.
  - apply lookup_alter_ne. congruence.
Qed.

(** A request that finds a live entry adds one to its count. *)
Lemma limiter_live (now : Z) (store : RateLimitStore) (e : Entry) :
  store !! key = Some e -> now <= resetTime e ->
  fst (fst (limiter inherited options req now store)) =
    <[key := mkEntry (count e + 1) (resetTime e)]> store /\
  snd (limiter inherited options req now store) =
    if limit <? count e + 1
    then Answered 429
           (default "Too many requests, please try again later." (message options))
           (ceilSeconds (resetTime e - now))
    else Next skips.
Proof.
  intros He Hlive. unfold limiter, lookupKey. cbv zeta. rewrite He.
  replace (resetTime e <? now) with false by (symmetry; apply Z.ltb_ge; lia).
  cbn [count resetTime].
  destruct (limit <? count e + 1); split; reflexivity.
Qed.

(** A request that finds no entry, or an expired one, opens a window. *)
Lemma limiter_fresh (now : Z) (store : RateLimitStore) :
  (store !! key = None /\ inherited key = false) \/
  (exists e, store !! key = Some e /\ resetTime e < now) ->
  fst (fst (limiter inherited options req now store)) =
    <[key := mkEntry 1 (now + window)]> store /\
  snd (limiter inherited options req now store) =
    if limit <? 1
    then Answered 429
           (default "Too many requests, please try again later." (message options))
           (ceilSeconds (now + window - now))
    else Next skips.
Proof.
  intros H. unfold limiter, lookupKey. cbv zeta.
  destruct H as [[-> ->]|(e & -> & Hlt)].
  - cbn [count resetTime]. change (0 + 1) with 1.
    destruct (limit <? 1); split; reflexivity.
  - apply Z.ltb_lt in Hlt. rewrite Hlt.
    cbn [count resetTime]. change (0 + 1) with 1.
    destruct (limit <? 1); split; reflexivity.
Qed.

(** A request whose key names an inherited property is let through and
    leaves the store as it was. *)
Lemma limiter_inherited (now : Z) (store : RateLimitStore) :
  store !! key = None -> inherited key = true ->
  limiter inherited options req now store =
    (store, mkHeaders limit None None None, Next skips).
Proof.
  intros Hnone Hin. unfold limiter, lookupKey. cbv zeta. rewrite Hnone, Hin.
  reflexivity.
Qed.

Lemma serve_inherited (now statusCode : Z) (store : RateLimitStore) :
  store !! key = None -> inherited key = true ->
  serve inherited options req now statusCode store = (store, Next skips).
Proof.
  intros Hnone Hin. unfold serve. rewrite limiter_inherited by assumption.
  destruct skips; [|reflexivity].
  unfold wrappedSend. cbv zeta.
  destruct (statusCode <? 400); [|reflexivity].
  rewrite alter_absent by exact Hnone. reflexivity.
Qed.

Lemma serveAll_inherited (requests : list (Z * Z)) (store : RateLimitStore) :
  store !! key = None -> inherited key = true ->
  serveAll inherited options req requests store =
    (store, List.map (fun _ => Next skips) requests).
Proof.
  intros Hnone Hin. induction requests as [|[now statusCode] rest IH]; [reflexivity|].
  cbn [serveAll]. rewrite serve_inherited by assumption. rewrite IH. reflexivity.
Qed.

(** A request with a successful response, under [skipSuccessfulRequests]. *)
Lemma serve_successful (now statusCode : Z) (store : RateLimitStore) :
  skips = true -> 1 <= limit -> statusCode < 400 ->
  (forall e, store !! key = Some e -> count e < limit) ->
  (forall e,
     store !! key = Some e -> now <= resetTime e ->
     serve inherited options req now statusCode store =
       (<[key := mkEntry (Z.max 0 (count e)) (resetTime e)]> store, Next true)) /\
  ((store !! key = None /\ inherited key = false) \/
   (exists e, store !! key = Some e /\ resetTime e < now) ->
   serve inherited options req now statusCode store =
     (<[key := mkEntry 0 (now + window)]> store, Next true)) /\
  (store !! key = None /\ inherited key = true ->
   serve inherited options req now statusCode store = (store, Next true)).
Proof.
  intros Hskip Hmax Hcode Hcount. apply Z.ltb_lt in Hcode.
  split; [|split].
  - intros e He Hlive. specialize (Hcount e He).
    destruct (limiter_live now store e He Hlive) as [Hs Hv].
    unfold serve.
    destruct (limiter inherited options req now store) as [[s h] v].
    cbn [fst snd] in Hs, Hv. subst s v.
    replace (limit <? count e + 1) with false by (symmetry; apply Z.ltb_ge; lia).
    rewrite Hskip. unfold wrappedSend. cbv zeta. rewrite Hcode.
    rewrite alter_insert_eq. cbn [count resetTime].
    replace (count e + 1 - 1) with (count e) by lia. reflexivity.
  - intros Hf. destruct (limiter_fresh now store Hf) as [Hs Hv].
    unfold serve.
    destruct (limiter inherited options req now store) as [[s h] v].
    cbn [fst snd] in Hs, Hv. subst s v.
    replace (limit <? 1) with false by (symmetry; apply Z.ltb_ge; lia).
    rewrite Hskip. unfold wrappedSend. cbv zeta. rewrite Hcode.
    rewrite alter_insert_eq. reflexivity.
  - intros [Hnone Hin]. rewrite serve_inherited by assumption.
    rewrite Hskip. reflexivity.
Qed.

Lemma serve_successful_step (now statusCode : Z) (store : RateLimitStore) :
  skips = true -> 1 <= limit -> statusCode < 400 ->
  (forall e, store !! key = Some e -> count e < limit) ->
  exists store1,
    serve inherited options req now statusCode store = (store1, Next true) /\
    forall e, store1 !! key = Some e -> count e < limit.
Proof.
  intros Hskip Hmax Hcode Hcount.
  destruct (serve_successful now statusCode store Hskip Hmax Hcode Hcount)
    as (Hlive & Hfresh & Hinh).
  destruct (store !! key) as [e|] eqn:He.
  - destruct (Z.le_gt_cases now (resetTime e)) as [Hl|Hl].
    + rewrite (Hlive e eq_refl Hl). eexists. split; [reflexivity|].
      intros e'. rewrite lookup_insert_eq. intros [= <-]. cbn [count].
      specialize (Hcount e eq_refl). lia.
    + rewrite Hfresh by (right; exists e; split; [reflexivity|lia]).
      eexists. split; [reflexivity|].
      intros e'. rewrite lookup_insert_eq. intros [= <-]. cbn [count]. lia.
  - destruct (inherited key) eqn:Hi.
    + rewrite Hinh by (split; reflexivity). eexists. split; [reflexivity|].
      intros e'. rewrite He. discriminate.
    + rewrite Hfresh by (left; split; reflexivity).
      eexists. split; [reflexivity|].
      intros e'. rewrite lookup_insert_eq. intros [= <-]. cbn [count]. lia.
Qed.

Lemma serveAll_successful (requests : list (Z * Z)) :
  skips = true -> 1 <= limit ->
  Forall (fun r => snd r < 400) requests ->
  forall store : RateLimitStore,
    (forall e, store !! key = Some e -> count e < limit) ->
    snd (serveAll inherited options req requests store) =
      List.map (fun _ => Next true) requests /\
    (forall e,
       fst (serveAll inherited options req requests store) !! key = Some e ->
       count e < limit).
Proof.
  intros Hskip Hmax Hall.
  induction Hall as [|[now statusCode] rest Hcode _ IH]; intros store Hcount.
  - split; [reflexivity|exact Hcount].
  - cbn [snd] in Hcode. cbn [serveAll].
    destruct (serve_successful_step now statusCode store Hskip Hmax Hcode Hcount)
      as (store1 & -> & Hcount1).
    specialize (IH store1 Hcount1).
    destruct (serveAll inherited options req rest store1) as [s vs].
    cbn [fst snd] in *. destruct IH as [-> IH]. split; [reflexivity|exact IH].
Qed.

Hypothesis noSkip : skips = false.

Lemma serve_noSkip (now statusCode : Z) (store : RateLimitStore) :
  serve inherited options req now statusCode store =
  (fst (fst (limiter inherited options req now store)),
   snd (limiter inherited options req now store)).
Proof.
  unfold serve.
  assert (H : forall b, snd (limiter inherited options req now store) = Next b -> b = false).
  { unfold limiter. cbv zeta. rewrite noSkip.
    destruct (lookupKey inherited store key); try destruct (_ <? _); cbn [snd];
      try discriminate; intros b [= <-]; reflexivity. }
  destruct (limiter inherited options req now store) as [[s h] v]. cbn [fst snd] in *.
  destruct v as [[|]|]; try reflexivity. specialize (H true eq_refl). discriminate H.
Qed.

(** Inside a window, the requests pass until the count reaches the limit. *)
Lemma serveAll_live (requests : list (Z * Z)) :
  forall (store : RateLimitStore) (e : Entry),
    store !! key = Some e ->
    Forall (fun r => fst r <= resetTime e) requests ->
    List.map passed (snd (serveAll inherited options req requests store)) =
    List.map (fun k => count e + Z.of_nat k <? limit) (seq 0 (List.length requests)).
Proof.
  induction requests as [|[now statusCode] rest IH]; intros store e He Hall;
    [reflexivity|].
  inversion Hall as [|? ? Hnow Hrest]; subst. cbn [fst] in Hnow.
  cbn [serveAll]. rewrite serve_noSkip.
  destruct (limiter_live now store e He Hnow) as [Hstore Hpass].
  rewrite Hstore, Hpass.
  specialize (IH (<[key := mkEntry (count e + 1) (resetTime e)]> store)
                 (mkEntry (count e + 1) (resetTime e))
                 (lookup_insert_eq _ _ _) Hrest).
  destruct (serveAll inherited options req rest _) as [s vs]. cbn [snd] in *.
  cbn [List.length seq List.map]. rewrite IH. f_equal.
  - cbn [Z.of_nat]. rewrite Z.add_0_r.
    destruct (Z.ltb_spec limit (count e + 1)), (Z.ltb_spec (count e) limit);
      cbn [passed]; try reflexivity; lia.
  - rewrite <- seq_shift, List.map_map. apply List.map_ext. intros k.
    cbn [count]. f_equal. lia.
Qed.

End RateLimiterFacts.

(** X25.  A limiter that does not skip successful requests lets exactly the
    first [max] requests of a window through, for a client whose key is not
    the name of a property that the store object inherits: when such a
    client has no entry, or an expired one, at time [t0], and sends requests
    between [t0] and [t0 + windowMs], request number [k] (from 0) passes
    exactly when [k < max].  A client without an entry whose key is such a
    name ([constructor], say) is never counted and never refused. *)
Theorem window_lets_max_requests_through (inherited : string -> bool)
    (options : RateLimiter.RateLimiterOptions)
    (req : RateLimiter.Request) (t0 : Z) (requests : list (Z * Z))
    (store : RateLimiter.RateLimitStore) :
  let key := default RateLimiter.defaultKeyGenerator
                     (RateLimiter.keyGenerator options) req in
  default false (RateLimiter.skipSuccessfulRequests options) = false ->
  Forall (fun r => t0 <= fst r <=
                   t0 + default (60 * 1000) (RateLimiter.windowMs options)) requests ->
  let r := RateLimiter.serveAll inherited options req requests store in
  ((store !! key = None /\ inherited key = false) \/
   (exists e, store !! key = Some e /\ RateLimiter.resetTime e < t0) ->
   List.map RateLimiter.passed (snd r) =
   List.map (fun k => Z.of_nat k <? default 60 (RateLimiter.max options))
            (seq 0 (List.length requests))) /\
  (store !! key = None /\ inherited key = true ->
   fst r = store /\
   snd r = List.map (fun _ => RateLimiter.Next false) requests).
Proof.
  intros key Hskip Hall r. subst r. split.
  - intros Hfresh.
    destruct requests as [|[now statusCode] rest]; [reflexivity|].
    inversion Hall as [|? ? Hnow Hrest]; subst. cbn [fst] in Hnow.
    cbn [RateLimiter.serveAll]. rewrite serve_noSkip by exact Hskip.
    destruct (limiter_fresh inherited options req now store) as [Hstore Hpass].
    { destruct Hfresh as [H|(e & H & Hlt)]; [left; exact H|].
      right. exists e. split; [exact H|lia]. }
    rewrite Hstore, Hpass.
    pose proof (serveAll_live inherited options req Hskip rest
                  (<[key := RateLimiter.mkEntry 1
                              (now + default (60 * 1000) (RateLimiter.windowMs options))]>
                     store)
                  (RateLimiter.mkEntry 1
                     (now + default (60 * 1000) (RateLimiter.windowMs options)))
                  (lookup_insert_eq _ _ _)) as Hlive.
    destruct (RateLimiter.serveAll inherited options req rest _) as [s vs].
    cbn [snd] in *.
    cbn [List.length seq List.map]. rewrite Hlive.
    + f_equal.
      * match goal with
        | |- RateLimiter.passed (if ?a <? ?b then _ else _) = (?c <? ?d) =>
            destruct (Z.ltb_spec a b), (Z.ltb_spec c d)
        end; cbn [RateLimiter.passed]; try reflexivity; lia.
      * rewrite <- seq_shift, List.map_map. apply List.map_ext. intros k.
        cbn [RateLimiter.count]. f_equal. lia.
    + cbn [RateLimiter.resetTime].
      eapply Forall_impl; [exact Hrest|]. intros r Hr. cbv beta in Hr. lia.
  - intros [Hnone Hin].
    rewrite (serveAll_inherited inherited options req requests store Hnone Hin).
    fold key. rewrite Hskip. split; reflexivity.
Qed.

Lemma window_lets_max_requests_through_witness :
  List.map RateLimiter.passed
    (snd (RateLimiter.serveAll RateLimiter.inheritedName
            (RateLimiter.mkOptions (Some 1000) (Some 2) None None None)
            RateLimiter.client [(5, 200); (6, 200); (7, 200)] ∅)) =
  [true; true; false] /\
  snd (RateLimiter.serveAll RateLimiter.inheritedName
         (RateLimiter.mkOptions (Some 1000) (Some 2) None None None)
         RateLimiter.constructorClient [(5, 200); (6, 200); (7, 200)] ∅) =
  [RateLimiter.Next false; RateLimiter.Next false; RateLimiter.Next false].
Proof.
  assert (Hall : Forall (fun r : Z * Z => 5 <= fst r <= 5 + 1000)
                        [(5, 200); (6, 200); (7, 200)])
    by (repeat constructor; cbn; lia).
  split.
  - refine (proj1 (window_lets_max_requests_through RateLimiter.inheritedName
                     (RateLimiter.mkOptions (Some 1000) (Some 2) None None None)
                     RateLimiter.client 5 [(5, 200); (6, 200); (7, 200)] ∅
                     eq_refl Hall) _).
    left. split; [apply lookup_empty|reflexivity].
  - refine (proj2 (proj2 (window_lets_max_requests_through RateLimiter.inheritedName
                     (RateLimiter.mkOptions (Some 1000) (Some 2) None None None)
                     RateLimiter.constructorClient 5 [(5, 200); (6, 200); (7, 200)] ∅
                     eq_refl Hall) _)).
    split; [apply lookup_empty|reflexivity].
Defined.

(** X26.  With [skipSuccessfulRequests] and a limit of at least 1, the requests
    of a client whose stored count, if it has an entry, is below the limit
    (a new client, say), served one after the other and all answered with a
    status below 400, are never refused, however many they are and whenever
    they come.  Each one gives back the count it took: it leaves the count
    of a live entry as it found it (or at 0 if it was negative), the count
    of a new window at 0, and for a key that names an inherited property no
    entry at all; so the stored count stays below the limit. *)
Theorem successful_requests_are_never_limited (inherited : string -> bool)
    (options : RateLimiter.RateLimiterOptions) (req : RateLimiter.Request)
    (requests : list (Z * Z)) (store : RateLimiter.RateLimitStore) :
  let key := default RateLimiter.defaultKeyGenerator
                     (RateLimiter.keyGenerator options) req in
  let limit := default 60 (RateLimiter.max options) in
  let window := default (60 * 1000) (RateLimiter.windowMs options) in
  default false (RateLimiter.skipSuccessfulRequests options) = true ->
  1 <= limit ->
  (forall e, store !! key = Some e -> RateLimiter.count e < limit) ->
  Forall (fun r => snd r < 400) requests ->
  let r := RateLimiter.serveAll inherited options req requests store in
  snd r = List.map (fun _ => RateLimiter.Next true) requests /\
  (forall e, fst r !! key = Some e -> RateLimiter.count e < limit) /\
  (forall now statusCode,
     statusCode < 400 ->
     let served := RateLimiter.serve inherited options req now statusCode store in
     (forall e,
        store !! key = Some e -> now <= RateLimiter.resetTime e ->
        served =
          (<[key := RateLimiter.mkEntry (Z.max 0 (RateLimiter.count e))
                      (RateLimiter.resetTime e)]> store,
           RateLimiter.Next true)) /\
     ((store !! key = None /\ inherited key = false) \/
      (exists e, store !! key = Some e /\ RateLimiter.resetTime e < now) ->
      served =
        (<[key := RateLimiter.mkEntry 0 (now + window)]> store, RateLimiter.Next true)) /\
     (store !! key = None /\ inherited key = true ->
      served = (store, RateLimiter.Next true))).
Proof.
  intros key limit window Hskip Hmax Hcount Hall r. subst r.
  destruct (serveAll_successful inherited options req requests Hskip Hmax Hall
              store Hcount) as [Hv Hc].
  split; [exact Hv|]. split; [exact Hc|].
  intros now statusCode Hcode served. subst served.
  exact (serve_successful inherited options req now statusCode store
           Hskip Hmax Hcode Hcount).
Qed.

Lemma successful_requests_are_never_limited_witness :
  snd (RateLimiter.serveAll RateLimiter.inheritedName
         (RateLimiter.mkOptions (Some 1000) (Some 1) None (Some true) None)
         RateLimiter.client [(5, 200); (6, 304); (7, 201)] ∅) =
  [RateLimiter.Next true; RateLimiter.Next true; RateLimiter.Next true].
Proof.
  refine (proj1 (successful_requests_are_never_limited RateLimiter.inheritedName
                   (RateLimiter.mkOptions (Some 1000) (Some 1) None (Some true) None)
                   RateLimiter.client [(5, 200); (6, 304); (7, 201)] ∅ eq_refl _ _ _)).
  - cbn. lia.
  - intros e H. vm_compute in H. discriminate H.
  - repeat constructor; cbn; lia.
Defined.

(** X27.  The limiters share one store: a request counted by one limiter counts
    for every limiter that gives the client the same key.  For a key that
    is not the name of an inherited property of the store object (or that
    has an entry), after a request through a limiter [a], a request of the
    same client through a limiter [b], made before the entry expires, finds
    the count and the expiry time that [a] left, adds one to that count,
    and passes exactly when the result does not exceed the limit of [b];
    the window of [b] plays no part.  For a key without an entry that names
    an inherited property, both limiters let the request through and the
    store stays as it was. *)
Theorem limiters_share_their_counters (inherited : string -> bool)
    (a b : RateLimiter.RateLimiterOptions)
    (req : RateLimiter.Request) (t t' : Z) (store : RateLimiter.RateLimitStore) :
  let key := default RateLimiter.defaultKeyGenerator
                     (RateLimiter.keyGenerator a) req in
  default RateLimiter.defaultKeyGenerator (RateLimiter.keyGenerator b) req = key ->
  let store1 := fst (fst (RateLimiter.limiter inherited a req t store)) in
  (inherited key = false \/ (exists e0, store !! key = Some e0) ->
   exists e,
     store1 !! key = Some e /\
     (t' <= RateLimiter.resetTime e ->
      fst (fst (RateLimiter.limiter inherited b req t' store1)) !! key =
        Some (RateLimiter.mkEntry (RateLimiter.count e + 1) (RateLimiter.resetTime e)) /\
      (RateLimiter.passed (snd (RateLimiter.limiter inherited b req t' store1)) = true <->
       RateLimiter.count e + 1 <= default 60 (RateLimiter.max b)))) /\
  (inherited key = true -> store !! key = None ->
   store1 = store /\
   RateLimiter.passed (snd (RateLimiter.limiter inherited a req t store)) = true /\
   fst (fst (RateLimiter.limiter inherited b req t' store1)) = store /\
   RateLimiter.passed (snd (RateLimiter.limiter inherited b req t' store1)) = true).
Proof.
  intros key Hkey store1. split.
  - intros Hown.
    assert (H1 : exists e, store1 !! key = Some e).
    { subst store1. unfold RateLimiter.limiter, RateLimiter.lookupKey. cbv zeta. fold key.
      destruct (store !! key) as [e0|] eqn:E0.
      - destruct (_ <? _); cbn [fst]; rewrite lookup_insert_eq; eauto.
      - destruct Hown as [->|(e0 & H0)]; [|discriminate].
        destruct (_ <? _); cbn [fst]; rewrite lookup_insert_eq; eauto. }
    destruct H1 as [e He]. exists e. split; [exact He|].
    intros Hlive.
    destruct (limiter_live inherited b req t' store1 e) as [Hs Hp].
    { rewrite Hkey. exact He. }
    { exact Hlive. }
    rewrite Hs, Hp, Hkey, lookup_insert_eq. split; [reflexivity|].
    destruct (Z.ltb_spec (default 60 (RateLimiter.max b)) (RateLimiter.count e + 1));
      cbn [RateLimiter.passed]; split; intros; try discriminate; try reflexivity; lia.
  - intros Hin Hnone. subst store1.
    rewrite (limiter_inherited inherited a req t store Hnone Hin). cbn [fst snd].
    rewrite (limiter_inherited inherited b req t' store)
      by (rewrite Hkey; assumption).
    cbn [fst snd RateLimiter.passed]. repeat split; reflexivity.
Qed.

Lemma limiters_share_their_counters_witness :
  RateLimiter.passed
    (snd (RateLimiter.limiter RateLimiter.inheritedName
            (RateLimiter.mkOptions (Some 1000) (Some 1) None None None)
            RateLimiter.client 10
            (fst (fst (RateLimiter.limiter RateLimiter.inheritedName
                         RateLimiter.apiRateLimiter
                         RateLimiter.client 5 ∅))))) = false.
Proof.
  destruct (proj1 (limiters_share_their_counters RateLimiter.inheritedName
              RateLimiter.apiRateLimiter
              (RateLimiter.mkOptions (Some 1000) (Some 1) None None None)
              RateLimiter.client 5 10 ∅ eq_refl) (or_introl eq_refl)) as (e & He & H).
  assert (E : e = RateLimiter.mkEntry 1 60005).
  { vm_compute in He. injection He as <-. reflexivity. }
  subst e. destruct (H ltac:(cbn; lia)) as [_ Hp].
  destruct (RateLimiter.passed _); [|reflexivity].
  exfalso. pose proof (proj1 Hp eq_refl) as Hle. cbn in Hle. lia.
Defined.

(** ** presenceService *)

Section PresenceFacts.
Import Js Model Discovery Pipeline Presence.

Lemma spaced_no_underscore (s : string) : includes (spaced s) "_" = false.
Proof.
  induction s as [|c s IH]; [reflexivity|].
  cbn [spaced includes startsWith]. rewrite IH, orb_false_r, andb_true_r.
  destruct (Ascii.eqb c "_") eqn:E; [reflexivity|].
  rewrite Ascii.eqb_sym. exact E.
Qed.

End PresenceFacts.

(** X28.  [analyzeOnlinePresence] keeps what the place search found whatever the
    details request does: once a first candidate is found under an [OK]
    status, the result reports a Google business with the rating, the review
    count (0 counting as none) and the primary type of that candidate, and
    social profiles only if the details request gave a website.  Without a
    candidate the result is the blank one.  A primary type is never empty
    and holds no underscore. *)
Theorem presence_keeps_what_the_place_search_found
    (findPlaceRequest :
       string -> Model.Outcome (Discovery.Response (list Presence.Candidate)))
    (placeDetailsRequest :
       string -> Model.Outcome (Discovery.Response Presence.DetailsResult))
    (findSocialLinks : string -> list (string * string))
    (businessName location : string) :
  let r := Presence.analyzeOnlinePresence findPlaceRequest placeDetailsRequest
             findSocialLinks businessName location in
  let blank := Pipeline.mkPresence false None None [] None in
  (Pipeline.pr_hasGoogleBusiness r = false -> r = blank) /\
  (DiscoveryFailures.unusable (findPlaceRequest (businessName ++ " " ++ location)) ->
   r = blank) /\
  (forall data place,
     findPlaceRequest (businessName ++ " " ++ location) = Model.Ok data ->
     Discovery.status data = "OK" ->
     head (default [] (Discovery.payload data)) = Some place ->
     Pipeline.pr_hasGoogleBusiness r = true /\
     Pipeline.pr_googleRating r = Presence.orNullQ (Presence.cand_rating place) /\
     Pipeline.pr_reviewCount r =
       Pipeline.orNullNum (Presence.cand_user_ratings_total place) /\
     Pipeline.pr_primaryType r =
       Js.orNull (Presence.spaced <$> head (default [] (Presence.cand_types place))) /\
     (DiscoveryFailures.unusable
        (placeDetailsRequest (default "" (Presence.cand_place_id place))) ->
      Pipeline.pr_socialProfiles r = [])) /\
  (forall s, Pipeline.pr_primaryType r = Some s ->
     s <> "" /\ Js.includes s "_" = false).
Proof.
  intros r blank. subst r blank. unfold Presence.analyzeOnlinePresence. cbv zeta.
  destruct (findPlaceRequest (businessName ++ " " ++ location)) as [data|e];
    [|split; [reflexivity|]; split; [reflexivity|];
      split; [intros ? ? H; discriminate H|intros s H; discriminate H]].
  destruct (String.eqb (Discovery.status data) "OK") eqn:Es.
  2: { apply String.eqb_neq in Es.
       split; [reflexivity|]. split; [reflexivity|].
       split; [intros ? ? [= <-] H; contradiction|intros s H; discriminate H]. }
  destruct (head (default [] (Discovery.payload data))) as [place|] eqn:Eh.
  2: { split; [reflexivity|]. split; [reflexivity|].
       split; [intros ? ? [= <-] _ H; rewrite Eh in H; discriminate H
              |intros s H; discriminate H]. }
  set (primary := Js.orNull (Presence.spaced <$> head (default [] (Presence.cand_types place)))).
  assert (Hprimary : forall s, primary = Some s -> s <> "" /\ Js.includes s "_" = false).
  { subst primary. unfold Js.orNull.
    destruct (head (default [] (Presence.cand_types place))) as [t|]; cbn;
      [|discriminate].
    destruct (Presence.spaced t) as [|c s'] eqn:Et; cbn; [discriminate|].
    intros s [= <-]. split; [discriminate|]. rewrite <- Et. apply spaced_no_underscore. }
  assert (Hfound :
    forall r : Pipeline.OnlinePresenceResult,
      Pipeline.pr_hasGoogleBusiness r = true ->
      Pipeline.pr_googleRating r = Presence.orNullQ (Presence.cand_rating place) ->
      Pipeline.pr_reviewCount r =
        Pipeline.orNullNum (Presence.cand_user_ratings_total place) ->
      Pipeline.pr_primaryType r = primary ->
      (DiscoveryFailures.unusable
         (placeDetailsRequest (default "" (Presence.cand_place_id place))) ->
       Pipeline.pr_socialProfiles r = []) ->
      (Pipeline.pr_hasGoogleBusiness r = false ->
       r = Pipeline.mkPresence false None None [] None) /\
      (DiscoveryFailures.unusable (Model.Ok data) ->
       r = Pipeline.mkPresence false None None [] None) /\
      (forall data0 place0,
         Model.Ok data = Model.Ok data0 ->
         Discovery.status data0 = "OK" ->
         head (default [] (Discovery.payload data0)) = Some place0 ->
         Pipeline.pr_hasGoogleBusiness r = true /\
         Pipeline.pr_googleRating r = Presence.orNullQ (Presence.cand_rating place0) /\
         Pipeline.pr_reviewCount r =
           Pipeline.orNullNum (Presence.cand_user_ratings_total place0) /\
         Pipeline.pr_primaryType r =
           Js.orNull (Presence.spaced <$> head (default [] (Presence.cand_types place0))) /\
         (DiscoveryFailures.unusable
            (placeDetailsRequest (default "" (Presence.cand_place_id place0))) ->
          Pipeline.pr_socialProfiles r = [])) /\
      (forall s, Pipeline.pr_primaryType r = Some s ->
         s <> "" /\ Js.includes s "_" = false)).
  { intros r H1 H2 H3 H4 H5.
    split; [intros H; congruence|].
    split.
    { intros [Hs|Hp].
      - apply String.eqb_eq in Es. contradiction.
      - rewrite Hp in Eh. discriminate Eh. }
    split.
    { intros data0 place0 [= <-] _ Hh. rewrite Eh in Hh. injection Hh as <-.
      repeat split; assumption. }
    intros s Hs. apply Hprimary. congruence. }
  destruct (Js.truthyStr (Presence.cand_place_id place));
    [|apply Hfound; reflexivity].
  destruct (placeDetailsRequest (default "" (Presence.cand_place_id place)))
    as [details|e] eqn:Ed; [|apply Hfound; reflexivity].
  destruct (String.eqb (Discovery.status details) "OK") eqn:Eds;
    [|apply Hfound; reflexivity].
  destruct (Discovery.payload details) as [found|] eqn:Ep;
    [|apply Hfound; reflexivity].
  destruct (Js.truthyStr (Presence.det_website found));
    [|apply Hfound; reflexivity].
  apply Hfound; try reflexivity.
  intros [Hs|Hp].
  - apply String.eqb_eq in Eds. contradiction.
  - rewrite Hp in Ep. discriminate Ep.
Qed.

Lemma presence_keeps_what_the_place_search_found_witness :
  Presence.analyzeOnlinePresence
    (fun _ => Model.Ok (Discovery.mkResponse "OK"
                 (Some [Presence.mkCandidate (Some "p0") (Some (9 # 2)) (Some 0)
                                             (Some ["coffee_shop"; "cafe"])])))
    (fun _ => Model.Throw Examples.timeoutError)
    (fun _ => [("facebook", "https://facebook.com/joes")])
    "Joe's Coffee" "Springfield" =
  Pipeline.mkPresence true (Some (9 # 2)) None [] (Some "coffee shop").
Proof.
  destruct (proj1 (proj2 (proj2
              (presence_keeps_what_the_place_search_found
                 (fun _ => Model.Ok (Discovery.mkResponse "OK"
                              (Some [Presence.mkCandidate (Some "p0") (Some (9 # 2)) (Some 0)
                                                          (Some ["coffee_shop"; "cafe"])])))
                 (fun _ => Model.Throw Examples.timeoutError)
                 (fun _ => [("facebook", "https://facebook.com/joes")])
                 "Joe's Coffee" "Springfield")))
              _ _ eq_refl eq_refl eq_refl) as (H1 & H2 & H3 & H4 & H5).
  specialize (H5 I).
  destruct (Presence.analyzeOnlinePresence _ _ _ _ _) as [b r n s t].
  cbn in H1, H2, H3, H4, H5. subst. reflexivity.
Defined.


(** ** socialMediaService *)

Section SocialFacts.
Import Js SocialMedia.

Lemma found_In (profiles : list SocialMediaProfile) (p : Platform) :
  found profiles p = false -> ~ In p (List.map platform profiles).
Proof.
  unfold found. intros H Hin. apply in_map_iff in Hin.
  destruct Hin as (q & Hq & Hin).
  assert (E : existsb (fun profile => platformEqb (platform profile) p) profiles = true).
  { apply existsb_exists. exists q. split; [exact Hin|]. rewrite Hq. destruct p; reflexivity. }
  congruence.
Qed.

Lemma wellFormed_push (profiles : list SocialMediaProfile) (p : Platform)
    (name w : string) :
  wellFormed profiles -> found profiles p = false ->
  wellFormed (profiles ++
              [mkProfile p name (if startsWith "http" w then w else "https://" ++ w)]).
Proof.
  intros [Hnd Hurl] Hnew. split.
  - rewrite List.map_app. cbn [List.map platform].
    apply NoDup_ListNoDup, NoDup_app. split; [apply NoDup_ListNoDup, Hnd|]. split.
    + intros q Hq Hq'. apply list_elem_of_singleton in Hq'. subst q.
      apply (found_In _ _ Hnew), list_elem_of_In, Hq.
    + apply NoDup_singleton.
  - apply Forall_app. split; [exact Hurl|]. constructor; [|constructor].
    cbn [profileUrl]. destruct (startsWith "http" w) eqn:E; [exact E|reflexivity].
Qed.

Lemma overMatches_wellFormed (p : Platform) (matches : list Match)
    (profiles : list SocialMediaProfile) :
  wellFormed profiles -> wellFormed (overMatches p matches profiles).
Proof.
  intros H. induction matches as [|m rest IH]; cbn [overMatches]; [exact H|].
  cbv zeta. destruct (truthyStr _ && negb (found profiles p)) eqn:E; [|exact IH].
  apply andb_true_iff in E. destruct E as [_ E]. apply negb_true_iff in E.
  apply wellFormed_push; assumption.
Qed.

Lemma overPatterns_wellFormed (page : Page) (p : Platform) (indices : list nat)
    (profiles : list SocialMediaProfile) :
  wellFormed profiles -> wellFormed (overPatterns page p indices profiles).
Proof.
  revert profiles. induction indices as [|k rest IH]; intros profiles H; [exact H|].
  cbn [overPatterns]. apply IH, overMatches_wellFormed, H.
Qed.

Lemma overPlatforms_wellFormed (page : Page) (patterns : list (Platform * nat))
    (profiles : list SocialMediaProfile) :
  wellFormed profiles -> wellFormed (overPlatforms page patterns profiles).
Proof.
  revert profiles. induction patterns as [|[p n] rest IH]; intros profiles H; [exact H|].
  cbn [overPlatforms]. apply IH, overPatterns_wellFormed, H.
Qed.

End SocialFacts.

(** X29.  [extractSocialProfiles] never returns an empty list and never two
    profiles of one platform, and every profile address begins with [http].
    When the page cannot be fetched, or shows no profile, the result is the
    four guessed profiles (Twitter, Facebook, Instagram, LinkedIn) named
    after the lower-cased letters and digits of the business name. *)
Theorem social_profiles_one_per_platform (page : option SocialMedia.Page)
    (businessName : string) :
  let r := SocialMedia.extractSocialProfiles page businessName in
  let cleanName := SocialMedia.keepAlnum (Js.toLowerCase businessName) in
  r <> [] /\
  List.NoDup (List.map SocialMedia.platform r) /\
  Forall (fun p => Js.startsWith "http" (SocialMedia.profileUrl p) = true) r /\
  ((page = None \/
    exists pg, page = Some pg /\
               SocialMedia.overPlatforms pg SocialMedia.socialPatterns [] = []) ->
   r = [ SocialMedia.mkProfile SocialMedia.twitter cleanName
           ("https://twitter.com/" ++ cleanName);
         SocialMedia.mkProfile SocialMedia.facebook cleanName
           ("https://facebook.com/" ++ cleanName);
         SocialMedia.mkProfile SocialMedia.instagram cleanName
           ("https://instagram.com/" ++ cleanName);
         SocialMedia.mkProfile SocialMedia.linkedin cleanName
           ("https://linkedin.com/company/" ++ cleanName) ]).
Proof.
  intros r cleanName. subst r. unfold SocialMedia.extractSocialProfiles. cbv zeta.
  fold cleanName.
  set (profiles := match page with
                   | Some pg => SocialMedia.overPlatforms pg SocialMedia.socialPatterns []
                   | None => []
                   end).
  assert (Hwf : SocialMedia.wellFormed profiles).
  { subst profiles. destruct page as [pg|].
    - apply overPlatforms_wellFormed. split; constructor.
    - split; constructor. }
  destruct profiles as [|p rest] eqn:E.
  - cbn [List.length Nat.eqb List.map SocialMedia.getPlatformUrl].
    split; [discriminate|].
    split; [repeat constructor; cbn; intuition discriminate|].
    split; [repeat constructor|]. intros _. reflexivity.
  - cbn [List.length Nat.eqb]. destruct Hwf as [Hnd Hurl].
    split; [discriminate|]. split; [exact Hnd|]. split; [exact Hurl|].
    intros [->|(pg & -> & Hnone)]; subst profiles; [discriminate E|].
    rewrite Hnone in E. discriminate E.
Qed.

Lemma social_profiles_one_per_platform_witness :
  SocialMedia.extractSocialProfiles None "Joe's Coffee #1" =
  [ SocialMedia.mkProfile SocialMedia.twitter "joescoffee1"
      "https://twitter.com/joescoffee1";
    SocialMedia.mkProfile SocialMedia.facebook "joescoffee1"
      "https://facebook.com/joescoffee1";
    SocialMedia.mkProfile SocialMedia.instagram "joescoffee1"
      "https://instagram.com/joescoffee1";
    SocialMedia.mkProfile SocialMedia.linkedin "joescoffee1"
      "https://linkedin.com/company/joescoffee1" ].
Proof.
  exact (proj2 (proj2 (proj2 (social_profiles_one_per_platform None "Joe's Coffee #1")))
           (or_introl eq_refl)).
Defined.

(** ** db.ts: the logger *)

(** X30.  The levels of the logger form a threshold: a level is written exactly
    when it is at least the minimum level, so that whatever is written at
    one level is written at every higher one.  The minimum is the level
    named by [LOG_LEVEL]; without [LOG_LEVEL] it is [warn] in production and
    [debug] otherwise; a [LOG_LEVEL] that names nothing gives [info], in
    production too; and one that names an inherited property of the table
    of levels silences the logger, errors included.  [measure] returns what
    the measured function returns or throws, and reports a failure only
    when debug logging is on. *)
Theorem logger_levels_form_a_threshold (inherited : string -> bool)
    (NODE_ENV LOG_LEVEL : option string) :
  let logger := Logging.newLogger inherited NODE_ENV LOG_LEVEL in
  (forall l l',
     Logging.shouldLog logger l = true ->
     Logging.LOG_LEVELS l <= Logging.LOG_LEVELS l' ->
     Logging.shouldLog logger l' = true) /\
  (forall c l,
     LOG_LEVEL = Some (Logging.levelName c) ->
     Logging.shouldLog logger l = (Logging.LOG_LEVELS c <=? Logging.LOG_LEVELS l)) /\
  (Js.truthyStr LOG_LEVEL = false ->
   forall l,
     Logging.shouldLog logger l =
     if String.eqb (default "" NODE_ENV) "production"
     then Logging.LOG_LEVELS Logging.warn <=? Logging.LOG_LEVELS l
     else true) /\
  (forall name,
     LOG_LEVEL = Some name -> name <> "" ->
     (forall c, name <> Logging.levelName c) ->
     forall l,
       Logging.shouldLog logger l =
       if inherited name then false
       else Logging.LOG_LEVELS Logging.info <=? Logging.LOG_LEVELS l) /\
  (forall (T : Type) (timestamp duration label : string) (fn : Model.Outcome T),
     fst (Logging.measure logger timestamp duration label fn) = fn /\
     (Logging.shouldLog logger Logging.debug = false ->
      snd (Logging.measure logger timestamp duration label fn) = []) /\
     (Logging.shouldLog logger Logging.debug = true ->
      forall e, fn = Model.Throw e ->
        snd (Logging.measure logger timestamp duration label fn) =
        [(Logging.console_error,
          Logging.formatMessage timestamp Logging.error
            (label ++ " failed after " ++ duration ++ "ms:"))])).
Proof.
  intros logger.
  split.
  { intros l l' H Hle. unfold Logging.shouldLog in *.
    destruct (Logging.minLevel logger) as [n|]; [|discriminate H].
    apply Z.leb_le. apply Z.leb_le in H. lia. }
  split.
  { intros c l ->. subst logger. destruct c, l; reflexivity. }
  split.
  { intros Hfalsy l. subst logger. unfold Logging.newLogger. cbv zeta.
    rewrite Hfalsy.
    destruct (String.eqb (default "" NODE_ENV) "production"); destruct l; reflexivity. }
  split.
  { intros name -> Hne Hnot l. subst logger.
    unfold Logging.newLogger, Logging.shouldLog. cbv zeta.
    assert (Ht : Js.truthyStr (Some name) = true).
    { cbn. destruct name; [contradiction|reflexivity]. }
    rewrite Ht. cbn [default from_option id Logging.minLevel].
    unfold Logging.lookupLevel.
    pose proof (Hnot Logging.debug) as H0. pose proof (Hnot Logging.info) as H1.
    pose proof (Hnot Logging.warn) as H2. pose proof (Hnot Logging.error) as H3.
    cbn [Logging.levelName] in *.
    apply String.eqb_neq in H0, H1, H2, H3. rewrite H0, H1, H2, H3.
    destruct (inherited name); reflexivity. }
  intros T timestamp duration label fn. unfold Logging.measure.
  destruct (Logging.shouldLog logger Logging.debug) eqn:Ed; cbn [negb].
  - assert (He : Logging.shouldLog logger Logging.error = true).
    { unfold Logging.shouldLog in *.
      destruct (Logging.minLevel logger) as [n|]; [|discriminate Ed].
      apply Z.leb_le. apply Z.leb_le in Ed. cbn in *. lia. }
    destruct fn as [v|e]; cbn [fst snd].
    + split; [reflexivity|]. split; [discriminate|]. intros _ e H. discriminate H.
    + split; [reflexivity|]. split; [discriminate|]. intros _ e' [= <-].
      unfold Logging.log. rewrite He. reflexivity.
  - split; [reflexivity|]. split; [reflexivity|]. discriminate.
Qed.

Lemma logger_levels_form_a_threshold_witness :
  let logger := Logging.newLogger (fun _ => false) (Some "production") (Some "verbose") in
  Logging.shouldLog logger Logging.info = true /\
  Logging.shouldLog logger Logging.debug = false.
Proof.
  intros logger.
  assert (Hne : "verbose" <> "") by discriminate.
  assert (Hnot : forall c, "verbose" <> Logging.levelName c)
    by (intros c; destruct c; discriminate).
  pose proof (proj1 (proj2 (proj2 (proj2
                (logger_levels_form_a_threshold (fun _ => false) (Some "production")
                   (Some "verbose")))))
                "verbose" eq_refl Hne Hnot) as H.
  subst logger. cbv zeta in H.
  split; [rewrite (H Logging.info)|rewrite (H Logging.debug)]; reflexivity.
Defined.

(** ** The industry handed to competitor discovery *)

Section SilentFacts.
Import Model Schema Runtime Store Industry.

Lemma discoveryCalls_app (a b : list Event) :
  discoveryCalls (a ++ b) = (discoveryCalls a ++ discoveryCalls b)%list.
Proof. apply omap_app. Qed.

Lemma discovered_logged (st : St) (evs : list Event) :
  discovered (logged st evs) = (discovered st ++ discoveryCalls evs)%list.
Proof. apply discoveryCalls_app. Qed.

Lemma silent_ret {A} (a : A) : silent (ret a).
Proof. intros st. reflexivity. Qed.

Lemma silent_rethrow {A} (e : Error) : silent (@rethrow A e).
Proof. intros st. reflexivity. Qed.

Lemma silent_emit (ev : Event) :
  discoveryCalls [ev] = [] -> silent (emit ev).
Proof.
  intros H st. unfold emit. cbn [snd]. rewrite discovered_logged, H.
  apply app_nil_r.
Qed.

Lemma silent_throw {A} (e : Error) : silent (@throw A e).
Proof.
  intros st. unfold throw. cbn [snd]. rewrite discovered_logged. apply app_nil_r.
Qed.

Lemma silent_call {A} (c : Call) (r : Outcome A) :
  otherCall c = true -> silent (call c r).
Proof.
  intros H st. unfold call. cbn [snd]. rewrite discovered_logged.
  destruct c; try discriminate; apply app_nil_r.
Qed.

Lemma silent_bind {A B} (m : M A) (k : A -> M B) :
  silent m -> (forall a, silent (k a)) -> silent (bind m k).
Proof.
  intros Hm Hk st. rewrite bind_run. specialize (Hm st).
  destruct (m st) as [[a|e] st1]; cbn [snd] in *.
  - rewrite (Hk a st1). exact Hm.
  - exact Hm.
Qed.

Lemma silent_tryCatch {A} (m : M A) (h : Error -> M A) :
  silent m -> (forall e, silent (h e)) -> silent (tryCatch m h).
Proof.
  intros Hm Hh st. unfold tryCatch. specialize (Hm st).
  destruct (m st) as [[a|e] st1]; cbn [snd] in *.
  - exact Hm.
  - rewrite (Hh e st1). exact Hm.
Qed.

Lemma silent_if {A} (b : bool) (m1 m2 : M A) :
  silent m1 -> silent m2 -> silent (if b then m1 else m2).
Proof. destruct b; auto. Qed.

Lemma silent_promiseAll2 {A B} (ma : M A) (mb : M B) :
  silent ma -> silent mb -> silent (promiseAll2 ma mb).
Proof.
  intros Ha Hb st. unfold promiseAll2. specialize (Ha st).
  destruct (ma st) as [ra st1]. specialize (Hb st1).
  destruct (mb st1) as [rb st2]. cbn [snd] in *.
  destruct ra, rb; cbn [snd]; congruence.
Qed.

Lemma silent_promiseAll {A} (ms : list (M A)) :
  Forall silent ms -> silent (promiseAll ms).
Proof.
  induction 1 as [|m rest Hm _ IH]; [apply silent_ret|].
  intros st. cbn [promiseAll]. specialize (Hm st).
  destruct (m st) as [r st1]. specialize (IH st1).
  destruct (promiseAll rest st1) as [rs st2]. cbn [snd] in *.
  destruct r, rs; cbn [snd]; congruence.
Qed.

Variable F : Faults.

Lemma silent_getDb : silent (getDb F).
Proof. intros st. reflexivity. Qed.

Lemma silent_query {A} (q : Query) (effect : DB -> DB) (result : DB -> A) :
  silent (query F q effect result).
Proof.
  intros st. unfold query, discovered.
  destruct (queryFault F (queries st)); cbn [snd events];
    rewrite discoveryCalls_app; apply app_nil_r.
Qed.

End SilentFacts.

Ltac silent_auto :=
  repeat first
    [ apply silent_ret | apply silent_rethrow | apply silent_throw
    | apply silent_getDb | apply silent_query
    | apply silent_emit; reflexivity
    | apply silent_call; reflexivity
    | apply silent_bind; [|intros ?]
    | apply silent_tryCatch; [|intros ?]
    | apply silent_promiseAll2
    | apply silent_if ].

Section SilentPipeline.
Import Js Model Schema Runtime Store Pipeline Industry.
Variable W : World.
Variable analysisId : Z.

Lemma silent_updateAnalysis (i : Z) (p : Patch) : silent (updateAnalysis (faults W) i p).
Proof. unfold updateAnalysis. silent_auto. Qed.

Lemma silent_getAnalysisById (i : Z) : silent (getAnalysisById (faults W) i).
Proof. unfold getAnalysisById. silent_auto. Qed.

Lemma silent_getCompetitors (i : Z) : silent (getCompetitorsByAnalysisId (faults W) i).
Proof. unfold getCompetitorsByAnalysisId. silent_auto. Qed.

Lemma silent_createCompetitors (data : list CompetitorData) :
  silent (createCompetitors (faults W) data).
Proof. unfold createCompetitors. silent_auto. Qed.

Lemma silent_analyzeCompetitors (targetSeoData : option SeoService.SEOAnalysisResult)
    (l : list DiscoveredCompetitor) :
  silent (analyzeCompetitors W analysisId targetSeoData l).
Proof.
  unfold analyzeCompetitors. apply silent_promiseAll, Forall_forall.
  intros m Hm. apply list_elem_of_In, in_map_iff in Hm. destruct Hm as (comp & <- & _).
  unfold analyzeCompetitor, console_warn. silent_auto.
Qed.

Lemma silent_insights (analysis : Analysis) : silent (insights W analysisId analysis).
Proof.
  unfold insights. silent_auto.
Qed.

Lemma silent_idOf (analysis : option Analysis) : silent (idOf analysis).
Proof. destruct analysis; silent_auto. Qed.

Lemma silent_generateContent (analysis : option Analysis)
    (saved : list CompetitorData) (type : ContentType) :
  silent (generateContent W analysis saved type).
Proof.
  unfold generateContent. cbv zeta.
  silent_auto; apply silent_idOf.
Qed.

Lemma silent_content (saved : list CompetitorData) : silent (content W analysisId saved).
Proof.
  unfold content. silent_auto; apply silent_idOf.
Qed.

Lemma silent_catchBlock (e : Error) : silent (catchBlock W analysisId e).
Proof.
  unfold catchBlock, console_error. silent_auto.
Qed.

End SilentPipeline.

Section IndustryRun.
Import Js Model Schema Runtime Store Pipeline Industry.
Variable W : World.
Variable analysisId : Z.

(** The database rejects something. *)
Local Abbreviation dbFault :=
  ((exists n, dbAvailable (faults W) n = false) \/
   (exists n e, queryFault (faults W) n = Some e)) (only parsing).

Local Abbreviation present o :=
  (match o with Some s => negb (String.eqb s "") | None => false end) (only parsing).

Local Abbreviation generic category :=
  (existsb (String.eqb (toLowerCase category))
     [ "point of interest"; "point_of_interest"; "establishment"; "premise";
       "subpremise"; "political"; "locality"; "route"; "intersection"; "finance" ])
  (only parsing).

Local Abbreviation effective supplied detected :=
  (if present supplied then supplied
   else match detected with
        | Some category =>
            if present detected && negb (generic category) then Some category else None
        | None => None
        end) (only parsing).

Lemma updateAnalysis_throws (p : Patch) (st st1 : St) (e : Error) :
  updateAnalysis (faults W) analysisId p st = (Throw e, st1) -> dbFault.
Proof.
  unfold updateAnalysis, getDb, query, bind, throw. st_simpl.
  destruct (dbAvailable (faults W) (getDbCalls st)) eqn:Hav; st_simpl.
  - destruct (queryFault (faults W) (queries st)) eqn:Hq; [|discriminate].
    intros _. right. eauto.
  - intros _. left. eauto.
Qed.

Lemma getAnalysisById_cases (st : St) :
  (exists st1,
     getAnalysisById (faults W) analysisId st = (Ok (analyses (db st) !! analysisId), st1)) \/
  ((exists st1, getAnalysisById (faults W) analysisId st = (Ok None, st1)) \/
   (exists e st1, getAnalysisById (faults W) analysisId st = (Throw e, st1))) /\
  dbFault.
Proof.
  unfold getAnalysisById, getDb, query, bind, ret. st_simpl.
  destruct (dbAvailable (faults W) (getDbCalls st)) eqn:Hav; st_simpl.
  - destruct (queryFault (faults W) (queries st)) eqn:Hq.
    + right. split; [right; eauto|right; eauto].
    + left. eauto.
  - right. split; [left; eauto|left; eauto].
Qed.

Lemma silent_resolveIndustry (analysis : Analysis) (presenceData : OnlinePresenceResult) :
  silent (resolveIndustry W analysisId analysis presenceData).
Proof.
  unfold resolveIndustry. cbv zeta.
  repeat apply silent_if; silent_auto.
Qed.

(** What [resolveIndustry] decides, and what it writes. *)
Lemma resolveIndustry_decides (analysis : Analysis)
    (presenceData : OnlinePresenceResult) (st : St) :
  let supplied := industry analysis in
  let detected := pr_primaryType presenceData in
  (present supplied = false /\
   (exists category,
      detected = Some category /\ category <> "" /\ generic category = false /\
      ((resolveIndustry W analysisId analysis presenceData st =
          (Ok detected,
           snd (updateAnalysis (faults W) analysisId (industryPatch detected) st)) /\
        fst (updateAnalysis (faults W) analysisId (industryPatch detected) st) = Ok tt) \/
       (exists e st1,
          resolveIndustry W analysisId analysis presenceData st = (Throw e, st1) /\
          updateAnalysis (faults W) analysisId (industryPatch detected) st
            = (Throw e, st1))))) \/
  ((present supplied = true \/ present detected = false \/
    exists category, detected = Some category /\ generic category = true) /\
   resolveIndustry W analysisId analysis presenceData st = (Ok supplied, st)).
Proof.
  cbv zeta. unfold resolveIndustry, isGeneric, Js.some, genericTypes. cbv zeta.
  destruct (pr_primaryType presenceData) as [category|] eqn:Hty.
  2: { right. cbn [truthyStr andb]. split; [auto|reflexivity]. }
  change (truthyStr (Some category)) with (negb (String.eqb category "")).
  destruct (String.eqb category "") eqn:Hc; cbn [negb andb].
  { right. split; [auto|reflexivity]. }
  apply String.eqb_neq in Hc.
  cbn [default].
  pose (g := generic category).
  change (existsb (fun t : string => String.eqb (toLowerCase (Datatypes.id category)) t) _)
    with g.
  assert (Hg : generic category = g) by reflexivity. clearbody g.
  destruct g; cbn [negb].
  { right. split; [right; right; eauto|reflexivity]. }
  change (truthyStr (industry analysis))
    with (match industry analysis with
          | Some s => negb (String.eqb s "")
          | None => false
          end).
  destruct (match industry analysis with
            | Some s => negb (String.eqb s "")
            | None => false
            end) eqn:Hs; cbn [negb].
  { right. split; [auto|reflexivity]. }
  left. split; [reflexivity|]. exists category. repeat split; auto.
  rewrite bind_run.
  destruct (updateAnalysis (faults W) analysisId (industryPatch (Some category)) st)
    as [[[]|e] st1]; cbn [fst snd]; [left; auto|right; eauto].
Qed.

Lemma resolveIndustry_effective (analysis : Analysis)
    (presenceData : OnlinePresenceResult) (st st1 : St) (d : option string) :
  resolveIndustry W analysisId analysis presenceData st = (Ok d, st1) ->
  orNull d = effective (industry analysis) (pr_primaryType presenceData).
Proof.
  intros H.
  destruct (resolveIndustry_decides analysis presenceData st)
    as [(Hs & category & Hd & Hc & Hg & Hr)|(Hc & Hr)]; cbv zeta in *.
  - rewrite Hs, Hd. apply String.eqb_neq in Hc. rewrite Hc, Hg. cbn [negb andb].
    destruct Hr as [(Hr & _)|(e & st2 & Hr & _)]; rewrite Hr in H; [|discriminate].
    injection H as <- _. rewrite Hd. unfold orNull, truthyStr. rewrite Hc. reflexivity.
  - rewrite Hr in H. injection H as <- _. unfold orNull, truthyStr.
    destruct (industry analysis) as [s|]; [destruct (String.eqb s "") eqn:Hs|];
      cbn [negb].
    + destruct Hc as [Hc|[Hc|(category & Hd & Hg)]]; [discriminate| |].
      * destruct (pr_primaryType presenceData) as [c|]; [|reflexivity].
        rewrite Hc. reflexivity.
      * rewrite Hd, Hg. rewrite andb_false_r. reflexivity.
    + reflexivity.
    + destruct Hc as [Hc|[Hc|(category & Hd & Hg)]]; [discriminate| |].
      * destruct (pr_primaryType presenceData) as [c|]; [|reflexivity].
        rewrite Hc. reflexivity.
      * rewrite Hd, Hg. rewrite andb_false_r. reflexivity.
Qed.

Lemma resolveIndustry_throws (analysis : Analysis)
    (presenceData : OnlinePresenceResult) (st st1 : St) (e : Error) :
  resolveIndustry W analysisId analysis presenceData st = (Throw e, st1) -> dbFault.
Proof.
  intros H.
  destruct (resolveIndustry_decides analysis presenceData st)
    as [(Hs & category & Hd & Hc & Hg & Hr)|(Hc & Hr)]; cbv zeta in *.
  - destruct Hr as [(Hr & _)|(e' & st2 & Hr & Hu)]; rewrite Hr in H; [discriminate|].
    eapply updateAnalysis_throws, Hu.
  - rewrite Hr in H. discriminate.
Qed.

(** The events of a call to [discoverCompetitors]. *)
Lemma discovered_call {A} (name location : string) (industry : option string)
    (r : Outcome A) (st : St) :
  discovered (snd (call (DiscoverCall name location industry) r st)) =
  (discovered st ++ [(name, location, industry, rejection r)])%list.
Proof. unfold call. cbn [snd]. rewrite discovered_logged. reflexivity. Qed.

Lemma call_run {A} (c : Call) (r : Outcome A) (st : St) :
  call c r st = (r, logged st [Called c (rejection r)]).
Proof. reflexivity. Qed.

(** One awaited step of a sequence that makes no discovery call. *)
Ltac silent_step S x e st' E :=
  match goal with
  | |- context [bind ?m ?k ?s] =>
      rewrite (bind_run m k s);
      assert (S : silent m)
        by first [ apply silent_updateAnalysis | apply silent_getAnalysisById
                 | apply silent_resolveIndustry | apply silent_analyzeCompetitors
                 | apply silent_insights | apply silent_content
                 | silent_auto ];
      specialize (S s);
      destruct (m s) as [[x|e] st'] eqn:E; cbn [snd] in S; cbv beta iota; cbn [snd]
  end.

(** Steps 1 to 4: [discoverCompetitors] is called at most once, with the
    name and location of the record and its effective industry; it is not
    called only when the database, the SEO analysis of the target or the
    presence analysis rejected. *)
Lemma collect_discovers (a : Analysis) (st : St) :
  analyses (db st) !! analysisId = Some a ->
  (discovered (snd (collect W analysisId st)) = discovered st /\
   (dbFault \/
    (truthyStr (businessUrl a) = true /\
     exists e, analyzeSEO W (default "" (businessUrl a)) = Throw e) \/
    (exists e, analyzeOnlinePresence W (businessName a) (businessLocation a) = Throw e))) \/
  (exists presenceData,
     analyzeOnlinePresence W (businessName a) (businessLocation a) = Ok presenceData /\
     discovered (snd (collect W analysisId st)) =
       (discovered st ++
        [(businessName a, businessLocation a,
          effective (industry a) (pr_primaryType presenceData),
          rejection
            (discoverCompetitors W (businessName a) (businessLocation a)
               (effective (industry a) (pr_primaryType presenceData))))])%list).
Proof.
  intros Ha. unfold collect.
  rewrite bind_run.
  pose proof (silent_getAnalysisById W analysisId st) as S0.
  destruct (getAnalysisById_cases st)
    as [(st1 & E0)|([(st1 & E0)|(e & st1 & E0)] & Hf)];
    rewrite E0 in *; cbn [snd] in S0; cbv beta iota.
  2: { left. split; [|left; exact Hf]. rewrite silent_throw. exact S0. }
  2: { left. split; [exact S0|left; exact Hf]. }
  rewrite Ha.
  (* Step 1 *)
  silent_step S1 targetSeoData e st2 E1.
  2: { left. split; [congruence|].
       destruct (truthyStr (businessUrl a)) eqn:Hu; [|discriminate].
       revert E1. rewrite bind_run, call_run.
       destruct (analyzeSEO W (default "" (businessUrl a))) as [seo|e'] eqn:Hseo.
       - rewrite bind_run.
         destruct (updateAnalysis (faults W) analysisId (seoPatch seo) _)
           as [[[]|e2] st3] eqn:E2; [discriminate|].
         intros _. left. eapply updateAnalysis_throws, E2.
       - intros _. right. left. eauto. }
  (* Step 2 *)
  rewrite bind_run, call_run.
  destruct (analyzeOnlinePresence W (businessName a) (businessLocation a))
    as [presenceData|e] eqn:Hp; cbv beta iota; cbn [snd].
  2: { left. split; [|right; right; eauto].
       rewrite discovered_logged, app_nil_r. congruence. }
  match goal with
  | |- context [logged st2 ?evs] =>
      assert (S2 : discovered (logged st2 evs) = discovered st2)
        by (rewrite discovered_logged; apply app_nil_r)
  end.
  silent_step S3 u e st3 E3.
  2: { left. split; [congruence|]. left. eapply updateAnalysis_throws, E3. }
  (* Step 3 *)
  silent_step S4 detectedIndustry e st4 E4.
  2: { left. split; [congruence|]. left. eapply resolveIndustry_throws, E4. }
  right. exists presenceData. split; [reflexivity|].
  rewrite <- (resolveIndustry_effective _ _ _ _ _ E4).
  rewrite bind_run.
  pose proof (discovered_call (businessName a) (businessLocation a) (orNull detectedIndustry)
                (discoverCompetitors W (businessName a) (businessLocation a)
                   (orNull detectedIndustry)) st4) as S5.
  destruct (call _ _ st4) as [[discoveredCompetitors|e] st5]; cbn [snd] in S5.
  2: { cbn [snd]. rewrite S5. congruence. }
  (* Step 4 *)
  silent_step S6 competitorDataList e st6 E6.
  2: { rewrite S6, S5. congruence. }
  match goal with
  | |- context [bind ?m ?k ?s] =>
      assert (S7 : silent (bind m k))
        by (silent_auto; apply silent_createCompetitors);
      rewrite (S7 s)
  end.
  rewrite S6, S5. congruence.
Qed.

(** The whole run. *)
Lemma run_discovers (a : Analysis) (st : St) :
  analyses (db st) !! analysisId = Some a ->
  (discovered (snd (runCompetitiveAnalysis W analysisId st)) = discovered st /\
   (dbFault \/
    (truthyStr (businessUrl a) = true /\
     exists e, analyzeSEO W (default "" (businessUrl a)) = Throw e) \/
    (exists e, analyzeOnlinePresence W (businessName a) (businessLocation a) = Throw e))) \/
  (exists presenceData,
     analyzeOnlinePresence W (businessName a) (businessLocation a) = Ok presenceData /\
     discovered (snd (runCompetitiveAnalysis W analysisId st)) =
       (discovered st ++
        [(businessName a, businessLocation a,
          effective (industry a) (pr_primaryType presenceData),
          rejection
            (discoverCompetitors W (businessName a) (businessLocation a)
               (effective (industry a) (pr_primaryType presenceData))))])%list).
Proof.
  intros Ha.
  assert (Hcatch : forall r st1,
            tryBlock W analysisId st = (r, st1) ->
            discovered (snd (runCompetitiveAnalysis W analysisId st)) = discovered st1).
  { intros r st1 E. unfold runCompetitiveAnalysis, tryCatch. rewrite E.
    destruct r as [[]|e]; [reflexivity|]. apply silent_catchBlock. }
  destruct (tryBlock W analysisId st) as [r stT] eqn:ET.
  rewrite (Hcatch r stT eq_refl). clear Hcatch.
  assert (HT : stT = snd (tryBlock W analysisId st)) by (rewrite ET; reflexivity).
  rewrite HT. clear ET HT r stT.
  unfold tryBlock.
  rewrite bind_run.
  pose proof (silent_updateAnalysis W analysisId (statusPatch collecting) st) as S0.
  destruct (updateAnalysis_cases W analysisId (statusPatch collecting) st)
    as [Hok|(e & ev & n & Hko & _)].
  2: { rewrite Hko in *. cbn [snd] in *. left. split; [exact S0|].
       left. eapply updateAnalysis_throws, Hko. }
  rewrite Hok in *. cbn [snd] in S0.
  set (st1 := mkSt _ _ _ _ _) in *.
  assert (Ha1 : analyses (db st1) !! analysisId
                = Some (applyPatch (statusPatch collecting) a)).
  { subst st1. cbn [db analyses]. rewrite lookup_alter_eq, Ha. reflexivity. }
  pose proof (collect_discovers _ _ Ha1) as Hc.
  cbn [applyPatch businessName businessLocation businessUrl industry statusPatch
       p_industry setCol default] in Hc.
  rewrite bind_run.
  destruct (collect W analysisId st1) as [[analysis|e] st2] eqn:E2; cbn [snd] in Hc.
  2: { cbn [snd]. rewrite <- S0. exact Hc. }
  match goal with
  | |- context [bind ?m ?k ?s] =>
      assert (S3 : silent (bind m k))
        by (silent_auto; apply silent_idOf);
      rewrite (S3 s)
  end.
  rewrite <- S0. exact Hc.
Qed.

End IndustryRun.

(** C7.  The industry with which a run calls competitor discovery.  The
    generic labels are the ten below, compared with the detected category
    in lower case; a value is present when it is neither missing nor the
    empty string.  The effective industry is the supplied industry of the
    record when present; otherwise the primary category detected by the
    presence analysis when it is present and not generic; otherwise none.
    Whatever fails, [runCompetitiveAnalysis] calls [discoverCompetitors] at
    most once, and then with the name and the location of the record and
    the effective industry (the call that the events record is the one
    whose answer they record); when the database works and the analyses
    before it resolve, it makes that call.  The step that decides writes nothing
    when an industry was supplied or the detected category is generic or
    missing, so neither is overwritten; it writes the detected category to
    the record only when none was supplied and the category is specific. *)
Theorem effective_industry (W : Pipeline.World) (analysisId : Z)
    (a : Schema.Analysis) (st : Runtime.St) :
  let genericLabels :=
    [ "point of interest"; "point_of_interest"; "establishment"; "premise";
      "subpremise"; "political"; "locality"; "route"; "intersection"; "finance" ] in
  let present (o : option string) : bool :=
    match o with Some s => negb (String.eqb s "") | None => false end in
  let generic (category : string) : bool :=
    existsb (String.eqb (Js.toLowerCase category)) genericLabels in
  let effective (supplied detected : option string) : option string :=
    if present supplied then supplied
    else match detected with
         | Some category =>
             if present detected && negb (generic category) then Some category else None
         | None => None
         end in
  Schema.analyses (Runtime.db st) !! analysisId = Some a ->
  let st' := snd (Pipeline.runCompetitiveAnalysis W analysisId st) in
  let industryFor (presenceData : Pipeline.OnlinePresenceResult) :=
    effective (Schema.industry a) (Pipeline.pr_primaryType presenceData) in
  let callWith (presenceData : Pipeline.OnlinePresenceResult) :=
    (Schema.businessName a, Schema.businessLocation a, industryFor presenceData,
     Runtime.rejection
       (Pipeline.discoverCompetitors W (Schema.businessName a)
          (Schema.businessLocation a) (industryFor presenceData))) in
  (Industry.discovered st' = Industry.discovered st \/
   exists presenceData,
     Pipeline.analyzeOnlinePresence W (Schema.businessName a) (Schema.businessLocation a)
       = Model.Ok presenceData /\
     Industry.discovered st' = (Industry.discovered st ++ [callWith presenceData])%list) /\
  (Industry.databaseWorks (Pipeline.faults W) ->
   (Js.truthyStr (Schema.businessUrl a) = true ->
    exists seo, Pipeline.analyzeSEO W (default "" (Schema.businessUrl a)) = Model.Ok seo) ->
   forall presenceData,
     Pipeline.analyzeOnlinePresence W (Schema.businessName a) (Schema.businessLocation a)
       = Model.Ok presenceData ->
     Industry.discovered st' = (Industry.discovered st ++ [callWith presenceData])%list) /\
  (forall analysis presenceData s s' detectedIndustry,
     Pipeline.resolveIndustry W analysisId analysis presenceData s
       = (Model.Ok detectedIndustry, s') ->
     let supplied := Schema.industry analysis in
     let detected := Pipeline.pr_primaryType presenceData in
     Js.orNull detectedIndustry = effective supplied detected /\
     (present supplied = true -> detectedIndustry = supplied /\ s' = s) /\
     (forall category,
        detected = Some category -> generic category = true ->
        detectedIndustry = supplied /\ s' = s) /\
     (present detected = false -> detectedIndustry = supplied /\ s' = s) /\
     (present supplied = false ->
      forall category,
        detected = Some category -> category <> "" -> generic category = false ->
        detectedIndustry = Some category /\
        Runtime.db s' =
          Schema.mkDB
            (alter (Schema.applyPatch (Pipeline.industryPatch (Some category)))
                   analysisId (Schema.analyses (Runtime.db s)))
            (Schema.competitors (Runtime.db s))
            (Schema.nextAnalysisId (Runtime.db s)))) /\
  (Forall (fun label => generic label = true) genericLabels /\
   generic "Point Of Interest" = true /\
   generic "cafe" = false /\
   effective (Some "bakery") (Some "cafe") = Some "bakery" /\
   effective (Some "bakery") (Some "establishment") = Some "bakery" /\
   effective None (Some "cafe") = Some "cafe" /\
   effective (Some "") (Some "cafe") = Some "cafe" /\
   effective None (Some "establishment") = None /\
   effective None (Some "Point Of Interest") = None /\
   effective None (Some "") = None /\
   effective None None = None).
Proof.
  intros genericLabels present generic effective Ha st' industryFor callWith.
  subst genericLabels present generic effective st' industryFor callWith. cbv beta.
  split.
  { destruct (run_discovers W analysisId a st Ha) as [(H & _)|H]; [left|right]; exact H. }
  split.
  { intros [Hav Hq] Hseo presenceData Hp.
    destruct (run_discovers W analysisId a st Ha)
      as [(_ & [[(n & Hn)|(n & e & Hn)]|[(Hu & e & He)|(e & He)]])|(p & Hp' & H)].
    - rewrite Hav in Hn. discriminate.
    - rewrite Hq in Hn. discriminate.
    - destruct (Hseo Hu) as (seo & Hs). congruence.
    - congruence.
    - assert (p = presenceData) as -> by congruence. exact H. }
  split.
  { intros analysis presenceData s s' d Hr. cbv zeta.
    split; [exact (resolveIndustry_effective W analysisId _ _ _ _ _ Hr)|].
    destruct (resolveIndustry_decides W analysisId analysis presenceData s)
      as [(Hs & category & Hd & Hc & Hg & Hu)|(Hc & Hu)]; cbv zeta in *.
    - destruct Hu as [(Hu & Hok)|(e & s1 & Hu & _)]; rewrite Hu in Hr; [|discriminate].
      rewrite Hd in Hok.
      injection Hr as <- <-.
      split; [intros H; rewrite Hs in H; discriminate|].
      split; [intros c Hd' Hg'; rewrite Hd in Hd'; injection Hd' as <-;
              rewrite Hg in Hg'; discriminate|].
      split; [intros H; rewrite Hd in H; apply String.eqb_neq in Hc;
              rewrite Hc in H; discriminate|].
      intros _ c Hd' _ _. rewrite Hd in Hd'. injection Hd' as <-.
      split; [exact Hd|]. rewrite Hd.
      destruct (updateAnalysis_cases W analysisId (Pipeline.industryPatch (Some category)) s)
        as [Hw|(e & ev & n & Hw & _)]; rewrite Hw in *; cbn [fst snd] in *;
        [reflexivity|discriminate].
    - rewrite Hu in Hr. injection Hr as <- <-.
      split; [auto|]. split; [auto|]. split; [auto|].
      intros Hs c Hd Hne Hg.
      destruct Hc as [Hc|[Hc|(c' & Hd' & Hg')]].
      + rewrite Hs in Hc. discriminate.
      + rewrite Hd in Hc. apply String.eqb_neq in Hne. rewrite Hne in Hc. discriminate.
      + rewrite Hd in Hd'. injection Hd' as <-. rewrite Hg in Hg'. discriminate. }
  split; [repeat (constructor; [reflexivity|]); constructor|].
  repeat split; reflexivity.
Qed.

Lemma effective_industry_witness :
  Industry.discovered
    (snd (Pipeline.runCompetitiveAnalysis Examples.calmWorld 1
            (Runtime.initial Examples.oneAnalysis)))
  = [("Joe's Coffee", "Springfield", Some "cafe", None)].
Proof.
  assert (Ha : Schema.analyses (Runtime.db (Runtime.initial Examples.oneAnalysis)) !! 1
               = Some Examples.pendingRow) by (vm_compute; reflexivity).
  assert (Hdb : Industry.databaseWorks (Pipeline.faults Examples.calmWorld))
    by (split; intros n; reflexivity).
  assert (Hseo : Js.truthyStr (Schema.businessUrl Examples.pendingRow) = true ->
                 exists seo,
                   Pipeline.analyzeSEO Examples.calmWorld
                     (default "" (Schema.businessUrl Examples.pendingRow)) = Model.Ok seo)
    by (intros H; vm_compute in H; discriminate).
  exact (proj1 (proj2 (effective_industry Examples.calmWorld 1 Examples.pendingRow
                         (Runtime.initial Examples.oneAnalysis) Ha))
           Hdb Hseo _ eq_refl).
Defined.
